(* ===== verification/_CoqProject ===== *)
-Q . S2P
Prelude.v
NodeState.v
Records.v
LocalDB.v
LocalConn.v
History.v
Examples.v
LocalDBTheorems.v
Queries.v
RangeApi.v
RangeTheorems.v
Decimal.v
Storage.v
DataFile.v
ExampleCodec.v
Discovery.v
DataStore.v
TempFiles.v
DataStoreTheorems.v
Quorum.v
ChunkBuffer.v
FlushLoop.v
Primary.v
PrimaryTheorems.v
PrimaryExamples.v
Preflight.v
FollowStreams.v
PreflightTheorems.v
Watch.v
WatchTheorems.v
ClientTxn.v
Compaction.v
CompactionTheorems.v
ClientHistory.v
Follower.v
FollowerTheorems.v
Cluster.v
PeerClient.v
NodeServer.v
PeerTheorems.v
NodeMap.v
Elector.v
MembersTheorems.v
Election.v
ElectionTheorems.v
ElectionSafety.v
Failover.v
ElectorTheorems.v
ElectorExamples.v
Detector.v
Snapshot.v
SnapshotTheorems.v
Bootstrap.v
BootstrapTheorems.v
Recovery.v
Heartbeat.v
FollowerControl.v
Duration.v
Timestamp.v
StoredRows.v
Config.v
ConfigTheorems.v
Mtls.v
TlsSetup.v
CloudStorage.v
CloudStorageTheorems.v
PublicDataFile.v
ClientStatus.v
Metrics.v
WatchStreams.v
Wiring.v
ElectorRunner.v
Startup.v
