(* ===== verification/Prelude.v ===== *)
(** * Netsy: a verification development

    Netsy is an etcd-compatible key-value store for Kubernetes that keeps its
    data in SQLite on every node and in object storage.  One node is the
    Primary: it serialises all writes, and a write is acknowledged once it is
    durable, either in an object-storage chunk ("path 1") or on a quorum of
    Replicas, in which case it also waits in a buffer for a later chunk ("path
    2").  Replicas follow the Primary over a stream of records and commits,
    serve reads at their committed revision and deliver watch events. A newly
    elected Primary reconciles its database with object storage before it takes
    writes, and compaction is decided with the consent of every node. One node
    is also the Elector: it keeps the list of nodes, watches their heartbeats,
    elects the Primary and pushes the cluster state to all nodes. A starting
    node registers, loads snapshot and chunks, follows the Primary if there is
    one, and only then becomes Healthy.

    This development models the data path and the control plane, operation by
    operation, in Rocq and proves what makes them correct.  Paths below are
    relative to src/internal/ unless they start with pkg/ or cmd/.

    ** Files and the code they model

    - Prelude: the result type, 64-bit wrap-around, bytes and their order,
      generic lemmas on lists, automation.
    - NodeState: nodestate/.  The health, elector and primary state machines,
      [State] and its setters, protobuf conversions.
    - Records: the record message of proto/record.pb.go.
    - LocalDB: localdb/.  Both SQLite tables with their constraints, and a
      function for every SQL statement: the insert CTE ([insertRecordSQL]),
      [InsertRecord], [ReplicateRecord], [ReplicateTentativeRecord], the find
      queries, [ExecuteCompaction], [VerifyIntegrity].
    - LocalConn: localdb/connect.go, schema.go, transaction.go and
      failingdb.go: opening the file, the schema check and its migrations, the
      connection pool, the [Database] interface and its failing double.
    - History: the invariant of a table the Primary built ([history]), the
      abstract store it stands for ([kv_of_table]) and the compare-and-set
      contract ([kv_txn]).
    - LocalDBTheorems, Examples: theorems on the record store; concrete tables.
    - Queries: range queries as snapshots of the table at a revision.
    - RangeApi, RangeTheorems: commonapi/ and clientapi/etcdapi_kv_range.go:
      [Range], [RangeStream], the chunk sizer.
    - Decimal: decimal numbers of strconv.
    - Storage: storage/.  The interface as the class [ObjectStorage] with its
      laws [ObjectStorageLaws]; the in-memory and the scoped store meet them;
      [PutIfAbsent].
    - DataFile, ExampleCodec: datafile/.  The file format with its CRC-64;
      protobuf encoding and zstd are the class [Codec] with [CodecLaws], and
      ExampleCodec is a codec that meets them.
    - DataStore, DataStoreTheorems: datastore/.  Keys, chunks, snapshots,
      import, bootstrap promotion.
    - TempFiles: the temporary file of the bootstrap promotion.
    - Quorum: primary/quorum.go and primary/replicas.go.
    - ChunkBuffer: primary/chunk_buffer.go, with a step relation that
      interleaves appends and flushes.
    - FlushLoop: the buffer's flush loop, with those interleavings in time.
    - Primary, PrimaryTheorems, PrimaryExamples: primary/leader_txn.go,
      write_record.go, follow.go, server.go: the write path, both commit
      protocols, recovery, follow sessions, receipts, heartbeats.
    - Preflight, PreflightTheorems: primary/preflight.go and the drain and
      resignation of primary/server.go.
    - FollowStreams: all handlers of primary/follow.go together.
    - Watch, WatchTheorems: watch/ and clientapi/etcdapi_watch_watch.go.
    - ClientTxn: clientapi/etcdapi_kv_txn.go, the client's Txn call from the
      write path to the watch streams.
    - Compaction, CompactionTheorems: primary/compaction.go with the two
      handlers of node/server.go it calls on every node.
    - ClientHistory: everything a client of the Primary sees, against a
      reference store with history.
    - Follower, FollowerTheorems: replication/, the Replica's end of a stream.
    - Cluster: a Primary and a Replica together.
    - Discovery: discovery/.  members.json and the node registration files;
      encoding/json is the class [JSON] with [JSONLaws].
    - PeerClient, NodeServer, PeerTheorems: peerclient/ and node/.  The
      connections to Elector and Primary, [ApplyClusterState] with the role
      changes it makes, the split-brain guard of pushed cluster states.
    - NodeMap, Elector, MembersTheorems, ElectorTheorems, ElectorExamples:
      elector/nodemap.go, server.go, healthcheck.go, cluster_push.go and
      bootstrap.go: registration and member ids, heartbeats, the health check,
      the push, the bootstrap of a new Elector.
    - Election, ElectionTheorems, ElectionSafety: elector/primary_election.go
      and election.go: one election from the wait for the previous Primary to
      the decision, the loop's round, gaining and losing leadership.
    - Detector: failure detection from heartbeats, as a class that the
      Primary's Replica tracker and the Elector's node map implement; the two
      loops [RunDegradationLoop] and [runHealthCheckLoop].
    - Failover: write, election and preflight in sequence.
    - Snapshot, SnapshotTheorems: snapshot/worker.go and datastore/upload.go.
    - Bootstrap, BootstrapTheorems: bootstrap/, a starting node.
    - Recovery: a snapshot taken on one node and bootstrap on another.
    - Heartbeat: heartbeat/sender.go.
    - FollowerControl: the life cycle of replication/follower.go: start, stop,
      reconnection and the initial synchronization bootstrap waits for.
    - Duration: config/duration.go with the String and ParseDuration of Go's
      time package.
    - Timestamp: the text of the timestamp columns, with the RFC 3339 format of
      Go's time package.
    - StoredRows: the rows as SQLite stores them, and the queries over them.
    - Config, ConfigTheorems: config/.
    - Mtls, TlsSetup: mtls/ and config/files.go: peer identities, the TLS
      configurations and a handshake between two of them.
    - CloudStorage, CloudStorageTheorems: storage/s3.go, gcs.go, new.go and
      failingstore.go over the two SDKs as classes.
    - PublicDataFile: pkg/datafile/ and cmd/read-netsy-file/.
    - ClientStatus: the member list, lease, alarm and status calls of
      clientapi/ and healthserver/.
    - Metrics: metrics/ and every metrics.go: the families, the registry and
      its role groups, the gauges and counters the code updates.
    - WatchStreams: all handlers of clientapi/etcdapi_watch_watch.go together.
    - Wiring: cmd/root.go: what the components get from the configuration, the
      role-change hook and the shutdown.
    - ElectorRunner: elector/election.go: the runner over s3lect, with a step
      relation for its terms of leadership.
    - Startup: cmd/root.go: the run of the command from its flags to the
      serving Client API.

    ** How the code is modelled

    Go structs are records, enums are inductive types, maps are [gmap] and
    [gset], [int64] values are [Z] with [wrap64] where the code computes. A
    function that can fail returns [res error value], with the state it leaves
    behind beside it; a function that can panic returns an [option].  A mutex
    or a channel of capacity one makes its critical section one step.  Where a
    lock is released in the middle (a flush's upload, [CreateWatch], the wait
    for Receipts, the admission floor) the parts are separate definitions, and
    a step relation or a list of events gives the interleavings.  Clock
    readings, context cancellation, and the outcome of network and disk calls
    are arguments (the records [txn_env], [preflight_env], [compaction_env],
    [follow_env], [alloc_env], [health_env], [election_env], [snapshot_env],
    [boot_env], [tick_env]), so that a theorem covers every outcome; an upload
    may fail before or after the object was written.  SQLite may refuse to
    begin or to commit a transaction; its reads and single statements are taken
    to fail only where a constraint or a missing row makes them.  Where another
    node or goroutine acts in the middle of an operation, the environment has a
    function that says what it did to the shared state ([ae_meanwhile],
    [he_meanwhile], [be_meanwhile]); the order in which a Go map is traversed
    is an argument as well.  Calls made at the same time whose order matters
    (the two sends of a heartbeat tick) take the order as an argument.

    Code outside the repository is a class with the laws that state its
    documented behaviour: SQLite's LIKE ([SqlLike]), object storage
    ([ObjectStorage]), protobuf and zstd ([Codec]), JSON ([JSON]), the AWS and
    Google storage SDKs ([S3Client], [GCSClient]).  The classes whose laws a
    theorem uses have a concrete instance, which the witnesses use.  X.509
    verification, DNS names, the JSONC parser, the constructors of the SDK
    clients and of s3lect are arguments.

    ** What the theorems show

    - The whole.  [clients_see_etcd]: every answer to a client of the Primary
      is the answer of a reference store with history.
      [acknowledged_survives_failover]: an acknowledged write is in the
      committed database of the next Primary.  [snapshot_bootstrap]: snapshot
      and chunks bring an empty node to the Primary's log.  [startup_serves]:
      what has succeeded when a node serves clients.
    - Writes.  [LeaderTxn_atomic]: a transaction is all or nothing and keeps
      the Primary's invariant.  [LeaderTxn_refines_kv],
      [InsertRecord_refines_kv]: the write path implements the compare-and-set
      store.  [LeaderTxn_durable]: nothing is acknowledged before it is
      durable.  [ApplyTxn_effect]: the client's answer, the committed store and
      the watch streams agree. [selectTxnStrategy_majority],
      [receiptCollector_complete], [checkDegradation_fresh]: quorum arithmetic
      and bookkeeping.
    - Durability.  [chunkBuffer_no_loss]: no buffered record is lost under any
      interleaving.  [flush_deadline]: how long a record stays in the buffer.
      [temp_file_refines]: promotion through a local file.
      [datafile_roundtrip], [flush_import], [PutIfAbsent_spec],
      [parse_key_roundtrip]: what is written to object storage reads back and
      imports.  [preflight_durable], [preflight_replays],
      [GracefulDrain_flushes]: change of Primary.
    - Replication.  [replicate_all_history], [ReplicateRecord_idempotent],
      [ReplicateTentativeRecord_committed], [ReplicateTentativeRecord_stores],
      [handleRecord_receipt], [follow_converges], [cluster_replicates]: a
      Replica that misses no message holds the Primary's committed table, and a
      Receipt means the record is stored.  [follow_sessions]: the streams of
      all Replicas at once.
    - Reads.  [Client_Range_snapshot], [Client_Range_committed],
      [RangeStream_Range], [buildRangeQuery_etcd], [chunkSizer_bounds]: reads
      are snapshots of the committed store, unary and streamed alike.
    - Watches.  [watch_streams]: handlers leave nothing behind.
      [watch_no_gap], [AdvanceCommittedRevision_delivers], [Distribute_total],
      [isInRange_etcd].
    - Compaction.  [compaction_consent], [floor_confirmed_clear],
      [scheduler_forward], [ExecuteCompaction_current],
      [ExecuteCompaction_complete], [Range_after_compaction].
    - Elections.  [electPrimaryOnce_winner]: who can win.
      [electPrimaryOnce_terminates]: a round ends whatever the previous Primary
      does.  [committed_survives_election]: the winner holds every record a
      quorum committed, from the quorum arithmetic of the write path and of the
      election together.  [leadership_terms]: what runs in a term of the
      Elector.
    - Membership.  [member_ids_unique], [bootstrap_ready]: member ids are
      unique and stable although several Electors write members.json.
      [nodemap_invariant], [checkNodeHealth_exact]: the node map and the health
      check.  [failover_detection]: when the Primary is given up.
      [guard_no_flapping], [primary_connection_follows]: what a node makes of
      pushed cluster states.
    - Life cycle.  [Run_healthy], [Run_loads], [Run_rebuilds]: a node is
      Healthy only with a checked database, and loads or rebuilds it from
      object storage.  [run_initial_sync], [tick_keeps_healthy],
      [services_follow_role]: following, heartbeats and services in step with
      the role.
    - Snapshots.  [processRequest_thresholds], [createSnapshot_no_loss]: chunks
      are deleted only once a snapshot restores their records.
    - Edges.  [S3_PutIfMatch_cas]: the conditional write members.json relies
      on, and [S3_laws], which makes the S3 provider an instance of the storage
      laws.  [Validate_spec], [ValidateIdentifier_spec],
      [peer_certificate_roundtrip], [nodes_connect]: configuration, peer
      identities and who can connect.  [Connect_repeatable]: opening the
      database.  [Duration_roundtrip], [timestamp_roundtrip],
      [stored_rows_read_back]: what is stored as text reads back.
    - Metrics.  [state_gauges_mirror], [metrics_exposed].
    - Tables and states.  [InsertRecord_history], [VerifyIntegrity_contiguous],
      [SetPrimary_reelection].

    Lemmas on concrete runs also record where the code departs from its
    comments or from etcd: [create_existing_no_range], [late_receipt_commits],
    [draining_primary_commits] (PrimaryExamples), [prefix_wildcard_leak],
    [FindRecordsBy_desc], [Range_empty_key_panics],
    [Client_Range_uncommitted_leak] (RangeTheorems), [isInRange_empty_panics]
    (WatchTheorems), [events_out_of_order] (ClientTxn),
    [watch_from_now_blocks], [lost_reply_keeps_floor],
    [notice_keeps_watch_at_floor] (CompactionTheorems),
    [drain_skips_running_flush] (PreflightTheorems),
    [dropped_record_undetected] (FollowerTheorems), the last sections of
    PeerTheorems, ElectionSafety, ElectorExamples, SnapshotTheorems,
    BootstrapTheorems, ConfigTheorems and CloudStorageTheorems, and
    [AllocateMemberID_wraps] (Discovery), [Sender_Run_stays_degraded],
    [single_interval_degrades] (Heartbeat), [cancel_in_delay_tells_nobody]
    (FollowerControl), [read_netsy_file_ignores_footer] (PublicDataFile),
    [primary_before_hook_not_followed] (Wiring),
    [stale_tentative_row_activated] (Failover), [concurrent_write_default]
    (LocalConn), [late_election_applied] (ElectorRunner),
    [year_10000_unreadable] (Timestamp), [object_storage_revision_regresses]
    and [groups_registered_unchecked] (Metrics), [reconnect_untracks]
    (FollowStreams), [heartbeat_during_check_ignored] (Detector),
    [early_flush_after_append] (FlushLoop).

    ** Bounds and fuel

    Hypotheses of the form [... <= int64_max] keep revisions and counts within
    [int64], as a running node does.  The streaming read runs on fuel: it takes
    at least one key per round, so more fuel than the table has rows is enough,
    and [RangeStream_Range] proves that it then returns.  Decimal printing in
    object keys has fuel for twenty digits, all a 64-bit revision can have.
    [runPreflight] retries until it succeeds; it is given one environment per
    pass and says whether it has returned.  The wait for the previous Primary
    consumes one poll of the environment per round and answers [None] when the
    list ends; [electPrimaryOnce_terminates] says how many polls are enough.
    Allocation of a member id, registration and the integrity loop of bootstrap
    run on the retry bounds of the code ([maxRetries],
    [maxRegistrationAttempts], [maxIntegrityAttempts]).

    ** What is not modelled

    The leader election of the Elector is the library s3lect; its callbacks are
    modelled, its protocol is not.  The loops that call a step on a timer are
    folds over what happened before each tick; when ticks come is an argument.
    Logging has no influence on behaviour, and metrics are kept apart in their
    own file for the same reason.  Listening sockets, gRPC, the construction of
    SDK clients, the cobra command line, the development S3 server and
    generated code are I/O or library calls; what the modelled code needs of
    them is an argument or a law.  Timestamps in records are nanoseconds, which
    StoredRows justifies. *)

From Stdlib Require Strings.Byte.
From Stdlib Require Export ZArith Lia ssreflect.
From stdpp Require Export base tactics strings sorting relations numbers gmap.
From stdpp Require Export list_basics list_relations list_monad list_misc list_tactics list.

#[export] Set Default Proof Using "Type".
#[export] Set Warnings "-rewrite-rw,-clear-no-such-hyp".
(** ssreflect restricts [if] to booleans; [decide] needs the general one. *)
Open Scope general_if_scope.

Declare Scope netsy_scope.
Delimit Scope netsy_scope with netsy.
Open Scope Z_scope.

(** ** Automation *)

(** The well-formedness facts of the components, proved by [auto with netsy]. *)
Create HintDb netsy.

(** Split on every boolean test and every [match] of the goal, closing the
    branches that contradict the hypotheses. *)
Ltac split_matches :=
  repeat (case_match; try done; simplify_eq/=).

(** Turn boolean comparisons of the code into the propositions they decide. *)
Ltac bool_to_prop :=
  repeat match goal with
  | H : (_ <=? _) = true |- _ => apply Z.leb_le in H
  | H : (_ <=? _) = false |- _ => apply Z.leb_gt in H
  | H : (_ <? _) = true |- _ => apply Z.ltb_lt in H
  | H : (_ <? _) = false |- _ => apply Z.ltb_ge in H
  | H : (_ =? _) = true |- _ => apply Z.eqb_eq in H
  | H : (_ =? _) = false |- _ => apply Z.eqb_neq in H
  | H : negb _ = true |- _ => apply negb_true_iff in H
  | H : negb _ = false |- _ => apply negb_false_iff in H
  | H : (_ && _)%bool = true |- _ => apply andb_true_iff in H as [? ?]
  | H : (_ || _)%bool = false |- _ => apply orb_false_iff in H as [? ?]
  | H : bool_decide _ = true |- _ => apply bool_decide_eq_true in H
  | H : bool_decide _ = false |- _ => apply bool_decide_eq_false in H
  end.

(** ** Fallible computations

    Go's [(T, error)] results: [Ok v] is [v, nil], [Err e] is a non-nil error. *)
Inductive res (E A : Type) : Type :=
| Ok (a : A)
| Err (e : E).
Arguments Ok {E A} _.
Arguments Err {E A} _.

#[export] Instance res_ret E : MRet (res E) := λ A a, Ok a.
#[export] Instance res_bind E : MBind (res E) :=
  λ A B f m, match m with Ok a => f a | Err e => Err e end.

#[export] Instance res_eq_dec E A `{EqDecision E, EqDecision A} : EqDecision (res E A).
Proof. solve_decision. Defined.

Definition is_ok {E A} (r : res E A) : bool :=
  match r with Ok _ => true | Err _ => false end.

Lemma pair_of_fst {A B} (x : A * B) a : x.1 = a → x = (a, x.2).
Proof. by destruct x; intros <-. Qed.

(** ** Machine integers *)

Definition int64_max : Z := 9223372036854775807.
Definition int64_min : Z := -9223372036854775808.

(** Two's complement wrap-around of Go's [int64] arithmetic. *)
Definition wrap64 (z : Z) : Z := (z + 2 ^ 63) mod 2 ^ 64 - 2 ^ 63.

(** Wrap-around of Go's [uint64] arithmetic. *)
Definition wrapu64 (z : Z) : Z := z mod 2 ^ 64.

#[global] Arguments wrap64 : simpl never.
#[global] Arguments wrapu64 : simpl never.

Definition int64 (z : Z) : Prop := int64_min ≤ z ≤ int64_max.

Notation "a +i b" := (wrap64 (a + b)) (at level 50, left associativity) : netsy_scope.
Notation "a -i b" := (wrap64 (a - b)) (at level 50, left associativity) : netsy_scope.
Notation "a *i b" := (wrap64 (a * b)) (at level 40, left associativity) : netsy_scope.

(** Range side conditions of [int64] arithmetic. *)
Ltac solve_int64 := unfold int64, int64_min, int64_max in *; lia.

Lemma wrap64_id z : int64 z → wrap64 z = z.
Proof.
  rewrite /int64 /wrap64 /int64_min /int64_max => Hz.
  rewrite Z.mod_small; lia.
Qed.

Lemma wrap64_int64 z : int64 (wrap64 z).
Proof.
  rewrite /int64 /wrap64 /int64_min /int64_max.
  pose proof (Z.mod_pos_bound (z + 2 ^ 63) (2 ^ 64) eq_refl). lia.
Qed.

(** ** Bytes *)

Abbreviation byte := Byte.byte.
Abbreviation bytes := (list Byte.byte).

#[export] Instance byte_eq_dec : EqDecision byte := Byte.byte_eq_dec.

#[export] Program Instance byte_countable : Countable byte :=
  inj_countable Byte.to_N Byte.of_N _.
Next Obligation. intros b. apply Byte.of_to_N. Qed.

(** Go's [b + 1] on a [byte], which wraps at 255. *)
Definition byte_succ (b : byte) : byte :=
  default Byte.x00 (Byte.of_N ((Byte.to_N b + 1) mod 256)%N).

(** Go's [bytes.Compare]: lexicographic on unsigned bytes, a proper prefix first. *)
Fixpoint bytes_compare (a b : bytes) : comparison :=
  match a, b with
  | [], [] => Eq
  | [], _ :: _ => Lt
  | _ :: _, [] => Gt
  | x :: a', y :: b' =>
      match N.compare (Byte.to_N x) (Byte.to_N y) with
      | Eq => bytes_compare a' b'
      | c => c
      end
  end.

Definition bytes_leb (a b : bytes) : bool :=
  match bytes_compare a b with Gt => false | _ => true end.
Definition bytes_ltb (a b : bytes) : bool :=
  match bytes_compare a b with Lt => true | _ => false end.

Definition bytes_le (a b : bytes) : Prop := bytes_leb a b = true.
Definition bytes_lt (a b : bytes) : Prop := bytes_ltb a b = true.

#[export] Instance bytes_le_dec : RelDecision bytes_le.
Proof. intros a b. rewrite /bytes_le. apply _. Defined.
#[export] Instance bytes_lt_dec : RelDecision bytes_lt.
Proof. intros a b. rewrite /bytes_lt. apply _. Defined.

(** Go's [bytes.HasPrefix]. *)
Fixpoint has_prefix (k p : bytes) : bool :=
  match p, k with
  | [], _ => true
  | _ :: _, [] => false
  | y :: p', x :: k' => bool_decide (x = y) && has_prefix k' p'
  end.

Lemma Byte_to_N_inj x y : Byte.to_N x = Byte.to_N y → x = y.
Proof.
  intros H. apply (inj Some).
  by rewrite -(Byte.of_to_N x) -(Byte.of_to_N y) H.
Qed.

Lemma bytes_compare_refl a : bytes_compare a a = Eq.
Proof. induction a as [|x a IH]; simpl; [done|]. by rewrite N.compare_refl. Qed.

Lemma bytes_compare_eq a b : bytes_compare a b = Eq → a = b.
Proof.
  revert b; induction a as [|x a IH]; intros [|y b]; simpl; try done.
  destruct (N.compare_spec (Byte.to_N x) (Byte.to_N y)) as [E| |]; try done.
  intros ?%IH. by rewrite (Byte_to_N_inj _ _ E) H.
Qed.

Lemma bytes_compare_antisym a b : bytes_compare b a = CompOpp (bytes_compare a b).
Proof.
  revert b; induction a as [|x a IH]; intros [|y b]; simpl; try done.
  rewrite (N.compare_antisym (Byte.to_N x) (Byte.to_N y)).
  by destruct (N.compare (Byte.to_N x) (Byte.to_N y)); simpl.
Qed.

Lemma bytes_lt_trans a b c : bytes_lt a b → bytes_lt b c → bytes_lt a c.
Proof.
  rewrite /bytes_lt /bytes_ltb. revert b c.
  induction a as [|x a IH]; intros [|y b] [|z c]; simpl; try done.
  intros Hab Hbc.
  destruct (N.compare_spec (Byte.to_N x) (Byte.to_N y)) as [E1|L1|]; try done;
  destruct (N.compare_spec (Byte.to_N y) (Byte.to_N z)) as [E2|L2|]; try done;
  destruct (N.compare_spec (Byte.to_N x) (Byte.to_N z)) as [E3|L3|L3]; try done; try lia.
  by apply (IH b c).
Qed.

Lemma bytes_leb_iff a b : bytes_le a b ↔ bytes_lt a b ∨ a = b.
Proof.
  rewrite /bytes_le /bytes_leb /bytes_lt /bytes_ltb. split.
  - destruct (bytes_compare a b) eqn:E; try done; [|by left].
    right. by apply bytes_compare_eq.
  - intros [H | ->]; [by destruct (bytes_compare a b)|]. by rewrite bytes_compare_refl.
Qed.

Lemma bytes_lt_irrefl a : ¬ bytes_lt a a.
Proof. by rewrite /bytes_lt /bytes_ltb bytes_compare_refl. Qed.

Lemma bytes_le_total a b : bytes_le a b ∨ bytes_lt b a.
Proof.
  rewrite /bytes_le /bytes_leb /bytes_lt /bytes_ltb (bytes_compare_antisym a b).
  destruct (bytes_compare a b); simpl; auto.
Qed.

Lemma bytes_lt_le a b : bytes_lt a b → bytes_le a b.
Proof. rewrite bytes_leb_iff. by left. Qed.

Lemma bytes_lt_not_le a b : bytes_lt a b ↔ ¬ bytes_le b a.
Proof.
  rewrite /bytes_lt /bytes_ltb /bytes_le /bytes_leb (bytes_compare_antisym a b).
  by destruct (bytes_compare a b).
Qed.

#[export] Instance bytes_lt_strict : StrictOrder bytes_lt.
Proof.
  split; [intros a; apply bytes_lt_irrefl|].
  intros a b c; apply bytes_lt_trans.
Qed.

#[export] Instance bytes_le_po : PartialOrder bytes_le.
Proof.
  split; [split|].
  - intros a. rewrite bytes_leb_iff. by right.
  - intros a b c. rewrite !bytes_leb_iff.
    intros [Hab| ->] [Hbc| ->]; eauto using bytes_lt_trans.
  - intros a b. rewrite !bytes_leb_iff. intros [Hab|Hab] [Hba|Hba]; try done.
    destruct (bytes_lt_irrefl a). by apply (bytes_lt_trans a b a).
Qed.

#[export] Instance bytes_le_total_inst : Total bytes_le.
Proof.
  intros a b. destruct (bytes_le_total a b) as [?|?%bytes_lt_le]; auto.
Qed.

Lemma has_prefix_iff k p : has_prefix k p = true ↔ ∃ s, k = p ++ s.
Proof.
  revert k; induction p as [|y p IH]; intros k; simpl.
  - split; [by exists k|]. by destruct k.
  - destruct k as [|x k]; simpl.
    + split; [done|]. by intros [s Hs].
    + rewrite andb_true_iff bool_decide_eq_true IH. split.
      * intros [-> [s ->]]. by exists s.
      * intros [s [= -> ->]]. eauto.
Qed.

(** ** Lists *)

Section filter.
  Context {A : Type}.
  Implicit Types (P Q : A → Prop) (l : list A).

Lemma filter_all P `{∀ x, Decision (P x)} l : (∀ x, x ∈ l → P x) → filter P l = l.
Proof.
  induction l as [|x l IH]; intros Hl; [done|].
  setoid_rewrite elem_of_cons in Hl.
  rewrite filter_cons_True; [by auto|]. f_equal. auto.
Qed.

Lemma filter_none P `{∀ x, Decision (P x)} l : (∀ x, x ∈ l → ¬ P x) → filter P l = [].
Proof.
  induction l as [|x l IH]; intros Hl; [done|].
  setoid_rewrite elem_of_cons in Hl.
  rewrite filter_cons_False; auto.
Qed.

Lemma filter_ext P Q `{∀ x, Decision (P x), ∀ x, Decision (Q x)} l :
  (∀ x, x ∈ l → P x ↔ Q x) → filter P l = filter Q l.
Proof.
  induction l as [|x l IH]; intros Hl; [done|].
  setoid_rewrite elem_of_cons in Hl.
  rewrite !filter_cons IH; [by auto|].
  destruct (Hl x); [by left|]. repeat case_decide; tauto.
Qed.

Lemma existsb_false (f : A → bool) l :
  existsb f l = false ↔ ∀ x, x ∈ l → f x = false.
Proof.
  rewrite -not_true_iff_false existsb_exists. split.
  - intros Hn x Hx. apply not_true_iff_false => Hf. apply Hn. exists x.
    by rewrite -list_elem_of_In.
  - intros Hf (x & Hx%list_elem_of_In & E). specialize (Hf x Hx). congruence.
Qed.
End filter.

Lemma filter_fmap {A B} (f : A → B) (P : B → Prop) (Q : A → Prop)
    `{∀ x, Decision (P x), ∀ x, Decision (Q x)} (l : list A) :
  (∀ x, P (f x) ↔ Q x) → filter P (f <$> l) = f <$> filter Q l.
Proof.
  intros E. induction l as [|x l IH]; [done|].
  rewrite fmap_cons !filter_cons IH. specialize (E x). repeat case_decide; naive_solver.
Qed.

Lemma existsb_fmap {A B} (f : A → B) (p : B → bool) (q : A → bool) (l : list A) :
  (∀ x, p (f x) = q x) → existsb p (f <$> l) = existsb q l.
Proof. intros E. induction l as [|x l IH]; simpl; [done|]. by rewrite E IH. Qed.

(** ** Reachability *)

(** A property closed under steps holds of every state reachable from one
    where it holds. *)
Lemma rtc_invariant {A} (R : relation A) (P : A → Prop) :
  (∀ x y, R x y → P x → P y) → ∀ x y, rtc R x y → P x → P y.
Proof. intros Hstep x y Hr. induction Hr; eauto. Qed.
