(* ===== verification/NodeState.v ===== *)
(** * internal/nodestate: the node state shared by every component

    The health, elector and primary state machines with their transition
    tables, the [State] record that guards them, the cluster state, and the
    conversions to and from the protobuf enums.  Every method of [State] runs
    under its lock (or on one atomic), so each is one step on the record. *)

From S2P Require Import Prelude.

(** ** The three state machines *)

Inductive HealthState := HealthLoading | HealthHealthy | HealthDegraded.
Inductive ElectorState := ElectorFollower | ElectorLeader.
Inductive PrimaryState := PrimaryReplica | PrimaryStarting | PrimaryActive | PrimaryDraining.

#[export] Instance HealthState_eq_dec : EqDecision HealthState.
Proof. solve_decision. Defined.
#[export] Instance ElectorState_eq_dec : EqDecision ElectorState.
Proof. solve_decision. Defined.
#[export] Instance PrimaryState_eq_dec : EqDecision PrimaryState.
Proof. solve_decision. Defined.

Definition validHealthTransitions (from : HealthState) : list HealthState :=
  match from with
  | HealthLoading => [HealthHealthy; HealthDegraded]
  | HealthHealthy => [HealthDegraded]
  | HealthDegraded => [HealthLoading; HealthHealthy]
  end.

Definition validElectorTransitions (from : ElectorState) : list ElectorState :=
  match from with
  | ElectorFollower => [ElectorLeader]
  | ElectorLeader => [ElectorFollower]
  end.

Definition validPrimaryTransitions (from : PrimaryState) : list PrimaryState :=
  match from with
  | PrimaryReplica => [PrimaryStarting]
  | PrimaryStarting => [PrimaryActive; PrimaryReplica; PrimaryDraining]
  | PrimaryActive => [PrimaryDraining]
  | PrimaryDraining => [PrimaryReplica]
  end.

Definition validHealthTransition (from to : HealthState) : bool :=
  existsb (λ allowed, bool_decide (allowed = to)) (validHealthTransitions from).
Definition validElectorTransition (from to : ElectorState) : bool :=
  existsb (λ allowed, bool_decide (allowed = to)) (validElectorTransitions from).
Definition validPrimaryTransition (from to : PrimaryState) : bool :=
  existsb (λ allowed, bool_decide (allowed = to)) (validPrimaryTransitions from).

(** ** Cluster state *)

Record NodeInfo := mkNodeInfo {
  NodeID : string;
  MemberID : Z;
  PeerAdvertiseAddr : string;
}.

(** Go's zero value [NodeInfo{}]. *)
Definition NodeInfo_zero : NodeInfo := mkNodeInfo "" 0 "".

Record ClusterState := mkClusterState {
  cs_Elector : NodeInfo;
  cs_Primary : NodeInfo;
  NodeCount : Z;
}.

#[export] Instance NodeInfo_eq_dec : EqDecision NodeInfo.
Proof. solve_decision. Defined.
#[export] Instance ClusterState_eq_dec : EqDecision ClusterState.
Proof. solve_decision. Defined.

(** ** The node state *)

Record State := mkState {
  health : HealthState;
  elector : ElectorState;
  primary : PrimaryState;
  cluster : ClusterState;
  committed : Z;
  compaction : Z;
  memberID : Z;
}.

#[export] Instance State_eq_dec : EqDecision State.
Proof. solve_decision. Defined.

(** [New]: Loading / Follower / Replica, every other field its zero value. *)
Definition State_New : State :=
  mkState HealthLoading ElectorFollower PrimaryReplica
    (mkClusterState NodeInfo_zero NodeInfo_zero 0) 0 0 0.

Inductive state_err :=
| InvalidHealthTransition (from to : HealthState)
| InvalidElectorTransition (from to : ElectorState)
| InvalidPrimaryTransition (from to : PrimaryState)
| MemberIDAlreadySet (current : Z).

(** Each setter returns Go's error together with the state left behind. *)
Definition SetHealth (to : HealthState) (s : State) : res state_err unit * State :=
  let from := health s in
  if negb (validHealthTransition from to) then (Err (InvalidHealthTransition from to), s)
  else (Ok tt, mkState to (elector s) (primary s) (cluster s)
                 (committed s) (compaction s) (memberID s)).

Definition SetElector (to : ElectorState) (s : State) : res state_err unit * State :=
  let from := elector s in
  if negb (validElectorTransition from to) then (Err (InvalidElectorTransition from to), s)
  else (Ok tt, mkState (health s) to (primary s) (cluster s)
                 (committed s) (compaction s) (memberID s)).

Definition SetPrimary (to : PrimaryState) (s : State) : res state_err unit * State :=
  let from := primary s in
  if negb (validPrimaryTransition from to) then (Err (InvalidPrimaryTransition from to), s)
  else (Ok tt, mkState (health s) (elector s) to (cluster s)
                 (committed s) (compaction s) (memberID s)).

Definition SetCommitted (rev : Z) (s : State) : State :=
  mkState (health s) (elector s) (primary s) (cluster s) rev (compaction s) (memberID s).

Definition SetCompaction (rev : Z) (s : State) : State :=
  mkState (health s) (elector s) (primary s) (cluster s) (committed s) rev (memberID s).

Definition SetMemberID (id : Z) (s : State) : res state_err unit * State :=
  if memberID s =? 0 then
    (Ok tt, mkState (health s) (elector s) (primary s) (cluster s)
              (committed s) (compaction s) id)
  else if negb (memberID s =? id) then (Err (MemberIDAlreadySet (memberID s)), s)
  else (Ok tt, s).

Definition SetClusterState (cs : ClusterState) (s : State) : State :=
  mkState (health s) (elector s) (primary s) cs (committed s) (compaction s) (memberID s).

Definition SetClusterElector (e : NodeInfo) (s : State) : State :=
  SetClusterState (mkClusterState e (cs_Primary (cluster s)) (NodeCount (cluster s))) s.

Definition SetClusterPrimary (p : NodeInfo) (s : State) : State :=
  SetClusterState (mkClusterState (cs_Elector (cluster s)) p (NodeCount (cluster s))) s.

(** ** Protobuf conversions

    Proto3 enums are open: a peer may send a number this build does not know. *)

Inductive pb_HealthState :=
| HEALTH_UNKNOWN | HEALTH_LOADING | HEALTH_HEALTHY | HEALTH_DEGRADED
| HEALTH_UNRECOGNIZED (n : Z).
Inductive pb_ElectorState :=
| ELECTOR_UNKNOWN | ELECTOR_FOLLOWER | ELECTOR_LEADER
| ELECTOR_UNRECOGNIZED (n : Z).
Inductive pb_PrimaryState :=
| PRIMARY_UNKNOWN | PRIMARY_REPLICA | PRIMARY_STARTING | PRIMARY_ACTIVE | PRIMARY_DRAINING
| PRIMARY_UNRECOGNIZED (n : Z).

Definition HealthFromProto (h : pb_HealthState) : HealthState :=
  match h with
  | HEALTH_HEALTHY => HealthHealthy
  | HEALTH_DEGRADED => HealthDegraded
  | _ => HealthLoading
  end.

Definition HealthToProto (h : HealthState) : pb_HealthState :=
  match h with
  | HealthHealthy => HEALTH_HEALTHY
  | HealthDegraded => HEALTH_DEGRADED
  | HealthLoading => HEALTH_LOADING
  end.

Definition ElectorFromProto (e : pb_ElectorState) : ElectorState :=
  match e with
  | ELECTOR_LEADER => ElectorLeader
  | _ => ElectorFollower
  end.

Definition ElectorToProto (e : ElectorState) : pb_ElectorState :=
  match e with
  | ElectorLeader => ELECTOR_LEADER
  | ElectorFollower => ELECTOR_FOLLOWER
  end.

Definition PrimaryFromProto (p : pb_PrimaryState) : PrimaryState :=
  match p with
  | PRIMARY_STARTING => PrimaryStarting
  | PRIMARY_ACTIVE => PrimaryActive
  | PRIMARY_DRAINING => PrimaryDraining
  | _ => PrimaryReplica
  end.

Definition PrimaryToProto (p : PrimaryState) : pb_PrimaryState :=
  match p with
  | PrimaryStarting => PRIMARY_STARTING
  | PrimaryActive => PRIMARY_ACTIVE
  | PrimaryDraining => PRIMARY_DRAINING
  | PrimaryReplica => PRIMARY_REPLICA
  end.

(** The [NodeState] message: heartbeats, receipts and node-state replies. *)
Record pb_NodeState := mk_pb_NodeState {
  ns_NodeId : string;
  ns_HealthState : pb_HealthState;
  ns_ElectorState : pb_ElectorState;
  ns_PrimaryState : pb_PrimaryState;
  ns_LatestRevision : Z;
  ns_StartTime : Z;
}.

(** The [ClusterState] message; [None] is a nil sub-message. *)
Record pb_ClusterState := mk_pb_ClusterState {
  pb_Elector : option NodeInfo;
  pb_Primary : option NodeInfo;
  pb_NodeCount : Z;
}.

(** Go's [int32(x)] conversion. *)
Definition wrap32 (z : Z) : Z := (z + 2 ^ 31) mod 2 ^ 32 - 2 ^ 31.

Definition ClusterStateToProto (cs : ClusterState) : pb_ClusterState :=
  mk_pb_ClusterState
    (Some (cs_Elector cs))
    (if bool_decide (NodeID (cs_Primary cs) ≠ "") then Some (cs_Primary cs) else None)
    (wrap32 (NodeCount cs)).

Definition ClusterStateFromProto (cs : pb_ClusterState) : ClusterState :=
  mkClusterState
    (default NodeInfo_zero (pb_Elector cs))
    (default NodeInfo_zero (pb_Primary cs))
    (pb_NodeCount cs).

(** ** Facts used by the components *)

Lemma SetPrimary_fields to s :
  let s' := (SetPrimary to s).2 in
  health s' = health s ∧ elector s' = elector s ∧ cluster s' = cluster s ∧
  committed s' = committed s ∧ compaction s' = compaction s ∧ memberID s' = memberID s.
Proof. rewrite /SetPrimary. by case_match. Qed.

Lemma SetPrimary_ok to s :
  (SetPrimary to s).1 = Ok tt ↔ to ∈ validPrimaryTransitions (primary s).
Proof.
  rewrite /SetPrimary /validPrimaryTransition.
  rewrite -(bool_decide_eq_true (to ∈ _)).
  destruct (primary s), to; vm_compute; split; done.
Qed.

Lemma SetPrimary_new to s :
  primary (SetPrimary to s).2
  = if decide (to ∈ validPrimaryTransitions (primary s)) then to else primary s.
Proof.
  destruct s as [? ? p ? ? ? ?]. rewrite /SetPrimary /validPrimaryTransition /=.
  destruct p, to; reflexivity.
Qed.

(** A run of [SetPrimary] calls, refused ones included. *)
Definition run_SetPrimary (tos : list PrimaryState) (s : State) : State :=
  foldl (λ s to, (SetPrimary to s).2) s tos.

Lemma run_SetPrimary_active tos s :
  primary s = PrimaryActive → PrimaryDraining ∉ tos →
  primary (run_SetPrimary tos s) = PrimaryActive.
Proof.
  revert s; induction tos as [|to tos IH]; intros s Hs Hn; simpl; [done|].
  apply IH; [|set_solver].
  rewrite SetPrimary_new Hs /=. case_decide; [set_solver|done].
Qed.

Lemma wrap32_id z : - 2 ^ 31 ≤ z < 2 ^ 31 → wrap32 z = z.
Proof. rewrite /wrap32 => Hz. rewrite Z.mod_small; lia. Qed.

(** ** Re-election *)

(** The transitions a node still has to make to become an active Primary. *)
Definition transitions_to_active (p : PrimaryState) : list PrimaryState :=
  match p with
  | PrimaryActive => []
  | PrimaryStarting => [PrimaryActive]
  | PrimaryReplica => [PrimaryStarting; PrimaryActive]
  | PrimaryDraining => [PrimaryReplica; PrimaryStarting; PrimaryActive]
  end.

(** A node that has stopped taking writes takes them again only through a full
    re-election: whatever transitions are asked of a Draining node, it is
    Active again only after it was made a Replica, then Starting, then Active,
    in this order; and likewise from every other state. *)
Theorem SetPrimary_reelection tos s :
  primary (run_SetPrimary tos s) = PrimaryActive →
  transitions_to_active (primary s) `sublist_of` tos.
Proof.
  revert s; induction tos as [|to tos IH]; intros s; simpl; [by intros ->|].
  intros Hact. apply IH in Hact. rewrite SetPrimary_new in Hact.
  assert (∀ a l l' : list PrimaryState, a `sublist_of` l → l `sublist_of` l' → a `sublist_of` l') as Htr
    by (intros a l l' H1 H2; by etrans).
  destruct (primary s), to; cbn in Hact |- *;
    first [apply sublist_nil_l | apply sublist_skip; exact Hact | apply sublist_cons; exact Hact
          | apply sublist_cons; (eapply Htr; [|exact Hact]); repeat constructor].
Qed.

Lemma SetPrimary_reelection_witness :
  [PrimaryReplica; PrimaryStarting; PrimaryActive] `sublist_of`
    [PrimaryActive; PrimaryReplica; PrimaryStarting; PrimaryReplica; PrimaryStarting; PrimaryActive].
Proof.
  apply (SetPrimary_reelection
    [PrimaryActive; PrimaryReplica; PrimaryStarting; PrimaryReplica; PrimaryStarting; PrimaryActive]
    (mkState HealthHealthy ElectorFollower PrimaryDraining (mkClusterState NodeInfo_zero NodeInfo_zero 3) 0 0 0)).
  reflexivity.
Defined.

(** The cluster state an Elector pushes arrives as it was sent, a missing
    Primary included, as long as the node count fits the message's int32. *)
Lemma ClusterState_roundtrip cs :
  - 2 ^ 31 ≤ NodeCount cs < 2 ^ 31 → (NodeID (cs_Primary cs) = "" → cs_Primary cs = NodeInfo_zero) →
  ClusterStateFromProto (ClusterStateToProto cs) = cs.
Proof.
  intros Hn Hp. rewrite /ClusterStateFromProto /ClusterStateToProto /= wrap32_id //.
  destruct cs as [e p n]. simpl in *. case_bool_decide as E; simpl; [done|].
  by rewrite Hp.
Qed.
