(* ===== verification/Records.v ===== *)
(** * internal/proto: the record message

    A [record] is one revision of one key.  Timestamps are nanoseconds since
    the epoch, [None] where Go has a nil [*timestamppb.Timestamp]; [Value] is
    [None] where Go has a nil slice, the SQL NULL.  An empty [Key] stands for
    nil as well: the protobuf decoder leaves nil for an empty bytes field. *)

From S2P Require Import Prelude.

Record record := mkRecord {
  Revision : Z;
  Key : bytes;
  Created : bool;
  Deleted : bool;
  CreateRevision : Z;
  PrevRevision : Z;
  Version : Z;
  Lease : Z;
  Dek : Z;
  Value : option bytes;
  CreatedAt : option Z;
  CompactedAt : option Z;
  LeaderId : string;
  ReplicatedAt : option Z;
  Crc : Z;
}.

#[export] Instance record_eq_dec : EqDecision record.
Proof. solve_decision. Defined.

(** [proto.Record{}]. *)
Definition record_zero : record :=
  mkRecord 0 [] false false 0 0 0 0 0 None None None "" None 0.

(** Field assignments [r.F = v] used by the code. *)
Definition set_Revision (v : Z) (r : record) : record :=
  mkRecord v (Key r) (Created r) (Deleted r) (CreateRevision r) (PrevRevision r)
    (Version r) (Lease r) (Dek r) (Value r) (CreatedAt r) (CompactedAt r)
    (LeaderId r) (ReplicatedAt r) (Crc r).
Definition set_ReplicatedAt (v : option Z) (r : record) : record :=
  mkRecord (Revision r) (Key r) (Created r) (Deleted r) (CreateRevision r) (PrevRevision r)
    (Version r) (Lease r) (Dek r) (Value r) (CreatedAt r) (CompactedAt r)
    (LeaderId r) v (Crc r).
Definition set_CreatedAt (v : option Z) (r : record) : record :=
  mkRecord (Revision r) (Key r) (Created r) (Deleted r) (CreateRevision r) (PrevRevision r)
    (Version r) (Lease r) (Dek r) (Value r) v (CompactedAt r)
    (LeaderId r) (ReplicatedAt r) (Crc r).
Definition set_LeaderId (v : string) (r : record) : record :=
  mkRecord (Revision r) (Key r) (Created r) (Deleted r) (CreateRevision r) (PrevRevision r)
    (Version r) (Lease r) (Dek r) (Value r) (CreatedAt r) (CompactedAt r)
    v (ReplicatedAt r) (Crc r).
Definition set_Crc (v : Z) (r : record) : record :=
  mkRecord (Revision r) (Key r) (Created r) (Deleted r) (CreateRevision r) (PrevRevision r)
    (Version r) (Lease r) (Dek r) (Value r) (CreatedAt r) (CompactedAt r)
    (LeaderId r) (ReplicatedAt r) v.

(** [UPDATE records SET value = NULL, compacted_at = now]. *)
Definition compact_row (now : Z) (r : record) : record :=
  mkRecord (Revision r) (Key r) (Created r) (Deleted r) (CreateRevision r) (PrevRevision r)
    (Version r) (Lease r) (Dek r) None (CreatedAt r) (Some now)
    (LeaderId r) (ReplicatedAt r) (Crc r).

(** Go's [bytes.Equal] on possibly nil slices. *)
Definition bytes_equal (a b : option bytes) : bool :=
  bool_decide (default [] a = default [] b).
