(* ===== verification/LocalDB.v ===== *)
(** * internal/localdb: the SQLite record store

    The [records] table is the list of its rows in rowid order ([revision] is
    the INTEGER PRIMARY KEY), the [compactions] table the list of its keys.
    Each SQL statement of the package is a function on the table; the wall
    clock read by [timestamppb.Now] is an argument. *)

From S2P Require Import Prelude Records.

Abbreviation table := (list record).

Record database := mkDB {
  rows : table;
  compactions : list Z;
}.

Definition set_rows (t : table) (db : database) : database := mkDB t (compactions db).

#[export] Instance database_eq_dec : EqDecision database.
Proof. solve_decision. Defined.

(** ** SQL constraints *)

Inductive sql_err :=
| NotNullFailed (column : string)
| UniqueRevisionFailed
| UniqueIndexFailed.

Inductive db_err :=
| ErrInvalidRecord
| ErrCompareRevisionFailed
| ErrCreateKeyExists
| ErrDeleteKeyNotFound
| ErrSQL (e : sql_err)
| ErrInsertID (id : Z)
| ErrRevisionZero
| ErrReplicateConflict (revision : Z)
| ErrReadExisting (revision : Z) (e : db_err)
| ErrNoRows
| ErrInvalidOrder (order : string)
| ErrIntegrity (total latest : Z).

#[export] Instance sql_err_eq_dec : EqDecision sql_err.
Proof. solve_decision. Defined.
#[export] Instance db_err_eq_dec : EqDecision db_err.
Proof. solve_decision. Defined.

(** The values an INSERT supplies: the columns whose expression can be NULL
    while the column is NOT NULL are options. *)
Record insert_values := mkValues {
  v_revision : Z;
  v_key : option bytes;
  v_created : option bool;
  v_deleted : option bool;
  v_create_revision : Z;
  v_prev_revision : option Z;
  v_version : Z;
  v_lease : Z;
  v_dek : Z;
  v_value : option bytes;
  v_created_at : option Z;
  v_compacted_at : option Z;
  v_leader_id : string;
  v_replicated_at : option Z;
}.

(** Go binds a nil slice as NULL; an empty key is nil. *)
Definition bind_key (k : bytes) : option bytes :=
  match k with [] => None | _ => Some k end.

(** A row goes to its place in rowid order. *)
Definition insert_row (r : record) (t : table) : table :=
  filter (λ x, Revision x < Revision r) t ++ r :: filter (λ x, Revision r < Revision x) t.

(** The UNIQUE index on (key, create_revision, prev_revision). *)
Definition index_clash (r x : record) : bool :=
  bool_decide (Key x = Key r) && (CreateRevision x =? CreateRevision r)
  && (PrevRevision x =? PrevRevision r).

(** [INSERT INTO records ... RETURNING *]: NOT NULL constraints in column
    order, then the primary key, then the unique index. *)
Definition sql_insert (v : insert_values) (t : table) : res sql_err (record * table) :=
  match v_key v with
  | None => Err (NotNullFailed "key")
  | Some k =>
    match v_created v with
    | None => Err (NotNullFailed "created")
    | Some c =>
      match v_deleted v with
      | None => Err (NotNullFailed "deleted")
      | Some d =>
        match v_prev_revision v with
        | None => Err (NotNullFailed "prev_revision")
        | Some p =>
          let r := mkRecord (v_revision v) k c d (v_create_revision v) p (v_version v)
                     (v_lease v) (v_dek v) (v_value v) (v_created_at v) (v_compacted_at v)
                     (v_leader_id v) (v_replicated_at v) 0 in
          if existsb (λ x, Revision x =? Revision r) t then Err UniqueRevisionFailed
          else if existsb (index_clash r) t then Err UniqueIndexFailed
          else Ok (r, insert_row r t)
        end
      end
    end
  end.

(** ** Insert *)

(** CTE [latest_revision_for_key]. *)
Definition latest_revision_for_key (k : bytes) (t : table) : option record :=
  last (filter (λ r, Key r = k) t).

(** CTE [latest_revision_for_table]. *)
Definition latest_revision_for_table (t : table) : Z :=
  default 0 (Revision <$> last t).

(** [SELECT ... FROM latest_revision_for_key WHERE deleted = 0]. *)
Definition live_for_key (k : bytes) (t : table) : option record :=
  match latest_revision_for_key k t with
  | Some l => if Deleted l then None else Some l
  | None => None
  end.

Definition insertRecordSQL (rec : record) (created_at : Z) (t : table) : insert_values :=
  let latest := latest_revision_for_key (Key rec) t in
  let live := live_for_key (Key rec) t in
  let live_revision := default 0 (Revision <$> live) in
  mkValues
    (Revision rec)
    (bind_key (Key rec))
    (* created *)
    (if Created rec then
       (if decide (Deleted <$> latest = Some false) then None else Some true)
     else Some false)
    (* deleted *)
    (if Deleted rec then
       (if decide (Deleted <$> latest = Some false) then Some true else None)
     else Some false)
    (* create_revision *)
    (match live with
     | Some l => CreateRevision l
     | None => latest_revision_for_table t + 1
     end)
    (* prev_revision *)
    (if 0 <? PrevRevision rec then
       (if PrevRevision rec =? live_revision then Some (PrevRevision rec) else None)
     else
       (if 0 <? live_revision then None else Some 0))
    (* version *)
    (if Deleted rec then 0 else default 0 (Version <$> latest) + 1)
    (Lease rec) (Dek rec) (Value rec) (Some created_at) None (LeaderId rec) None.

(** The validation at the head of [InsertRecord], [true] when it is refused. *)
Definition invalid_for_insert (r : record) : bool :=
  (Revision r <=? 0)
  || bool_decide (Key r = [])
  || (PrevRevision r <? 0)
  || (Lease r <? 0)
  || (Dek r <? 0)
  || negb (CreateRevision r =? 0)
  || negb (Version r =? 0)
  || bool_decide (CreatedAt r ≠ None)
  || bool_decide (CompactedAt r ≠ None)
  || bool_decide (LeaderId r = "")
  || bool_decide (ReplicatedAt r ≠ None)
  || negb (Crc r =? 0)
  || (Created r && Deleted r).

Definition InsertRecord (now : Z) (rec : record) (db : database)
    : res db_err (record * database) :=
  if invalid_for_insert rec then Err ErrInvalidRecord
  else
    match sql_insert (insertRecordSQL rec now (rows db)) (rows db) with
    | Err (NotNullFailed "created") => Err ErrCreateKeyExists
    | Err (NotNullFailed "deleted") => Err ErrDeleteKeyNotFound
    | Err (NotNullFailed "prev_revision") => Err ErrCompareRevisionFailed
    | Err e => Err (ErrSQL e)
    | Ok (r, t') =>
        if Revision r <? 1 then Err (ErrInsertID (Revision r))
        else Ok (r, set_rows t' db)
    end.

(** ** Replicate *)

Definition FindRecordByRev (rev : Z) (db : database) : res db_err record :=
  match filter (λ r, Revision r = rev) (rows db) with
  | r :: _ => Ok r
  | [] => Err ErrNoRows
  end.

Definition sameTimestamp (a b : option Z) : bool :=
  match a, b with
  | Some x, Some y => x =? y
  | None, None => true
  | _, _ => false
  end.

(** Both records are non-nil at its only call. *)
Definition recordsEqualForReplication (a b : record) : bool :=
  (Revision a =? Revision b)
  && bool_decide (Key a = Key b)
  && Bool.eqb (Created a) (Created b)
  && Bool.eqb (Deleted a) (Deleted b)
  && (CreateRevision a =? CreateRevision b)
  && (PrevRevision a =? PrevRevision b)
  && (Version a =? Version b)
  && (Lease a =? Lease b)
  && (Dek a =? Dek b)
  && bytes_equal (Value a) (Value b)
  && bool_decide (LeaderId a = LeaderId b)
  && sameTimestamp (CreatedAt a) (CreatedAt b)
  && sameTimestamp (CompactedAt a) (CompactedAt b).

Definition replicate_values (r : record) : insert_values :=
  mkValues (Revision r) (bind_key (Key r)) (Some (Created r)) (Some (Deleted r))
    (CreateRevision r) (Some (PrevRevision r)) (Version r) (Lease r) (Dek r) (Value r)
    (CreatedAt r) (CompactedAt r) (LeaderId r) (ReplicatedAt r).

Definition ReplicateRecord (now : Z) (rec0 : record) (db : database)
    : res db_err (record * database) :=
  if Revision rec0 =? 0 then Err ErrRevisionZero
  else
    let rec := set_ReplicatedAt (Some now) rec0 in
    match sql_insert (replicate_values rec) (rows db) with
    | Err (NotNullFailed c) => Err (ErrSQL (NotNullFailed c))
    | Err _ =>
        match FindRecordByRev (Revision rec) db with
        | Err e => Err (ErrReadExisting (Revision rec) e)
        | Ok existing =>
            if negb (recordsEqualForReplication existing rec)
            then Err (ErrReplicateConflict (Revision rec))
            else Ok (existing, db)
        end
    | Ok (r, t') =>
        if negb (Revision r =? Revision rec) then Err (ErrInsertID (Revision r))
        else Ok (r, set_rows t' db)
    end.

(** [DELETE FROM records WHERE revision = ?]. *)
Definition delete_revision (rev : Z) (db : database) : database :=
  set_rows (filter (λ r, Revision r ≠ rev) (rows db)) db.

(** The tentative overwrite can leave the table changed on an error path (the
    delete has run), so the database is returned on both. *)
Definition ReplicateTentativeRecord (now : Z) (rec : record) (committedRevision : Z)
    (db : database) : res db_err record * database :=
  let lift (d : database) (x : res db_err (record * database)) :=
    match x with Ok (r, d') => (Ok r, d') | Err e => (Err e, d) end in
  if Revision rec <=? committedRevision then lift db (ReplicateRecord now rec db)
  else
    match ReplicateRecord now rec db with
    | Ok (r, db') => (Ok r, db')
    | Err (ErrReplicateConflict _) =>
        let db1 := delete_revision (Revision rec) db in
        lift db1 (ReplicateRecord now rec db1)
    | Err e => (Err e, db)
    end.

(** ** Revisions and integrity *)

Definition LatestRevision (db : database) : Z := latest_revision_for_table (rows db).

Definition RecordCount (db : database) : Z := Z.of_nat (length (rows db)).

(** Revision and [compacted_at] of a row; [Err ErrNoRows] when it is absent. *)
Definition GetRevision (findRevision : Z) (db : database) : res db_err (Z * bool) :=
  match filter (λ r, Revision r = findRevision) (rows db) with
  | r :: _ => Ok (Revision r, bool_decide (CompactedAt r ≠ None))
  | [] => Err ErrNoRows
  end.

Definition VerifyIntegrity (db : database) : res db_err unit :=
  let total := RecordCount db in
  let latest := latest_revision_for_table (rows db) in
  if negb (total =? latest) then Err (ErrIntegrity total latest) else Ok tt.

Definition Truncate (db : database) : database := mkDB [] [].

(** ** Compaction *)

(** [ORDER BY compaction_revision DESC LIMIT 1]. *)
Definition LatestCompactionRevision (db : database) : Z :=
  match compactions db with
  | [] => 0
  | c :: cs => foldr Z.max c cs
  end.

Definition DeriveCompactionRevision (db : database) : Z :=
  match filter (λ r, CompactedAt r = None) (rows db) with
  | r :: _ => if Revision r <=? 1 then 0 else wrap64 (Revision r - 1)
  | [] => LatestRevision db
  end.

(** [INSERT OR IGNORE]. *)
Definition PersistCompactionRevision (revision : Z) (db : database) : database :=
  if revision <=? 0 then db
  else if existsb (λ c, c =? revision) (compactions db) then db
  else mkDB (rows db) (revision :: compactions db).

(** The WHERE clause of the compaction UPDATE. *)
Definition compactable (t : table) (compactionRevision : Z) (r : record) : bool :=
  (Revision r <=? compactionRevision)
  && bool_decide (CompactedAt r = None)
  && (Deleted r
      || existsb (λ newer, bool_decide (Key newer = Key r) && (Revision r <? Revision newer)) t).

Definition ExecuteCompaction (now : Z) (compactionRevision : Z) (db : database) : Z * database :=
  if compactionRevision <=? 0 then (0, db)
  else
    let t := rows db in
    (Z.of_nat (length (filter (λ r, compactable t compactionRevision r = true) t)),
     set_rows (map (λ r, if compactable t compactionRevision r then compact_row now r else r) t) db).

(** ** Queries *)

(** [selectRecord] with [latestPerKey] and [excludeDeleted] false: the rows of
    the range in ascending order. *)
Definition FindAllRecordsForSnapshot (upToRevision : Z) (db : database) : list record :=
  filter (λ r, Revision r ≤ upToRevision) (rows db).

Definition FindRecordsAfterRevision (revision : Z) (db : database) : list record :=
  filter (λ r, revision < Revision r) (rows db).

(** *** The LIKE operator

    SQLite documents LIKE on ASCII text: [%] matches any sequence, [_] any one
    character, any other character itself in either case.  On other bytes it
    is left open. *)

Definition is_ascii (b : byte) : bool :=
  (0 <? Byte.to_N b)%N && (Byte.to_N b <? 128)%N.

(** ASCII case folding. *)
Definition fold_case (b : byte) : byte :=
  let n := Byte.to_N b in
  if ((65 <=? n) && (n <=? 90))%N then default b (Byte.of_N (n + 32)%N) else b.

Fixpoint like_ascii (p k : bytes) {struct p} : bool :=
  match p with
  | [] => bool_decide (k = [])
  | c :: p' =>
      if bool_decide (c = Byte.x25) then
        (fix any (k : bytes) : bool :=
           like_ascii p' k || match k with [] => false | _ :: k' => any k' end) k
      else
        match k with
        | [] => false
        | x :: k' =>
            (bool_decide (c = Byte.x5f) || bool_decide (fold_case c = fold_case x))
            && like_ascii p' k'
        end
  end.

Class SqlLike := {
  sql_like : bytes → bytes → bool;
  sql_like_ascii p k :
    forallb is_ascii p = true → forallb is_ascii k = true →
    sql_like p k = like_ascii p k;
}.

(** *** WHERE clauses

    The conditions [commonapi] hands over as SQL text with arguments; the
    empty text is [WhereAll]. *)
Inductive where_clause :=
| WhereAll
| WhereKeyEq (k : bytes)
| WhereKeyGe (k : bytes)
| WhereKeyLike (p : bytes)
| WhereKeyRange (k e : bytes).

Section queries.
  Context `{SqlLike}.

Definition where_key (w : where_clause) (k : bytes) : bool :=
  match w with
  | WhereAll => true
  | WhereKeyEq k0 => bool_decide (k = k0)
  | WhereKeyGe k0 => bytes_leb k0 k
  | WhereKeyLike p => sql_like p k
  | WhereKeyRange k0 e => bytes_leb k0 k && bytes_ltb k e
  end.

(** CTE [filtered]: the WHERE clause, with [AND revision <= ?] when a positive
    revision is given. *)
Definition filtered (w : where_clause) (revision : Z) (t : table) : table :=
  filter (λ r, where_key w (Key r) = true ∧ (0 < revision → Revision r ≤ revision)) t.

(** [ROW_NUMBER() OVER (PARTITION BY key ORDER BY revision DESC)]. *)
Definition row_number (t : table) (r : record) : nat :=
  S (length (filter (λ x, Key x = Key r ∧ Revision r < Revision x) t)).

(** [WHERE rn = 1 AND deleted = 0]. *)
Definition live_rows (t : table) : table :=
  filter (λ r, row_number t r = 1%nat ∧ Deleted r = false) t.

(** [ORDER BY key ASC, revision DESC] and [ORDER BY key DESC, revision DESC]. *)
Definition order_asc (a b : record) : Prop :=
  bytes_lt (Key a) (Key b) ∨ Key a = Key b ∧ Revision b ≤ Revision a.
Definition order_desc (a b : record) : Prop :=
  bytes_lt (Key b) (Key a) ∨ Key a = Key b ∧ Revision b ≤ Revision a.

#[global] Instance order_asc_dec : RelDecision order_asc.
Proof. intros a b. rewrite /order_asc. apply _. Defined.
#[global] Instance order_desc_dec : RelDecision order_desc.
Proof. intros a b. rewrite /order_desc. apply _. Defined.

(** [LIMIT n]: a negative limit is none in SQLite. *)
Definition sql_limit {A} (n : Z) (l : list A) : list A :=
  if n <? 0 then l else take (Z.to_nat n) l.

(** The metadata row of the UNION ALL, read back as a record. *)
Definition metadata_record : record :=
  mkRecord 0 [] false false 0 0 0 0 0 (Some []) None None "" None 0.

(** Rows of the compound query with their [records_count] column.  The ORDER BY
    covers the metadata row: its key is the TEXT value '', which SQLite orders
    before every BLOB, so it comes first ascending and last descending. *)
Definition find_query_rows (w : where_clause) (revision limit : Z) (asc : bool) (t : table)
    : list (Z * record) :=
  let f := filtered w revision t in
  let recs := live_rows f in
  let meta := (Z.of_nat (length recs), metadata_record) in
  let ordered :=
    if asc then meta :: (pair 0 <$> merge_sort order_asc recs)
    else (pair 0 <$> merge_sort order_desc recs) ++ [meta] in
  if 0 <? limit then sql_limit (wrap64 (limit + 1)) ordered else ordered.

Definition FindRecordsBy (w : where_clause) (revision limit : Z) (order : string)
    (db : database) : res db_err (list record * Z) :=
  if bool_decide (order ≠ "ASC") && bool_decide (order ≠ "DESC")
  then Err (ErrInvalidOrder order)
  else
    match find_query_rows w revision limit (bool_decide (order = "ASC")) (rows db) with
    | [] => Ok ([], 0)
    | (totalCount, _) :: rest => Ok (rest.*2, totalCount)
    end.

Definition FindRecordsForRangeStream (w : where_clause) (revision limit : Z) (order : string)
    (afterKey : bytes) (db : database) : res db_err (list record) :=
  if bool_decide (order ≠ "ASC") && bool_decide (order ≠ "DESC")
  then Err (ErrInvalidOrder order)
  else
    let asc := bool_decide (order = "ASC") in
    let live := live_rows (filtered w revision (rows db)) in
    let recs :=
      match afterKey with
      | [] => live
      | _ => filter (λ r, (if asc then bytes_ltb afterKey (Key r)
                           else bytes_ltb (Key r) afterKey) = true) live
      end in
    let ordered := if asc then merge_sort order_asc recs else merge_sort order_desc recs in
    Ok (if 0 <? limit then sql_limit limit ordered else ordered).

End queries.
