(* ===== verification/LocalConn.v ===== *)
(** * internal/localdb: opening the database, transactions, the failing double

    [Connect] with the schema check and the migrations, the transaction handle,
    and [FailingDB], the wrapper whose commits can be made to fail.  The SQLite
    file is its [user_version], the names of the schema objects created in it
    and the two tables. *)

From S2P Require Import Prelude Records LocalDB.

#[local] Open Scope Z_scope.

(** ** Connect *)

Record sqlite := mkSqlite {
  sq_version : Z;
  sq_objects : gset string;
  sq_data : database;
}.

Definition fresh_file : sqlite := mkSqlite 0 ∅ (mkDB [] []).

Definition schemaVersion : Z := 1.

(** Each statement creates one object unless it exists. *)
Definition migrations : list string :=
  ["records"; "records_key_create_rev_prev_rev_uindex"; "records_index_key"; "compactions"].

Inductive conn_err :=
| NoPath
| MkdirErr
| OpenErr
| WalErr
| SyncErr
| VersionReadErr
| VersionSetErr
| VersionMismatch (version : Z)
| MigrationErr (stmt : string).

(** What the file system and SQLite answer. *)
Record conn_env := mkConnEnv {
  ce_dirExists : bool;
  ce_mkdir : bool;
  ce_open : bool;
  ce_wal : bool;
  ce_sync : bool;
  ce_readVersion : bool;
  ce_setVersion : bool;
  ce_migrate : string → bool;
}.

Definition checkSchemaVersion (env : conn_env) (s : sqlite) : res conn_err unit * sqlite :=
  if negb (ce_readVersion env) then (Err VersionReadErr, s)
  else if sq_version s =? 0 then
    if ce_setVersion env then (Ok tt, mkSqlite schemaVersion (sq_objects s) (sq_data s))
    else (Err VersionSetErr, s)
  else if negb (sq_version s =? schemaVersion) then (Err (VersionMismatch (sq_version s)), s)
  else (Ok tt, s).

Fixpoint applyMigrations (env : conn_env) (stmts : list string) (s : sqlite) : res conn_err unit * sqlite :=
  match stmts with
  | [] => (Ok tt, s)
  | stmt :: stmts =>
      if ce_migrate env stmt
      then applyMigrations env stmts (mkSqlite (sq_version s) ({[stmt]} ∪ sq_objects s) (sq_data s))
      else (Err (MigrationErr stmt), s)
  end.

Definition Connect (env : conn_env) (file : string) (s : sqlite) : res conn_err unit * sqlite :=
  if bool_decide (file = "") then (Err NoPath, s)
  else if negb (ce_dirExists env) && negb (ce_mkdir env) then (Err MkdirErr, s)
  else if negb (ce_open env) then (Err OpenErr, s)
  else if negb (ce_wal env) then (Err WalErr, s)
  else if negb (ce_sync env) then (Err SyncErr, s)
  else
    match checkSchemaVersion env s with
    | (Err e, s) => (Err e, s)
    | (Ok _, s) => applyMigrations env migrations s
    end.

(** The outcomes under which nothing fails. *)
Definition quiet_conn (env : conn_env) : Prop :=
  (ce_dirExists env = true ∨ ce_mkdir env = true) ∧ ce_open env = true ∧ ce_wal env = true ∧
  ce_sync env = true ∧ ce_readVersion env = true ∧ ce_setVersion env = true ∧ ∀ stmt, ce_migrate env stmt = true.

Definition schema_ready (s : sqlite) : Prop :=
  sq_version s = schemaVersion ∧ ∀ stmt, stmt ∈ migrations → stmt ∈ sq_objects s.

Lemma applyMigrations_spec env stmts s :
  let out := applyMigrations env stmts s in
  sq_version out.2 = sq_version s ∧ sq_data out.2 = sq_data s ∧ sq_objects s ⊆ sq_objects out.2 ∧
  (out.1 = Ok tt → ∀ stmt, stmt ∈ stmts → stmt ∈ sq_objects out.2) ∧
  ((∀ stmt, ce_migrate env stmt = true) → out.1 = Ok tt).
Proof.
  revert s. induction stmts as [|stmt stmts IH]; intros s; cbn [applyMigrations].
  { split_and!; try done. intros _ stmt. by intros ?%not_elem_of_nil. }
  destruct (ce_migrate env stmt) eqn:E.
  - destruct (IH (mkSqlite (sq_version s) ({[stmt]} ∪ sq_objects s) (sq_data s))) as (H1 & H2 & H3 & H4 & H5).
    cbn [sq_version sq_data sq_objects] in *. split_and!; [done|done|set_solver| |done].
    intros Hok x [->|Hx]%elem_of_cons; [set_solver|by apply H4].
  - split_and!; try done. intros Hm. by rewrite Hm in E.
Qed.

(** What one attempt leaves of the file. *)
Lemma Connect_spec env file s :
  let out := Connect env file s in
  sq_data out.2 = sq_data s ∧
  (sq_version s = 0 ∨ sq_version s = schemaVersion → sq_version out.2 = 0 ∨ sq_version out.2 = schemaVersion) ∧
  (out.1 = Ok tt → schema_ready out.2) ∧
  (file ≠ "" → quiet_conn env → sq_version s = 0 ∨ sq_version s = schemaVersion → out.1 = Ok tt).
Proof.
  intros out. rewrite /out /Connect. case_bool_decide as Hf; [by split_and!|].
  destruct (negb (ce_dirExists env) && negb (ce_mkdir env)) eqn:E1.
  { split_and!; try done. intros _ ([H|H] & _); rewrite H in E1; [done|by rewrite andb_false_r in E1]. }
  destruct (ce_open env) eqn:E2, (ce_wal env) eqn:E3, (ce_sync env) eqn:E4; cbn [negb];
    try (split_and!; try done; intros _ (_ & ? & ? & ? & _); congruence).
  assert (∀ s1, sq_data s1 = sq_data s → sq_version s1 = schemaVersion →
    let out := applyMigrations env migrations s1 in
    sq_data out.2 = sq_data s ∧ sq_version out.2 = schemaVersion ∧
    (out.1 = Ok tt → schema_ready out.2) ∧ (quiet_conn env → out.1 = Ok tt)) as Hm.
  { intros s1 Hd Hv. destruct (applyMigrations_spec env migrations s1) as (V & D & _ & Hr & Hq).
    split_and!; [by rewrite D|by rewrite V| |].
    - intros Hok. split; [by rewrite V|by apply Hr].
    - intros (_ & _ & _ & _ & _ & _ & Hmig). by apply Hq. }
  rewrite /checkSchemaVersion. destruct (ce_readVersion env) eqn:E5; cbn [negb].
  2:{ split_and!; try done. intros _ (_ & _ & _ & _ & ? & _); congruence. }
  destruct (Z.eqb_spec (sq_version s) 0) as [V0|V0].
  - destruct (ce_setVersion env) eqn:E6.
    + destruct (Hm (mkSqlite schemaVersion (sq_objects s) (sq_data s))) as (D & V & R & Q); [done..|].
      split_and!; [done|by right|done|]. intros. by apply Q.
    + split_and!; try done. intros _ (_ & _ & _ & _ & _ & ? & _); congruence.
  - destruct (Z.eqb_spec (sq_version s) schemaVersion) as [V1|V1]; cbn [negb].
    + destruct (Hm s) as (D & V & R & Q); [done..|]. split_and!; [done|by right|done|]. intros. by apply Q.
    + split_and!; try done. intros _ _ [?|?]; lia.
Qed.

Lemma Connect_mismatch env file s :
  sq_version s ≠ 0 → sq_version s ≠ schemaVersion →
  (Connect env file s).2 = s ∧ is_ok (Connect env file s).1 = false.
Proof.
  intros H0 H1. rewrite /Connect /checkSchemaVersion.
  rewrite (proj2 (Z.eqb_neq _ _) H0) (proj2 (Z.eqb_neq _ _) H1). by repeat case_match; simplify_eq/=.
Qed.

(** Starts that may have been cut short anywhere. *)
Definition attempts (envs : list conn_env) (file : string) (s : sqlite) : sqlite :=
  foldl (λ s env, (Connect env file s).2) s envs.



(** ** Durability settings are per connection

    [sql.DB] is a pool: a statement runs on an idle connection or, when all are
    in use, on a new one.  [journal_mode] belongs to the file, [synchronous] to
    the connection that sets it. *)

Inductive sync_mode := SyncOff | SyncNormal | SyncFull.

(** The open connections: whether each is in use, and its mode. *)
Definition pool : Type := list (bool * sync_mode).

Definition acquire (dflt : sync_mode) (p : pool) : nat * pool :=
  match list_find (λ c, c.1 = false) p with
  | Some (i, (_, m)) => (i, <[i := (true, m)]> p)
  | None => (length p, p ++ [(true, dflt)])
  end.

(** After [Connect]: one idle connection, with the pragma applied. *)
Definition connected_pool : pool := [(false, SyncFull)].

(** A write that arrives while a read holds the connection commits with the
    default of a new one. *)
Lemma concurrent_write_default dflt :
  let '(_, p1) := acquire dflt connected_pool in
  let '(i, p2) := acquire dflt p1 in
  snd <$> p2 !! i = Some dflt.
Proof. by destruct dflt. Qed.

(** ** Transactions *)

Inductive tx_err := TxBeginErr | TxCompleted | TxCommitFailed.

(** [None] is a nil [tx.tx]: completed.  An open transaction sees its own
    writes. *)
Record Tx := mkTx { tx_tx : option database }.

Definition BeginTx (ok : bool) (db : database) : res tx_err Tx :=
  if ok then Ok (mkTx (Some db)) else Err TxBeginErr.

Definition Tx_Commit (ok : bool) (tx : Tx) (db : database) : res tx_err unit * Tx * database :=
  match tx_tx tx with
  | None => (Err TxCompleted, tx, db)
  | Some t => if ok then (Ok tt, mkTx None, t) else (Err TxCommitFailed, mkTx None, db)
  end.

Definition Tx_Rollback (tx : Tx) : Tx :=
  match tx_tx tx with
  | None => tx
  | Some _ => mkTx None
  end.

(** [InsertRecord] within a transaction; [None] is the panic on a completed
    one. *)
Definition Tx_InsertRecord (now : Z) (r : record) (tx : Tx) : option (res db_err record * Tx) :=
  if invalid_for_insert r then Some (Err ErrInvalidRecord, tx)
  else
    match tx_tx tx with
    | None => None
    | Some t =>
        match InsertRecord now r t with
        | Err e => Some (Err e, tx)
        | Ok (ins, t') => Some (Ok ins, mkTx (Some t'))
        end
    end.

(** ** The interface and the failing double *)

Class Database `{SqlLike} (D : Type) := {
  db_LatestRevision : D → Z;
  db_RecordCount : D → Z;
  db_GetRevision : Z → D → res db_err (Z * bool);
  db_VerifyIntegrity : D → res db_err unit;
  db_Truncate : D → D;
  db_LatestCompactionRevision : D → Z;
  db_DeriveCompactionRevision : D → Z;
  db_PersistCompactionRevision : Z → D → D;
  db_ExecuteCompaction : Z → Z → D → Z * D;
  db_FindRecordsBy : where_clause → Z → Z → string → D → res db_err (list record * Z);
  db_FindRecordsForRangeStream : where_clause → Z → Z → string → bytes → D → res db_err (list record);
  db_FindRecordByRev : Z → D → res db_err record;
  db_FindAllRecordsForSnapshot : Z → D → list record;
  db_FindRecordsAfterRevision : Z → D → list record;
  db_InsertRecord : Z → record → D → Tx → option (res db_err record * Tx);
  db_BeginTx : bool → D → res tx_err Tx;
  db_ReplicateRecord : Z → record → D → res db_err (record * D);
  db_ReplicateTentativeRecord : Z → record → Z → D → res db_err record * D;
  (* [tx.Commit()] of a transaction begun on it *)
  db_Commit : bool → Tx → D → res tx_err unit * Tx * D;
}.

Section double.
  Context `{SqlLike}.

#[global] Instance database_Database : Database database := {|
  db_LatestRevision := LatestRevision;
  db_RecordCount := RecordCount;
  db_GetRevision := GetRevision;
  db_VerifyIntegrity := VerifyIntegrity;
  db_Truncate := Truncate;
  db_LatestCompactionRevision := LatestCompactionRevision;
  db_DeriveCompactionRevision := DeriveCompactionRevision;
  db_PersistCompactionRevision := PersistCompactionRevision;
  db_ExecuteCompaction := ExecuteCompaction;
  db_FindRecordsBy := FindRecordsBy;
  db_FindRecordsForRangeStream := FindRecordsForRangeStream;
  db_FindRecordByRev := FindRecordByRev;
  db_FindAllRecordsForSnapshot := FindAllRecordsForSnapshot;
  db_FindRecordsAfterRevision := FindRecordsAfterRevision;
  db_InsertRecord now r _ tx := Tx_InsertRecord now r tx;
  db_BeginTx := BeginTx;
  db_ReplicateRecord := ReplicateRecord;
  db_ReplicateTentativeRecord := ReplicateTentativeRecord;
  db_Commit := Tx_Commit;
|}.

Record FailingDB (D : Type) := mkFailingDB { fd_inner : D; fd_failCommit : bool }.
Arguments mkFailingDB {D} _ _.
Arguments fd_inner {D} _.
Arguments fd_failCommit {D} _.

Definition NewFailingDB {D} (inner : D) : FailingDB D := mkFailingDB inner false.
Definition SetFailCommit {D} (fail : bool) (f : FailingDB D) : FailingDB D := mkFailingDB (fd_inner f) fail.
Definition fd_with {D} (f : FailingDB D) (inner : D) : FailingDB D := mkFailingDB inner (fd_failCommit f).

(** The insert succeeds, and its transaction is rolled back under it. *)
Definition FailingDB_InsertRecord {D} `{Database D} (now : Z) (r : record) (f : FailingDB D) (tx : Tx)
    : option (res db_err record * Tx) :=
  match db_InsertRecord now r (fd_inner f) tx with
  | Some (Ok ins, tx') => Some (Ok ins, if fd_failCommit f then Tx_Rollback tx' else tx')
  | out => out
  end.

#[global] Instance FailingDB_Database {D} `{Database D} : Database (FailingDB D) := {|
  db_LatestRevision f := db_LatestRevision (fd_inner f);
  db_RecordCount f := db_RecordCount (fd_inner f);
  db_GetRevision rev f := db_GetRevision rev (fd_inner f);
  db_VerifyIntegrity f := db_VerifyIntegrity (fd_inner f);
  db_Truncate f := fd_with f (db_Truncate (fd_inner f));
  db_LatestCompactionRevision f := db_LatestCompactionRevision (fd_inner f);
  db_DeriveCompactionRevision f := db_DeriveCompactionRevision (fd_inner f);
  db_PersistCompactionRevision rev f := fd_with f (db_PersistCompactionRevision rev (fd_inner f));
  db_ExecuteCompaction now rev f :=
    let '(n, d) := db_ExecuteCompaction now rev (fd_inner f) in (n, fd_with f d);
  db_FindRecordsBy w rev limit order f := db_FindRecordsBy w rev limit order (fd_inner f);
  db_FindRecordsForRangeStream w rev limit order after f :=
    db_FindRecordsForRangeStream w rev limit order after (fd_inner f);
  db_FindRecordByRev rev f := db_FindRecordByRev rev (fd_inner f);
  db_FindAllRecordsForSnapshot rev f := db_FindAllRecordsForSnapshot rev (fd_inner f);
  db_FindRecordsAfterRevision rev f := db_FindRecordsAfterRevision rev (fd_inner f);
  db_InsertRecord := FailingDB_InsertRecord;
  db_BeginTx ok f := db_BeginTx ok (fd_inner f);
  db_ReplicateRecord now r f :=
    match db_ReplicateRecord now r (fd_inner f) with
    | Ok (x, d) => Ok (x, fd_with f d)
    | Err e => Err e
    end;
  db_ReplicateTentativeRecord now r committed f :=
    let '(x, d) := db_ReplicateTentativeRecord now r committed (fd_inner f) in (x, fd_with f d);
  db_Commit ok tx f := let '(e, tx', d) := db_Commit ok tx (fd_inner f) in (e, tx', fd_with f d);
|}.

(** Begin, insert, commit: how the write path uses a database; [None] without
    a result. *)
Definition insert_and_commit {D} `{Database D} (commit : bool) (now : Z) (r : record) (d : D)
    : option (res db_err record * res tx_err unit * D) :=
  match db_BeginTx true d with
  | Err _ => None
  | Ok tx =>
      match db_InsertRecord now r d tx with
      | None => None
      | Some (Err e, _) => Some (Err e, Ok tt, d)
      | Some (Ok ins, tx') =>
          let '(c, _, d') := db_Commit commit tx' d in Some (Ok ins, c, d')
      end
  end.

(** On the SQLite database it is [InsertRecord] followed by a commit that
    takes effect or not. *)
Lemma insert_and_commit_spec commit now r (db : database) :
  insert_and_commit commit now r db
  = Some match InsertRecord now r db with
         | Err e => (Err e, Ok tt, db)
         | Ok (ins, db') => if commit then (Ok ins, Ok tt, db') else (Ok ins, Err TxCommitFailed, db)
         end.
Proof.
  rewrite /insert_and_commit /= /Tx_InsertRecord /=.
  destruct (invalid_for_insert r) eqn:E; [by rewrite /InsertRecord E|].
  destruct (InsertRecord now r db) as [[ins db']|e]; [|done]. by destruct commit.
Qed.

(** The double answers every insert as the database would; switched on, its
    commits fail and change nothing, switched off it is the database. *)
Theorem FailingDB_commits commit now r (f : FailingDB database) :
  insert_and_commit commit now r f
  = Some match InsertRecord now r (fd_inner f) with
         | Err e => (Err e, Ok tt, f)
         | Ok (ins, db') =>
             if fd_failCommit f then (Ok ins, Err TxCompleted, f)
             else if commit then (Ok ins, Ok tt, fd_with f db') else (Ok ins, Err TxCommitFailed, f)
         end.
Proof.
  rewrite /insert_and_commit /= /FailingDB_InsertRecord /= /Tx_InsertRecord /=.
  destruct (invalid_for_insert r) eqn:E; [by rewrite /InsertRecord E|].
  destruct (InsertRecord now r (fd_inner f)) as [[ins db']|e]; [|done].
  destruct f as [d b]. by destruct b, commit.
Qed.

(** A completed transaction stays completed: a second commit is refused and a
    deferred rollback does nothing. *)
Lemma Tx_completes_once ok ok' tx db :
  let '(_, tx1, db1) := Tx_Commit ok tx db in
  Tx_Commit ok' tx1 db1 = (Err TxCompleted, tx1, db1) ∧ Tx_Rollback tx1 = tx1.
Proof. rewrite /Tx_Commit. destruct (tx_tx tx) as [t|] eqn:E; [destruct ok; done|]. by rewrite /Tx_Rollback E. Qed.
End double.
