(* ===== verification/History.v ===== *)
(** * The history invariant of the record store and its abstract contract

    [history] says what a table built by the Primary looks like: contiguous
    revisions from 1 and, per key, a chain of create, update and delete rows.
    [kv_of_table] is the key-value store such a table stands for and [kv_txn]
    the compare-and-set contract; [InsertRecord] refines it on every branch. *)

From S2P Require Import Prelude Records LocalDB.

(** ** Abstract store *)

Record kv := mkKV {
  kv_create : Z;
  kv_mod : Z;
  kv_version : Z;
  kv_lease : Z;
}.

Definition kv_of_row (r : record) : kv :=
  mkKV (CreateRevision r) (Revision r) (Version r) (Lease r).

Definition kv_apply (m : gmap bytes kv) (r : record) : gmap bytes kv :=
  if Deleted r then delete (Key r) m else <[Key r := kv_of_row r]> m.

Definition kv_of_table (t : table) : gmap bytes kv := foldl kv_apply ∅ t.

(** The compare-and-set contract: at revision [rev], create, update or delete
    [k] provided its current mod revision is [expected], 0 for absent. *)
Definition kv_txn (rev : Z) (k : bytes) (create del : bool) (expected lease : Z)
    (m : gmap bytes kv) : res db_err (gmap bytes kv) :=
  match m !! k with
  | Some cur =>
      if create then Err ErrCreateKeyExists
      else if negb (expected =? kv_mod cur) then Err ErrCompareRevisionFailed
      else if del then Ok (delete k m)
      else Ok (<[k := mkKV (kv_create cur) rev (kv_version cur + 1) lease]> m)
  | None =>
      if del then Err ErrDeleteKeyNotFound
      else if negb (expected =? 0) then Err ErrCompareRevisionFailed
      else Ok (<[k := mkKV rev rev 1 lease]> m)
  end.

(** ** The invariant *)

(** What a row says given the rows before it. *)
Definition row_ok (t : table) (r : record) : Prop :=
  Key r ≠ [] ∧
  match live_for_key (Key r) t with
  | Some l =>
      Created r = false ∧ CreateRevision r = CreateRevision l ∧
      PrevRevision r = Revision l ∧
      Version r = (if Deleted r then 0 else Version l + 1)
  | None =>
      Deleted r = false ∧ CreateRevision r = Revision r ∧
      PrevRevision r = 0 ∧ Version r = 1
  end.

Inductive history : table → Prop :=
| history_nil : history []
| history_snoc t r :
    history t → Revision r = Z.of_nat (length t) + 1 → row_ok t r → history (t ++ [r]).

(** Contiguous revisions alone: what [VerifyIntegrity] is meant to detect. *)
Definition contiguous (t : table) : Prop :=
  Revision <$> t = Z.of_nat <$> seq 1 (length t).

(** A table in rowid order. *)
Definition table_wf (t : table) : Prop := StronglySorted Z.lt (Revision <$> t).

(** ** Latest row of a key *)

Lemma latest_nil k : latest_revision_for_key k [] = None.
Proof. done. Qed.

Lemma latest_snoc k t r :
  latest_revision_for_key k (t ++ [r])
  = if decide (Key r = k) then Some r else latest_revision_for_key k t.
Proof.
  rewrite /latest_revision_for_key filter_app filter_cons filter_nil.
  case_decide; [by rewrite last_snoc|by rewrite app_nil_r].
Qed.

Lemma latest_elem k t l :
  latest_revision_for_key k t = Some l → l ∈ t ∧ Key l = k.
Proof.
  rewrite /latest_revision_for_key => /last_Some [l' Hl'].
  assert (l ∈ filter (λ r, Key r = k) t) as Hin by (rewrite Hl'; set_solver).
  apply list_elem_of_filter in Hin. naive_solver.
Qed.

Lemma kv_of_table_snoc t r : kv_of_table (t ++ [r]) = kv_apply (kv_of_table t) r.
Proof. by rewrite /kv_of_table foldl_app. Qed.

(** The abstract store is the latest live row of each key. *)
Lemma kv_of_table_lookup t k :
  kv_of_table t !! k = kv_of_row <$> live_for_key k t.
Proof.
  induction t as [|r t IH] using rev_ind; [by rewrite lookup_empty|].
  rewrite kv_of_table_snoc /kv_apply /live_for_key latest_snoc.
  destruct (Deleted r) eqn:Hd; case_decide as Hk; subst.
  - by rewrite lookup_delete_eq Hd.
  - by rewrite lookup_delete_ne.
  - by rewrite lookup_insert_eq Hd.
  - by rewrite lookup_insert_ne.
Qed.

(** ** Consequences of the invariant *)

Lemma history_row t r :
  history t → r ∈ t →
  ∃ t1 t2, t = t1 ++ r :: t2 ∧ history t1 ∧ row_ok t1 r ∧
           Revision r = Z.of_nat (length t1) + 1.
Proof.
  induction 1 as [|t x Ht IH Hrev Hok]; [set_solver|].
  rewrite elem_of_app list_elem_of_singleton. intros [Hin| ->].
  - destruct (IH Hin) as (t1 & t2 & -> & ? & ? & ?).
    exists t1, (t2 ++ [x]). by rewrite -app_assoc.
  - by exists t, [].
Qed.

Lemma history_app_inv t l : history (t ++ l) → history t.
Proof.
  induction l as [|r l IH] using rev_ind; [by rewrite app_nil_r|].
  rewrite app_assoc. intros Hh. apply IH. inversion Hh as [E|t' r' ? ? ? E].
  - symmetry in E. by apply app_nil in E as [_ ?].
  - by apply app_inj_tail in E as [-> _].
Qed.

Lemma history_snoc_inv t r :
  history (t ++ [r]) → history t ∧ Revision r = Z.of_nat (length t) + 1 ∧ row_ok t r.
Proof.
  intros Hh. inversion Hh as [E|t' r' ? ? ? E].
  - symmetry in E. by apply app_nil in E as [_ ?].
  - by apply app_inj_tail in E as [-> ->].
Qed.

Lemma history_row_bound t r :
  history t → r ∈ t → 1 ≤ Revision r ≤ Z.of_nat (length t).
Proof.
  intros Ht Hr. destruct (history_row _ _ Ht Hr) as (t1 & t2 & -> & _ & _ & ->).
  rewrite length_app /=. lia.
Qed.

Lemma history_latest_table t :
  history t → latest_revision_for_table t = Z.of_nat (length t).
Proof.
  rewrite /latest_revision_for_table. destruct 1 as [|t r Ht Hr Hok]; [done|].
  rewrite last_snoc /= Hr length_app /=. lia.
Qed.

Lemma history_contiguous t : history t → contiguous t.
Proof.
  rewrite /contiguous. induction 1 as [|t r Ht IH Hr Hok]; [done|].
  rewrite fmap_app IH length_app /= seq_app fmap_app /= Hr. do 2 f_equal; lia.
Qed.

Lemma history_unique t a b :
  history t → a ∈ t → b ∈ t → Revision a = Revision b → a = b.
Proof.
  intros Ht Ha Hb Hab.
  destruct (history_row _ _ Ht Ha) as (a1 & a2 & E1 & _ & _ & Ra).
  destruct (history_row _ _ Ht Hb) as (b1 & b2 & E2 & _ & _ & Rb).
  assert (t !! length a1 = Some a) as Ia by (rewrite E1; by apply list_lookup_middle).
  assert (t !! length b1 = Some b) as Ib by (rewrite E2; by apply list_lookup_middle).
  assert (length a1 = length b1) as Hlen by lia. congruence.
Qed.

Lemma history_latest_max t k l r :
  history t → latest_revision_for_key k t = Some l → r ∈ t → Key r = k →
  Revision r ≤ Revision l.
Proof.
  induction 1 as [|t x Ht IH Hrev Hok]; [set_solver|].
  rewrite latest_snoc. case_decide as Hk.
  - intros [= <-] Hr _. apply elem_of_app in Hr as [Hr|Hr]; [|set_solver].
    pose proof (history_row_bound _ _ Ht Hr). lia.
  - intros Hl Hr ?. apply elem_of_app in Hr as [Hr|Hr]; [by apply IH|set_solver].
Qed.

Lemma history_create_le t r : history t → r ∈ t → CreateRevision r ≤ Revision r.
Proof.
  intros Ht. revert r. induction Ht as [|t x Ht IH Hrev Hok]; intros r; [set_solver|].
  rewrite elem_of_app list_elem_of_singleton. intros [?| ->]; [by apply IH|].
  destruct Hok as [_ Hok]. unfold live_for_key in Hok.
  destruct (latest_revision_for_key (Key x) t) as [l|] eqn:Hl; [|naive_solver lia].
  destruct (latest_elem _ _ _ Hl) as [Hin _].
  pose proof (history_row_bound _ _ Ht Hin). specialize (IH l Hin).
  destruct (Deleted l); naive_solver lia.
Qed.

Lemma live_for_key_spec k t l :
  live_for_key k t = Some l ↔ latest_revision_for_key k t = Some l ∧ Deleted l = false.
Proof.
  rewrite /live_for_key. destruct (latest_revision_for_key k t) as [x|]; [|naive_solver].
  destruct (Deleted x) eqn:Hx; (split; [intros ?|intros [? ?]]); simplify_eq; done || congruence.
Qed.

(** A row that continues the history clashes with no earlier row. *)
Lemma history_no_clash t r :
  history t → Revision r = Z.of_nat (length t) + 1 → row_ok t r →
  existsb (λ x, Revision x =? Revision r) t = false ∧ existsb (index_clash r) t = false.
Proof.
  intros Ht Hrev [_ Hok]. split; apply not_true_iff_false; rewrite existsb_exists.
  - intros (x & Hx%list_elem_of_In & E%Z.eqb_eq).
    pose proof (history_row_bound _ _ Ht Hx). lia.
  - intros (x & Hx%list_elem_of_In & E). rewrite /index_clash in E. bool_to_prop.
    pose proof (history_row_bound _ _ Ht Hx) as Hb.
    pose proof (history_create_le _ _ Ht Hx) as Hc.
    destruct (live_for_key (Key r) t) as [l|] eqn:Hl; [|naive_solver lia].
    apply live_for_key_spec in Hl as [Hl Hld].
    destruct (latest_elem _ _ _ Hl) as [Hin Hlk].
    pose proof (history_latest_max _ _ _ x Ht Hl Hx ltac:(done)) as Hmax.
    pose proof (history_row_bound _ _ Ht Hin) as Hlb.
    destruct (history_row _ _ Ht Hx) as (t1 & t2 & E & Ht1 & [_ Hok1] & Hr1).
    destruct (live_for_key (Key x) t1) as [l1|] eqn:Hl1; [|naive_solver lia].
    apply live_for_key_spec in Hl1 as [Hl1 _].
    destruct (latest_elem _ _ _ Hl1) as [Hin1 _].
    pose proof (history_row_bound _ _ Ht1 Hin1). naive_solver lia.
Qed.

Lemma insert_row_end t r :
  history t → Revision r = Z.of_nat (length t) + 1 → insert_row r t = t ++ [r].
Proof.
  intros Ht Hr. rewrite /insert_row filter_all ?filter_none // => x Hx;
    pose proof (history_row_bound _ _ Ht Hx); lia.
Qed.

(** ** InsertRecord *)

(** Where [InsertRecord] accepts, the inserted row. *)
Definition inserted_row (now : Z) (rec : record) (t : table) : record :=
  let v := insertRecordSQL rec now t in
  mkRecord (Revision rec) (Key rec) (Created rec) (Deleted rec) (v_create_revision v)
    (PrevRevision rec) (v_version v) (Lease rec) (Dek rec) (Value rec) (Some now) None
    (LeaderId rec) None 0.

(** The error [InsertRecord] answers a valid record with, by the live row. *)
Definition insert_verdict (rec : record) (live : option record) : option db_err :=
  match live with
  | Some l =>
      if Created rec then Some ErrCreateKeyExists
      else if negb (PrevRevision rec =? Revision l) then Some ErrCompareRevisionFailed
      else None
  | None =>
      if Deleted rec then Some ErrDeleteKeyNotFound
      else if negb (PrevRevision rec =? 0) then Some ErrCompareRevisionFailed
      else None
  end.

Lemma invalid_for_insert_false r :
  invalid_for_insert r = false →
  0 < Revision r ∧ Key r ≠ [] ∧ 0 ≤ PrevRevision r ∧ (Created r && Deleted r)%bool = false.
Proof. rewrite /invalid_for_insert => Hv. bool_to_prop. by rewrite H0. Qed.

Lemma deleted_latest k t :
  (Deleted <$> latest_revision_for_key k t = Some false) ↔ is_Some (live_for_key k t).
Proof.
  rewrite /live_for_key. destruct (latest_revision_for_key k t) as [l|]; simpl.
  - destruct (Deleted l); split; [done|by intros []|by eauto|done].
  - split; [done|by intros []].
Qed.

Lemma inserted_row_ok now rec t :
  history t → invalid_for_insert rec = false →
  Revision rec = Z.of_nat (length t) + 1 →
  insert_verdict rec (live_for_key (Key rec) t) = None →
  row_ok t (inserted_row now rec t).
Proof.
  intros Ht (? & Hk & ? & Hcd)%invalid_for_insert_false Hrev Hv.
  split; [done|]. rewrite /inserted_row /=.
  destruct (live_for_key (Key rec) t) as [l|] eqn:Hl; simpl in *.
  - apply live_for_key_spec in Hl as [-> ?].
    destruct (Created rec); [done|]. simpl.
    destruct (PrevRevision rec =? Revision l) eqn:?; [|done]. bool_to_prop.
    by repeat split.
  - destruct (Deleted rec) eqn:Hd; [done|].
    destruct (PrevRevision rec =? 0) eqn:?; [|done]. bool_to_prop.
    rewrite (history_latest_table t Ht).
    rewrite /live_for_key in Hl.
    destruct (latest_revision_for_key (Key rec) t) as [l|] eqn:Hll; simpl; [|repeat split; lia].
    destruct (Deleted l) eqn:Hdl; [|done].
    destruct (latest_elem _ _ _ Hll) as [Hin _].
    destruct (history_row _ _ Ht Hin) as (t1 & t2 & _ & _ & [_ Hok] & _).
    rewrite Hdl in Hok. destruct (live_for_key (Key l) t1); [|naive_solver].
    destruct Hok as (_ & _ & _ & ->). repeat split; lia.
Qed.

(** The nullable columns of the statement, by the live row of the key. *)
Lemma insert_created now rec t :
  v_created (insertRecordSQL rec now t)
  = if Created rec && bool_decide (is_Some (live_for_key (Key rec) t)) then None
    else Some (Created rec).
Proof.
  simpl. destruct (Created rec); [|done]. simpl.
  rewrite (bool_decide_ext _ _ (iff_sym (deleted_latest (Key rec) t))).
  rewrite bool_decide_decide. by case_decide.
Qed.

Lemma insert_deleted now rec t :
  v_deleted (insertRecordSQL rec now t)
  = if Deleted rec && negb (bool_decide (is_Some (live_for_key (Key rec) t))) then None
    else Some (Deleted rec).
Proof.
  simpl. destruct (Deleted rec); [|done]. simpl.
  rewrite (bool_decide_ext _ _ (iff_sym (deleted_latest (Key rec) t))).
  rewrite bool_decide_decide. by case_decide.
Qed.

Lemma insert_prev now rec t :
  history t → 0 ≤ PrevRevision rec →
  v_prev_revision (insertRecordSQL rec now t)
  = if PrevRevision rec =? default 0 (Revision <$> live_for_key (Key rec) t)
    then Some (PrevRevision rec) else None.
Proof.
  intros Ht Hp. simpl. destruct (0 <? PrevRevision rec) eqn:E; [done|]. bool_to_prop.
  destruct (live_for_key (Key rec) t) as [l|] eqn:Hl; simpl.
  - apply live_for_key_spec in Hl as [[Hin _]%latest_elem _].
    pose proof (history_row_bound _ _ Ht Hin).
    destruct (Z.ltb_spec 0 (Revision l)), (Z.eqb_spec (PrevRevision rec) (Revision l)); lia || done.
  - replace (PrevRevision rec) with 0 by lia. done.
Qed.

(** An accepted record passes every NOT NULL constraint. *)
Lemma insert_verdict_none now rec t :
  history t → 0 ≤ PrevRevision rec →
  insert_verdict rec (live_for_key (Key rec) t) = None →
  v_created (insertRecordSQL rec now t) = Some (Created rec) ∧
  v_deleted (insertRecordSQL rec now t) = Some (Deleted rec) ∧
  v_prev_revision (insertRecordSQL rec now t) = Some (PrevRevision rec).
Proof.
  intros Ht Hp. rewrite insert_created insert_deleted insert_prev //.
  destruct (live_for_key (Key rec) t) as [l|]; simpl.
  - destruct (Created rec), (PrevRevision rec =? Revision l); try done.
    by rewrite andb_false_r.
  - destruct (Deleted rec), (PrevRevision rec =? 0); try done.
    by rewrite andb_false_r.
Qed.

Lemma sql_insert_ok v t k c d p r :
  v_key v = Some k → v_created v = Some c → v_deleted v = Some d →
  v_prev_revision v = Some p →
  r = mkRecord (v_revision v) k c d (v_create_revision v) p (v_version v)
        (v_lease v) (v_dek v) (v_value v) (v_created_at v) (v_compacted_at v)
        (v_leader_id v) (v_replicated_at v) 0 →
  existsb (λ x, Revision x =? Revision r) t = false → existsb (index_clash r) t = false →
  sql_insert v t = Ok (r, insert_row r t).
Proof. intros Hk Hc Hd Hp -> H1 H2. rewrite /sql_insert Hk Hc Hd Hp. by rewrite H1 H2. Qed.

(** [InsertRecord] on every branch, for a valid record at the next revision. *)
Lemma InsertRecord_spec now rec db :
  history (rows db) → invalid_for_insert rec = false →
  Revision rec = LatestRevision db + 1 →
  InsertRecord now rec db
  = match insert_verdict rec (live_for_key (Key rec) (rows db)) with
    | Some e => Err e
    | None => Ok (inserted_row now rec (rows db),
                  set_rows (rows db ++ [inserted_row now rec (rows db)]) db)
    end.
Proof.
  rewrite /LatestRevision => Ht Hi. rewrite history_latest_table // => Hrev.
  destruct (invalid_for_insert_false _ Hi) as (Hpos & Hk & Hp & Hcd).
  assert (v_key (insertRecordSQL rec now (rows db)) = Some (Key rec)) as HK.
  { simpl. by destruct (Key rec). }
  rewrite /InsertRecord Hi.
  destruct (insert_verdict rec _) as [e|] eqn:Hv.
  - rewrite /sql_insert HK insert_created insert_deleted insert_prev //.
    destruct (live_for_key (Key rec) (rows db)) as [l|]; simpl in Hv |- *.
    + destruct (Created rec); simplify_eq/=; [done|].
      destruct (PrevRevision rec =? Revision l); simplify_eq/=. by rewrite andb_false_r.
    + destruct (Deleted rec); simplify_eq/=; [by rewrite andb_false_r|].
      destruct (PrevRevision rec =? 0); simplify_eq/=. by rewrite andb_false_r.
  - destruct (insert_verdict_none now _ _ Ht Hp Hv) as (Hc & Hd & Hpr).
    destruct (history_no_clash _ (inserted_row now rec (rows db)) Ht Hrev
                (inserted_row_ok now _ _ Ht Hi Hrev Hv)) as [H1 H2].
    rewrite (sql_insert_ok _ _ _ _ _ _ (inserted_row now rec (rows db)) HK Hc Hd Hpr) //.
    rewrite insert_row_end //. by replace (Revision _ <? 1) with false by (simpl; lia).
Qed.

Lemma inserted_row_history now rec db :
  history (rows db) → invalid_for_insert rec = false →
  Revision rec = LatestRevision db + 1 →
  insert_verdict rec (live_for_key (Key rec) (rows db)) = None →
  history (rows db ++ [inserted_row now rec (rows db)]).
Proof.
  rewrite /LatestRevision => Ht Hi. rewrite history_latest_table // => Hrev Hv.
  constructor; [done|done|]. by apply inserted_row_ok.
Qed.

(** ** Tables in rowid order *)

Lemma history_wf t : history t → table_wf t.
Proof.
  rewrite /table_wf. induction 1 as [|t r Ht IH Hr Hok]; [constructor|].
  rewrite fmap_app. apply StronglySorted_app. split; [|split; [done|]].
  - intros x y (a & -> & Ha)%list_elem_of_fmap (b & -> & Hb)%list_elem_of_fmap.
    apply list_elem_of_singleton in Hb as ->.
    pose proof (history_row_bound _ _ Ht Ha). lia.
  - repeat constructor.
Qed.

Lemma table_wf_snoc t r :
  table_wf (t ++ [r]) ↔ table_wf t ∧ ∀ x, x ∈ t → Revision x < Revision r.
Proof.
  rewrite /table_wf fmap_app StronglySorted_app. split.
  - intros (Hlt & Ht & _). split; [done|]. intros x Hx.
    apply Hlt; [by apply list_elem_of_fmap_2|set_solver].
  - intros [Ht Hlt]. split; [|split; [done|repeat constructor]].
    intros x y (a & -> & Ha)%list_elem_of_fmap (b & -> & Hb)%list_elem_of_fmap.
    apply list_elem_of_singleton in Hb as ->. by apply Hlt.
Qed.

Lemma wf_latest_max t k l x :
  table_wf t → latest_revision_for_key k t = Some l → x ∈ t → Key x = k →
  Revision x ≤ Revision l.
Proof.
  induction t as [|r t IH] using rev_ind; [set_solver|].
  rewrite table_wf_snoc latest_snoc. intros [Ht Hlt] Hl Hx Hk.
  apply elem_of_app in Hx as [Hx|Hx%list_elem_of_singleton].
  - case_decide; [|by apply IH]. simplify_eq. specialize (Hlt _ Hx). lia.
  - subst. by rewrite decide_True in Hl; simplify_eq.
Qed.

Lemma wf_unique t a b :
  table_wf t → a ∈ t → b ∈ t → Revision a = Revision b → a = b.
Proof.
  induction t as [|r t IH] using rev_ind; [set_solver|].
  rewrite table_wf_snoc !elem_of_app !list_elem_of_singleton.
  intros [Ht Hlt] [Ha| ->] [Hb| ->] E; auto.
  - specialize (Hlt _ Ha). lia.
  - specialize (Hlt _ Hb). lia.
Qed.

Lemma latest_is_Some t x : x ∈ t → is_Some (latest_revision_for_key (Key x) t).
Proof.
  intros Hx. rewrite /latest_revision_for_key. apply last_is_Some.
  intros E. assert (x ∈ filter (λ r, Key r = Key x) t) as Hin
    by by apply list_elem_of_filter. rewrite E in Hin. set_solver.
Qed.

Lemma wf_latest_iff t x :
  table_wf t → x ∈ t →
  latest_revision_for_key (Key x) t = Some x ↔
  ∀ y, y ∈ t → Key y = Key x → Revision y ≤ Revision x.
Proof.
  intros Ht Hx. split; [intros Hl y Hy Hk; by eapply wf_latest_max|].
  intros Hmax. destruct (latest_is_Some t x Hx) as [l Hl]. rewrite Hl. f_equal.
  destruct (latest_elem _ _ _ Hl) as [Hin Hk].
  pose proof (wf_latest_max _ _ _ _ Ht Hl Hx eq_refl). specialize (Hmax _ Hin Hk).
  apply (wf_unique t); [done..|lia].
Qed.

Lemma table_wf_filter P `{∀ x, Decision (P x)} t : table_wf t → table_wf (filter P t).
Proof.
  induction t as [|r t IH] using rev_ind; [done|].
  rewrite table_wf_snoc filter_app. intros [Ht Hlt].
  rewrite filter_cons filter_nil. case_decide; [|rewrite app_nil_r; by apply IH].
  apply table_wf_snoc. split; [by apply IH|].
  intros x [_ Hx]%list_elem_of_filter. by apply Hlt.
Qed.

(** ** Row updates that keep the linking columns *)

Definition same_links (r r' : record) : Prop :=
  Revision r' = Revision r ∧ Key r' = Key r ∧ Created r' = Created r ∧
  Deleted r' = Deleted r ∧ CreateRevision r' = CreateRevision r ∧
  PrevRevision r' = PrevRevision r ∧ Version r' = Version r ∧ Lease r' = Lease r.

Section row_update.
  Context (f : record → record).
  Hypothesis Hf : ∀ r, same_links r (f r).

Lemma latest_map k t : latest_revision_for_key k (f <$> t) = f <$> latest_revision_for_key k t.
Proof using Hf.
  induction t as [|r t IH] using rev_ind; [done|].
  rewrite fmap_app !latest_snoc. destruct (Hf r) as (_ & -> & _).
  by case_decide.
Qed.

Lemma live_map k t : live_for_key k (f <$> t) = f <$> live_for_key k t.
Proof using Hf.
  rewrite /live_for_key latest_map.
  destruct (latest_revision_for_key k t) as [l|]; simpl; [|done].
  destruct (Hf l) as (_ & _ & _ & -> & _). by destruct (Deleted l).
Qed.

Lemma history_map t : history t → history (f <$> t).
Proof using Hf.
  induction 1 as [|t r Ht IH Hr Hok]; [constructor|].
  rewrite fmap_app. constructor; [done| |].
  - destruct (Hf r) as (-> & _). by rewrite Hr length_fmap.
  - destruct (Hf r) as (E1 & E2 & E3 & E4 & E5 & E6 & E7 & _).
    rewrite /row_ok E1 E2 E3 E4 E5 E6 E7 live_map. destruct Hok as [Hk Hok].
    split; [done|]. destruct (live_for_key (Key r) t) as [l|]; simpl; [|done].
    destruct (Hf l) as (-> & _ & _ & _ & -> & _ & -> & _). done.
Qed.

Lemma kv_of_table_map t : kv_of_table (f <$> t) = kv_of_table t.
Proof using Hf.
  induction t as [|r t IH] using rev_ind; [done|].
  rewrite fmap_app !kv_of_table_snoc IH /kv_apply /kv_of_row.
  by destruct (Hf r) as (-> & -> & _ & -> & -> & _ & -> & ->).
Qed.

Lemma table_wf_map t : table_wf t → table_wf (f <$> t).
Proof using Hf.
  rewrite /table_wf -list_fmap_compose. intros Ht.
  replace (Revision ∘ f <$> t) with (Revision <$> t); [done|].
  apply list_fmap_ext => i x _ /=. by destruct (Hf x) as (-> & _).
Qed.
End row_update.

#[export] Hint Resolve history_wf history_contiguous table_wf_filter : netsy.

(** Updating only the rows past a point. *)
Lemma history_app_map f t l :
  (∀ r, same_links r (f r)) → history (t ++ l) → history (t ++ (f <$> l)).
Proof.
  intros Hf. induction l as [|r l IH] using rev_ind; [done|].
  rewrite fmap_app !app_assoc. intros (Ht & Hr & Hok)%history_snoc_inv.
  specialize (IH Ht). pose (g := λ x, if Revision x <=? Z.of_nat (length t) then x else f x).
  assert (∀ x, same_links x (g x)) as Hg.
  { intros x. rewrite /g. by destruct (Revision x <=? _). }
  assert (t ++ (f <$> l) = g <$> (t ++ l)) as E.
  { rewrite fmap_app. f_equal.
    - rewrite -{1}(list_fmap_id t). apply list_fmap_ext. intros i x Hx. rewrite /g.
      pose proof (history_row_bound _ _ (history_app_inv _ _ Ht) (list_elem_of_lookup_2 _ _ _ Hx)).
      by rewrite (proj2 (Z.leb_le _ _)); [lia|].
    - apply list_fmap_ext. intros i x Hx. rewrite /g.
      assert (Revision x = Z.of_nat (length t + i) + 1) as Hrx.
      { pose proof (history_contiguous _ Ht) as Hc. rewrite /contiguous in Hc.
        assert ((Revision <$> t ++ l) !! (length t + i)%nat = Some (Revision x)) as Hlk.
        { rewrite list_lookup_fmap lookup_app_r; [lia|].
          by rewrite (_ : (_ + _ - _)%nat = i) ?Hx; [lia|]. }
        rewrite Hc list_lookup_fmap in Hlk. apply fmap_Some in Hlk as (k & Hk & ->).
        apply lookup_seq in Hk as [-> _]. lia. }
      by rewrite (proj2 (Z.leb_gt _ _)); [lia|]. }
  constructor; [done| |].
  - destruct (Hf r) as (-> & _). by rewrite Hr !length_app length_fmap.
  - destruct (Hf r) as (E1 & E2 & E3 & E4 & E5 & E6 & E7 & _).
    rewrite /row_ok E1 E2 E3 E4 E5 E6 E7 E (live_map g Hg). destruct Hok as [Hk Hok].
    split; [done|]. destruct (live_for_key (Key r) (t ++ l)) as [y|]; simpl; [|done].
    destruct (Hg y) as (-> & _ & _ & _ & -> & _ & -> & _). done.
Qed.

Lemma history_tail_bound t l x : history (t ++ l) → x ∈ l → Z.of_nat (length t) < Revision x.
Proof.
  induction l as [|r l IH] using rev_ind; [by intros _ ?%elem_of_nil|].
  rewrite app_assoc. intros (Ht & Hr & _)%history_snoc_inv [Hx| ->%list_elem_of_singleton]%elem_of_app.
  - by apply IH.
  - rewrite Hr length_app. lia.
Qed.

(** Rewriting a middle segment without touching the links. *)
Lemma history_map_middle f t l k :
  (∀ r, same_links r (f r)) →
  history (t ++ l ++ k) → history (t ++ (f <$> l) ++ k).
Proof.
  intros Hf Hh. pose (g := λ x, if Revision x <=? Z.of_nat (length (t ++ l)) then f x else x).
  assert (g <$> (l ++ k) = (f <$> l) ++ k) as <-.
  { rewrite fmap_app. rewrite app_assoc in Hh. pose proof (history_app_inv _ _ Hh) as Hl. f_equal.
    - apply list_fmap_ext. intros i x Hx. rewrite /g.
      assert (x ∈ t ++ l) as Hin by (apply elem_of_app; right; by eapply list_elem_of_lookup_2).
      pose proof (history_row_bound _ _ Hl Hin).
      destruct (Z.leb_spec (Revision x) (Z.of_nat (length (t ++ l)))); [done|lia].
    - rewrite -{2}(list_fmap_id k). apply list_fmap_ext. intros i x Hx. rewrite /g.
      pose proof (history_tail_bound _ _ x Hh (list_elem_of_lookup_2 _ _ _ Hx)).
      destruct (Z.leb_spec (Revision x) (Z.of_nat (length (t ++ l)))); [lia|done]. }
  apply history_app_map; [|done]. intros r. rewrite /g. by case_match.
Qed.

Lemma same_links_trans a b c : same_links a b → same_links b c → same_links a c.
Proof.
  intros (? & ? & ? & ? & ? & ? & ? & ?) (? & ? & ? & ? & ? & ? & ? & ?). split_and!; congruence.
Qed.

Lemma same_links_compact now r : same_links r (compact_row now r).
Proof. done. Qed.

(** The row update of [ExecuteCompaction] on table [t]. *)
Definition compact_update (now c : Z) (t : table) (r : record) : record :=
  if compactable t c r then compact_row now r else r.

Lemma same_links_compact_update now c t r : same_links r (compact_update now c t r).
Proof. rewrite /compact_update. by destruct (compactable t c r). Qed.

Lemma ExecuteCompaction_rows now c db :
  rows (ExecuteCompaction now c db).2
  = if c <=? 0 then rows db else compact_update now c (rows db) <$> rows db.
Proof. rewrite /ExecuteCompaction. by destruct (c <=? 0). Qed.

(** The current row of a live key is never compacted. *)
Lemma live_not_compactable t c k l :
  table_wf t → live_for_key k t = Some l → compactable t c l = false.
Proof.
  intros Ht [Hl Hd]%live_for_key_spec. destruct (latest_elem _ _ _ Hl) as [Hin Hk].
  rewrite /compactable Hd orb_false_l. apply andb_false_iff. right.
  apply existsb_false => x Hx. apply andb_false_iff.
  destruct (bool_decide (Key x = Key l)) eqn:E; [right|by left]. bool_to_prop.
  apply Z.ltb_ge. apply (wf_latest_max t k); congruence || done.
Qed.

Lemma live_after_compaction t now c k :
  table_wf t → live_for_key k (compact_update now c t <$> t) = live_for_key k t.
Proof.
  intros Ht. rewrite (live_map _ (same_links_compact_update now c t)).
  destruct (live_for_key k t) as [l|] eqn:Hl; simpl; [|done].
  by rewrite /compact_update (live_not_compactable t c k l).
Qed.

(** ** Deciding the invariant *)

#[export] Instance row_ok_dec t r : Decision (row_ok t r).
Proof. rewrite /row_ok. destruct (live_for_key (Key r) t); apply _. Defined.

Fixpoint history_check (t l : table) : bool :=
  match l with
  | [] => true
  | r :: l' =>
      bool_decide (Revision r = Z.of_nat (length t) + 1) && bool_decide (row_ok t r)
      && history_check (t ++ [r]) l'
  end.

Lemma history_check_sound t l : history t → history_check t l = true → history (t ++ l).
Proof.
  revert t; induction l as [|r l IH]; intros t Ht; simpl; [by rewrite app_nil_r|].
  intros Hc. bool_to_prop. rewrite cons_middle app_assoc. apply IH; [|done].
  by constructor.
Qed.

Lemma history_by_check t : history_check [] t = true → history t.
Proof. apply (history_check_sound []). constructor. Qed.

(** A table with the same links row by row is a history too. *)
Lemma history_Forall2 t t' : history t → Forall2 same_links t t' → history t'.
Proof.
  intros Ht HF.
  pose (f := λ r, if decide (r ∈ t) then default r (t' !! Z.to_nat (Revision r - 1)) else r).
  assert (∀ i r, t !! i = Some r → t' !! i = Some (f r)) as Hf.
  { intros i r Hi. rewrite /f decide_True; [by eapply list_elem_of_lookup_2|].
    assert (Revision r = Z.of_nat i + 1) as ->.
    { pose proof (history_contiguous _ Ht) as Hc. rewrite /contiguous in Hc.
      assert ((Revision <$> t) !! i = Some (Revision r)) as E by (by rewrite list_lookup_fmap Hi).
      rewrite Hc list_lookup_fmap in E. apply fmap_Some in E as (k & E & ->).
      apply lookup_seq in E as [-> _]. lia. }
    replace (Z.to_nat (Z.of_nat i + 1 - 1)) with i by lia.
    destruct (Forall2_lookup_l _ _ _ _ _ HF Hi) as (x & -> & _). done. }
  assert (t' = f <$> t) as E.
  { apply list_eq. intros i. rewrite list_lookup_fmap. destruct (t !! i) as [r|] eqn:Hi.
    - by rewrite (Hf i r Hi).
    - apply lookup_ge_None in Hi. apply lookup_ge_None. by rewrite -(Forall2_length _ _ _ HF). }
  rewrite E. apply (history_app_map f [] t); [|done]. intros r. rewrite /f. case_decide as Hr; [|done].
  apply list_elem_of_lookup in Hr as [i Hi]. specialize (Hf i r Hi). rewrite /f decide_True in Hf.
  { by eapply list_elem_of_lookup_2. }
  destruct (Forall2_lookup_l _ _ _ _ _ HF Hi) as (x & Hx & Hs). rewrite Hx in Hf. by injection Hf as <-.
Qed.
