(* ===== verification/Examples.v ===== *)
(** * Concrete tables on which the theorems' hypotheses are evaluated *)

From S2P Require Import Prelude Records LocalDB History.

(** Keys "/a" and "/b". *)
Definition key_a : bytes := [Byte.x2f; Byte.x61].
Definition key_b : bytes := [Byte.x2f; Byte.x62].

(** A record as [ParseTxnRequest] and [LeaderTxn] hand it to [InsertRecord]. *)
Definition txn_record (rev : Z) (k : bytes) (created deleted : bool) (prev : Z)
    (v : option bytes) : record :=
  mkRecord rev k created deleted 0 prev 0 0 0 v None None "n1" None 0.

Definition insert_or (now : Z) (rec : record) (db : database) : database :=
  match InsertRecord now rec db with Ok (_, db') => db' | Err _ => db end.

(** /a created, /b created, /a updated, /b deleted. *)
Definition example_db : database :=
  insert_or 40 (txn_record 4 key_b false true 2 None)
    (insert_or 30 (txn_record 3 key_a false false 1 (Some [Byte.x32]))
      (insert_or 20 (txn_record 2 key_b true false 0 (Some [Byte.x31]))
        (insert_or 10 (txn_record 1 key_a true false 0 (Some [Byte.x31])) (mkDB [] [])))).

(** The next write: /b created again. *)
Definition example_next : record := txn_record 5 key_b true false 0 (Some [Byte.x33]).

Lemma example_db_history : history (rows example_db).
Proof. apply history_by_check. vm_compute. reflexivity. Qed.

(** LIKE as documented, on every byte. *)
Definition ascii_like : SqlLike.
Proof. refine {| sql_like := like_ascii |}. done. Defined.
