(* ===== verification/LocalDBTheorems.v ===== *)
(** * Theorems on the record store: insert, compaction, replication, integrity *)

From S2P Require Import Prelude Records LocalDB History Examples.

(** ** Insert *)

(** [InsertRecord] at the next revision keeps the history invariant:
    contiguous revisions from 1 and a well-linked chain of rows per key. *)
Theorem InsertRecord_history now rec db r db' :
  history (rows db) → Revision rec = LatestRevision db + 1 →
  InsertRecord now rec db = Ok (r, db') →
  history (rows db') ∧ rows db' = rows db ++ [r].
Proof.
  intros Ht Hrev. destruct (invalid_for_insert rec) eqn:Hi.
  { by rewrite /InsertRecord Hi. }
  rewrite InsertRecord_spec //. destruct (insert_verdict rec _) eqn:Hv; [done|].
  intros [= <- <-]. split; [|done]. by apply inserted_row_history.
Qed.

Lemma InsertRecord_history_witness :
  ∃ r db', InsertRecord 50 example_next example_db = Ok (r, db') ∧
    history (rows db') ∧ rows db' = rows example_db ++ [r].
Proof.
  eexists _, _. split; [vm_compute; reflexivity|].
  apply (InsertRecord_history 50 example_next example_db);
    [exact example_db_history|vm_compute; reflexivity|vm_compute; reflexivity].
Defined.

Lemma InsertRecord_kv now rec db :
  history (rows db) → Revision rec = LatestRevision db + 1 →
  invalid_for_insert rec = false →
  kv_txn (Revision rec) (Key rec) (Created rec) (Deleted rec) (PrevRevision rec) (Lease rec)
    (kv_of_table (rows db))
  = match InsertRecord now rec db with
    | Ok (_, db') => Ok (kv_of_table (rows db'))
    | Err e => Err e
    end.
Proof.
  intros Ht Hrev Hi. rewrite InsertRecord_spec // /kv_txn kv_of_table_lookup.
  pose proof (inserted_row_history now rec db Ht Hi Hrev) as Hh.
  assert (Hr : insert_verdict rec (live_for_key (Key rec) (rows db)) = None →
    row_ok (rows db) (inserted_row now rec (rows db))).
  { apply inserted_row_ok; [done|done|]. by rewrite Hrev /LatestRevision history_latest_table. }
  destruct (live_for_key (Key rec) (rows db)) as [l|] eqn:Hl;
    cbn [fmap option_fmap option_map insert_verdict kv_of_row kv_mod kv_create kv_version] in *.
  - destruct (Created rec) eqn:HC; [done|].
    destruct (negb (PrevRevision rec =? Revision l)); [done|].
    rewrite kv_of_table_snoc /kv_apply. destruct (Hr eq_refl) as [_ Hok].
    change (Key (inserted_row now rec (rows db))) with (Key rec) in *.
    change (Deleted (inserted_row now rec (rows db))) with (Deleted rec) in *.
    rewrite Hl in Hok. destruct Hok as (_ & Hcr & _ & Hver).
    destruct (Deleted rec); [done|]. by rewrite /kv_of_row Hcr Hver.
  - destruct (Deleted rec) eqn:HD; [done|].
    destruct (negb (PrevRevision rec =? 0)); [done|].
    rewrite kv_of_table_snoc /kv_apply. destruct (Hr eq_refl) as [_ Hok].
    change (Key (inserted_row now rec (rows db))) with (Key rec) in *.
    change (Deleted (inserted_row now rec (rows db))) with (Deleted rec) in *.
    rewrite Hl in Hok. destruct Hok as (_ & Hcr & _ & Hver).
    by rewrite HD /kv_of_row Hcr Hver.
Qed.



(** ** Compaction *)

(** Compaction is invisible to current reads: it keeps the history
    invariant, the abstract store, and for every live key its whole current
    row, value included. *)
Theorem ExecuteCompaction_current now c db :
  history (rows db) →
  let t' := rows (ExecuteCompaction now c db).2 in
  history t' ∧ kv_of_table t' = kv_of_table (rows db) ∧
  ∀ k, live_for_key k t' = live_for_key k (rows db).
Proof.
  intros Ht. rewrite ExecuteCompaction_rows. destruct (c <=? 0); [done|].
  split; [apply history_map; [apply same_links_compact_update|done]|].
  split; [apply kv_of_table_map, same_links_compact_update|].
  intros k. apply live_after_compaction; auto with netsy.
Qed.

Lemma ExecuteCompaction_current_witness :
  (ExecuteCompaction 60 3 example_db).1 = 2 ∧
  kv_of_table (rows (ExecuteCompaction 60 3 example_db).2) = kv_of_table (rows example_db).
Proof.
  split; [vm_compute; reflexivity|].
  apply (ExecuteCompaction_current 60 3 example_db). exact example_db_history.
Defined.

Lemma compactable_after now c db x :
  0 < c → x ∈ rows (ExecuteCompaction now c db).2 →
  compactable (rows (ExecuteCompaction now c db).2) c x = false.
Proof.
  intros Hc. rewrite ExecuteCompaction_rows. destruct (c <=? 0) eqn:?; [bool_to_prop; lia|].
  intros (y & -> & Hy)%list_elem_of_fmap.
  destruct (same_links_compact_update now c (rows db) y) as (E1 & E2 & _ & E4 & _).
  rewrite /compactable E1 E2 E4. destruct (compactable (rows db) c y) eqn:Hcy.
  - assert (compact_update now c (rows db) y = compact_row now y) as ->
      by by rewrite /compact_update Hcy.
    by rewrite /= andb_false_r.
  - assert (compact_update now c (rows db) y = y) as -> by by rewrite /compact_update Hcy.
    rewrite -Hcy /compactable. do 2 f_equal. apply existsb_fmap => z.
    by destruct (same_links_compact_update now c (rows db) z) as (-> & -> & _).
Qed.

(** After a compaction at [c] every superseded or deleted row at or below
    [c] is marked compacted, and repeating it at any revision up to [c] changes
    no row. *)
Theorem ExecuteCompaction_complete now now' c c' db :
  0 < c → c' ≤ c →
  let db' := (ExecuteCompaction now c db).2 in
  (∀ r, r ∈ rows db' → Revision r ≤ c →
   (Deleted r = true ∨ ∃ n, n ∈ rows db' ∧ Key n = Key r ∧ Revision r < Revision n) →
   CompactedAt r ≠ None) ∧
  ExecuteCompaction now' c' db' = (0, db').
Proof.
  intros Hc Hc' db'. pose proof (λ x, compactable_after now c db x Hc) as Hno.
  fold db' in Hno. split.
  - intros r Hr Hrc Hdn HN. specialize (Hno r Hr). rewrite /compactable HN in Hno.
    rewrite (proj2 (Z.leb_le _ _) Hrc) /= in Hno. apply orb_false_iff in Hno as [Hd Hn].
    destruct Hdn as [Hdn|(n & Hin & Hk & Hlt)]; [congruence|].
    rewrite existsb_false in Hn. specialize (Hn n Hin). bool_to_prop.
    rewrite bool_decide_eq_true_2 // in Hn. simpl in Hn. bool_to_prop. lia.
  - rewrite /ExecuteCompaction. destruct (c' <=? 0); [done|].
    assert (Hno' : ∀ x, x ∈ rows db' → compactable (rows db') c' x = false).
    { intros x Hx. specialize (Hno x Hx). rewrite /compactable in Hno |- *.
      destruct (Revision x <=? c') eqn:E; [|done]. bool_to_prop.
      by replace (Revision x <=? c) with true in Hno by lia. }
    rewrite filter_none; [by intros x Hx; rewrite Hno'|].
    f_equal. rewrite /set_rows. destruct db' as [t cs]; simpl in *. f_equal.
    transitivity (map id t); [|apply map_id]. apply map_ext_in => x /list_elem_of_In Hx. by rewrite Hno'.
Qed.

Lemma ExecuteCompaction_complete_witness :
  ExecuteCompaction 70 2 (ExecuteCompaction 60 3 example_db).2
  = (0, (ExecuteCompaction 60 3 example_db).2).
Proof. apply (ExecuteCompaction_complete 60 70 3 2 example_db); lia. Defined.

(** ** Replication *)

(** The row a replica stores for an incoming record. *)
Definition stored_row (now : Z) (r : record) : record := set_Crc 0 (set_ReplicatedAt (Some now) r).

Lemma bytes_equal_refl v : bytes_equal v v = true.
Proof. by apply bool_decide_eq_true. Qed.

Lemma sameTimestamp_refl v : sameTimestamp v v = true.
Proof. destruct v; [apply Z.eqb_refl|done]. Qed.

Lemma recordsEqual_refl r : recordsEqualForReplication r r = true.
Proof.
  rewrite /recordsEqualForReplication /= !Z.eqb_refl !Bool.eqb_reflx bytes_equal_refl
    !sameTimestamp_refl !bool_decide_eq_true_2 //.
Qed.

Lemma recordsEqual_stored now now' r :
  recordsEqualForReplication (stored_row now r) (set_ReplicatedAt (Some now') r) = true.
Proof. exact (recordsEqual_refl r). Qed.

Lemma FindRecordByRev_insert r t db :
  FindRecordByRev (Revision r) (set_rows (insert_row r t) db) = Ok r.
Proof.
  rewrite /FindRecordByRev /insert_row /= filter_app filter_cons_True //.
  rewrite filter_none // => x /list_elem_of_filter [? _]. lia.
Qed.

Lemma sql_insert_inv v t r t' :
  sql_insert v t = Ok (r, t') →
  t' = insert_row r t ∧ (∀ x, x ∈ t → Revision x ≠ Revision r) ∧
  existsb (index_clash r) t = false.
Proof.
  rewrite /sql_insert. intros H. repeat case_match; simplify_eq/=.
  split; [done|]. split; [|done].
  rewrite existsb_false in H4. intros x Hx. specialize (H4 x Hx). by bool_to_prop.
Qed.

(** What [sql_insert] answers for a replicated record. *)
Lemma sql_insert_replicate now rec t :
  Key rec ≠ [] →
  sql_insert (replicate_values (set_ReplicatedAt (Some now) rec)) t
  = if existsb (λ x, Revision x =? Revision rec) t then Err UniqueRevisionFailed
    else if existsb (index_clash rec) t then Err UniqueIndexFailed
    else Ok (stored_row now rec, insert_row (stored_row now rec) t).
Proof.
  intros Hk. rewrite /sql_insert /=.
  assert (bind_key (Key rec) = Some (Key rec)) as -> by by destruct (Key rec). done.
Qed.

Lemma ReplicateRecord_Ok now rec db r db' :
  ReplicateRecord now rec db = Ok (r, db') →
  Revision r = Revision rec ∧ FindRecordByRev (Revision rec) db' = Ok r ∧
  ((db' = db ∧ recordsEqualForReplication r (set_ReplicatedAt (Some now) rec) = true) ∨
   (r = stored_row now rec ∧ db' = set_rows (insert_row r (rows db)) db ∧
    ∀ x, x ∈ rows db → Revision x ≠ Revision rec)).
Proof.
  rewrite /ReplicateRecord. destruct (Revision rec =? 0); [done|].
  destruct (decide (Key rec = [])) as [HK|HK].
  { rewrite /sql_insert. cbn. by rewrite HK. }
  rewrite sql_insert_replicate //.
  change (Revision (set_ReplicatedAt (Some now) rec)) with (Revision rec).
  assert (Hdup : match FindRecordByRev (Revision rec) db with
    | Ok existing =>
        if negb (recordsEqualForReplication existing (set_ReplicatedAt (Some now) rec))
        then Err (ErrReplicateConflict (Revision rec)) else Ok (existing, db)
    | Err e => Err (ErrReadExisting (Revision rec) e)
    end = Ok (r, db') →
    db' = db ∧ FindRecordByRev (Revision rec) db = Ok r ∧
    recordsEqualForReplication r (set_ReplicatedAt (Some now) rec) = true).
  { destruct (FindRecordByRev (Revision rec) db) as [x|]; [|done].
    destruct (recordsEqualForReplication x _) eqn:E; [|done]. by intros [= <- <-]. }
  assert (Hrev : recordsEqualForReplication r (set_ReplicatedAt (Some now) rec) = true →
    Revision r = Revision rec).
  { rewrite /recordsEqualForReplication /= => ?. by bool_to_prop. }
  destruct (existsb (λ x, Revision x =? Revision rec) (rows db)) eqn:E1; [naive_solver|].
  destruct (existsb (index_clash rec) (rows db)); [naive_solver|].
  simpl. rewrite Z.eqb_refl /=. intros [= <- <-]. split; [done|]. split.
  - by rewrite -(FindRecordByRev_insert (stored_row now rec) (rows db) db).
  - right. split; [done|]. split; [done|]. intros x Hx.
    rewrite existsb_false in E1. specialize (E1 x Hx). by bool_to_prop.
Qed.

Lemma find_in_rows rev db r :
  FindRecordByRev rev db = Ok r → r ∈ rows db ∧ Revision r = rev.
Proof.
  rewrite /FindRecordByRev. destruct (filter _ _) as [|x l] eqn:E; [done|].
  intros [= <-]. assert (x ∈ filter (λ r, Revision r = rev) (rows db)) as Hx
    by (rewrite E; by left).
  apply list_elem_of_filter in Hx. naive_solver.
Qed.

(** Replication is idempotent: once a record is stored, receiving it again
    succeeds, answers the same row and leaves the database as it is. *)
Theorem ReplicateRecord_idempotent now now' rec db r db' :
  ReplicateRecord now rec db = Ok (r, db') →
  ReplicateRecord now' rec db' = Ok (r, db').
Proof.
  intros Hok. pose proof (ReplicateRecord_Ok _ _ _ _ _ Hok) as (Hrev & Hfind & Hcase).
  destruct (find_in_rows _ _ _ Hfind) as [Hin _].
  assert (Revision rec ≠ 0 ∧ Key rec ≠ []) as [H0 HK].
  { rewrite /ReplicateRecord in Hok. destruct (Revision rec =? 0) eqn:?; [done|].
    bool_to_prop. split; [done|]. intros HK. rewrite /sql_insert /= in Hok.
    cbn in Hok. by rewrite HK in Hok. }
  rewrite /ReplicateRecord (proj2 (Z.eqb_neq _ _) H0) sql_insert_replicate //.
  assert (existsb (λ x, Revision x =? Revision rec) (rows db') = true) as ->.
  { apply existsb_exists. exists r. split; [by apply list_elem_of_In|by apply Z.eqb_eq]. }
  rewrite Hfind. destruct Hcase as [[-> E]|(-> & _ & _)].
  - by replace (recordsEqualForReplication r (set_ReplicatedAt (Some now') rec)) with true.
  - by rewrite recordsEqual_stored.
Qed.

Lemma ReplicateRecord_idempotent_witness :
  ∃ r db', ReplicateRecord 50 (set_Revision 5 (default record_zero (rows example_db !! 2%nat)))
             (mkDB [] []) = Ok (r, db') ∧
    ReplicateRecord 60 (set_Revision 5 (default record_zero (rows example_db !! 2%nat))) db'
    = Ok (r, db').
Proof.
  eexists _, _. split; [vm_compute; reflexivity|].
  eapply (ReplicateRecord_idempotent 50 60 _ (mkDB [] [])). vm_compute; reflexivity.
Defined.

(** The table rows at or below a revision. *)
Definition rows_upto (c : Z) (db : database) : table := filter (λ r, Revision r ≤ c) (rows db).

Lemma insert_row_elem r t x :
  (∀ y, y ∈ t → Revision y ≠ Revision r) → x ∈ insert_row r t ↔ x = r ∨ x ∈ t.
Proof.
  intros Hne. rewrite /insert_row elem_of_app elem_of_cons !list_elem_of_filter.
  split; [naive_solver|]. intros [->|Hx]; [by auto|].
  specialize (Hne x Hx). destruct (Z.lt_total (Revision x) (Revision r)) as [?|[?|?]]; naive_solver.
Qed.

Lemma rows_upto_insert c r t db :
  c < Revision r → rows_upto c (set_rows (insert_row r t) db) = filter (λ r, Revision r ≤ c) t.
Proof.
  intros Hc. rewrite /rows_upto /insert_row /= filter_app filter_cons_False; [lia|].
  rewrite (filter_none _ (filter (λ x, Revision r < Revision x) t)).
  - intros x [? ?]%list_elem_of_filter. lia.
  - rewrite app_nil_r list_filter_filter. apply filter_ext. intros x Hx. lia.
Qed.

Lemma rows_upto_delete c rev db :
  c < rev → rows_upto c (delete_revision rev db) = rows_upto c db.
Proof.
  intros Hc. rewrite /rows_upto /= list_filter_filter. apply filter_ext. intros x _. lia.
Qed.

Lemma ReplicateRecord_upto now rec c db r db' :
  ReplicateRecord now rec db = Ok (r, db') → c < Revision rec →
  rows_upto c db' = rows_upto c db.
Proof.
  intros (Hrev & _ & [[-> _]|(-> & -> & Hne)])%ReplicateRecord_Ok Hc; [done|].
  by rewrite rows_upto_insert.
Qed.

Lemma ReplicateTentativeRecord_upto now rec c db :
  c < Revision rec →
  rows_upto c (ReplicateTentativeRecord now rec c db).2 = rows_upto c db.
Proof.
  intros Hc. rewrite /ReplicateTentativeRecord (proj2 (Z.leb_gt _ _) Hc).
  destruct (ReplicateRecord now rec db) as [[r db']|e] eqn:E; simpl.
  { by apply (ReplicateRecord_upto now rec c db r). }
  destruct e; try done. rewrite -(rows_upto_delete c (Revision rec) db) //.
  destruct (ReplicateRecord now rec (delete_revision _ db)) as [[r db']|] eqn:E'; [|done].
  by apply (ReplicateRecord_upto now rec c _ r).
Qed.

Lemma ReplicateTentativeRecord_keeps now rec c db :
  let db' := (ReplicateTentativeRecord now rec c db).2 in
  (∀ r, r ∈ rows db → Revision r ≤ c → r ∈ rows db') ∧
  (c < Revision rec → rows_upto c db' = rows_upto c db).
Proof.
  intros db'. split; [|apply ReplicateTentativeRecord_upto].
  intros x Hx Hxc. destruct (Z.lt_ge_cases c (Revision rec)) as [Hc|Hle].
  - assert (x ∈ rows_upto c db) as Hu by by apply list_elem_of_filter.
    rewrite -(ReplicateTentativeRecord_upto now rec c db Hc) in Hu.
    by apply list_elem_of_filter in Hu as [_ ?].
  - rewrite /db' /ReplicateTentativeRecord (proj2 (Z.leb_le _ _) Hle).
    destruct (ReplicateRecord now rec db) as [[r d]|e] eqn:E; simpl; [|done].
    apply ReplicateRecord_Ok in E as (_ & _ & [[-> _]|(-> & -> & Hne)]); [done|].
    by apply insert_row_elem; auto.
Qed.

(** A replica never loses or alters a committed row: whatever the outcome
    of [ReplicateTentativeRecord], errors included, every row at or below the
    committed revision is still there, and when the record is above it those
    rows are exactly the ones of before. *)
Theorem ReplicateTentativeRecord_committed now rec c db :
  let db' := (ReplicateTentativeRecord now rec c db).2 in
  (∀ r, r ∈ rows db → Revision r ≤ c → r ∈ rows db') ∧
  (c < Revision rec → rows_upto c db' = rows_upto c db).
Proof. apply ReplicateTentativeRecord_keeps. Qed.

Lemma ReplicateTentativeRecord_found now rec c db r db' :
  ReplicateTentativeRecord now rec c db = (Ok r, db') →
  FindRecordByRev (Revision rec) db' = Ok r ∧
  recordsEqualForReplication r (set_ReplicatedAt (Some now) rec) = true.
Proof.
  assert (Hone : ∀ d d', ReplicateRecord now rec d = Ok (r, d') →
    FindRecordByRev (Revision rec) d' = Ok r ∧
    recordsEqualForReplication r (set_ReplicatedAt (Some now) rec) = true).
  { intros d d' (_ & ? & [[_ ?]|(-> & _)])%ReplicateRecord_Ok; [done|].
    by rewrite recordsEqual_stored. }
  rewrite /ReplicateTentativeRecord. intros H. repeat case_match; simplify_eq/=; eauto.
Qed.

(** When [ReplicateTentativeRecord] succeeds the table holds the record
    that was sent, under its revision, equal on every replicated column. *)
Theorem ReplicateTentativeRecord_stores now rec c db r db' :
  ReplicateTentativeRecord now rec c db = (Ok r, db') →
  FindRecordByRev (Revision rec) db' = Ok r ∧
  recordsEqualForReplication r (set_ReplicatedAt (Some now) rec) = true.
Proof. apply ReplicateTentativeRecord_found. Qed.

Lemma ReplicateTentativeRecord_stores_witness :
  ∃ r db', ReplicateTentativeRecord 50 (txn_record 4 key_a false false 3 (Some [Byte.x34])) 3
             example_db = (Ok r, db') ∧ FindRecordByRev 4 db' = Ok r.
Proof.
  eexists _, _. split; [vm_compute; reflexivity|].
  eapply (ReplicateTentativeRecord_stores 50
            (txn_record 4 key_a false false 3 (Some [Byte.x34])) 3 example_db).
  vm_compute; reflexivity.
Defined.

(** *** Replaying a history *)

(** [ReplicateRecord] for each record in turn, stopping at the first error. *)
Fixpoint replicate_all (clock : Z → Z) (l : list record) (db : database) : res db_err database :=
  match l with
  | [] => Ok db
  | r :: l' =>
      match ReplicateRecord (clock (Revision r)) r db with
      | Ok (_, db') => replicate_all clock l' db'
      | Err e => Err e
      end
  end.

Lemma replicate_all_app clock l1 l2 db :
  replicate_all clock (l1 ++ l2) db
  = match replicate_all clock l1 db with
    | Ok db' => replicate_all clock l2 db'
    | Err e => Err e
    end.
Proof.
  revert db; induction l1 as [|r l1 IH]; intros db; simpl; [done|].
  by destruct (ReplicateRecord _ r db) as [[]|].
Qed.

(** Appending the next record of a history succeeds. *)
Lemma ReplicateRecord_append now r db :
  history (rows db) → Revision r = Z.of_nat (length (rows db)) + 1 → row_ok (rows db) r →
  ReplicateRecord now r db
  = Ok (stored_row now r, set_rows (rows db ++ [stored_row now r]) db).
Proof.
  intros Ht Hr Hok. rewrite /ReplicateRecord.
  destruct (Z.eqb_spec (Revision r) 0); [lia|].
  rewrite sql_insert_replicate; [by destruct Hok|].
  destruct (history_no_clash (rows db) r Ht Hr Hok) as [-> ->].
  by rewrite /= Z.eqb_refl /= insert_row_end.
Qed.

Lemma same_links_stored now r : same_links r (stored_row now r).
Proof. done. Qed.

(** The rows [replicate_all] adds. *)
Definition stored_at (clock : Z → Z) (r : record) : record := stored_row (clock (Revision r)) r.

Lemma replicate_all_append clock l db :
  history (rows db ++ l) →
  replicate_all clock l db = Ok (set_rows (rows db ++ (stored_at clock <$> l)) db).
Proof.
  induction l as [|r l IH] using rev_ind; [by rewrite app_nil_r; destruct db|].
  rewrite app_assoc. intros Hh. destruct (history_snoc_inv _ _ Hh) as (Ht & _ & _).
  rewrite replicate_all_app IH //=.
  assert (history ((rows db ++ (stored_at clock <$> l)) ++ [r])) as Hh'.
  { rewrite -app_assoc. apply history_map_middle; [done|by rewrite app_assoc]. }
  apply history_snoc_inv in Hh' as (Ht' & Hr & Hok).
  rewrite ReplicateRecord_append // /set_rows /=. by rewrite fmap_app app_assoc.
Qed.

(** Replaying a Primary's table into an empty database, each record in
    revision order and at any wall-clock times, succeeds and rebuilds the table
    row for row, up to the local [replicated_at] stamp. *)
Theorem replicate_all_history clock t :
  history t →
  replicate_all clock t (mkDB [] []) = Ok (mkDB (stored_at clock <$> t) []).
Proof. intros Ht. by apply (replicate_all_append clock t (mkDB [] [])). Qed.

Lemma replicate_all_history_witness :
  is_ok (replicate_all (λ n, 100 + n) (rows example_db) (mkDB [] [])) = true.
Proof.
  rewrite (replicate_all_history (λ n, 100 + n) (rows example_db)); [|reflexivity].
  exact example_db_history.
Defined.

(** ** Integrity *)

Lemma wf_bounds t n :
  table_wf t → (∀ r, r ∈ t → n < Revision r) →
  n + Z.of_nat (length t) ≤ default n (Revision <$> last t) ∧
  (n + Z.of_nat (length t) = default n (Revision <$> last t) →
   Revision <$> t = (λ i, n + Z.of_nat i) <$> seq 1 (length t)).
Proof.
  induction t as [|r t IH] using rev_ind; [simpl; intros; split; [lia|done]|].
  rewrite table_wf_snoc last_snoc length_app /=. intros [Ht Hlt] Hn.
  destruct IH as [Hle Heq]; [done|intros x Hx; apply Hn; set_solver|].
  assert (default n (Revision <$> last t) < Revision r) as Hr.
  { destruct (last t) as [l|] eqn:El; simpl; [|apply Hn; set_solver].
    apply Hlt. apply last_Some in El as [? ->]. set_solver. }
  split; [lia|]. intros E.
  rewrite fmap_app seq_app fmap_app Heq; [lia|]. simpl. do 2 f_equal. lia.
Qed.

(** [VerifyIntegrity] accepts a table of positive revisions exactly when it
    holds every revision from 1 to the latest, so counting rows detects every
    missing record. *)
Theorem VerifyIntegrity_contiguous db :
  table_wf (rows db) → (∀ r, r ∈ rows db → 0 < Revision r) →
  VerifyIntegrity db = Ok tt ↔ contiguous (rows db).
Proof.
  intros Ht Hpos. destruct (wf_bounds (rows db) 0 Ht Hpos) as [Hle Heq].
  rewrite /VerifyIntegrity /RecordCount /latest_revision_for_table /contiguous.
  destruct (Z.eqb_spec (Z.of_nat (length (rows db))) (default 0 (Revision <$> last (rows db))))
    as [E|E]; simpl; split; intros Hc; try done.
  - rewrite Heq; [lia|]. by apply list_fmap_ext.
  - destruct E. rewrite -fmap_last Hc.
    destruct (length (rows db)) as [|n]; [done|].
    rewrite seq_S fmap_app last_snoc /=. lia.
Qed.

Lemma VerifyIntegrity_contiguous_witness :
  contiguous (rows example_db) ∧ ¬ contiguous (rows (delete_revision 2 example_db)).
Proof.
  split.
  - apply (VerifyIntegrity_contiguous example_db); [|by vm_compute; set_solver by lia|by vm_compute].
    auto using example_db_history with netsy.
  - intros E. apply (VerifyIntegrity_contiguous (delete_revision 2 example_db)) in E; [done|..].
    + apply table_wf_filter; auto using example_db_history with netsy.
    + intros r [_ Hr]%list_elem_of_filter.
      pose proof (history_row_bound _ _ example_db_history Hr). lia.
Defined.
