(* ===== verification/Queries.v ===== *)
(** * The queries of the record store as snapshots

    A query at a revision answers the live rows of the table cut off at that
    revision, sorted by key.  The lemmas here characterise its result list
    uniquely: strictly sorted by key, with the given elements. *)

From S2P Require Import Prelude Records LocalDB History.

(** The rows a query at [revision] sees; 0 or less means no bound. *)
Definition visible (revision : Z) (t : table) : table :=
  filter (λ r, 0 < revision → Revision r ≤ revision) t.

Definition key_lt (a b : record) : Prop := bytes_lt (Key a) (Key b).

(** ** Lists strictly sorted by key *)

#[export] Instance key_lt_trans : Transitive key_lt.
Proof. intros a b c. apply bytes_lt_trans. Qed.

Lemma key_sorted_unique l1 l2 :
  StronglySorted key_lt l1 → StronglySorted key_lt l2 → (∀ x, x ∈ l1 ↔ x ∈ l2) → l1 = l2.
Proof.
  intros H1 H2 Hin.
  assert (∀ l, StronglySorted key_lt l → NoDup l) as Hnd.
  { induction 1 as [|x l _ IH Hx]; constructor; [|done].
    intros Hxl. rewrite Forall_forall in Hx.
    by apply (bytes_lt_irrefl (Key x)), (Hx x). }
  apply (StronglySorted_unique_strong key_lt); [|done|done|by apply NoDup_Permutation; auto].
  intros a b _ _ Hab Hba. destruct (bytes_lt_irrefl (Key a)).
  by apply (bytes_lt_trans _ (Key b)).
Qed.

Lemma key_sorted_filter P `{∀ x, Decision (P x)} l :
  StronglySorted key_lt l → StronglySorted key_lt (filter P l).
Proof.
  induction 1 as [|x l Hl IH Hx]; [constructor|].
  rewrite filter_cons. case_decide; [|done]. constructor; [done|].
  apply Forall_forall => y /list_elem_of_filter [_ Hy].
  rewrite Forall_forall in Hx. by apply Hx.
Qed.

(** The elements after the [n]-th of a sorted list are those with a greater key. *)
Lemma key_sorted_drop l n x :
  StronglySorted key_lt l → l !! n = Some x →
  filter (λ r, bytes_ltb (Key x) (Key r) = true) l = drop (S n) l.
Proof.
  intros Hl Hx. rewrite -{1}(take_drop_middle l n x Hx) filter_app filter_cons.
  rewrite -(take_drop_middle l n x Hx) in Hl.
  apply StronglySorted_app in Hl as (Hlt & Htake & Hdrop).
  apply StronglySorted_cons in Hdrop as [Hall _].
  rewrite decide_False; [apply bytes_lt_irrefl|].
  rewrite filter_none ?filter_all //.
  - intros y Hy Hyx. assert (key_lt y x) as Hlt' by (apply Hlt; [done|by left]).
    destruct (bytes_lt_irrefl (Key x)). by apply (bytes_lt_trans _ (Key y)).
  - intros y Hy. rewrite Forall_forall in Hall. by apply Hall.
Qed.

#[export] Instance order_asc_trans : Transitive order_asc.
Proof.
  intros a b c [Hab|[Eab ?]] [Hbc|[Ebc ?]]; rewrite /order_asc.
  - left. by apply (bytes_lt_trans _ (Key b)).
  - left. by rewrite -Ebc.
  - left. by rewrite Eab.
  - right. split; [congruence|lia].
Qed.

#[export] Instance order_asc_total : Total order_asc.
Proof.
  intros a b. rewrite /order_asc.
  destruct (bytes_le_total (Key a) (Key b)) as [[?|E]%bytes_leb_iff|?]; [by auto| |by auto].
  rewrite E. destruct (Z.le_total (Revision b) (Revision a)); auto.
Qed.

(** Sorting rows of distinct keys by [ORDER BY key ASC, revision DESC]. *)
Lemma merge_sort_key_lt l :
  (∀ x y, x ∈ l → y ∈ l → Key x = Key y → x = y) → NoDup l →
  StronglySorted key_lt (merge_sort order_asc l) ∧
  (∀ x, x ∈ merge_sort order_asc l ↔ x ∈ l).
Proof.
  intros Huniq Hnd.
  assert (Hin : ∀ x, x ∈ merge_sort order_asc l ↔ x ∈ l).
  { intros x. by rewrite (merge_sort_Permutation order_asc l). }
  split; [|done].
  assert (NoDup (merge_sort order_asc l)) as Hnd'.
  { by rewrite (merge_sort_Permutation order_asc l). }
  pose proof (StronglySorted_merge_sort order_asc l) as Hs.
  assert (∀ x y, x ∈ merge_sort order_asc l → y ∈ merge_sort order_asc l → Key x = Key y → x = y)
    as Hu by (intros x y Hx%Hin Hy%Hin; auto).
  clear Hin Huniq Hnd. revert Hnd' Hu.
  induction Hs as [|x l' Hs IH Hx]; intros Hnd Hu; [constructor|].
  apply NoDup_cons in Hnd as [Hxl Hnd]. constructor.
  - apply IH; [done|]. intros a b Ha Hb. apply Hu; by right.
  - apply Forall_forall => y Hy. rewrite Forall_forall in Hx.
    destruct (Hx y Hy) as [?|[E _]]; [done|]. destruct Hxl. by rewrite (Hu x y ltac:(by left) ltac:(by right) E).
Qed.

Section snapshot.
  Context `{SqlLike}.

(** The rows of a query at [revision], sorted by key. *)
Definition snapshot (w : where_clause) (revision : Z) (t : table) : table :=
  merge_sort order_asc (live_rows (filtered w revision t)).

Lemma latest_filtered w rev t k :
  latest_revision_for_key k (filtered w rev t)
  = if where_key w k then latest_revision_for_key k (visible rev t) else None.
Proof.
  rewrite /latest_revision_for_key /filtered /visible !list_filter_filter.
  destruct (where_key w k) eqn:E.
  - f_equal. apply filter_ext. intros x _. naive_solver.
  - rewrite filter_none //. intros x _ [<- [Hw _]]. congruence.
Qed.

Lemma row_number_1 t x :
  table_wf t → x ∈ t →
  row_number t x = 1%nat ↔ latest_revision_for_key (Key x) t = Some x.
Proof.
  intros Ht Hx. rewrite wf_latest_iff // /row_number.
  split.
  - intros E y Hy Hk. destruct (Z.le_gt_cases (Revision y) (Revision x)); [done|].
    assert (y ∈ filter (λ z, Key z = Key x ∧ Revision x < Revision z) t) as Hf
      by (apply list_elem_of_filter; naive_solver).
    destruct (filter _ t); [set_solver|done].
  - intros Hmax. rewrite filter_none //. intros y Hy [Hk ?]. specialize (Hmax y Hy Hk). lia.
Qed.

Lemma live_rows_elem t x :
  table_wf t → x ∈ live_rows t ↔ live_for_key (Key x) t = Some x.
Proof.
  intros Ht. rewrite /live_rows list_elem_of_filter live_for_key_spec. split.
  - intros [[Hrn Hd] Hx]. by rewrite row_number_1 in Hrn.
  - intros [Hl Hd]. destruct (latest_elem _ _ _ Hl) as [Hx _].
    by rewrite row_number_1.
Qed.

Lemma live_rows_unique t x y :
  table_wf t → x ∈ live_rows t → y ∈ live_rows t → Key x = Key y → x = y.
Proof. intros Ht Hx%live_rows_elem Hy%live_rows_elem E; congruence || done. Qed.

Lemma live_rows_NoDup t : table_wf t → NoDup (live_rows t).
Proof.
  intros Ht. apply NoDup_filter. clear -Ht.
  induction t as [|r t IH] using rev_ind; [constructor|].
  apply table_wf_snoc in Ht as [Ht Hlt]. apply NoDup_app. split; [by apply IH|].
  split; [|apply NoDup_singleton]. intros x Hx ->%list_elem_of_singleton.
  specialize (Hlt _ Hx). lia.
Qed.

(** A snapshot is strictly sorted by key and holds exactly the matching live
    rows of the table as of the revision. *)
Lemma snapshot_spec w rev t :
  table_wf t →
  StronglySorted key_lt (snapshot w rev t) ∧
  ∀ r, r ∈ snapshot w rev t ↔
       where_key w (Key r) = true ∧ live_for_key (Key r) (visible rev t) = Some r.
Proof.
  intros Ht. assert (table_wf (filtered w rev t)) as Hwf by by apply table_wf_filter.
  destruct (merge_sort_key_lt (live_rows (filtered w rev t))) as [Hs Hin].
  { intros x y. by apply live_rows_unique. }
  { by apply live_rows_NoDup. }
  split; [done|]. intros r. rewrite Hin live_rows_elem // /live_for_key latest_filtered.
  destruct (where_key w (Key r)); naive_solver.
Qed.

Lemma snapshot_length w rev t :
  length (snapshot w rev t) = length (live_rows (filtered w rev t)).
Proof. apply Permutation_length, merge_sort_Permutation. Qed.

Lemma snapshot_length_le w rev t : (length (snapshot w rev t) ≤ length t)%nat.
Proof.
  rewrite snapshot_length /live_rows. etrans; [apply length_filter|]. apply length_filter.
Qed.

(** [LIMIT limit+1] of the compound query leaves [limit] rows after the
    metadata row; an overflowing bound is negative, which is no limit. *)
Definition limited {A} (limit : Z) (l : list A) : list A :=
  if 0 <? limit then take (Z.to_nat limit) l else l.

Lemma sql_limit_meta {A} (x : A) (l : list A) limit :
  int64 limit → 0 < limit → Z.of_nat (length l) ≤ int64_max →
  sql_limit (wrap64 (limit + 1)) (x :: l) = x :: take (Z.to_nat limit) l.
Proof.
  rewrite /int64 /int64_max /int64_min => Hi Hpos Hlen. rewrite /sql_limit.
  destruct (decide (limit = int64_max)) as [->|Hne].
  - change (wrap64 (int64_max + 1)) with int64_min. cbn [Z.ltb int64_min Z.compare].
    rewrite take_ge //. rewrite /int64_max. lia.
  - rewrite wrap64_id; [solve_int64|].
    destruct (Z.ltb_spec (limit + 1) 0); [lia|].
    by rewrite (_ : Z.to_nat (limit + 1) = S (Z.to_nat limit)); [lia|].
Qed.

(** The ascending query on every limit. *)
Lemma FindRecordsBy_asc w rev limit db :
  int64 limit → Z.of_nat (length (snapshot w rev (rows db))) ≤ int64_max →
  FindRecordsBy w rev limit "ASC" db
  = Ok (limited limit (snapshot w rev (rows db)),
        Z.of_nat (length (snapshot w rev (rows db)))).
Proof.
  intros Hi Hlen. rewrite /FindRecordsBy /= /find_query_rows /= -/(snapshot w rev (rows db)).
  rewrite /limited -snapshot_length. destruct (Z.ltb_spec 0 limit).
  - rewrite sql_limit_meta ?length_fmap //. rewrite -fmap_take -list_fmap_compose.
    by rewrite (list_fmap_ext _ id) // list_fmap_id.
  - rewrite -list_fmap_compose. by rewrite (list_fmap_ext _ id) // list_fmap_id.
Qed.
End snapshot.
