(* ===== verification/RangeApi.v ===== *)
(** * internal/commonapi and the read side of internal/clientapi

    [Range], [RangeStream] and the adaptive chunk sizer.  The protobuf size of
    a response, which only steers the sizer, and the stream's context and send
    results are parameters. *)

From S2P Require Import Prelude NodeState Records LocalDB.

Inductive SortOrder := SORT_NONE | SORT_ASCEND | SORT_DESCEND | SORT_UNRECOGNIZED (n : Z).

#[export] Instance SortOrder_eq_dec : EqDecision SortOrder.
Proof. solve_decision. Defined.

(** etcd's [RangeRequest]. *)
Record RangeRequest := mkRangeRequest {
  rr_Key : bytes;
  rr_RangeEnd : bytes;
  rr_Limit : Z;
  rr_Revision : Z;
  rr_SortOrder : SortOrder;
  rr_SortTarget : Z;
  rr_Serializable : bool;
  rr_KeysOnly : bool;
  rr_CountOnly : bool;
  rr_MinModRevision : Z;
  rr_MaxModRevision : Z;
  rr_MinCreateRevision : Z;
  rr_MaxCreateRevision : Z;
}.

Definition set_rr_Revision (rev : Z) (r : RangeRequest) : RangeRequest :=
  mkRangeRequest (rr_Key r) (rr_RangeEnd r) (rr_Limit r) rev (rr_SortOrder r) (rr_SortTarget r)
    (rr_Serializable r) (rr_KeysOnly r) (rr_CountOnly r) (rr_MinModRevision r)
    (rr_MaxModRevision r) (rr_MinCreateRevision r) (rr_MaxCreateRevision r).

(** etcd's [mvccpb.KeyValue]. *)
Record KeyValue := mkKeyValue {
  kv_Key : bytes;
  kv_CreateRevision : Z;
  kv_ModRevision : Z;
  kv_Value : option bytes;
  kv_Version : Z;
  kv_Lease : Z;
}.

(** etcd's [RangeResponse]; [None] is a nil header. *)
Record RangeResponse := mkRangeResponse {
  rsp_Header : option Z;
  rsp_Kvs : list KeyValue;
  rsp_Count : Z;
  rsp_More : bool;
}.

#[export] Instance KeyValue_eq_dec : EqDecision KeyValue.
Proof. solve_decision. Defined.
#[export] Instance RangeResponse_eq_dec : EqDecision RangeResponse.
Proof. solve_decision. Defined.

Inductive range_err :=
| InvalidArgument (msg : string)
| Unimplemented (msg : string)
| ErrGRPCCompacted
| RangeDBErr (e : db_err)
| RangeCtxErr
| RangeSendErr
| RangePanic.

#[export] Instance range_err_eq_dec : EqDecision range_err.
Proof. solve_decision. Defined.

Definition validateRangeRequest (r : RangeRequest) : res range_err unit :=
  if rr_Limit r <? 0 then Err (InvalidArgument "limit must be non-negative")
  else if rr_KeysOnly r then Err (Unimplemented "keys_only not supported")
  else if negb (rr_MaxCreateRevision r =? 0)
  then Err (Unimplemented "max_create_revision not supported")
  else if negb (rr_MaxModRevision r =? 0) then Err (Unimplemented "max_mod_revision not supported")
  else if negb (rr_MinModRevision r =? 0) then Err (Unimplemented "min_mod_revision not supported")
  else if negb (rr_MinCreateRevision r =? 0)
  then Err (Unimplemented "min_create_revision not supported")
  else if rr_Serializable r then Err (Unimplemented "serializable not supported")
  else if negb (rr_SortTarget r =? 0) then Err (Unimplemented "sort_target not supported")
  else Ok tt.

(** The loop of [recordsToKeyValues]. *)
Fixpoint recordsToKeyValues (rs : list record) : res range_err (list KeyValue) :=
  match rs with
  | [] => Ok []
  | row :: rs' =>
      match CompactedAt row with
      | Some _ => Err ErrGRPCCompacted
      | None =>
          match recordsToKeyValues rs' with
          | Err e => Err e
          | Ok kvs =>
              Ok (mkKeyValue (Key row) (CreateRevision row) (Revision row) (Value row)
                    (Version row) (Lease row) :: kvs)
          end
      end
  end.

(** [None] is the slice panic on an empty key. *)
Definition buildRangeQuery (r : RangeRequest) : option where_clause :=
  let zeroByte := [Byte.x00] in
  let keyAndZeroByte := rr_Key r ++ [Byte.x00] in
  match last (rr_Key r) with
  | None => None
  | Some c =>
      let rangeEndPrefixValue := take (length (rr_Key r) - 1) (rr_Key r) ++ [byte_succ c] in
      Some
        (if bool_decide (rr_RangeEnd r = []) || bool_decide (rr_RangeEnd r = keyAndZeroByte)
         then WhereKeyEq (rr_Key r)
         else if bool_decide (rr_Key r = zeroByte) && bool_decide (rr_RangeEnd r = zeroByte)
         then WhereAll
         else if bool_decide (rr_RangeEnd r = zeroByte) then WhereKeyGe (rr_Key r)
         else if bool_decide (rr_RangeEnd r = rangeEndPrefixValue)
         then WhereKeyLike (rr_Key r ++ [Byte.x25])
         else WhereKeyRange (rr_Key r) (rr_RangeEnd r))
  end.

(** ** The chunk sizer *)

Definition rangeStreamInitialChunkKeys : Z := 10.
Definition rangeStreamMaxChunkKeys : Z := 10000.
Definition rangeStreamTargetChunkBytes : Z := 1536 * 1024.

Record chunkSizer := mkSizer {
  sz_keys : Z;
  sz_minKeys : Z;
  sz_maxKeys : Z;
  sz_targetBytes : Z;
}.

Definition newChunkSizer : chunkSizer :=
  mkSizer rangeStreamInitialChunkKeys 1 rangeStreamMaxChunkKeys rangeStreamTargetChunkBytes.

Definition Observe (chunkBytes : Z) (s : chunkSizer) : chunkSizer :=
  if chunkBytes <? sz_targetBytes s `quot` 2 then
    mkSizer (Z.min (wrap64 (sz_keys s * 2)) (sz_maxKeys s))
      (sz_minKeys s) (sz_maxKeys s) (sz_targetBytes s)
  else if wrap64 (sz_targetBytes s * 2) <? chunkBytes then
    mkSizer (Z.max (sz_keys s `quot` 2) (sz_minKeys s))
      (sz_minKeys s) (sz_maxKeys s) (sz_targetBytes s)
  else s.

(** ** Range and RangeStream *)

Section range.
  Context `{SqlLike}.

Definition Range (db : database) (r : RangeRequest) (committedRevision : Z)
    : res range_err RangeResponse :=
  match validateRangeRequest r with
  | Err e => Err e
  | Ok _ =>
    match buildRangeQuery r with
    | None => Err RangePanic
    | Some w =>
      let order := if decide (rr_SortOrder r = SORT_DESCEND) then "DESC"%string else "ASC"%string in
      match FindRecordsBy w (rr_Revision r) (rr_Limit r) order db with
      | Err e => Err (RangeDBErr e)
      | Ok (recs, totalCount) =>
        let more := Z.of_nat (length recs) <? totalCount in
        if rr_CountOnly r then Ok (mkRangeResponse (Some committedRevision) [] totalCount more)
        else
          match recordsToKeyValues recs with
          | Err e => Err e
          | Ok kvs => Ok (mkRangeResponse (Some committedRevision) kvs totalCount more)
          end
      end
    end
  end.

(** [ClientAPIServer.Range]: the request revision is clamped to the committed one. *)
Definition clamp_revision (committed : Z) (r : RangeRequest) : RangeRequest :=
  if (rr_Revision r =? 0) || (committed <? rr_Revision r) then set_rr_Revision committed r else r.

Definition Client_Range (st : State) (db : database) (r : RangeRequest)
    : res range_err RangeResponse :=
  Range db (clamp_revision (committed st) r) (committed st).

(** Protobuf size of a response, whether the context is done before chunk [i],
    whether sending chunk [i] fails, and the database as chunk [i] finds it. *)
Context (resp_size : RangeResponse → Z) (ctx_done send_fails : nat → bool)
  (dbs : nat → database).

(** The responses sent and the final error; [None] when the fuel runs out. *)
Fixpoint range_stream_loop (fuel : nat) (i : nat) (w : where_clause) (revision totalLimit : Z)
    (committedRevision : Z) (sizer : chunkSizer) (count : Z) (afterKey : bytes)
    : option (list RangeResponse * res range_err unit) :=
  match fuel with
  | O => None
  | S fuel' =>
    if ctx_done i then Some ([], Err RangeCtxErr)
    else
      let chunkLimit := Z.min (sz_keys sizer) (wrap64 (totalLimit - count)) in
      match FindRecordsForRangeStream w revision (wrap64 (chunkLimit + 1)) "ASC" afterKey (dbs i) with
      | Err e => Some ([], Err (RangeDBErr e))
      | Ok recs =>
        let more := chunkLimit <? Z.of_nat (length recs) in
        let recs := if more then take (Z.to_nat chunkLimit) recs else recs in
        match recordsToKeyValues recs with
        | Err e => Some ([], Err e)
        | Ok kvs =>
          let count := wrap64 (count + Z.of_nat (length kvs)) in
          let done := negb more || (count =? totalLimit) in
          let resp := mkRangeResponse None kvs 0 false in
          let sizer := Observe (resp_size resp) sizer in
          if done then
            let total :=
              if more then
                match FindRecordsBy w revision 1 "ASC" (dbs i) with
                | Err e => Err (RangeDBErr e)
                | Ok (_, total) => Ok total
                end
              else Ok count in
            match total with
            | Err e => Some ([], Err e)
            | Ok total =>
              let resp := mkRangeResponse (Some committedRevision) kvs total more in
              if send_fails i then Some ([], Err RangeSendErr) else Some ([resp], Ok tt)
            end
          else if send_fails i then Some ([], Err RangeSendErr)
          else
            match last kvs with
            | None => Some ([resp], Err RangePanic)
            | Some kv =>
              match range_stream_loop fuel' (S i) w revision totalLimit committedRevision sizer
                      count (kv_Key kv) with
              | None => None
              | Some (resps, e) => Some (resp :: resps, e)
              end
            end
        end
      end
  end.

Definition RangeStream (fuel : nat) (r : RangeRequest) (committedRevision : Z)
    : option (list RangeResponse * res range_err unit) :=
  match validateRangeRequest r with
  | Err e => Some ([], Err e)
  | Ok _ =>
    if bool_decide (rr_SortOrder r ≠ SORT_NONE)
    then Some ([], Err (Unimplemented "custom sort orders not supported"))
    else
      match buildRangeQuery r with
      | None => Some ([], Err RangePanic)
      | Some w =>
        if rr_CountOnly r then
          match FindRecordsBy w (rr_Revision r) 1 "ASC" (dbs 0%nat) with
          | Err e => Some ([], Err (RangeDBErr e))
          | Ok (_, totalCount) =>
            if send_fails 0%nat then Some ([], Err RangeSendErr)
            else Some ([mkRangeResponse (Some committedRevision) [] totalCount
                          ((0 <? rr_Limit r) && (rr_Limit r <? totalCount))], Ok tt)
          end
        else
          let totalLimit := if rr_Limit r =? 0 then int64_max else rr_Limit r in
          range_stream_loop fuel 0%nat w (rr_Revision r) totalLimit committedRevision
            newChunkSizer 0 []
      end
  end.

(** [ClientAPIServer.RangeStream]. *)
Definition Client_RangeStream (fuel : nat) (st : State) (r : RangeRequest)
    : option (list RangeResponse * res range_err unit) :=
  RangeStream fuel (clamp_revision (committed st) r) (committed st).

End range.
