(* ===== verification/RangeTheorems.v ===== *)
(** * Theorems on range reads: etcd key ranges, committed snapshots, streaming *)

From S2P Require Import Prelude NodeState Records LocalDB History Examples Queries RangeApi.

(** ** Key ranges *)

(** The keys an etcd range request addresses. *)
Definition in_etcd_range (key range_end k : bytes) : bool :=
  if bool_decide (range_end = []) then bool_decide (k = key)
  else if bool_decide (range_end = [Byte.x00]) then bytes_leb key k
  else bytes_leb key k && bytes_ltb k range_end.

(** ASCII characters other than capital letters, which LIKE folds. *)
Definition plain (b : byte) : bool := is_ascii b && bool_decide (fold_case b = b).
(** And other than the LIKE wildcards. *)
Definition literal (b : byte) : bool :=
  plain b && negb (bool_decide (b = Byte.x25)) && negb (bool_decide (b = Byte.x5f)).

Lemma like_percent k : like_ascii [Byte.x25] k = true.
Proof.
  simpl. induction k as [|x k IH]; [done|]. by rewrite IH orb_true_r.
Qed.

Lemma like_prefix p k :
  forallb literal p = true → forallb plain k = true →
  like_ascii (p ++ [Byte.x25]) k = has_prefix k p.
Proof.
  revert k; induction p as [|c p IH]; intros k Hp Hk.
  { rewrite like_percent. by destruct k. }
  cbn [app like_ascii]. simpl in Hp. apply andb_true_iff in Hp as [Hc Hp].
  rewrite /literal /plain in Hc. bool_to_prop.
  rewrite !bool_decide_eq_false_2 // /=. destruct k as [|x k]; [done|].
  simpl in Hk. apply andb_true_iff in Hk as [Hx Hk]. rewrite /plain in Hx. bool_to_prop.
  rewrite IH //. cbn [has_prefix]. f_equal. apply bool_decide_ext. split; congruence.
Qed.

Lemma bytes_compare_app p a b : bytes_compare (p ++ a) (p ++ b) = bytes_compare a b.
Proof. induction p as [|x p IH]; simpl; [done|]. by rewrite N.compare_refl. Qed.

Lemma bytes_leb_nil_r k : bytes_leb k [] = bool_decide (k = []).
Proof. by destruct k. Qed.

Lemma bytes_leb_zero k : k ≠ [] → bytes_leb [Byte.x00] k = true.
Proof.
  destruct k as [|x k]; [done|]. intros _. rewrite /bytes_leb /=.
  by destruct (Byte.to_N x); [destruct k|].
Qed.

(** Between a key and the key followed by a zero byte there is only the key. *)
Lemma range_singleton key k :
  bytes_leb key k && bytes_ltb k (key ++ [Byte.x00]) = bool_decide (k = key).
Proof.
  rewrite /bytes_leb /bytes_ltb. revert k.
  induction key as [|x key IH]; intros [|y k]; cbn [app bytes_compare]; try done.
  - destruct (N.compare_spec (Byte.to_N y) (Byte.to_N Byte.x00)) as [E|E|E]; simpl in *; try lia.
    by destruct k.
  - rewrite (N.compare_antisym (Byte.to_N x) (Byte.to_N y)).
    destruct (N.compare_spec (Byte.to_N x) (Byte.to_N y)) as [E|E|E]; simpl.
    + apply Byte_to_N_inj in E as ->. rewrite IH. apply bool_decide_ext. naive_solver.
    + symmetry. apply bool_decide_eq_false. intros [= -> ->]. lia.
    + symmetry. apply bool_decide_eq_false. intros [= -> ->]. lia.
Qed.

Lemma byte_succ_N c : (Byte.to_N c < 255)%N → Byte.to_N (byte_succ c) = (Byte.to_N c + 1)%N.
Proof.
  rewrite /byte_succ => Hc. rewrite N.mod_small; [lia|].
  destruct (Byte.of_N (Byte.to_N c + 1)) eqn:E; simpl; [by apply Byte.to_of_N|].
  apply Byte.of_N_None_iff in E. lia.
Qed.

(** The keys from [p·c] up to [p·(c+1)] are those with prefix [p·c]. *)
Lemma range_prefix p c k :
  (Byte.to_N c < 255)%N →
  bytes_leb (p ++ [c]) k && bytes_ltb k (p ++ [byte_succ c]) = has_prefix k (p ++ [c]).
Proof.
  intros Hc. pose proof (byte_succ_N c Hc) as Hs. rewrite /bytes_leb /bytes_ltb. revert k.
  induction p as [|x p IH]; intros [|y k]; cbn [app bytes_compare has_prefix]; try done.
  - rewrite Hs. destruct (N.compare_spec (Byte.to_N c) (Byte.to_N y)) as [E|E|E].
    + apply Byte_to_N_inj in E as ->. rewrite bool_decide_eq_true_2 //=.
      destruct (N.compare_spec (Byte.to_N y) (Byte.to_N y + 1)); try lia.
      by destruct k.
    + rewrite bool_decide_eq_false_2; [by intros ->; lia|]. simpl.
      destruct (N.compare_spec (Byte.to_N y) (Byte.to_N c + 1)) as [E'| |]; try done; [|lia].
      by destruct k.
    + rewrite bool_decide_eq_false_2; [by intros ->; lia|]. done.
  - rewrite (N.compare_antisym (Byte.to_N x) (Byte.to_N y)).
    destruct (N.compare_spec (Byte.to_N x) (Byte.to_N y)) as [E|E|E]; simpl.
    + apply Byte_to_N_inj in E as ->. by rewrite bool_decide_eq_true_2 //= IH.
    + rewrite bool_decide_eq_false_2 //. intros ->. lia.
    + rewrite bool_decide_eq_false_2 //. intros ->. lia.
Qed.

Lemma literal_lt_255 c : is_ascii c = true → (Byte.to_N c < 255)%N.
Proof. rewrite /is_ascii => H. apply andb_true_iff in H as [_ H]. apply N.ltb_lt in H. lia. Qed.

Lemma forallb_plain_ascii l : forallb plain l = true → forallb is_ascii l = true.
Proof.
  rewrite !forallb_forall => H x Hx. specialize (H x Hx). rewrite /plain in H. by bool_to_prop.
Qed.

(** Whether the request takes the prefix branch of [buildRangeQuery]. *)
Definition prefix_request (r : RangeRequest) : bool :=
  match buildRangeQuery r with Some (WhereKeyLike _) => true | _ => false end.

Section range_query.
  Context `{SqlLike}.

(** [buildRangeQuery] selects exactly the keys of the etcd range: single
    key, everything, from a key on, half-open interval, and the prefix form
    provided prefix and key are ASCII without capital letters and the prefix
    holds no LIKE wildcard. *)
Theorem buildRangeQuery_etcd r w k :
  buildRangeQuery r = Some w → k ≠ [] →
  (prefix_request r = true → forallb literal (rr_Key r) = true ∧ forallb plain k = true) →
  where_key w k = in_etcd_range (rr_Key r) (rr_RangeEnd r) k.
Proof.
  rewrite /prefix_request /buildRangeQuery /in_etcd_range.
  destruct (last (rr_Key r)) as [c|] eqn:Hlast; [|done]. intros [= <-] Hk.
  apply last_Some in Hlast as [p Hp].
  assert (take (length (rr_Key r) - 1) (rr_Key r) = p) as ->.
  { rewrite Hp length_app /=. replace (length p + 1 - 1)%nat with (length p) by lia.
    by rewrite take_app_length. }
  case_bool_decide as E1; simpl; [done|].
  case_bool_decide as E2; simpl.
  { rewrite (bool_decide_eq_false_2 (rr_RangeEnd r = [Byte.x00]));
      [intros E%(f_equal length); rewrite E2 Hp !length_app /= in E; lia|].
    by rewrite -range_singleton E2. }
  destruct (decide (rr_RangeEnd r = [Byte.x00])) as [E3|E3].
  { rewrite !(bool_decide_eq_true_2 (rr_RangeEnd r = [Byte.x00])) // andb_true_r.
    case_bool_decide as E4; [|done]. by rewrite E4 bytes_leb_zero. }
  rewrite !(bool_decide_eq_false_2 (rr_RangeEnd r = [Byte.x00])) // andb_false_r.
  case_bool_decide as E5; [|done].
  intros Hlit. destruct (Hlit eq_refl) as [Hl Hpl]. cbn [where_key].
  assert (is_ascii c = true) as Hc.
  { rewrite Hp forallb_app in Hl. rewrite /= /literal /plain in Hl. by bool_to_prop. }
  rewrite sql_like_ascii; [|by apply forallb_plain_ascii|].
  - rewrite forallb_app /= andb_true_r.
    apply forallb_plain_ascii, forallb_forall => x Hx. rewrite forallb_forall in Hl.
    specialize (Hl x Hx). rewrite /literal in Hl. by bool_to_prop.
  - rewrite like_prefix // E5 Hp. symmetry. apply range_prefix. by apply literal_lt_255.
Qed.
End range_query.

(** ** Unary range *)

Definition to_kv (r : record) : KeyValue :=
  mkKeyValue (Key r) (CreateRevision r) (Revision r) (Value r) (Version r) (Lease r).

Definition compacted (r : record) : bool := bool_decide (CompactedAt r ≠ None).

Lemma recordsToKeyValues_spec l :
  recordsToKeyValues l
  = if existsb compacted l then Err ErrGRPCCompacted else Ok (to_kv <$> l).
Proof.
  induction l as [|r l IH]; [done|]. cbn [recordsToKeyValues existsb]. rewrite {1}/compacted.
  destruct (CompactedAt r) eqn:E; [rewrite bool_decide_eq_true_2 //; congruence|].
  rewrite bool_decide_eq_false_2; [by intros []|]. rewrite IH /=. by destruct (existsb _ l).
Qed.

Lemma visible_elem rev t r :
  0 < rev → r ∈ visible rev t → Revision r ≤ rev.
Proof. intros Hrev [Hv _]%list_elem_of_filter. auto. Qed.

Lemma clamp_revision_bound c r :
  0 < c → 0 ≤ rr_Revision r →
  0 < rr_Revision (clamp_revision c r) ≤ c.
Proof.
  intros Hc Hr. rewrite /clamp_revision.
  destruct (Z.eqb_spec (rr_Revision r) 0), (Z.ltb_spec c (rr_Revision r)); simpl; lia.
Qed.

Lemma limited_elem {A} limit (l : list A) x : x ∈ limited limit l → x ∈ l.
Proof.
  rewrite /limited. destruct (0 <? limit); [|done].
  rewrite -{2}(take_drop (Z.to_nat limit) l) elem_of_app. auto.
Qed.

Section range_theorems.
  Context `{SqlLike}.

(** Every row a query hands out is a live row of the table as of the revision,
    except the metadata row of revision 0. *)
Lemma FindRecordsBy_visible w rev limit order db recs n x :
  FindRecordsBy w rev limit order db = Ok (recs, n) → x ∈ recs →
  x = metadata_record ∨ x ∈ visible rev (rows db).
Proof.
  rewrite /FindRecordsBy. destruct (_ && _)%bool; [done|].
  set (asc := bool_decide _). set (q := find_query_rows _ _ _ _ _).
  assert (Hq : ∀ y, y ∈ q.*2 → y = metadata_record ∨ y ∈ visible rev (rows db)).
  { assert (Hlive : ∀ y, y ∈ live_rows (filtered w rev (rows db)) → y ∈ visible rev (rows db)).
    { intros y [_ [[_ ?] ?]%list_elem_of_filter]%list_elem_of_filter.
      by apply list_elem_of_filter. }
    assert (Hall : ∀ y ord, y ∈ (if asc : bool
        then (ord, metadata_record) :: (pair 0 <$> merge_sort order_asc (live_rows (filtered w rev (rows db))))
        else (pair 0 <$> merge_sort order_desc (live_rows (filtered w rev (rows db)))) ++ [(ord, metadata_record)]).*2
        → y = metadata_record ∨ y ∈ visible rev (rows db)).
    { intros y ord. destruct asc.
      - rewrite fmap_cons elem_of_cons -list_fmap_compose (list_fmap_ext _ id) // list_fmap_id.
        rewrite merge_sort_Permutation. naive_solver.
      - rewrite fmap_app elem_of_app -list_fmap_compose (list_fmap_ext _ id) // list_fmap_id.
        rewrite merge_sort_Permutation. set_solver. }
    intros y. rewrite /q /find_query_rows. destruct (0 <? limit); [|apply Hall].
    rewrite /sql_limit. destruct (_ <? 0); [apply Hall|].
    intros Hy. eapply Hall. rewrite fmap_take in Hy.
    rewrite -(take_drop (Z.to_nat (wrap64 (limit + 1))) ((if asc then _ else _).*2)) elem_of_app.
    left. exact Hy. }
  destruct q as [|[c m] rest]; intros [= <- <-] Hx; [set_solver|].
  apply Hq. by right.
Qed.

(** A client range read, in any sort order, with any options, never shows
    a revision above the committed one, once something is committed. *)
Theorem Client_Range_committed st db r resp kv :
  0 < committed st → 0 ≤ rr_Revision r →
  Client_Range st db r = Ok resp → kv ∈ rsp_Kvs resp →
  kv_ModRevision kv ≤ committed st.
Proof.
  intros Hc Hr. pose proof (clamp_revision_bound _ r Hc Hr) as Hclamp.
  rewrite /Client_Range /Range. destruct (validateRangeRequest _); [|done].
  destruct (buildRangeQuery _) as [w|]; [|done].
  destruct (FindRecordsBy w _ _ _ db) as [[recs n]|] eqn:Hf; [|done].
  destruct (rr_CountOnly _); [intros [= <-]; set_solver|].
  rewrite recordsToKeyValues_spec. destruct (existsb _ _); [done|].
  intros [= <-] (x & -> & Hx)%list_elem_of_fmap. simpl.
  destruct (FindRecordsBy_visible _ _ _ _ _ _ _ _ Hf Hx) as [->|Hv%visible_elem]; simpl; lia.
Qed.

(** The answer of a valid, non-counting, ascending range in terms of the snapshot. *)
Lemma Range_snapshot db r c w :
  validateRangeRequest r = Ok tt → buildRangeQuery r = Some w →
  rr_SortOrder r ≠ SORT_DESCEND → rr_CountOnly r = false → int64 (rr_Limit r) →
  Z.of_nat (length (snapshot w (rr_Revision r) (rows db))) ≤ int64_max →
  let l := snapshot w (rr_Revision r) (rows db) in
  let page := limited (rr_Limit r) l in
  Range db r c
  = if existsb compacted page then Err ErrGRPCCompacted
    else Ok (mkRangeResponse (Some c) (to_kv <$> page) (Z.of_nat (length l))
               (Z.of_nat (length page) <? Z.of_nat (length l))).
Proof.
  intros Hv Hw Hord Hco Hi Hlen l page. rewrite /Range Hv Hw decide_False //.
  rewrite FindRecordsBy_asc // Hco recordsToKeyValues_spec -/l -/page.
  by destruct (existsb compacted page).
Qed.

(** A client read answers the page of the snapshot at the clamped revision. *)
Lemma Client_Range_page st db r w :
  validateRangeRequest r = Ok tt → buildRangeQuery r = Some w →
  rr_SortOrder r ≠ SORT_DESCEND → rr_CountOnly r = false → int64 (rr_Limit r) →
  Z.of_nat (length (rows db)) ≤ int64_max →
  let rev := if (rr_Revision r =? 0) || (committed st <? rr_Revision r)
             then committed st else rr_Revision r in
  let l := snapshot w rev (rows db) in
  let page := limited (rr_Limit r) l in
  Client_Range st db r
  = if existsb compacted page then Err ErrGRPCCompacted
    else Ok (mkRangeResponse (Some (committed st)) (to_kv <$> page) (Z.of_nat (length l))
               (Z.of_nat (length page) <? Z.of_nat (length l))).
Proof.
  intros Hv Hw Hord Hco Hi Hlen rev l page.
  assert (rr_Revision (clamp_revision (committed st) r) = rev) as Hrev.
  { rewrite /rev /clamp_revision. by destruct (_ || _)%bool. }
  assert (Hsame : ∀ A (f : RangeRequest → A), (∀ x, f (set_rr_Revision x r) = f r) →
    f (clamp_revision (committed st) r) = f r).
  { intros A f Hf. rewrite /clamp_revision. by destruct (_ || _)%bool. }
  rewrite /Client_Range (Range_snapshot db _ (committed st) w).
  - by rewrite Hsame.
  - by rewrite Hsame.
  - by rewrite Hsame.
  - by rewrite Hsame.
  - by rewrite Hsame.
  - etrans; [|exact Hlen]. apply inj_le, snapshot_length_le.
  - rewrite Hrev. by rewrite (Hsame _ rr_Limit).
Qed.

(** Linearisable snapshot reads: a client range read answers the live rows
    of the committed store as of the requested revision, in key order, cut off
    at the limit, with the total count and the committed revision as header;
    its only failure is a compacted row within the page. *)
Theorem Client_Range_snapshot st db r w :
  table_wf (rows db) → 0 < committed st → 0 ≤ rr_Revision r →
  validateRangeRequest r = Ok tt → buildRangeQuery r = Some w →
  rr_SortOrder r ≠ SORT_DESCEND → rr_CountOnly r = false → int64 (rr_Limit r) →
  Z.of_nat (length (rows db)) ≤ int64_max →
  let rev := if (rr_Revision r =? 0) || (committed st <? rr_Revision r)
             then committed st else rr_Revision r in
  ∃ l, StronglySorted key_lt l ∧
    (∀ x, x ∈ l ↔ where_key w (Key x) = true ∧
                  live_for_key (Key x) (filter (λ y, Revision y ≤ rev) (rows db)) = Some x) ∧
    let page := limited (rr_Limit r) l in
    Client_Range st db r
    = if existsb compacted page then Err ErrGRPCCompacted
      else Ok (mkRangeResponse (Some (committed st)) (to_kv <$> page) (Z.of_nat (length l))
                 (Z.of_nat (length page) <? Z.of_nat (length l))).
Proof.
  intros Ht Hc Hr Hv Hw Hord Hco Hi Hlen rev.
  pose proof (clamp_revision_bound _ r Hc Hr) as Hb.
  assert (rr_Revision (clamp_revision (committed st) r) = rev) as Hrev.
  { rewrite /rev /clamp_revision. by destruct (_ || _)%bool. }
  rewrite Hrev in Hb.
  assert (visible rev (rows db) = filter (λ y, Revision y ≤ rev) (rows db)) as Hvis.
  { apply filter_ext. intros x _. split; [intros Hx; apply Hx; lia|auto]. }
  destruct (snapshot_spec w rev (rows db) Ht) as [Hs Hin]. rewrite Hvis in Hin.
  exists (snapshot w rev (rows db)). split; [done|]. split; [done|].
  by apply Client_Range_page.
Qed.

(** ** The chunk sizer *)

Definition sizer_ok (s : chunkSizer) : Prop :=
  sz_minKeys s = 1 ∧ sz_maxKeys s = rangeStreamMaxChunkKeys ∧
  sz_targetBytes s = rangeStreamTargetChunkBytes ∧ 1 ≤ sz_keys s ≤ rangeStreamMaxChunkKeys.

Lemma Observe_ok n s : sizer_ok s → sizer_ok (Observe n s).
Proof.
  rewrite /sizer_ok /Observe /rangeStreamMaxChunkKeys /rangeStreamTargetChunkBytes.
  intros (Hmin & Hmax & Htb & Hk). rewrite Hmin Hmax Htb.
  destruct (n <? _); [|destruct (_ <? n)]; simpl; (split; [done|split; [done|split; [done|]]]).
  - rewrite wrap64_id; solve_int64.
  - pose proof (Z.quot_pos (sz_keys s) 2). pose proof (Z.quot_le_upper_bound (sz_keys s) 2 10000).
    lia.
  - lia.
Qed.

(** However the response sizes vary, the sizer always asks for at least
    one key and at most [rangeStreamMaxChunkKeys], so the stream makes progress
    and no chunk is unbounded. *)
Theorem chunkSizer_bounds sizes :
  let s := foldl (λ s n, Observe n s) newChunkSizer sizes in
  1 ≤ sz_keys s ≤ rangeStreamMaxChunkKeys.
Proof.
  assert (sizer_ok (foldl (λ s n, Observe n s) newChunkSizer sizes)) as (_ & _ & _ & ?); [|done].
  assert (sizer_ok newChunkSizer) as H0 by done. revert H0. generalize newChunkSizer.
  induction sizes as [|n l IH]; intros s Hs; simpl; [done|]. apply IH. by apply Observe_ok.
Qed.

(** ** Streaming *)

(** The cursor after [n] rows of [l]. *)
Definition cursor (l : table) (n : nat) : bytes :=
  match n with O => [] | S m => default [] (Key <$> l !! m) end.

Lemma stream_chunk w rev limit n db :
  table_wf (rows db) → (∀ x, x ∈ rows db → Key x ≠ []) → 0 < limit →
  let l := snapshot w rev (rows db) in
  (n ≤ length l)%nat →
  FindRecordsForRangeStream w rev limit "ASC" (cursor l n) db
  = Ok (take (Z.to_nat limit) (drop n l)).
Proof.
  intros Ht Hk Hlim l Hn. rewrite /FindRecordsForRangeStream /=.
  rewrite (proj2 (Z.ltb_lt _ _) Hlim) /sql_limit. destruct (Z.ltb_spec limit 0); [lia|].
  do 2 f_equal. destruct n as [|n]; [done|].
  destruct (lookup_lt_is_Some_2 l n) as [x Hx]; [lia|]. rewrite /cursor Hx /=.
  destruct (snapshot_spec w rev (rows db) Ht) as [Hs Hin]. fold l in Hs, Hin.
  assert (x ∈ rows db) as Hxr.
  { apply list_elem_of_lookup_2, Hin in Hx as [_ [[Hx _]%latest_elem _]%live_for_key_spec].
    by apply list_elem_of_filter in Hx as [_ ?]. }
  destruct (Key x) as [|b k] eqn:HK; [by destruct (Hk x)|]. rewrite -HK.
  rewrite -(key_sorted_drop l n x Hs Hx). apply key_sorted_unique.
  - apply merge_sort_key_lt.
    + intros a b' [_ Ha]%list_elem_of_filter [_ Hb]%list_elem_of_filter.
      apply (live_rows_unique (filtered w rev (rows db))); [by apply table_wf_filter|done|done].
    + apply NoDup_filter, live_rows_NoDup. by apply table_wf_filter.
  - by apply key_sorted_filter.
  - intros y. rewrite merge_sort_Permutation !list_elem_of_filter.
    by rewrite /l /snapshot merge_sort_Permutation /live_rows !list_elem_of_filter.
Qed.

Lemma drop_take_split {A} (l : list A) n m k :
  (m ≤ k)%nat → drop n (take (n + k) l) = take m (drop n l) ++ drop (n + m) (take (n + k) l).
Proof.
  intros Hm. rewrite !skipn_firstn_comm.
  replace (n + k - n)%nat with k by lia. replace (n + k - (n + m))%nat with (k - m)%nat by lia.
  rewrite -(take_drop m (take k (drop n l))). rewrite take_take skipn_firstn_comm drop_drop.
  by replace (m `min` k)%nat with m by lia.
Qed.

Lemma cursor_next l n m kv :
  (0 < m)%nat → (n + m ≤ length l)%nat →
  last (to_kv <$> take m (drop n l)) = Some kv → kv_Key kv = cursor l (n + m).
Proof.
  intros Hm Hlen. rewrite fmap_last.
  destruct m as [|m]; [lia|]. rewrite last_lookup length_take length_drop.
  replace (pred _) with m by lia. rewrite lookup_take_lt; [lia|]. rewrite lookup_drop.
  rewrite Nat.add_succ_r /=. destruct (l !! (n + m)%nat); [|done]. by intros [= <-].
Qed.

Section stream.
  Context (resp_size : RangeResponse → Z) (dbs : nat → database).
  Context (w : where_clause) (rev c : Z) (l : table).
  Hypothesis Hwf : ∀ i, table_wf (rows (dbs i)).
  Hypothesis Hkeys : ∀ i x, x ∈ rows (dbs i) → Key x ≠ [].
  Hypothesis Hsnap : ∀ i, snapshot w rev (rows (dbs i)) = l.
  Hypothesis Hlen : Z.of_nat (length l) < int64_max.

Lemma stream_query i n limit :
  0 < limit → (n ≤ length l)%nat →
  FindRecordsForRangeStream w rev limit "ASC" (cursor l n) (dbs i)
  = Ok (take (Z.to_nat limit) (drop n l)).
Proof using Hwf Hkeys Hsnap.
  intros Hlim Hn. pose proof (stream_chunk w rev limit n (dbs i)) as Hc.
  simpl in Hc. rewrite Hsnap in Hc. apply Hc; auto. exact (Hkeys i).
Qed.

(** What the rest of the stream delivers from row [n] on, for page [T]. *)
Definition delivers (T : table) (n : nat) (out : option (list RangeResponse * res range_err unit))
    : Prop :=
  ∃ resps, if existsb compacted (drop n T) then out = Some (resps, Err ErrGRPCCompacted)
    else out = Some (resps, Ok tt) ∧ concat (rsp_Kvs <$> resps) = to_kv <$> drop n T ∧
      ∃ rs kvs, resps = rs ++ [mkRangeResponse (Some c) kvs (Z.of_nat (length l))
                                 (Z.of_nat (length T) <? Z.of_nat (length l))] ∧
                Forall (λ r, rsp_Header r = None) rs.

Lemma delivers_last T n more :
  existsb compacted (drop n T) = false → more = (Z.of_nat (length T) <? Z.of_nat (length l)) →
  delivers T n (Some ([mkRangeResponse (Some c) (to_kv <$> drop n T) (Z.of_nat (length l)) more], Ok tt)).
Proof using.
  intros Hcomp ->. rewrite /delivers Hcomp. eexists. split; [reflexivity|].
  split; [by rewrite /= app_nil_r|]. by exists [], (to_kv <$> drop n T).
Qed.

Lemma delivers_cons T n n' a out :
  drop n T = a ++ drop n' T → existsb compacted a = false → delivers T n' out →
  delivers T n (match out with
                | None => None
                | Some (resps, e) => Some (mkRangeResponse None (to_kv <$> a) 0 false :: resps, e)
                end).
Proof using.
  intros Hsplit Hcomp [resps Hresps]. rewrite /delivers Hsplit existsb_app Hcomp orb_false_l.
  destruct (existsb compacted (drop n' T)); [rewrite Hresps; by eexists|].
  destruct Hresps as (-> & Hcat & rs & kvs & -> & Hhdr).
  eexists. split; [reflexivity|]. split; [by rewrite fmap_cons /= Hcat fmap_app|].
  exists (mkRangeResponse None (to_kv <$> a) 0 false :: rs), kvs. split; [done|]. by constructor.
Qed.

Lemma stream_loop fuel i L sizer n :
  sizer_ok sizer → (n ≤ length l)%nat → Z.of_nat n < L ≤ int64_max →
  (length l - n < fuel)%nat →
  delivers (take (Z.to_nat L) l) n
    (range_stream_loop resp_size (λ _, false) (λ _, false) dbs fuel i w rev L c sizer
       (Z.of_nat n) (cursor l n)).
Proof using Hwf Hkeys Hsnap Hlen.
  revert i sizer n. induction fuel as [|fuel IH]; intros i sizer n Hs Hn HL Hf; [lia|].
  pose proof Hs as (_ & _ & _ & Hk). rewrite /rangeStreamMaxChunkKeys in Hk.
  cbn [range_stream_loop]. pose proof Hlen as Hlen'. rewrite /int64_max in HL Hlen'.
  rewrite (wrap64_id (L - _)); [solve_int64|].
  set (m := Z.min (sz_keys sizer) (L - Z.of_nat n)).
  rewrite (wrap64_id (m + 1)); [solve_int64|].
  rewrite stream_query //; [lia|]. rewrite length_take length_drop.
  destruct (Z.ltb_spec m (Z.of_nat (Z.to_nat (m + 1) `min` (length l - n)))) as [Hmore|Hmore].
  - (* another chunk exists *)
    rewrite take_take (_ : (Z.to_nat m `min` Z.to_nat (m + 1))%nat = Z.to_nat m); [lia|].
    set (mn := Z.to_nat m). rewrite recordsToKeyValues_spec.
    assert (Hsplit : drop n (take (Z.to_nat L) l)
      = take mn (drop n l) ++ drop (n + mn) (take (Z.to_nat L) l)).
    { replace (Z.to_nat L) with (n + (Z.to_nat L - n))%nat by lia. apply drop_take_split. lia. }
    destruct (existsb compacted (take mn (drop n l))) eqn:Hcomp.
    { exists []. by rewrite Hsplit existsb_app Hcomp. }
    rewrite length_fmap length_take length_drop.
    rewrite (_ : (mn `min` (length l - n))%nat = mn); [lia|].
    rewrite (wrap64_id (Z.of_nat n + Z.of_nat mn)); [solve_int64|].
    rewrite -Nat2Z.inj_add. cbn [negb orb].
    destruct (Z.eqb_spec (Z.of_nat (n + mn)) L) as [HeqL|HneqL].
    + rewrite FindRecordsBy_asc ?Hsnap; [done|rewrite /int64_max; lia|].
      assert (drop (n + mn) (take (Z.to_nat L) l) = []) as Hnil.
      { apply drop_ge. rewrite length_take. lia. }
      rewrite Hnil app_nil_r in Hsplit. rewrite -Hsplit. rewrite -Hsplit in Hcomp.
      apply delivers_last; [done|]. symmetry. apply Z.ltb_lt. rewrite length_take. lia.
    + destruct (last (to_kv <$> take mn (drop n l))) as [kv|] eqn:Hkv.
      2:{ apply last_None in Hkv. apply (f_equal length) in Hkv.
          rewrite length_fmap length_take length_drop /= in Hkv. lia. }
      rewrite (cursor_next l n mn kv) //; [lia|lia|].
      apply (delivers_cons _ n (n + mn)); [done|done|].
      apply IH; [by apply Observe_ok|lia|rewrite /int64_max; lia|lia].
  - (* the last chunk *)
    rewrite (take_ge (drop n l)); [rewrite length_drop; lia|]. rewrite recordsToKeyValues_spec.
    assert (take (Z.to_nat L) l = l) as HT by (apply take_ge; lia).
    destruct (existsb compacted (drop n l)) eqn:Hcomp; [exists []; by rewrite HT Hcomp|].
    rewrite length_fmap length_drop.
    rewrite (wrap64_id (Z.of_nat n + _)); [solve_int64|].
    rewrite (_ : Z.of_nat n + Z.of_nat (length l - n) = Z.of_nat (length l)); [lia|].
    rewrite HT. cbn [negb orb].
    apply delivers_last; [done|]. symmetry. apply Z.ltb_irrefl.
Qed.
End stream.

Lemma snapshot_visible w rev t t' :
  visible rev t = visible rev t' → snapshot w rev t = snapshot w rev t'.
Proof.
  assert (∀ u, filtered w rev u = filter (λ r, where_key w (Key r) = true) (visible rev u)) as E.
  { intros u. by rewrite /filtered /visible list_filter_filter. }
  rewrite /snapshot !E. by intros ->.
Qed.

(** C29: streaming terminates and agrees with the unary read.  If the rows
    visible at the request revision do not change while the stream runs (the
    database may grow beyond it), the chunks concatenate to the unary answer,
    the final response carries its header, count and more flag, and where the
    unary read fails the stream ends with the same error. *)
Theorem RangeStream_Range resp_size dbs r c fuel :
  (∀ i, table_wf (rows (dbs i))) → (∀ i x, x ∈ rows (dbs i) → Key x ≠ []) →
  (∀ i, visible (rr_Revision r) (rows (dbs i)) = visible (rr_Revision r) (rows (dbs 0%nat))) →
  Z.of_nat (length (rows (dbs 0%nat))) < int64_max → int64 (rr_Limit r) →
  rr_SortOrder r = SORT_NONE → rr_CountOnly r = false →
  (length (rows (dbs 0%nat)) < fuel)%nat →
  let stream := RangeStream resp_size (λ _, false) (λ _, false) dbs fuel r c in
  match Range (dbs 0%nat) r c with
  | Ok resp => ∃ rs kvs,
      stream = Some (rs ++ [mkRangeResponse (rsp_Header resp) kvs (rsp_Count resp) (rsp_More resp)],
                     Ok tt) ∧
      Forall (λ x, rsp_Header x = None) rs ∧
      concat (rsp_Kvs <$> rs) ++ kvs = rsp_Kvs resp
  | Err e => ∃ rs, stream = Some (rs, Err e)
  end.
Proof.
  intros Hwf Hkeys Hvis Hlen Hi Hord Hco Hfuel. rewrite /RangeStream.
  destruct (validateRangeRequest r) as [[]|e] eqn:Hv; [|by rewrite /Range Hv; exists []].
  destruct (buildRangeQuery r) as [w|] eqn:Hw; [|rewrite /Range Hv Hw Hord; by exists []].
  pose proof (snapshot_length_le w (rr_Revision r) (rows (dbs 0%nat))) as Hsl.
  rewrite (Range_snapshot _ _ c w) ?Hord ?Hco //; [lia|].
  set (l := snapshot w (rr_Revision r) (rows (dbs 0%nat))) in *. cbn [negb bool_decide].
  rewrite bool_decide_eq_false_2; [by intros []|].
  assert (0 ≤ rr_Limit r) as Hpos.
  { rewrite /validateRangeRequest in Hv. destruct (Z.ltb_spec (rr_Limit r) 0); done. }
  assert (limited (rr_Limit r) l
    = take (Z.to_nat (if rr_Limit r =? 0 then int64_max else rr_Limit r)) l) as ->.
  { rewrite /limited. destruct (Z.ltb_spec 0 (rr_Limit r)), (Z.eqb_spec (rr_Limit r) 0); try lia.
    - done.
    - symmetry. apply take_ge. lia. }
  set (L := if rr_Limit r =? 0 then int64_max else rr_Limit r).
  assert (0 < L ≤ int64_max) as HL.
  { rewrite /L. rewrite /int64 /int64_max in Hi |- *. destruct (Z.eqb_spec (rr_Limit r) 0); lia. }
  destruct (stream_loop resp_size dbs w (rr_Revision r) c l Hwf Hkeys
    (λ i, snapshot_visible _ _ _ _ (Hvis i)) ltac:(lia) fuel 0%nat L newChunkSizer 0%nat)
    as [resps Hout]; [done|lia|lia|lia|].
  rewrite drop_0 in Hout. destruct (existsb compacted (take (Z.to_nat L) l)).
  - by exists resps.
  - destruct Hout as (Hout & Hcat & rs & kvs & -> & Hhdr). exists rs, kvs.
    split; [done|]. split; [done|]. rewrite -Hcat fmap_app concat_app /= app_nil_r //.
Qed.

(** *** Reads after compaction *)

Lemma snapshot_map w rev f t :
  (∀ r, same_links r (f r)) → table_wf t →
  snapshot w rev (f <$> t) = f <$> snapshot w rev t.
Proof.
  intros Hf Ht. pose proof (table_wf_map f Hf t Ht) as Ht'.
  destruct (snapshot_spec w rev t Ht) as [Hs Hin].
  destruct (snapshot_spec w rev (f <$> t) Ht') as [Hs' Hin'].
  assert (Hvis : visible rev (f <$> t) = f <$> visible rev t).
  { apply filter_fmap => x. by destruct (Hf x) as (-> & _). }
  apply key_sorted_unique; [done| |].
  - apply (StronglySorted_fmap f key_lt); [|done]. intros x y. rewrite /key_lt.
    by destruct (Hf x) as (_ & -> & _), (Hf y) as (_ & -> & _).
  - intros x. rewrite Hin' Hvis live_map // list_elem_of_fmap. split.
    + intros [Hw Hl]. destruct (live_for_key (Key x) (visible rev t)) as [y|] eqn:Hy; [|done].
      simplify_eq/=. exists y. split; [done|]. apply Hin.
      destruct (Hf y) as (_ & E & _). by rewrite E in Hw Hy.
    + intros (y & -> & [Hw Hl]%Hin). destruct (Hf y) as (_ & -> & _). by rewrite Hl.
Qed.

Lemma limited_fmap {A B} (f : A → B) n l : limited n (f <$> l) = f <$> limited n l.
Proof. rewrite /limited. destruct (0 <? n); [by rewrite fmap_take|done]. Qed.

(** Compaction never falsifies a read: after [ExecuteCompaction] a range
    read at any revision gives its former answer or reports the revision
    compacted, and at or beyond the latest revision it gives its former answer. *)
Theorem Range_after_compaction now cr db r c w :
  table_wf (rows db) → validateRangeRequest r = Ok tt → buildRangeQuery r = Some w →
  rr_SortOrder r ≠ SORT_DESCEND → rr_CountOnly r = false → int64 (rr_Limit r) →
  Z.of_nat (length (rows db)) ≤ int64_max →
  let db' := (ExecuteCompaction now cr db).2 in
  (Range db' r c = Range db r c ∨ Range db' r c = Err ErrGRPCCompacted) ∧
  ((∀ x, x ∈ rows db → Revision x ≤ rr_Revision r) → Range db' r c = Range db r c).
Proof.
  intros Ht Hv Hw Hord Hco Hi Hlen db'.
  pose proof (snapshot_length_le w (rr_Revision r) (rows db)) as Hsl.
  assert (rows db' = if cr <=? 0 then rows db else compact_update now cr (rows db) <$> rows db)
    as Hrows by apply ExecuteCompaction_rows.
  destruct (cr <=? 0). { rewrite /Range Hv Hw /FindRecordsBy Hrows. auto. }
  set (f := compact_update now cr (rows db)) in *.
  assert (∀ x, same_links x (f x)) as Hf by apply same_links_compact_update.
  pose proof (snapshot_map w (rr_Revision r) f (rows db) Hf Ht) as Hsnap.
  rewrite !(Range_snapshot _ _ c w) ?Hrows ?Hsnap ?length_fmap //; [lia|lia|].
  set (l := snapshot w (rr_Revision r) (rows db)) in *. rewrite limited_fmap length_fmap.
  set (page := limited (rr_Limit r) l).
  assert (Hfix : existsb compacted (f <$> page) = false → f <$> page = page).
  { intros Hn. rewrite -{2}(list_fmap_id page). apply list_fmap_ext. intros i x Hx.
    rewrite existsb_false in Hn. specialize (Hn (f x) (list_elem_of_fmap_2 f _ _ (list_elem_of_lookup_2 _ _ _ Hx))).
    rewrite /f /compact_update in Hn |- *. by destruct (compactable (rows db) cr x). }
  split.
  - destruct (existsb compacted (f <$> page)) eqn:Hn; [by right|left].
    by rewrite (Hfix eq_refl) in Hn |- *; rewrite Hn.
  - intros Hmax. assert (f <$> page = page) as ->; [|done].
    rewrite -{2}(list_fmap_id page). apply list_fmap_ext. intros i x Hx.
    apply list_elem_of_lookup_2, limited_elem in Hx.
    apply (snapshot_spec w (rr_Revision r) (rows db) Ht) in Hx as [_ Hl].
    rewrite /visible filter_all in Hl; [by auto|].
    by rewrite /f /compact_update (live_not_compactable _ _ _ _ Ht Hl).
Qed.

(** *** Divergences *)

(** A descending query reads its first record as the metadata row: the count is
    0 whenever some row matches, and the metadata row is handed out as a record. *)
Lemma FindRecordsBy_desc w rev db :
  live_rows (filtered w rev (rows db)) ≠ [] →
  ∃ recs, FindRecordsBy w rev 0 "DESC" db = Ok (recs ++ [metadata_record], 0).
Proof.
  intros Hne. rewrite /FindRecordsBy /= /find_query_rows /=.
  destruct (merge_sort order_desc (live_rows (filtered w rev (rows db)))) as [|x l] eqn:E.
  { destruct Hne. apply Permutation_nil_r. rewrite -E. symmetry. apply merge_sort_Permutation. }
  exists l. simpl. rewrite fmap_app -list_fmap_compose (list_fmap_ext _ id) // list_fmap_id //.
Qed.

(** An empty key panics before any check looks at it. *)
Lemma Range_empty_key_panics db r c :
  rr_Key r = [] → validateRangeRequest r = Ok tt → Range db r c = Err RangePanic.
Proof. intros Hk Hv. by rewrite /Range Hv /buildRangeQuery Hk. Qed.

(** The prefix "/a_" also selects the key "/axc", which is outside its range. *)
Lemma prefix_wildcard_leak :
  let r := mkRangeRequest [Byte.x2f; Byte.x61; Byte.x5f] [Byte.x2f; Byte.x61; Byte.x60]
             0 0 SORT_NONE 0 false false false 0 0 0 0 in
  let k := [Byte.x2f; Byte.x61; Byte.x78; Byte.x63] in
  (λ w, where_key w k) <$> buildRangeQuery r = Some true ∧
  in_etcd_range (rr_Key r) (rr_RangeEnd r) k = false.
Proof.
  split; [|reflexivity]. change (Some (sql_like [Byte.x2f; Byte.x61; Byte.x5f; Byte.x25]
    [Byte.x2f; Byte.x61; Byte.x78; Byte.x63]) = Some true).
  by rewrite sql_like_ascii.
Qed.

(** With nothing committed yet the revision bound is absent: a tentative row is
    served to clients. *)
Lemma Client_Range_uncommitted_leak :
  ∃ db r resp, Client_Range State_New db r = Ok resp ∧ committed State_New = 0 ∧
    kv_ModRevision <$> rsp_Kvs resp = [1].
Proof.
  exists (insert_or 10 (txn_record 1 key_a true false 0 (Some [Byte.x31])) (mkDB [] [])).
  exists (mkRangeRequest key_a [] 0 0 SORT_NONE 0 false false false 0 0 0 0).
  eexists. by vm_compute.
Qed.
End range_theorems.

(** ** The theorems on concrete requests *)

Definition example_all : RangeRequest :=
  mkRangeRequest [Byte.x00] [Byte.x00] 0 0 SORT_NONE 0 false false false 0 0 0 0.
Definition example_prefix : RangeRequest :=
  mkRangeRequest [Byte.x2f] [Byte.x30] 1 2 SORT_NONE 0 false false false 0 0 0 0.
Definition example_state : State := SetCommitted 4 State_New.

Lemma example_wf : table_wf (rows example_db).
Proof. auto using example_db_history with netsy. Qed.

Lemma example_len : Z.of_nat (length (rows example_db)) < int64_max.
Proof. vm_compute. reflexivity. Qed.

Lemma example_keys x : x ∈ rows example_db → Key x ≠ [].
Proof.
  intros Hx. by destruct (history_row _ _ example_db_history Hx) as (? & ? & _ & _ & [? _] & _).
Qed.

Lemma buildRangeQuery_etcd_witness :
  @where_key ascii_like (WhereKeyLike [Byte.x2f; Byte.x25]) key_a
  = in_etcd_range [Byte.x2f] [Byte.x30] key_a.
Proof.
  apply (@buildRangeQuery_etcd ascii_like example_prefix); [reflexivity|discriminate|].
  intros _. split; vm_compute; reflexivity.
Defined.

Lemma Client_Range_committed_witness :
  ∃ resp, @Client_Range ascii_like example_state example_db example_all = Ok resp ∧
    kv_ModRevision <$> rsp_Kvs resp = [3] ∧
    ∀ kv, kv ∈ rsp_Kvs resp → kv_ModRevision kv ≤ committed example_state.
Proof.
  eexists. split; [vm_compute; reflexivity|]. split; [vm_compute; reflexivity|].
  intros kv. apply (@Client_Range_committed ascii_like example_state example_db example_all);
    [vm_compute; reflexivity|vm_compute; discriminate|vm_compute; reflexivity].
Defined.

Lemma Client_Range_snapshot_witness :
  ∃ l, StronglySorted key_lt l ∧
    @Client_Range ascii_like example_state example_db example_prefix
    = if existsb compacted (limited 1 l) then Err ErrGRPCCompacted
      else Ok (mkRangeResponse (Some 4) (to_kv <$> limited 1 l) (Z.of_nat (length l))
                 (Z.of_nat (length (limited 1 l)) <? Z.of_nat (length l))).
Proof.
  destruct (@Client_Range_snapshot ascii_like example_state example_db example_prefix
              (WhereKeyLike [Byte.x2f; Byte.x25])) as (l & Hs & _ & E);
    [exact example_wf|vm_compute; reflexivity|vm_compute; discriminate|reflexivity|reflexivity
    |discriminate|reflexivity|split; vm_compute; discriminate|vm_compute; discriminate|].
  exists l. split; [exact Hs|exact E].
Defined.

Lemma RangeStream_Range_witness :
  match @Range ascii_like example_db example_all 4 with
  | Ok resp => ∃ rs kvs,
      @RangeStream ascii_like (λ _, 0) (λ _, false) (λ _, false) (λ _, example_db) 9 example_all 4
      = Some (rs ++ [mkRangeResponse (rsp_Header resp) kvs (rsp_Count resp) (rsp_More resp)],
              Ok tt) ∧
      Forall (λ x, rsp_Header x = None) rs ∧ concat (rsp_Kvs <$> rs) ++ kvs = rsp_Kvs resp
  | Err e => False
  end.
Proof.
  apply (@RangeStream_Range ascii_like (λ _, 0) (λ _, example_db) example_all 4 9);
    [intros _; exact example_wf|intros _ x; apply example_keys|reflexivity|exact example_len
    |split; vm_compute; discriminate|reflexivity|reflexivity|vm_compute; lia].
Defined.

Lemma Range_after_compaction_witness :
  @Range ascii_like (ExecuteCompaction 60 3 example_db).2 (set_rr_Revision 4 example_all) 4
  = @Range ascii_like example_db (set_rr_Revision 4 example_all) 4.
Proof.
  apply (@Range_after_compaction ascii_like 60 3 example_db (set_rr_Revision 4 example_all) 4 WhereAll);
    [exact example_wf|reflexivity|reflexivity|discriminate|reflexivity
    |split; vm_compute; discriminate|vm_compute; discriminate|].
  intros x Hx. apply (history_row_bound _ _ example_db_history Hx).
Defined.
