(* ===== verification/Decimal.v ===== *)
(** * Decimal text

    Integers printed and read in base ten, as Go's [fmt] and [strconv] do for
    object keys, durations and timestamps. *)

From Stdlib Require Import Strings.Ascii.
From S2P Require Import Prelude.

#[local] Open Scope string_scope.
#[local] Open Scope Z_scope.

(** ** Printing and reading *)

Definition digit_char (d : Z) : Ascii.ascii := Ascii.ascii_of_N (Z.to_N (48 + d)).

(** Digits of [n], least significant last; twenty suffice for 64 bits. *)
Fixpoint dec_aux (fuel : nat) (n : Z) (acc : string) : string :=
  let acc := String (digit_char (n `mod` 10)) acc in
  match fuel with
  | O => acc
  | S f => if n <? 10 then acc else dec_aux f (n `div` 10) acc
  end.
Definition dec (n : Z) : string := dec_aux 19 n "".

Fixpoint zeros (n : nat) : string :=
  match n with O => "" | S n' => String "0"%char (zeros n') end.

(** Go's [%0wd]: zero padding to the width, after the sign. *)
Definition fmt_padded (w : nat) (z : Z) : string :=
  let pad (w : nat) (s : string) := zeros (w - String.length s) ++ s in
  if z <? 0 then "-" ++ pad (w - 1)%nat (dec (- z)) else pad w (dec z).

Definition char_digit (c : Ascii.ascii) : option Z :=
  let n := Z.of_N (Ascii.N_of_ascii c) in
  if (48 <=? n) && (n <=? 57) then Some (n - 48) else None.

Fixpoint parse_digits (s : string) (acc : Z) : option Z :=
  match s with
  | "" => Some acc
  | String c s' =>
      match char_digit c with
      | None => None
      | Some d => parse_digits s' (acc * 10 + d)
      end
  end.

(** [strconv.ParseInt(s, 10, 64)]; [None] is an error. *)
Definition ParseInt64 (s : string) : option Z :=
  match s with
  | "" => None
  | String c s' =>
      let neg := bool_decide (c = "-"%char) in
      let digits := if neg || bool_decide (c = "+"%char) then s' else s in
      if bool_decide (digits = "") then None
      else
        match parse_digits digits 0 with
        | None => None
        | Some n =>
            if neg then (if n <=? 2 ^ 63 then Some (- n) else None)
            else (if n <=? int64_max then Some n else None)
        end
  end.

(** ** Reading back *)

Lemma digit_char_digit d : 0 ≤ d < 10 → char_digit (digit_char d) = Some d.
Proof.
  intros Hd. assert (d = 0 ∨ d = 1 ∨ d = 2 ∨ d = 3 ∨ d = 4 ∨ d = 5 ∨ d = 6 ∨ d = 7 ∨ d = 8 ∨ d = 9)
    as Hd' by lia. by destruct_or! Hd'; subst.
Qed.

Lemma digit_char_neq d c :
  0 ≤ d < 10 → char_digit c = None → digit_char d ≠ c.
Proof. intros Hd Hc <-. by rewrite digit_char_digit in Hc. Qed.

Lemma parse_dec_aux fuel n acc :
  0 ≤ n < 10 ^ Z.of_nat (S fuel) → parse_digits (dec_aux fuel n acc) 0 = parse_digits acc n.
Proof.
  revert n acc; induction fuel as [|f IH]; intros n acc Hn.
  - change (10 ^ Z.of_nat 1) with 10 in Hn. cbn [dec_aux parse_digits].
    by rewrite Z.mod_small // digit_char_digit.
  - cbn [dec_aux]. pose proof (Z.mod_pos_bound n 10 ltac:(lia)) as Hm.
    destruct (Z.ltb_spec n 10).
    + cbn [parse_digits]. rewrite Z.mod_small; [lia|]. rewrite digit_char_digit; [lia|]. done.
    + rewrite IH.
      * rewrite Nat2Z.inj_succ Z.pow_succ_r in Hn; [lia|].
        split; [apply Z.div_pos; lia|apply Z.div_lt_upper_bound; lia].
      * cbn [parse_digits]. rewrite digit_char_digit //. f_equal.
        pose proof (Z.div_mod n 10 ltac:(lia)). lia.
Qed.

(** Strings of digits only. *)
Fixpoint all_digits (s : string) : bool :=
  match s with "" => true | String c s' => bool_decide (is_Some (char_digit c)) && all_digits s' end.

Lemma dec_aux_digits fuel n acc :
  0 ≤ n → all_digits acc = true → all_digits (dec_aux fuel n acc) = true.
Proof.
  revert n acc; induction fuel as [|f IH]; intros n acc Hn Hacc; cbn [dec_aux].
  all: assert (all_digits (String (digit_char (n `mod` 10)) acc) = true) as Hd by
    (cbn [all_digits]; rewrite digit_char_digit; [apply Z.mod_pos_bound; lia|];
     by rewrite bool_decide_eq_true_2).
  - done.
  - destruct (n <? 10); [done|]. apply IH; [by apply Z.div_pos|done].
Qed.

Lemma zeros_digits n s : all_digits (zeros n ++ s) = all_digits s.
Proof. induction n as [|n IH]; [done|]. apply IH. Qed.

Lemma parse_zeros n s : parse_digits (zeros n ++ s) 0 = parse_digits s 0.
Proof. induction n as [|n IH]; [done|]. apply IH. Qed.

Lemma dec_aux_nonempty fuel n acc : dec_aux fuel n acc ≠ "".
Proof.
  revert n acc; induction fuel as [|f IH]; intros n acc; cbn [dec_aux]; [done|].
  by destruct (n <? 10).
Qed.

Lemma fmt_padded_pos w n :
  0 ≤ n ≤ int64_max →
  all_digits (fmt_padded w n) = true ∧ parse_digits (fmt_padded w n) 0 = Some n ∧
  fmt_padded w n ≠ "".
Proof.
  intros Hn. rewrite /fmt_padded. destruct (Z.ltb_spec n 0); [lia|]. rewrite /dec.
  split_and!.
  - rewrite zeros_digits. by apply dec_aux_digits; [lia|].
  - rewrite parse_zeros parse_dec_aux //. rewrite /int64_max in Hn.
    change (10 ^ Z.of_nat 20) with 100000000000000000000. lia.
  - intros E. destruct (w - _)%nat; [by apply dec_aux_nonempty in E|done].
Qed.

Lemma ParseInt64_digits s n :
  all_digits s = true → s ≠ "" → parse_digits s 0 = Some n → n ≤ int64_max → ParseInt64 s = Some n.
Proof.
  intros Hd Hne Hp Hn. destruct s as [|c s]; [done|]. rewrite /ParseInt64.
  assert (c ≠ "-"%char ∧ c ≠ "+"%char) as [H1 H2].
  { cbn [all_digits] in Hd. apply andb_true_iff in Hd as [Hc _].
    split; intros ->; by vm_compute in Hc. }
  rewrite !bool_decide_eq_false_2 //. cbn [orb]. by rewrite Hp (proj2 (Z.leb_le _ _) Hn).
Qed.
