(* ===== verification/Storage.v ===== *)
(** * internal/storage: object storage

    [ObjectStorage] is the interface the other components use, as a class of
    operations with the laws the code relies on.  [MemoryStore] implements it,
    and [scopedStorage] turns any implementation into one under a key prefix.
    MD5 (the ETag) and SHA-256 are parameters. *)

From S2P Require Import Prelude.

#[local] Open Scope string_scope.

Inductive storage_err := ErrNotFound | ErrPrecondition | ErrIO.

#[export] Instance storage_err_eq_dec : EqDecision storage_err.
Proof. solve_decision. Defined.

(** Key and size. *)
Record ObjectInfo := mkObjectInfo { oi_Key : string; oi_Size : Z }.

(** Go's [strings.HasPrefix]. *)
Definition string_has_prefix (s p : string) : bool := String.prefix p s.

(** ** The interface *)

Class ObjectStorage (S : Type) := {
  os_Get : S → string → res storage_err (bytes * string);
  os_Put : S → string → bytes → S;
  os_PutIfMatch : S → string → bytes → string → res storage_err S;
  os_Delete : S → string → S;
  os_List : S → string → list ObjectInfo;
}.

(** What the interface's comments promise, in terms of the object map. *)
Class ObjectStorageLaws (S : Type) `{ObjectStorage S} := {
  os_objects : S → string → option bytes;
  os_Get_spec s k :
    match os_objects s k with
    | Some d => ∃ etag, os_Get s k = Ok (d, etag) ∧ etag ≠ ""
    | None => os_Get s k = Err ErrNotFound
    end;
  os_Put_spec s k d k' :
    os_objects (os_Put s k d) k' = if decide (k' = k) then Some d else os_objects s k';
  os_PutIfMatch_create s k d :
    match os_PutIfMatch s k d "" with
    | Ok s' => os_objects s k = None ∧
        ∀ k', os_objects s' k' = if decide (k' = k) then Some d else os_objects s k'
    | Err e => e = ErrPrecondition ∧ is_Some (os_objects s k)
    end;
  os_Delete_spec s k k' :
    os_objects (os_Delete s k) k' = if decide (k' = k) then None else os_objects s k';
  os_List_spec s p oi :
    oi ∈ os_List s p ↔
    ∃ d, os_objects s (oi_Key oi) = Some d ∧ string_has_prefix (oi_Key oi) p = true ∧
         oi_Size oi = Z.of_nat (length d);
  os_List_NoDup s p : NoDup (os_List s p);
}.

(** Compare-and-swap: a conditional write with an ETag succeeds exactly when the
    object still carries it, and an ETag names one content. *)
Class ETagLaws (S : Type) `{ObjectStorageLaws S} : Prop := {
  os_PutIfMatch_cas s k d etag :
    etag ≠ "" →
    match os_PutIfMatch s k d etag with
    | Ok s' => (∃ d0, os_Get s k = Ok (d0, etag)) ∧
        ∀ k', os_objects s' k' = if decide (k' = k) then Some d else os_objects s k'
    | Err e => e = ErrPrecondition ∧ ∀ d0, os_Get s k ≠ Ok (d0, etag)
    end;
  os_etag_content s s' k d d' etag :
    os_Get s k = Ok (d, etag) → os_Get s' k = Ok (d', etag) → d = d';
}.

(** ** Calls over an unreliable network

    A write that fails may have failed before or after it took effect. *)

Inductive put_fault := PutOk | PutFailBefore | PutFailAfter.

Section unreliable.
  Context {S : Type} `{ObjectStorage S}.

Definition faulty_get (ok : bool) (s : S) (key : string) : res storage_err (bytes * string) :=
  if ok then os_Get s key else Err ErrIO.

Definition faulty_list (ok : bool) (s : S) (prefix : string) : res storage_err (list ObjectInfo) :=
  if ok then Ok (os_List s prefix) else Err ErrIO.

Definition faulty_put (f : put_fault) (s : S) (key : string) (data : bytes)
    : res storage_err unit * S :=
  match f with
  | PutFailBefore => (Err ErrIO, s)
  | PutOk => (Ok tt, os_Put s key data)
  | PutFailAfter => (Err ErrIO, os_Put s key data)
  end.

Definition faulty_delete (f : put_fault) (s : S) (key : string) : res storage_err unit * S :=
  match f with
  | PutFailBefore => (Err ErrIO, s)
  | PutOk => (Ok tt, os_Delete s key)
  | PutFailAfter => (Err ErrIO, os_Delete s key)
  end.

Definition faulty_put_match (f : put_fault) (s : S) (key : string) (data : bytes) (etag : string)
    : res storage_err unit * S :=
  match f, os_PutIfMatch s key data etag with
  | PutFailBefore, _ => (Err ErrIO, s)
  | PutOk, Ok s' => (Ok tt, s')
  | PutOk, Err e => (Err e, s)
  | PutFailAfter, Ok s' => (Err ErrIO, s')
  | PutFailAfter, Err _ => (Err ErrIO, s)
  end.
End unreliable.

(** ** Idempotent creation *)

Inductive put_err :=
| UploadErr (key : string) (e : storage_err)
| ReadExistingErr (key : string) (e : storage_err)
| DifferentContents (key : string).

Section put_if_absent.
  Context {S : Type} `{ObjectStorage S}.

Definition PutIfAbsent (s : S) (key : string) (data : bytes) : res put_err S :=
  match os_PutIfMatch s key data "" with
  | Ok s' => Ok s'
  | Err ErrPrecondition =>
      match os_Get s key with
      | Err e => Err (ReadExistingErr key e)
      | Ok (existing, _) =>
          if negb (bool_decide (existing = data)) then Err (DifferentContents key) else Ok s
      end
  | Err e => Err (UploadErr key e)
  end.

(** The streaming variant compares SHA-256 digests. *)
Definition PutStreamIfAbsent (sha256 : bytes → bytes) (s : S) (key : string) (data : bytes)
    : res put_err S :=
  match os_PutIfMatch s key data "" with
  | Ok s' => Ok s'
  | Err ErrPrecondition =>
      match os_Get s key with
      | Err e => Err (ReadExistingErr key e)
      | Ok (existing, _) =>
          if negb (bool_decide (sha256 existing = sha256 data)) then Err (DifferentContents key)
          else Ok s
      end
  | Err e => Err (UploadErr key e)
  end.
End put_if_absent.

(** ** MemoryStore *)

Section memory.
  Context (contentETag : bytes → string).

Definition MemoryStore : Type := gmap string bytes.

Definition NewMemoryStore : MemoryStore := ∅.

Definition Mem_Get (m : MemoryStore) (key : string) : res storage_err (bytes * string) :=
  match m !! key with
  | None => Err ErrNotFound
  | Some data => Ok (data, contentETag data)
  end.

Definition Mem_Put (m : MemoryStore) (key : string) (data : bytes) : MemoryStore :=
  <[key := data]> m.

Definition Mem_PutIfMatch (m : MemoryStore) (key : string) (data : bytes) (etag : string)
    : res storage_err MemoryStore :=
  let existing := m !! key in
  if bool_decide (etag = "") && bool_decide (is_Some existing) then Err ErrPrecondition
  else if bool_decide (etag ≠ "") && negb (bool_decide (is_Some existing)) then Err ErrPrecondition
  else if bool_decide (etag ≠ "") && bool_decide (contentETag <$> existing ≠ Some etag)
  then Err ErrPrecondition
  else Ok (<[key := data]> m).

Definition Mem_Delete (m : MemoryStore) (key : string) : MemoryStore := delete key m.

Definition Mem_List (m : MemoryStore) (prefix : string) : list ObjectInfo :=
  (λ kd : string * bytes, mkObjectInfo kd.1 (Z.of_nat (length kd.2)))
    <$> filter (λ kd : string * bytes, string_has_prefix kd.1 prefix = true) (map_to_list m).

Definition MemoryStore_ObjectStorage : ObjectStorage MemoryStore := {|
  os_Get := Mem_Get;
  os_Put := Mem_Put;
  os_PutIfMatch := Mem_PutIfMatch;
  os_Delete := Mem_Delete;
  os_List := Mem_List;
|}.
End memory.

(** ** scopedStorage *)

(** [strings.HasSuffix(s, "/")]. *)
Definition has_suffix_slash (s : string) : bool :=
  String.eqb (String.substring (String.length s - 1) 1 s) "/".

Record scopedStorage (S : Type) := mkScoped { underlying : S; sc_prefix : string }.
Arguments mkScoped {S} _ _.
Arguments underlying {S} _.
Arguments sc_prefix {S} _.

Definition newScopedStorage {S} (u : S) (prefix : string) : scopedStorage S :=
  mkScoped u (if negb (has_suffix_slash prefix) then prefix ++ "/" else prefix).

(** Go's [strings.TrimPrefix]. *)
Definition trim_prefix (s p : string) : string :=
  if String.prefix p s then String.substring (String.length p) (String.length s - String.length p) s
  else s.

Definition scopedStorage_ObjectStorage {S} `{ObjectStorage S} : ObjectStorage (scopedStorage S) := {|
  os_Get s key := os_Get (underlying s) (sc_prefix s ++ key);
  os_Put s key data := mkScoped (os_Put (underlying s) (sc_prefix s ++ key) data) (sc_prefix s);
  os_PutIfMatch s key data etag :=
    match os_PutIfMatch (underlying s) (sc_prefix s ++ key) data etag with
    | Ok u => Ok (mkScoped u (sc_prefix s))
    | Err e => Err e
    end;
  os_Delete s key := mkScoped (os_Delete (underlying s) (sc_prefix s ++ key)) (sc_prefix s);
  os_List s prefix :=
    (λ oi, mkObjectInfo (trim_prefix (oi_Key oi) (sc_prefix s)) (oi_Size oi))
      <$> os_List (underlying s) (sc_prefix s ++ prefix);
|}.

(** ** The implementations meet the interface *)

Definition MemoryStore_laws (contentETag : bytes → string)
    (Hetag : ∀ d, contentETag d ≠ "") :
  @ObjectStorageLaws MemoryStore (MemoryStore_ObjectStorage contentETag).
Proof.
  refine {| os_objects := λ (m : MemoryStore) k, m !! k |}.
  - intros m k. simpl. rewrite /Mem_Get. destruct (m !! k); eauto.
  - intros m k d k'. simpl. rewrite /Mem_Put. case_decide; subst.
    + by rewrite lookup_insert_eq.
    + by rewrite lookup_insert_ne.
  - intros m k d. simpl. rewrite /Mem_PutIfMatch.
    destruct (m !! k) as [x|] eqn:E; simpl; [by eauto|].
    split; [done|]. intros k'. case_decide; subst; [by rewrite lookup_insert_eq|].
    by rewrite lookup_insert_ne.
  - intros m k k'. simpl. rewrite /Mem_Delete. case_decide; subst.
    + by rewrite lookup_delete_eq.
    + by rewrite lookup_delete_ne.
  - intros m p oi. simpl. rewrite /Mem_List list_elem_of_fmap. split.
    + intros ([k d] & -> & [Hp Hin]%list_elem_of_filter). apply elem_of_map_to_list in Hin.
      by exists d.
    + intros (d & Hd & Hp & Hs). exists (oi_Key oi, d). split; [by destruct oi; simpl in *; subst|].
      apply list_elem_of_filter. split; [done|]. by apply elem_of_map_to_list.
  - intros m p. simpl. rewrite /Mem_List. eapply (NoDup_fmap_1 oi_Key). rewrite -list_fmap_compose.
    eapply sublist_NoDup; [apply (NoDup_fst_map_to_list m)|]. apply fmap_sublist, sublist_filter.
Defined.

Lemma prefix_cons c p d s :
  String.prefix (String c p) (String d s)
  = if Ascii.ascii_dec c d then String.prefix p s else false.
Proof. done. Qed.

Lemma prefix_spec p s : String.prefix p s = true ↔ ∃ t, s = p ++ t.
Proof.
  revert s; induction p as [|c p IH]; intros s.
  - split; [by exists s|]. by destruct s.
  - destruct s as [|d s]; [split; [done|by intros [t Ht]]|].
    rewrite prefix_cons. destruct (Ascii.ascii_dec c d) as [->|Hne].
    + rewrite IH. split; [intros [t ->]; by exists t|]. intros [t [= ->]]. by exists t.
    + split; [done|]. by intros [t [= -> _]].
Qed.

Lemma prefix_app q p s : String.prefix (q ++ p) (q ++ s) = String.prefix p s.
Proof.
  induction q as [|c q IH]; [done|]. cbn [String.append]. rewrite prefix_cons.
  destruct (Ascii.ascii_dec c c); [done|congruence].
Qed.

Lemma substring_all s : String.substring 0 (String.length s) s = s.
Proof. induction s as [|c s IH]; simpl; [done|]. by rewrite IH. Qed.

Lemma substring_app p s : String.substring (String.length p) (String.length s) (p ++ s) = s.
Proof. induction p as [|c p IH]; simpl; [apply substring_all|done]. Qed.

Lemma string_length_app p s :
  String.length (p ++ s) = (String.length p + String.length s)%nat.
Proof. induction p as [|c p IH]; simpl; [done|]. by rewrite IH. Qed.

Lemma trim_prefix_app p s : trim_prefix (p ++ s) p = s.
Proof.
  rewrite /trim_prefix (proj2 (prefix_spec p (p ++ s))); [by exists s|].
  rewrite string_length_app (_ : (_ - _)%nat = String.length s); [lia|]. apply substring_app.
Qed.

Lemma string_app_assoc a b c : a ++ (b ++ c) = (a ++ b) ++ c.
Proof. induction a as [|x a IH]; [done|]. change (String x (a ++ (b ++ c)) = String x ((a ++ b) ++ c)). by f_equal. Qed.

Lemma string_app_inj p a b : p ++ a = p ++ b → a = b.
Proof. induction p as [|c p IH]; simpl; [done|]. by intros [= ->%IH]. Qed.

Lemma decide_app {A} p a b (x y : A) :
  (if decide (p ++ a = p ++ b) then x else y) = if decide (a = b) then x else y.
Proof. repeat case_decide; subst; try done. by apply string_app_inj in H. Qed.

Definition scopedStorage_laws {S} `{HS : ObjectStorage S} (L : ObjectStorageLaws S) :
  @ObjectStorageLaws (scopedStorage S) scopedStorage_ObjectStorage.
Proof.
  refine {| os_objects := λ (s : scopedStorage S) k, os_objects (underlying s) (sc_prefix s ++ k) |}.
  - intros s k. apply (@os_Get_spec S HS L).
  - intros s k d k'. simpl. rewrite (@os_Put_spec S HS L).
    apply decide_app.
  - intros s k d. simpl. pose proof (@os_PutIfMatch_create S HS L (underlying s) (sc_prefix s ++ k) d) as Hp.
    destruct (os_PutIfMatch (underlying s) (sc_prefix s ++ k) d "") as [u|e]; [|done]. destruct Hp as [Hn Hp].
    split; [done|]. intros k'. simpl. rewrite Hp.
    apply decide_app.
  - intros s k k'. simpl. rewrite (@os_Delete_spec S HS L).
    apply decide_app.
  - intros s p oi. simpl. rewrite list_elem_of_fmap. split.
    + intros (x & -> & (d & Hd & Hpre & Hsz)%(@os_List_spec S HS L)). simpl.
      apply prefix_spec in Hpre as [t Ht]. rewrite Ht in Hd |- *.
      exists d. rewrite -string_app_assoc in Hd |- *. rewrite trim_prefix_app. split; [done|].
      split; [by apply prefix_spec; exists t|done].
    + intros (d & Hd & Hpre & Hsz).
      exists (mkObjectInfo (sc_prefix s ++ oi_Key oi) (oi_Size oi)). simpl.
      rewrite trim_prefix_app. split; [by destruct oi|]. apply (@os_List_spec S HS L). exists d. simpl.
      split; [done|]. split; [|done]. by rewrite /string_has_prefix prefix_app.
  - intros s p. simpl. apply NoDup_fmap_2_strong; [|apply (@os_List_NoDup S HS L)].
    intros [k1 z1] [k2 z2] (d1 & _ & H1 & _)%(@os_List_spec S HS L) (d2 & _ & H2 & _)%(@os_List_spec S HS L) E.
    simpl in *. apply prefix_spec in H1 as [t1 ->]. apply prefix_spec in H2 as [t2 ->].
    rewrite -!string_app_assoc !trim_prefix_app in E. injection E as E ->. by rewrite -!string_app_assoc E.
Defined.

(** ** Create-only writes *)

Section create_only.
  Context {S : Type} `{HS : ObjectStorage S} (L : ObjectStorageLaws S).

Lemma PutIfAbsent_cases (s : S) key data :
  match PutIfAbsent s key data with
  | Ok s' =>
      os_objects s' key = Some data ∧
      (∀ k, k ≠ key → os_objects s' k = os_objects s k) ∧
      (∀ k d, os_objects s k = Some d → os_objects s' k = Some d) ∧
      PutIfAbsent s' key data = Ok s'
  | Err e => e = DifferentContents key ∧ ∃ d, os_objects s key = Some d ∧ d ≠ data
  end.
Proof using L.
  pose proof (os_PutIfMatch_create s key data) as Hp. rewrite /PutIfAbsent.
  destruct (os_PutIfMatch s key data "") as [s'|e].
  - destruct Hp as [Hnone Hp].
    assert (os_objects s' key = Some data) as Hk by (by rewrite Hp decide_True).
    split; [done|]. split; [intros k Hne; by rewrite Hp decide_False|].
    split; [intros k d Hd; rewrite Hp; case_decide; congruence|].
    pose proof (os_PutIfMatch_create s' key data) as Hp'.
    destruct (os_PutIfMatch s' key data "") as [s2|e]; [destruct Hp'; congruence|].
    destruct Hp' as [-> _]. pose proof (os_Get_spec s' key) as Hg. rewrite Hk in Hg.
    destruct Hg as (etag & -> & _). by rewrite bool_decide_eq_true_2.
  - destruct Hp as [-> [d Hd]]. pose proof (os_Get_spec s key) as Hg. rewrite Hd in Hg.
    destruct Hg as (etag & Hget & _). rewrite Hget.
    case_bool_decide as E; simpl; [subst|by eauto].
    do 3 (split; [done|]). pose proof (os_PutIfMatch_create s key data) as Hp.
    destruct (os_PutIfMatch s key data "") as [s2|e]; [destruct Hp; congruence|].
    destruct Hp as [-> _]. by rewrite Hget bool_decide_eq_true_2.
Qed.

(** [PutIfAbsent] is an idempotent create: on success the key holds
    exactly the given bytes and no other object changed; it fails only when the
    key already holds different bytes; and it never overwrites. *)
Theorem PutIfAbsent_spec (s : S) key data :
  match PutIfAbsent s key data with
  | Ok s' =>
      os_objects s' key = Some data ∧
      (∀ k, k ≠ key → os_objects s' k = os_objects s k) ∧
      (∀ k d, os_objects s k = Some d → os_objects s' k = Some d) ∧
      PutIfAbsent s' key data = Ok s'
  | Err e => e = DifferentContents key ∧ ∃ d, os_objects s key = Some d ∧ d ≠ data
  end.
Proof using L. apply PutIfAbsent_cases. Qed.
End create_only.

(** A store whose ETag is the constant "e". *)
Definition example_etag (_ : bytes) : string := "e".
Definition example_store_laws :
  @ObjectStorageLaws MemoryStore (MemoryStore_ObjectStorage example_etag) :=
  MemoryStore_laws example_etag (λ _, ltac:(discriminate)).

Lemma PutIfAbsent_spec_witness :
  ∃ s', @PutIfAbsent MemoryStore (MemoryStore_ObjectStorage example_etag) ∅ "chunks/0001/1.netsy"
          [Byte.x01] = Ok s' ∧
        @os_objects _ _ example_store_laws s' "chunks/0001/1.netsy" = Some [Byte.x01].
Proof.
  eexists. split; [reflexivity|].
  exact (proj1 (@PutIfAbsent_spec MemoryStore (MemoryStore_ObjectStorage example_etag)
                  example_store_laws ∅ "chunks/0001/1.netsy" [Byte.x01])).
Defined.

(** A store whose ETag is the content itself, which cannot collide. *)
Definition content_etag (d : bytes) : string := "e" ++ String.string_of_list_byte d.
Definition content_store_laws :
  @ObjectStorageLaws MemoryStore (MemoryStore_ObjectStorage content_etag) :=
  MemoryStore_laws content_etag (λ _, ltac:(discriminate)).

Lemma content_etag_inj d d' : content_etag d = content_etag d' → d = d'.
Proof.
  intros E%string_app_inj. rewrite -(String.list_byte_of_string_of_list_byte d).
  by rewrite E String.list_byte_of_string_of_list_byte.
Qed.

(** A MemoryStore compares and swaps, as long as its ETags do not collide. *)
Lemma MemoryStore_etag_laws etag (Hne : ∀ d, etag d ≠ "") :
  (∀ d d', etag d = etag d' → d = d') →
  @ETagLaws MemoryStore (MemoryStore_ObjectStorage etag) (MemoryStore_laws etag Hne).
Proof.
  intros Hinj. split.
  - intros m k d e He. simpl. rewrite /Mem_PutIfMatch /Mem_Get.
    rewrite (bool_decide_eq_false_2 (e = "")) // (bool_decide_eq_true_2 (e ≠ "")) //=.
    destruct (m !! k) as [x|]; simpl; [|done].
    case_bool_decide as E; simpl; [split; [done|]; intros d0 [= -> ?]; congruence|].
    injection E as <-. split; [by exists x|].
    intros k'. case_decide; subst; [by rewrite lookup_insert_eq|by rewrite lookup_insert_ne].
  - intros m m' k d d' e. simpl. rewrite /Mem_Get.
    destruct (m !! k); [|done]. destruct (m' !! k); [|done].
    intros [= -> <-] [= -> E]. by apply Hinj.
Qed.

Lemma content_store_etags :
  @ETagLaws MemoryStore (MemoryStore_ObjectStorage content_etag) content_store_laws.
Proof. apply MemoryStore_etag_laws, content_etag_inj. Qed.
