(* ===== verification/DataFile.v ===== *)
(** * internal/datafile: the .netsy file format

    A file is a size-delimited header, then the size-delimited records and a
    footer, the latter two compressed or not.  The header, every record and the
    footer carry a CRC-64 of their own encoding with a zero CRC field; the
    footer also carries the CRC-64 of all records.

    The CRC is computed here.  Protobuf encoding and zstd are third-party code:
    the class [Codec] holds them with what the reader and writer rely on. *)

From S2P Require Import Prelude Records.

(** ** CRC-64 (hash/crc64, ECMA table) *)

Module Crc64.

(** The reversed ECMA polynomial. *)
Definition poly : Z := 0xC96C5795D7870F42.
Definition ones64 : Z := 0xFFFFFFFFFFFFFFFF.

Fixpoint shift_poly (n : nat) (crc : Z) : Z :=
  match n with
  | O => crc
  | S n' => shift_poly n' (if Z.testbit crc 0 then Z.lxor (Z.shiftr crc 1) poly else Z.shiftr crc 1)
  end.

(** Entry [i] of the table: the eight shifts of [i]. *)
Definition tab (i : Z) : Z := shift_poly 8 i.

Definition step (crc : Z) (b : byte) : Z :=
  Z.lxor (tab (Z.land (Z.lxor crc (Z.of_N (Byte.to_N b))) 255)) (Z.shiftr crc 8).

(** [crc64.Update]: complement, fold the bytes, complement. *)
Definition update (crc : Z) (p : bytes) : Z :=
  Z.lxor (foldl step (Z.lxor crc ones64) p) ones64.

(** [crc64.Checksum]. *)
Definition checksum (data : bytes) : Z := update 0 data.

(** Writing pieces one after the other hashes their concatenation. *)
Lemma update_app crc a b : update (update crc a) b = update crc (a ++ b).
Proof.
  rewrite /update foldl_app. do 2 f_equal.
  by rewrite Z.lxor_assoc Z.lxor_nilpotent Z.lxor_0_r.
Qed.

End Crc64.

#[global] Arguments Crc64.update : simpl never.
#[global] Arguments Crc64.checksum : simpl never.

(** ** File messages *)

Inductive FileKind := KIND_UNKNOWN | KIND_SNAPSHOT | KIND_CHUNK | KIND_UNRECOGNIZED (n : Z).
Inductive FileCompression :=
| COMPRESSION_UNKNOWN | COMPRESSION_NONE | COMPRESSION_ZSTD | COMPRESSION_UNRECOGNIZED (n : Z).

#[export] Instance FileKind_eq_dec : EqDecision FileKind.
Proof. solve_decision. Defined.
#[export] Instance FileCompression_eq_dec : EqDecision FileCompression.
Proof. solve_decision. Defined.

Record FileHeader := mkFileHeader {
  fh_Kind : FileKind;
  fh_RecordsCount : Z;
  fh_CreatedAt : option Z;
  fh_LeaderId : string;
  fh_Compression : FileCompression;
  fh_Crc : Z;
}.

Record FileFooter := mkFileFooter {
  ff_FirstRevision : Z;
  ff_LastRevision : Z;
  ff_RecordsCrc : Z;
  ff_Crc : Z;
}.

Definition set_fh_Crc (c : Z) (h : FileHeader) : FileHeader :=
  mkFileHeader (fh_Kind h) (fh_RecordsCount h) (fh_CreatedAt h) (fh_LeaderId h)
    (fh_Compression h) c.
Definition set_ff_Crc (c : Z) (f : FileFooter) : FileFooter :=
  mkFileFooter (ff_FirstRevision f) (ff_LastRevision f) (ff_RecordsCrc f) c.

(** Decoding leaves nil for an empty bytes field. *)
Definition wire_record (r : record) : record :=
  mkRecord (Revision r) (Key r) (Created r) (Deleted r) (CreateRevision r) (PrevRevision r)
    (Version r) (Lease r) (Dek r) (match Value r with Some [] => None | v => v end)
    (CreatedAt r) (CompactedAt r) (LeaderId r) (ReplicatedAt r) (Crc r).

(** ** Third-party encoders

    [delim_*] is [protodelim.MarshalTo], [undelim_*] [protodelim.UnmarshalFrom]:
    the message at the head of the input with the rest, [None] on any error.
    A zstd decoder yields what it can decode. *)
Class Codec := {
  marshal_header : FileHeader → bytes;
  marshal_record : record → bytes;
  marshal_footer : FileFooter → bytes;
  delim_header : FileHeader → bytes;
  delim_record : record → bytes;
  delim_footer : FileFooter → bytes;
  undelim_header : bytes → option (FileHeader * bytes);
  undelim_record : bytes → option (record * bytes);
  undelim_footer : bytes → option (FileFooter * bytes);
  zstd_compress : bytes → bytes;
  zstd_decompress : bytes → bytes;
}.

(** A delimited message reads back; an empty field encodes as an absent one;
    zstd is lossless. *)
Class CodecLaws `{Codec} : Prop := {
  undelim_delim_header h rest : undelim_header (delim_header h ++ rest) = Some (h, rest);
  undelim_delim_record r rest :
    undelim_record (delim_record r ++ rest) = Some (wire_record r, rest);
  undelim_delim_footer f rest : undelim_footer (delim_footer f ++ rest) = Some (f, rest);
  marshal_wire_record r : marshal_record (wire_record r) = marshal_record r;
  zstd_lossless b : zstd_decompress (zstd_compress b) = b;
}.

Section datafile.
  Context `{Codec}.

(** ** Writer *)

(** [w_header] is what has gone to the buffer, [w_body] what has gone to the
    record writer (the compressor or the buffer). *)
Record Writer := mkWriter {
  w_header : bytes;
  w_body : bytes;
  w_hasher : Z;
  w_kind : FileKind;
  w_compression : FileCompression;
  w_recordsCount : Z;
  w_firstRevision : Z;
  w_lastRevision : Z;
  w_lastCount : Z;
}.

Definition NewWriterWithCompression (now : Z) (kind : FileKind) (recordsCount : Z)
    (leaderID : string) (forceCompression : option FileCompression) : Writer :=
  let compression :=
    match forceCompression with
    | Some c => c
    | None => if decide (kind = KIND_SNAPSHOT) then COMPRESSION_ZSTD else COMPRESSION_NONE
    end in
  let header := mkFileHeader kind recordsCount (Some now) leaderID compression 0 in
  let header := set_fh_Crc (Crc64.checksum (marshal_header header)) header in
  mkWriter (delim_header header) [] 0 kind compression recordsCount 0 0 0.

Definition NewWriter (now : Z) (kind : FileKind) (recordsCount : Z) (leaderID : string) : Writer :=
  NewWriterWithCompression now kind recordsCount leaderID None.

(** Size estimate of a chunk: keys and values. *)
Definition payload_size (records : list record) : Z :=
  foldl (λ n r, n + (Z.of_nat (length (Key r)) + Z.of_nat (length (default [] (Value r))))) 0 records.

Definition NewWriterWithSmartCompression (now : Z) (kind : FileKind) (records : list record)
    (leaderID : string) : Writer :=
  let compression :=
    if decide (kind = KIND_SNAPSHOT) then COMPRESSION_ZSTD
    else if 4096 <? payload_size records then COMPRESSION_ZSTD else COMPRESSION_NONE in
  NewWriterWithCompression now kind (Z.of_nat (length records)) leaderID (Some compression).

Definition Write (record0 : record) (w : Writer) : Writer :=
  let data := marshal_record (set_Crc 0 record0) in
  let rec := set_Crc (Crc64.checksum data) record0 in
  mkWriter (w_header w) (w_body w ++ delim_record rec) (Crc64.update (w_hasher w) data)
    (w_kind w) (w_compression w) (w_recordsCount w)
    (if w_firstRevision w =? 0 then Revision rec else w_firstRevision w)
    (Revision rec) (wrap64 (w_lastCount w + 1)).

Inductive df_err :=
| CountMismatch (lastCount expected : Z)
| HeaderReadErr
| KindMismatch
| UnknownCompression
| HeaderCrcMismatch
| RecordReadErr (i : Z)
| RecordCrcMismatch (i : Z)
| FooterReadErr
| FooterCrcMismatch
| RecordsCrcMismatch
| FirstRevisionMismatch
| LastRevisionMismatch.

(** The bytes of the finished file. *)
Definition Writer_Close (w : Writer) : res df_err bytes :=
  if negb (w_lastCount w =? w_recordsCount w)
  then Err (CountMismatch (w_lastCount w) (w_recordsCount w))
  else
    let footer := mkFileFooter (w_firstRevision w) (w_lastRevision w) (w_hasher w) 0 in
    let footer := set_ff_Crc (Crc64.checksum (marshal_footer footer)) footer in
    let body := w_body w ++ delim_footer footer in
    Ok (w_header w ++ if decide (w_compression w = COMPRESSION_ZSTD) then zstd_compress body else body).

(** ** Reader *)

Record Reader := mkReader {
  rd_rest : bytes;
  rd_hasher : Z;
  rd_kind : FileKind;
  rd_expectedRecordsCount : Z;
  rd_firstRevision : Z;
  rd_lastRevision : Z;
  rd_lastCount : Z;
}.

Record ReadResults := mkReadResults {
  rres_Kind : FileKind;
  rres_RecordsCount : Z;
  rres_FirstRevision : Z;
  rres_LastRevision : Z;
}.

Definition NewReader (buffer : bytes) (expectKind : option FileKind) : res df_err Reader :=
  match undelim_header buffer with
  | None => Err HeaderReadErr
  | Some (header, rest) =>
      if decide (is_Some expectKind ∧ expectKind ≠ Some (fh_Kind header)) then Err KindMismatch
      else if decide (fh_Compression header = COMPRESSION_UNKNOWN) then Err UnknownCompression
      else if negb (fh_Crc header =? Crc64.checksum (marshal_header (set_fh_Crc 0 header)))
      then Err HeaderCrcMismatch
      else
        Ok (mkReader
              (if decide (fh_Compression header = COMPRESSION_ZSTD) then zstd_decompress rest else rest)
              0 (fh_Kind header) (fh_RecordsCount header) 0 0 0)
  end.

Definition Read (r : Reader) : res df_err (record * Reader) :=
  match undelim_record (rd_rest r) with
  | None => Err (RecordReadErr (rd_lastCount r))
  | Some (rec, rest) =>
      let data := marshal_record (set_Crc 0 rec) in
      if negb (Crc rec =? Crc64.checksum data) then Err (RecordCrcMismatch (rd_lastCount r))
      else
        Ok (rec, mkReader rest (Crc64.update (rd_hasher r) data) (rd_kind r)
                   (rd_expectedRecordsCount r)
                   (if rd_firstRevision r =? 0 then Revision rec else rd_firstRevision r)
                   (Revision rec) (wrap64 (rd_lastCount r + 1)))
  end.

Definition Reader_Close (r : Reader) : res df_err ReadResults :=
  if negb (rd_lastCount r =? rd_expectedRecordsCount r)
  then Err (CountMismatch (rd_lastCount r) (rd_expectedRecordsCount r))
  else
    match undelim_footer (rd_rest r) with
    | None => Err FooterReadErr
    | Some (footer, _) =>
        if negb (ff_Crc footer =? Crc64.checksum (marshal_footer (set_ff_Crc 0 footer)))
        then Err FooterCrcMismatch
        else if negb (ff_RecordsCrc footer =? rd_hasher r) then Err RecordsCrcMismatch
        else if negb (rd_firstRevision r =? ff_FirstRevision footer) then Err FirstRevisionMismatch
        else if negb (rd_lastRevision r =? ff_LastRevision footer) then Err LastRevisionMismatch
        else Ok (mkReadResults (rd_kind r) (rd_lastCount r) (rd_firstRevision r) (rd_lastRevision r))
    end.

(** ** Whole files *)

Definition write_all (records : list record) (w : Writer) : Writer := foldl (λ w r, Write r w) w records.

(** The loop [for i := 0; i < reader.Count(); i++ { reader.Read() }]. *)
Fixpoint read_n (n : nat) (r : Reader) : res df_err (list record * Reader) :=
  match n with
  | O => Ok ([], r)
  | S n' =>
      match Read r with
      | Err e => Err e
      | Ok (rec, r') =>
          match read_n n' r' with
          | Err e => Err e
          | Ok (recs, r'') => Ok (rec :: recs, r'')
          end
      end
  end.

(** Reading a whole file as [ReadChunk], [ReadSnapshot] and the import loops do. *)
Definition read_file (kind : FileKind) (data : bytes) : res df_err (list record * ReadResults) :=
  match NewReader data (Some kind) with
  | Err e => Err e
  | Ok r =>
      match read_n (Z.to_nat (rd_expectedRecordsCount r)) r with
      | Err e => Err e
      | Ok (recs, r') =>
          match Reader_Close r' with
          | Err e => Err e
          | Ok results => Ok (recs, results)
          end
      end
  end.
End datafile.

(** ** Round trip *)

#[local] Opaque Crc64.update Crc64.checksum.

Section roundtrip.
  Context `{CL : CodecLaws}.

(** The record as it comes back: CRC filled in, empty fields absent. *)
Definition file_record (r : record) : record :=
  wire_record (set_Crc (Crc64.checksum (marshal_record (set_Crc 0 r))) r).

(** The reader stands where the writer stood. *)
Definition in_step (w : Writer) (r : Reader) : Prop :=
  w_hasher w = rd_hasher r ∧ w_firstRevision w = rd_firstRevision r ∧
  w_lastRevision w = rd_lastRevision r ∧ w_lastCount w = rd_lastCount r.

Definition at_rest (rest : bytes) (r : Reader) : Reader :=
  mkReader rest (rd_hasher r) (rd_kind r) (rd_expectedRecordsCount r) (rd_firstRevision r)
    (rd_lastRevision r) (rd_lastCount r).

Lemma Read_Write x rest w r :
  in_step w r →
  ∃ r', Read (at_rest (delim_record (set_Crc (Crc64.checksum (marshal_record (set_Crc 0 x))) x)
                         ++ rest) r) = Ok (file_record x, at_rest rest r') ∧
        in_step (Write x w) r' ∧ rd_kind r' = rd_kind r ∧
        rd_expectedRecordsCount r' = rd_expectedRecordsCount r.
Proof using CL.
  intros (Hh & Hf & Hl & Hc). rewrite /Read /= undelim_delim_record.
  change (set_Crc 0 (wire_record (set_Crc _ x))) with (wire_record (set_Crc 0 x)).
  rewrite marshal_wire_record. cbn [Crc wire_record set_Crc]. rewrite Z.eqb_refl /=.
  eexists (mkReader [] _ _ _ _ _ _). split; [reflexivity|].
  rewrite /in_step. cbn. rewrite Hh Hf Hc. split_and!; reflexivity.
Qed.

Lemma write_all_fields records w :
  w_header (write_all records w) = w_header w ∧ w_kind (write_all records w) = w_kind w ∧
  w_compression (write_all records w) = w_compression w ∧
  w_recordsCount (write_all records w) = w_recordsCount w ∧
  w_body (write_all records w)
  = w_body w ++ concat ((λ x, delim_record (set_Crc (Crc64.checksum (marshal_record (set_Crc 0 x))) x))
                          <$> records).
Proof.
  revert w; induction records as [|x l IH]; intros w; [by rewrite app_nil_r|].
  change (write_all (x :: l) w) with (write_all l (Write x w)).
  destruct (IH (Write x w)) as (-> & -> & -> & -> & ->). cbn. rewrite -app_assoc.
  split_and!; reflexivity.
Qed.

Lemma read_n_write_all records rest w r :
  in_step w r →
  ∃ r', read_n (length records)
          (at_rest (concat ((λ x, delim_record (set_Crc (Crc64.checksum (marshal_record (set_Crc 0 x))) x))
                              <$> records) ++ rest) r)
        = Ok (file_record <$> records, at_rest rest r') ∧
        in_step (write_all records w) r' ∧ rd_kind r' = rd_kind r ∧
        rd_expectedRecordsCount r' = rd_expectedRecordsCount r.
Proof using CL.
  revert w r; induction records as [|x l IH]; intros w r Hs; [by exists r|].
  cbn [fmap list_fmap concat length read_n]. rewrite -app_assoc.
  destruct (Read_Write x (concat ((λ x, delim_record (set_Crc (Crc64.checksum
    (marshal_record (set_Crc 0 x))) x)) <$> l) ++ rest) w r Hs) as (r1 & -> & Hs1 & Hk1 & He1).
  destruct (IH (Write x w) r1 Hs1) as (r2 & -> & Hs2 & Hk2 & He2).
  exists r2. rewrite Hk2 He2. split_and!; [reflexivity|exact Hs2|exact Hk1|exact He1].
Qed.

Lemma write_all_count records w :
  w_lastCount (write_all records w) = foldl (λ n _, wrap64 (n + 1)) (w_lastCount w) records.
Proof. revert w; induction records as [|x l IH]; intros w; [done|]. apply (IH (Write x w)). Qed.

Lemma count_no_overflow (records : list record) n :
  0 ≤ n → n + Z.of_nat (length records) ≤ int64_max →
  foldl (λ n _, wrap64 (n + 1)) n records = n + Z.of_nat (length records).
Proof.
  revert n; induction records as [|x l IH]; intros n Hn Hl; simpl in *; [lia|].
  rewrite wrap64_id; [solve_int64|].
  rewrite IH; lia.
Qed.

Lemma datafile_reads_back now kind leader c records :
  c ≠ COMPRESSION_UNKNOWN → Z.of_nat (length records) ≤ int64_max →
  let w := write_all records
             (NewWriterWithCompression now kind (Z.of_nat (length records)) leader (Some c)) in
  ∃ data, Writer_Close w = Ok data ∧
    read_file kind data
    = Ok (file_record <$> records,
          mkReadResults kind (Z.of_nat (length records)) (w_firstRevision w) (w_lastRevision w)).
Proof using CL.
  intros Hc Hlen w. set (w0 := NewWriterWithCompression _ _ _ _ _) in w.
  destruct (write_all_fields records w0) as (Hhd & Hk & Hcomp & Hrc & Hbody). fold w in Hhd, Hk, Hcomp, Hrc, Hbody.
  assert (w_lastCount w = Z.of_nat (length records)) as Hcount.
  { rewrite /w write_all_count count_no_overflow /=; lia. }
  rewrite /Writer_Close Hcount Hrc Z.eqb_refl /=. eexists. split; [reflexivity|].
  rewrite /read_file /NewReader Hhd /= undelim_delim_header.
  rewrite decide_False; [by intros [_ []]|]. rewrite decide_False //.
  cbn [fh_Crc set_fh_Crc fh_Kind fh_RecordsCount fh_CreatedAt fh_LeaderId fh_Compression].
  rewrite Z.eqb_refl /= Hcomp /=.
  assert (∀ b, (if decide (c = COMPRESSION_ZSTD)
    then zstd_decompress (if decide (c = COMPRESSION_ZSTD) then zstd_compress b else b)
    else if decide (c = COMPRESSION_ZSTD) then zstd_compress b else b) = b) as Hz.
  { intros b. case_decide; [by rewrite zstd_lossless|done]. }
  rewrite Hz Hbody /= -/(at_rest _ _) Nat2Z.id.
  destruct (read_n_write_all records (delim_footer (set_ff_Crc (Crc64.checksum (marshal_footer
    (mkFileFooter (w_firstRevision w) (w_lastRevision w) (w_hasher w) 0)))
    (mkFileFooter (w_firstRevision w) (w_lastRevision w) (w_hasher w) 0))) w0
    (mkReader [] 0 kind (Z.of_nat (length records)) 0 0 0)) as (r' & Hrd & Hs & Hkr & Her); [done|].
  rewrite /at_rest /= in Hrd. rewrite Hrd. destruct Hs as (Hh & Hf & Hl & Hcn). fold w in Hh, Hf, Hl, Hcn.
  rewrite /Reader_Close /= Her /= -Hcn Hcount Z.eqb_refl /=.
  rewrite -(app_nil_r (delim_footer _)) undelim_delim_footer.
  cbn [ff_Crc set_ff_Crc ff_FirstRevision ff_LastRevision ff_RecordsCrc].
  by rewrite Z.eqb_refl /= -Hh Z.eqb_refl /= -Hf Z.eqb_refl /= -Hl Z.eqb_refl /= Hkr.
Qed.

End roundtrip.
