(* ===== verification/ExampleCodec.v ===== *)
(** * A codec that meets the codec laws

    Messages are written as the bits of their number in an enumeration of the
    message type, with an end marker; compression is the identity. *)

From S2P Require Import Prelude Records DataFile.

#[export] Instance record_countable : Countable record.
Proof.
  refine (inj_countable'
    (λ r, ((((Revision r, Key r), (Created r, Deleted r)),
            ((CreateRevision r, PrevRevision r), (Version r, Lease r))),
           (((Dek r, Value r), (CreatedAt r, CompactedAt r)),
            ((LeaderId r, ReplicatedAt r), Crc r))))
    (λ '((((a, b), (c, d)), ((e, f), (g, h))), (((i, j), (k, l)), ((m, n), o))),
       mkRecord a b c d e f g h i j k l m n o) _).
  by intros [].
Defined.

#[export] Instance FileKind_countable : Countable FileKind.
Proof.
  refine (inj_countable'
    (λ k, match k with KIND_UNKNOWN => (0%nat, 0) | KIND_SNAPSHOT => (1%nat, 0)
                  | KIND_CHUNK => (2%nat, 0) | KIND_UNRECOGNIZED n => (3%nat, n) end)
    (λ '(t, n), match t with 0%nat => KIND_UNKNOWN | 1%nat => KIND_SNAPSHOT | 2%nat => KIND_CHUNK
                        | _ => KIND_UNRECOGNIZED n end) _).
  by intros [].
Defined.

#[export] Instance FileCompression_countable : Countable FileCompression.
Proof.
  refine (inj_countable'
    (λ k, match k with COMPRESSION_UNKNOWN => (0%nat, 0) | COMPRESSION_NONE => (1%nat, 0)
                  | COMPRESSION_ZSTD => (2%nat, 0) | COMPRESSION_UNRECOGNIZED n => (3%nat, n) end)
    (λ '(t, n), match t with 0%nat => COMPRESSION_UNKNOWN | 1%nat => COMPRESSION_NONE
                        | 2%nat => COMPRESSION_ZSTD | _ => COMPRESSION_UNRECOGNIZED n end) _).
  by intros [].
Defined.

#[export] Instance FileHeader_eq_dec : EqDecision FileHeader.
Proof. solve_decision. Defined.
#[export] Instance FileFooter_eq_dec : EqDecision FileFooter.
Proof. solve_decision. Defined.

#[export] Instance FileHeader_countable : Countable FileHeader.
Proof.
  refine (inj_countable'
    (λ h, (((fh_Kind h, fh_RecordsCount h), (fh_CreatedAt h, fh_LeaderId h)), (fh_Compression h, fh_Crc h)))
    (λ '(((a, b), (c, d)), (e, f)), mkFileHeader a b c d e f) _).
  by intros [].
Defined.

#[export] Instance FileFooter_countable : Countable FileFooter.
Proof.
  refine (inj_countable'
    (λ f, ((ff_FirstRevision f, ff_LastRevision f), (ff_RecordsCrc f, ff_Crc f)))
    (λ '((a, b), (c, d)), mkFileFooter a b c d) _).
  by intros [].
Defined.

(** Bits, least significant first, 2 as end marker. *)
Fixpoint put_bits (p : positive) : bytes :=
  match p with
  | xH => [Byte.x02]
  | xO p' => Byte.x00 :: put_bits p'
  | xI p' => Byte.x01 :: put_bits p'
  end.

Fixpoint get_bits (b : bytes) : option (positive * bytes) :=
  match b with
  | Byte.x00 :: b' => '(p, r) ← get_bits b'; Some (xO p, r)
  | Byte.x01 :: b' => '(p, r) ← get_bits b'; Some (xI p, r)
  | Byte.x02 :: b' => Some (xH, b')
  | _ => None
  end.

Lemma get_put_bits p rest : get_bits (put_bits p ++ rest) = Some (p, rest).
Proof. induction p as [p IH|p IH|]; simpl; by rewrite ?IH. Qed.

Definition put {A} `{Countable A} (x : A) : bytes := put_bits (encode x).
Definition get {A} `{Countable A} (b : bytes) : option (A * bytes) :=
  '(p, rest) ← get_bits b; x ← decode p; Some (x, rest).

Lemma get_put {A} `{Countable A} (x : A) rest : get (put x ++ rest) = Some (x, rest).
Proof. rewrite /get /put get_put_bits /=. by rewrite decode_encode. Qed.

Definition example_codec : Codec := {|
  marshal_header := put;
  marshal_record r := put (wire_record r);
  marshal_footer := put;
  delim_header := put;
  delim_record r := put (wire_record r);
  delim_footer := put;
  undelim_header := get;
  undelim_record := get;
  undelim_footer := get;
  zstd_compress b := b;
  zstd_decompress b := b;
|}.

Lemma example_codec_laws : @CodecLaws example_codec.
Proof.
  split; intros; simpl; rewrite ?get_put //.
  f_equal. rewrite /wire_record /=. by destruct (Value r) as [[]|].
Qed.

