(* ===== verification/Discovery.v ===== *)
(** * internal/discovery: members.json and the node registration files

    encoding/json is the class [JSON]; its laws say that what the two structs
    marshal to unmarshals to the same struct, for ASCII text. *)

From S2P Require Import Prelude Storage ExampleCodec.

#[local] Open Scope string_scope.
#[local] Open Scope Z_scope.

(** ** Data *)

Record NodeRegistration := mkNodeRegistration {
  nr_NodeID : string;
  nr_ClientAdvertiseAddress : string;
  nr_PeerAdvertiseAddress : string;
}.

#[export] Instance NodeRegistration_eq_dec : EqDecision NodeRegistration.
Proof. solve_decision. Defined.

(** [Members] is Go's map, [None] the nil map a file without the field leaves. *)
Record MembersFile := mkMembersFile {
  mf_ClusterID : string;
  mf_Members : option (gmap string Z);
  mf_ETag : string;
}.

(** Reading a nil map finds nothing. *)
Definition members (mf : MembersFile) : gmap string Z := default ∅ (mf_Members mf).

Inductive discovery_err :=
| StorageErr (e : storage_err)
| UnmarshalMembers
| WriteMembers (e : storage_err)
| UnmarshalRegistration (path : string)
| RegistrationDiffers (nodeID : string)
| ReadRegistration (path : string) (e : storage_err)
| WriteRegistration (path : string) (e : storage_err)
| DeleteRegistration (nodeID : string) (e : storage_err)
| ListRegistrations (e : storage_err).

(** ** encoding/json *)

Class JSON := {
  json_of_members : string → option (gmap string Z) → bytes;
  members_of_json : bytes → option (string * option (gmap string Z));
  json_of_registration : NodeRegistration → bytes;
  registration_of_json : bytes → option NodeRegistration;
}.

Fixpoint ascii_text (s : string) : bool :=
  match s with
  | "" => true
  | String c s' => (Ascii.N_of_ascii c <? 128)%N && ascii_text s'
  end.

Definition uint64 (z : Z) : Prop := 0 ≤ z < 2 ^ 64.

Definition ascii_registration (r : NodeRegistration) : Prop :=
  ascii_text (nr_NodeID r) = true ∧ ascii_text (nr_ClientAdvertiseAddress r) = true ∧
  ascii_text (nr_PeerAdvertiseAddress r) = true.

Definition ascii_members (m : gmap string Z) : Prop :=
  map_Forall (λ k id, ascii_text k = true ∧ uint64 id) m.

Class JSONLaws `{JSON} : Prop := {
  json_members_roundtrip c m :
    ascii_text c = true → ascii_members m →
    members_of_json (json_of_members c (Some m)) = Some (c, Some m);
  json_registration_roundtrip r :
    ascii_registration r → registration_of_json (json_of_registration r) = Some r;
}.

(** ** Operations *)

Definition membersFilePath : string := "members.json".

Definition AllocateMemberID (existing : MembersFile) : Z :=
  wrapu64 (map_fold (λ _ id max, if max <? id then id else max) 0 (members existing) + 1).

Definition FindMemberID (mf : MembersFile) (nodeID : string) : option Z := members mf !! nodeID.

Definition NodePath (nodeID : string) : string := "nodes/" ++ nodeID ++ ".json".

Section discovery.
  Context {OS : Type} `{ObjectStorage OS} `{JSON}.

Definition ReadMembersFile (ok : bool) (store : OS) : res discovery_err MembersFile :=
  match faulty_get ok store membersFilePath with
  | Err e => Err (StorageErr e)
  | Ok (data, etag) =>
      match members_of_json data with
      | None => Err UnmarshalMembers
      | Some (c, m) => Ok (mkMembersFile c m etag)
      end
  end.

Definition WriteMembersFile (f : put_fault) (store : OS) (mf : MembersFile)
    : res discovery_err unit * OS :=
  match faulty_put_match f store membersFilePath
          (json_of_members (mf_ClusterID mf) (mf_Members mf)) (mf_ETag mf) with
  | (Err e, store') => (Err (WriteMembers e), store')
  | (Ok _, store') => (Ok tt, store')
  end.

Definition WriteNodeRegistration (ok : bool) (f : put_fault) (store : OS) (reg : NodeRegistration)
    : res discovery_err unit * OS :=
  let path := NodePath (nr_NodeID reg) in
  match faulty_get ok store path with
  | Ok (existing, _) =>
      match registration_of_json existing with
      | None => (Err (UnmarshalRegistration path), store)
      | Some prev =>
          if decide (prev = reg) then (Ok tt, store)
          else (Err (RegistrationDiffers (nr_NodeID reg)), store)
      end
  | Err e =>
      if negb (bool_decide (e = ErrNotFound)) then (Err (ReadRegistration path e), store)
      else
        match faulty_put f store path (json_of_registration reg) with
        | (Err e, store') => (Err (WriteRegistration path e), store')
        | (Ok _, store') => (Ok tt, store')
        end
  end.

Definition ReadNodeRegistration (ok : bool) (store : OS) (nodeID : string)
    : res discovery_err NodeRegistration :=
  let path := NodePath nodeID in
  match faulty_get ok store path with
  | Err e => Err (StorageErr e)
  | Ok (data, _) =>
      match registration_of_json data with
      | None => Err (UnmarshalRegistration path)
      | Some reg => Ok reg
      end
  end.

Definition DeleteNodeRegistration (f : put_fault) (store : OS) (nodeID : string)
    : res discovery_err unit * OS :=
  match faulty_delete f store (NodePath nodeID) with
  | (Err e, store') => (Err (DeleteRegistration nodeID e), store')
  | (Ok _, store') => (Ok tt, store')
  end.

(** Whether each read succeeds is a function of the key. *)
Definition ListNodeRegistrations (list_ok : bool) (get_ok : string → bool) (store : OS)
    : res discovery_err (list NodeRegistration) :=
  match faulty_list list_ok store "nodes/" with
  | Err e => Err (ListRegistrations e)
  | Ok objects =>
      Ok (omap (λ oi,
            match faulty_get (get_ok (oi_Key oi)) store (oi_Key oi) with
            | Err _ => None
            | Ok (data, _) => registration_of_json data
            end) objects)
  end.
End discovery.

(** ** Member ids *)

(** Ids are positive, below the last one, and no two nodes share one. *)
Definition members_wf (m : gmap string Z) : Prop :=
  map_Forall (λ _ id, 0 < id < 2 ^ 64 - 1) m ∧
  (∀ a b id, m !! a = Some id → m !! b = Some id → a = b).

Lemma max_member_spec (m : gmap string Z) :
  let mx := map_fold (λ _ id max, if max <? id then id else max) 0 m in
  0 ≤ mx ∧ map_Forall (λ _ id, id ≤ mx) m ∧ (mx = 0 ∨ ∃ a, m !! a = Some mx).
Proof.
  simpl. apply (map_fold_weak_ind (λ mx m, 0 ≤ mx ∧ map_Forall (λ _ id, id ≤ mx) m ∧
    (mx = 0 ∨ ∃ a, m !! a = Some mx))).
  - split; [done|]. split; [apply map_Forall_empty|by left].
  - intros k id m' mx Hk (H0 & Hall & Hex).
    destruct (mx <? id) eqn:E; bool_to_prop.
    + split; [lia|]. split; [|right; exists k; by rewrite lookup_insert_eq].
      intros a x. rewrite lookup_insert_Some. intros [[-> ->]|[_ Ha]]; [lia|].
      apply Hall in Ha. lia.
    + split; [done|]. split.
      * intros a x. rewrite lookup_insert_Some. intros [[-> ->]|[_ Ha]]; [lia|].
        by apply Hall in Ha.
      * destruct Hex as [->|[a Ha]]; [by left|]. right. exists a.
        rewrite lookup_insert_ne //. congruence.
Qed.

Lemma AllocateMemberID_fresh mf :
  members_wf (members mf) →
  0 < AllocateMemberID mf < 2 ^ 64 ∧
  map_Forall (λ _ id, id < AllocateMemberID mf) (members mf).
Proof.
  intros [Hb _]. rewrite /AllocateMemberID. destruct (max_member_spec (members mf)) as (H0 & Hall & Hex).
  set (mx := map_fold _ _ _) in *.
  assert (0 ≤ mx < 2 ^ 64 - 1) as Hmx.
  { destruct Hex as [->|[a Ha]]; [lia|]. apply Hb in Ha. lia. }
  rewrite /wrapu64 Z.mod_small; [lia|]. split; [lia|].
  intros a x Ha. apply Hall in Ha. lia.
Qed.

(** A node added with the allocated id shares it with nobody. *)
Lemma members_wf_insert mf nodeID :
  members_wf (members mf) → members mf !! nodeID = None →
  AllocateMemberID mf < 2 ^ 64 - 1 →
  members_wf (<[nodeID := AllocateMemberID mf]> (members mf)).
Proof.
  intros Hwf Hn Hlt. destruct (AllocateMemberID_fresh mf Hwf) as [Hb Hfresh].
  destruct Hwf as [Hall Hinj]. split.
  - apply map_Forall_insert_2; [lia|done].
  - intros a b id. rewrite !lookup_insert_Some.
    intros [[<- <-]|[? Ha]] [[<- E]|[? Hb']]; try done.
    + apply Hfresh in Hb'. lia.
    + apply Hfresh in Ha. lia.
    + by eapply Hinj.
Qed.

(** The id after the largest one is 0, which stands for an unset member id. *)
Lemma AllocateMemberID_wraps :
  AllocateMemberID (mkMembersFile "c" (Some {["n1" := 2 ^ 64 - 1]}) "e") = 0.
Proof. by vm_compute. Qed.

(** ** Registration files *)

Section registration_theorems.
  Context {OS : Type} `{HS : ObjectStorage OS} (L : ObjectStorageLaws OS).
  Context `{HJ : JSON} (LJ : JSONLaws).

(** A registration reads back as it was written; writing it again changes
    nothing, and one with other addresses is refused. *)
Lemma WriteNodeRegistration_spec store reg :
  ascii_registration reg →
  os_objects store (NodePath (nr_NodeID reg)) = None →
  let store' := (WriteNodeRegistration true PutOk store reg).2 in
  (WriteNodeRegistration true PutOk store reg).1 = Ok tt ∧
  ReadNodeRegistration true store' (nr_NodeID reg) = Ok reg ∧
  (∀ reg' f, nr_NodeID reg' = nr_NodeID reg →
     WriteNodeRegistration true f store' reg'
     = (if decide (reg = reg') then Ok tt else Err (RegistrationDiffers (nr_NodeID reg')), store')).
Proof using L LJ.
  intros Ha Hn. rewrite /WriteNodeRegistration /faulty_get.
  pose proof (os_Get_spec store (NodePath (nr_NodeID reg))) as Hg. rewrite Hn in Hg. rewrite Hg /=.
  pose proof (os_Get_spec (os_Put store (NodePath (nr_NodeID reg)) (json_of_registration reg))
                (NodePath (nr_NodeID reg))) as Hg'.
  rewrite os_Put_spec decide_True // in Hg'. destruct Hg' as (etag & Hg' & _).
  split; [done|]. split.
  - rewrite /ReadNodeRegistration /faulty_get Hg' json_registration_roundtrip //.
  - intros reg' f Hid. rewrite Hid Hg' json_registration_roundtrip //. by case_decide.
Qed.

(** Listing finds the registration of every node whose file can be read. *)
Lemma ListNodeRegistrations_spec get_ok store regs :
  ListNodeRegistrations true get_ok store = Ok regs →
  ∀ reg, reg ∈ regs ↔
    ∃ key data, get_ok key = true ∧ string_has_prefix key "nodes/" = true ∧
      os_objects store key = Some data ∧ registration_of_json data = Some reg.
Proof using L.
  intros [= <-] reg. rewrite list_elem_of_omap. split.
  - intros (oi & (d & Hd & Hp & _)%os_List_spec & Hm). rewrite /faulty_get in Hm.
    destruct (get_ok (oi_Key oi)) eqn:E; [|done].
    pose proof (os_Get_spec store (oi_Key oi)) as Hg. rewrite Hd in Hg.
    destruct Hg as (etag & -> & _) in Hm. by exists (oi_Key oi), d.
  - intros (key & data & Hok & Hp & Hd & Hr).
    exists (mkObjectInfo key (Z.of_nat (length data))). split.
    + apply os_List_spec. by exists data.
    + simpl. rewrite Hok /faulty_get.
      pose proof (os_Get_spec store key) as Hg. rewrite Hd in Hg.
      destruct Hg as (etag & -> & _). done.
Qed.
End registration_theorems.

(** ** A JSON that meets the laws *)

#[export] Instance NodeRegistration_countable : Countable NodeRegistration.
Proof.
  refine (inj_countable' (λ r, (nr_NodeID r, nr_ClientAdvertiseAddress r, nr_PeerAdvertiseAddress r))
    (λ '(a, b, c), mkNodeRegistration a b c) _).
  by intros [].
Defined.

Definition json_members : Type := string * option (list (string * Z)).

Definition example_json : JSON := {|
  json_of_members c m := put ((c, option_map map_to_list m) : json_members);
  members_of_json b :=
    match get (A := json_members) b with
    | Some (c, m, _) => Some (c, option_map list_to_map m)
    | None => None
    end;
  json_of_registration := put;
  registration_of_json b := option_map fst (get (A := NodeRegistration) b);
|}.

Lemma example_json_laws : @JSONLaws example_json.
Proof.
  split.
  - intros c m _ _. simpl. rewrite -(app_nil_r (put _)) get_put /=.
    by rewrite list_to_map_to_list.
  - intros r _. simpl. by rewrite -(app_nil_r (put _)) get_put.
Qed.
