(* ===== verification/DataStore.v ===== *)
(** * internal/datastore: chunk and snapshot files in object storage

    Object keys and their parsing, marshalling of chunks, listing, import into
    the record store, and promotion of an operator's bootstrap snapshot. *)

From Stdlib Require Import Strings.Ascii.
From S2P Require Import Decimal.
From S2P Require Import Prelude Records LocalDB Storage DataFile.

#[local] Open Scope string_scope.
#[local] Open Scope Z_scope.

(** ** Object keys *)

Definition ChunkKey (revision : Z) : string :=
  let partition := Z.rem revision 10000 in
  "chunks/" ++ fmt_padded 4 partition ++ "/" ++ fmt_padded 19 revision ++ ".netsy".

Definition SnapshotKey (revision : Z) : string :=
  "snapshots/" ++ fmt_padded 19 revision ++ ".netsy".

Fixpoint has_slash (s : string) : bool :=
  match s with
  | "" => false
  | String c s' => bool_decide (c = "/"%char) || has_slash s'
  end.

(** The last element of [strings.Split(s, "/")]. *)
Fixpoint last_part (s : string) : string :=
  match s with
  | "" => ""
  | String c s' =>
      if has_slash s' then last_part s' else if bool_decide (c = "/"%char) then s' else s
  end.

(** [strings.TrimSuffix] where [strings.HasSuffix] holds, [None] elsewhere. *)
Fixpoint strip_suffix (suf s : string) : option string :=
  if String.eqb s suf then Some ""
  else
    match s with
    | "" => None
    | String c s' => String c <$> strip_suffix suf s'
    end.

Definition parseRevisionFromKey (key : string) : option Z :=
  match strip_suffix ".netsy" (last_part key) with
  | None => None
  | Some name => ParseInt64 name
  end.

(** ** Marshalling *)

Section datastore.
  Context `{Codec}.

Definition MarshalChunk (now : Z) (rec : record) (nodeID : string) : res df_err (string * bytes) :=
  match Writer_Close (Write rec (NewWriter now KIND_CHUNK 1 nodeID)) with
  | Err e => Err e
  | Ok data => Ok (ChunkKey (Revision rec), data)
  end.

(** [None] is the error for an empty batch. *)
Definition MarshalChunkBatch (now : Z) (records : list record) (nodeID : string)
    : option (res df_err (string * bytes)) :=
  match last records with
  | None => None
  | Some r =>
      Some (match Writer_Close (write_all records
                    (NewWriterWithSmartCompression now KIND_CHUNK records nodeID)) with
            | Err e => Err e
            | Ok data => Ok (ChunkKey (Revision r), data)
            end)
  end.

(** ** Listing *)

Record FileInfo := mkFileInfo { fi_Key : string; fi_Size : Z; fi_Revision : Z }.

(** The loop over the listed objects: those whose name parses. *)
Definition parse_objects (objects : list ObjectInfo) : list FileInfo :=
  omap (λ oi, (λ rev, mkFileInfo (oi_Key oi) (oi_Size oi) rev) <$> parseRevisionFromKey (oi_Key oi))
    objects.

Definition rev_le (a b : FileInfo) : Prop := fi_Revision a ≤ fi_Revision b.
Definition rev_ge (a b : FileInfo) : Prop := fi_Revision b ≤ fi_Revision a.
#[global] Instance rev_le_dec : RelDecision rev_le.
Proof. intros a b. rewrite /rev_le. apply _. Defined.
#[global] Instance rev_ge_dec : RelDecision rev_ge.
Proof. intros a b. rewrite /rev_ge. apply _. Defined.
#[global] Instance rev_le_trans : Transitive rev_le.
Proof. intros a b c. rewrite /rev_le. lia. Qed.
#[global] Instance rev_le_total : Total rev_le.
Proof. intros a b. rewrite /rev_le. lia. Qed.
#[global] Instance rev_ge_trans : Transitive rev_ge.
Proof. intros a b c. rewrite /rev_ge. lia. Qed.
#[global] Instance rev_ge_total : Total rev_ge.
Proof. intros a b. rewrite /rev_ge. lia. Qed.

Section store.
  Context {OS : Type} `{ObjectStorage OS}.

Definition ListChunks (s : OS) (fromRevision : Z) : list FileInfo :=
  merge_sort rev_le
    (filter (λ f, fromRevision < fi_Revision f) (parse_objects (os_List s "chunks/"))).

Definition ListChunksForCleanup (s : OS) (upToRevision : Z) : list FileInfo :=
  merge_sort rev_le
    (filter (λ f, fi_Revision f ≤ upToRevision) (parse_objects (os_List s "chunks/"))).

Definition ListSnapshots (s : OS) : list FileInfo :=
  merge_sort rev_ge (parse_objects (os_List s "snapshots/")).

(** [None] is [Found=false]. *)
Definition GetLatestSnapshot (s : OS) : option FileInfo := head (ListSnapshots s).

(** ** Import *)

Inductive import_err :=
| ImportDownloadErr (key : string) (e : storage_err)
| ImportReaderErr (key : string) (e : df_err)
| ImportReadErr (i : nat) (e : df_err)
| ImportReplicateErr (i : nat) (e : db_err)
| ImportCloseErr (e : df_err).

(** Read a record, replicate it, [n] more times; the rows replicated before an
    error stay. *)
Fixpoint import_loop (clock : Z → Z) (n i : nat) (r : Reader) (db : database)
    : res import_err Reader * database :=
  match n with
  | O => (Ok r, db)
  | S n' =>
      match Read r with
      | Err e => (Err (ImportReadErr i e), db)
      | Ok (rec, r') =>
          match ReplicateRecord (clock (Revision rec)) rec db with
          | Err e => (Err (ImportReplicateErr i e), db)
          | Ok (_, db') => import_loop clock n' (S i) r' db'
          end
      end
  end.

Definition DownloadAndImportFile (clock : Z → Z) (s : OS) (key : string) (expectedKind : FileKind)
    (db : database) : res import_err ReadResults * database :=
  match os_Get s key with
  | Err e => (Err (ImportDownloadErr key e), db)
  | Ok (data, _) =>
      match NewReader data (Some expectedKind) with
      | Err e => (Err (ImportReaderErr key e), db)
      | Ok r =>
          match import_loop clock (Z.to_nat (rd_expectedRecordsCount r)) 0 r db with
          | (Err e, db') => (Err e, db')
          | (Ok r', db') =>
              match Reader_Close r' with
              | Err e => (Err (ImportCloseErr e), db')
              | Ok results => (Ok results, db')
              end
          end
      end
  end.

(** ** Bootstrap snapshot *)

Definition BootstrapSnapshotKey : string := "bootstrap.netsy".

(** "_netsy". *)
Definition bootstrapInitialRecordKey : bytes :=
  [Byte.x5f; Byte.x6e; Byte.x65; Byte.x74; Byte.x73; Byte.x79].

Inductive bootstrap_err :=
| BootstrapReaderErr (e : df_err)
| BootstrapEmpty
| BootstrapGap (i : nat) (revision previous : Z)
| BootstrapFirstKey (key : bytes)
| BootstrapCountErr (count last : Z)
| BootstrapReadErr (e : storage_err)
| BootstrapChunksExist
| BootstrapSnapshotExists (key : string)
| BootstrapPutErr (e : put_err).

Fixpoint validate_loop (n i : nat) (previousRevision : Z) (r : Reader)
    : res bootstrap_err Reader :=
  match n with
  | O => Ok r
  | S n' =>
      match Read r with
      | Err e => Err (BootstrapReaderErr e)
      | Ok (rec, r') =>
          if negb (Revision rec =? wrap64 (previousRevision + 1))
          then Err (BootstrapGap i (Revision rec) previousRevision)
          else if bool_decide (i = O) && negb (bool_decide (Key rec = bootstrapInitialRecordKey))
          then Err (BootstrapFirstKey (Key rec))
          else validate_loop n' (S i) (Revision rec) r'
      end
  end.

Definition validateBootstrapSnapshot (data : bytes) : res bootstrap_err Z :=
  match NewReader data (Some KIND_SNAPSHOT) with
  | Err e => Err (BootstrapReaderErr e)
  | Ok r =>
      if rd_expectedRecordsCount r =? 0 then Err BootstrapEmpty
      else
        match validate_loop (Z.to_nat (rd_expectedRecordsCount r)) O 0 r with
        | Err e => Err e
        | Ok r' =>
            match Reader_Close r' with
            | Err e => Err (BootstrapReaderErr e)
            | Ok results =>
                if negb (rres_LastRevision results =? rd_expectedRecordsCount r)
                then Err (BootstrapCountErr (rd_expectedRecordsCount r) (rres_LastRevision results))
                else Ok (rres_LastRevision results)
            end
        end
  end.

(** [Ok (None, s)] is [Found=false].  The download goes through a local
    temporary file, which TempFiles adds. *)
Definition PromoteBootstrapSnapshot (sha256 : bytes → bytes) (s : OS)
    : res bootstrap_err (option FileInfo * OS) :=
  match os_Get s BootstrapSnapshotKey with
  | Err ErrNotFound => Ok (None, s)
  | Err e => Err (BootstrapReadErr e)
  | Ok (data, _) =>
      match validateBootstrapSnapshot data with
      | Err e => Err e
      | Ok lastRevision =>
          let targetKey := SnapshotKey lastRevision in
          if bool_decide (os_List s "chunks/" ≠ []) then Err BootstrapChunksExist
          else
            match List.find (λ f, negb (String.eqb (fi_Key f) targetKey)) (ListSnapshots s) with
            | Some f => Err (BootstrapSnapshotExists (fi_Key f))
            | None =>
                match PutStreamIfAbsent sha256 s targetKey data with
                | Err e => Err (BootstrapPutErr e)
                | Ok s' =>
                    Ok (Some (mkFileInfo targetKey (Z.of_nat (length data)) lastRevision), s')
                end
            end
      end
  end.
End store.
End datastore.

(** ** Keys and revisions *)

Lemma all_digits_no_slash s t : all_digits s = true → has_slash (s ++ t) = has_slash t.
Proof.
  induction s as [|c s IH]; [done|]. cbn [all_digits]. intros [Hc Hs]%andb_true_iff.
  change (has_slash (String c s ++ t)) with (bool_decide (c = "/"%char) || has_slash (s ++ t)).
  rewrite IH // bool_decide_eq_false_2 //. intros ->. by vm_compute in Hc.
Qed.

Lemma has_slash_app a b : has_slash (a ++ "/" ++ b) = true.
Proof.
  induction a as [|c a IH]; [done|].
  change (bool_decide (c = "/"%char) || has_slash (a ++ "/" ++ b) = true). by rewrite IH orb_true_r.
Qed.

Lemma last_part_app a b : has_slash b = false → last_part (a ++ "/" ++ b) = b.
Proof.
  intros Hb. induction a as [|c a IH].
  - change (("" ++ "/" ++ b)) with (String "/"%char b). cbn [last_part]. by rewrite Hb.
  - change (last_part (String c (a ++ "/" ++ b)) = b). cbn [last_part].
    by rewrite has_slash_app IH.
Qed.

Lemma strip_suffix_app suf a : strip_suffix suf (a ++ suf) = Some a.
Proof.
  induction a as [|c a IH].
  - change ("" ++ suf) with suf. by destruct suf as [|c suf]; cbn [strip_suffix];
      [|rewrite String.eqb_refl].
  - change (strip_suffix suf (String c (a ++ suf)) = Some (String c a)). cbn [strip_suffix].
    destruct (String.eqb_spec (String c (a ++ suf)) suf) as [E|_]; [|by rewrite IH].
    apply (f_equal String.length) in E. change (S (String.length (a ++ suf)) = String.length suf) in E.
    rewrite string_length_app in E. lia.
Qed.

Lemma parse_padded a n :
  0 ≤ n ≤ int64_max → parseRevisionFromKey (a ++ "/" ++ fmt_padded 19 n ++ ".netsy") = Some n.
Proof.
  intros Hn. destruct (fmt_padded_pos 19 n Hn) as (Hd & Hp & Hne).
  rewrite /parseRevisionFromKey last_part_app; [by rewrite all_digits_no_slash|].
  rewrite strip_suffix_app. apply ParseInt64_digits; [done..|lia].
Qed.

Lemma parse_chunk_key rev :
  0 ≤ rev ≤ int64_max → parseRevisionFromKey (ChunkKey rev) = Some rev.
Proof. intros Hr. rewrite /ChunkKey string_app_assoc. by apply parse_padded. Qed.

Lemma parse_snapshot_key rev :
  0 ≤ rev ≤ int64_max → parseRevisionFromKey (SnapshotKey rev) = Some rev.
Proof. apply (parse_padded "snapshots"). Qed.

(** A chunk key or a snapshot key parses back to its revision, for every
    64-bit revision, so distinct revisions have distinct keys. *)
Theorem parse_key_roundtrip rev :
  0 ≤ rev ≤ int64_max →
  parseRevisionFromKey (ChunkKey rev) = Some rev ∧ parseRevisionFromKey (SnapshotKey rev) = Some rev.
Proof.
  intros Hr. split; [by apply parse_chunk_key|by apply parse_snapshot_key].
Qed.

Lemma parse_key_roundtrip_witness :
  parseRevisionFromKey (ChunkKey 123456) = Some 123456 ∧
  ChunkKey 123456 = "chunks/3456/0000000000000123456.netsy".
Proof.
  split; [apply (parse_key_roundtrip 123456); vm_compute; split; discriminate|vm_compute; reflexivity].
Defined.
