(* ===== verification/TempFiles.v ===== *)
(** * internal/datastore: the temporary file of a bootstrap snapshot

    [PromoteBootstrapSnapshot] downloads bootstrap.netsy into a local file,
    validates it from there and uploads the same file.  DataStore has the
    promotion on the bytes; here are the local file, its offset and the local
    operations that can fail.  The promotion on files refines the one on
    bytes, and no way through it leaves the file behind. *)

From S2P Require Import Prelude Records LocalDB Storage DataFile ExampleCodec DataStore.

#[local] Open Scope Z_scope.

(** ** Local files *)

Definition files : Type := gmap string bytes.

(** An open file: its path and the offset of the next read. *)
Record File := mkFile { fh_path : string; fh_offset : nat }.

(** What is read from the offset on. *)
Definition contents (fs : files) (f : File) : bytes := drop (fh_offset f) (default [] (fs !! fh_path f)).

(** Outcomes of the local operations: the file [CreateTemp] makes, how many
    bytes a failing copy wrote ([None]: it succeeds), where the buffered reader
    of the validation leaves the offset. *)
Record temp_env := mkTempEnv {
  te_mkdir : bool;
  te_create : option string;
  te_copy : option nat;
  te_seek_start : bool;
  te_offset : nat;
  te_seek_upload : bool;
  te_seek_compare : bool;
}.

Inductive temp_err :=
| TempMkdir | TempCreate | TempCopy | TempSeek
| TempStorage (e : storage_err)
| TempBootstrap (e : bootstrap_err).

Section temp.
  Context `{Codec} {OS : Type} `{HS : ObjectStorage OS}.

(** The file is removed again unless everything went well. *)
Definition downloadToTempFile (env : temp_env) (s : OS) (key tempDir : string) (fs : files)
    : res temp_err (File * Z) * files :=
  match os_Get s key with
  | Err e => (Err (TempStorage e), fs)
  | Ok (data, _) =>
      if bool_decide (tempDir ≠ "") && negb (te_mkdir env) then (Err TempMkdir, fs)
      else
        match te_create env with
        | None => (Err TempCreate, fs)
        | Some path =>
            match te_copy env with
            | Some n => (Err TempCopy, delete path (<[path := take n data]> fs))
            | None =>
                let fs' := <[path := data]> fs in
                if te_seek_start env then (Ok (mkFile path 0, Z.of_nat (length data)), fs')
                else (Err TempSeek, delete path fs')
            end
        end
  end.

(** [PutStreamIfAbsent] of an open file. *)
Definition PutFileIfAbsent (env : temp_env) (sha256 : bytes → bytes) (s : OS) (key : string) (fs : files) (f : File)
    : res temp_err OS :=
  if negb (te_seek_upload env) then Err TempSeek
  else
    match os_PutIfMatch s key (contents fs (mkFile (fh_path f) 0)) "" with
    | Ok s' => Ok s'
    | Err ErrPrecondition =>
        match os_Get s key with
        | Err e => Err (TempBootstrap (BootstrapPutErr (ReadExistingErr key e)))
        | Ok (existing, _) =>
            if negb (te_seek_compare env) then Err TempSeek
            else if negb (bool_decide (sha256 existing = sha256 (contents fs (mkFile (fh_path f) 0))))
            then Err (TempBootstrap (BootstrapPutErr (DifferentContents key)))
            else Ok s
        end
    | Err e => Err (TempBootstrap (BootstrapPutErr (UploadErr key e)))
    end.

(** The part of the promotion with the file open. *)
Definition promote_file (env : temp_env) (sha256 : bytes → bytes) (s : OS) (fs : files) (f : File) (size : Z)
    : res temp_err (option FileInfo * OS) :=
  match validateBootstrapSnapshot (contents fs f) with
  | Err e => Err (TempBootstrap e)
  | Ok lastRevision =>
      let f := mkFile (fh_path f) (te_offset env) in
      let targetKey := SnapshotKey lastRevision in
      if bool_decide (os_List s "chunks/" ≠ []) then Err (TempBootstrap BootstrapChunksExist)
      else
        match List.find (λ i, negb (String.eqb (fi_Key i) targetKey)) (ListSnapshots s) with
        | Some i => Err (TempBootstrap (BootstrapSnapshotExists (fi_Key i)))
        | None =>
            match PutFileIfAbsent env sha256 s targetKey fs f with
            | Err e => Err e
            | Ok s' => Ok (Some (mkFileInfo targetKey size lastRevision), s')
            end
        end
  end.

(** The deferred function removes the file on every return. *)
Definition PromoteBootstrapFile (env : temp_env) (sha256 : bytes → bytes) (s : OS) (tempDir : string) (fs : files)
    : res temp_err (option FileInfo * OS) * files :=
  match downloadToTempFile env s BootstrapSnapshotKey tempDir fs with
  | (Err (TempStorage ErrNotFound), fs) => (Ok (None, s), fs)
  | (Err e, fs) => (Err e, fs)
  | (Ok (f, size), fs) => (promote_file env sha256 s fs f size, delete (fh_path f) fs)
  end.

(** ** Refinement *)

(** The answer on files as an answer on bytes; local failures have none. *)
Definition on_bytes (r : res temp_err (option FileInfo * OS)) : option (res bootstrap_err (option FileInfo * OS)) :=
  match r with
  | Ok x => Some (Ok x)
  | Err (TempBootstrap e) => Some (Err e)
  | Err (TempStorage e) => Some (Err (BootstrapReadErr e))
  | Err _ => None
  end.

Definition local_ok (env : temp_env) : Prop :=
  te_mkdir env = true ∧ is_Some (te_create env) ∧ te_copy env = None ∧ te_seek_start env = true ∧
  te_seek_upload env = true ∧ te_seek_compare env = true.

Ltac answered :=
  split; [let r := fresh in let Hr := fresh in intros r Hr; cbn in Hr |- *; congruence
         |intros _; cbn; by eexists].

(** C13: promoting a bootstrap snapshot through a temporary file.  Where the
    created file is new, whatever local step fails and wherever the validation
    leaves the file's offset, the local files are afterwards those there were
    before.  An answer that is not a local failure is the answer of the
    promotion on bytes; without local failures there always is one. *)
Theorem temp_file_refines env sha256 (s : OS) tempDir fs :
  (∀ path, te_create env = Some path → fs !! path = None) →
  (PromoteBootstrapFile env sha256 s tempDir fs).2 = fs ∧
  (∀ r, on_bytes (PromoteBootstrapFile env sha256 s tempDir fs).1 = Some r → r = PromoteBootstrapSnapshot sha256 s) ∧
  (local_ok env → is_Some (on_bytes (PromoteBootstrapFile env sha256 s tempDir fs).1)).
Proof.
  intros Hnew. rewrite /PromoteBootstrapFile /downloadToTempFile /PromoteBootstrapSnapshot.
  destruct (os_Get s BootstrapSnapshotKey) as [[data etag]|e] eqn:Eg.
  2: { destruct e; (split; [done|answered]). }
  destruct (bool_decide (tempDir ≠ "") && negb (te_mkdir env)) eqn:Em.
  { split_and!; [done|done|]. intros (Hmk & _). by rewrite Hmk andb_false_r in Em. }
  destruct (te_create env) as [path|] eqn:Ec; [|split_and!; [done|done|]; by intros (_ & [? ?] & _); congruence].
  specialize (Hnew path eq_refl).
  destruct (te_copy env) as [n|] eqn:Ep; [split_and!; [by rewrite /= delete_insert_id|done|by intros (_ & _ & ? & _); congruence]|].
  destruct (te_seek_start env) eqn:Es; [|split_and!; [by rewrite /= delete_insert_id|done|by intros (_ & _ & _ & ? & _); congruence]].
  cbn [fst snd fh_path]. split; [by rewrite delete_insert_id|].
  rewrite /promote_file /PutFileIfAbsent /PutStreamIfAbsent /contents. cbn [fh_path fh_offset].
  rewrite lookup_insert_eq. change (default [] (Some data)) with data. rewrite !drop_0.
  destruct (validateBootstrapSnapshot data) as [rev|e]; [|answered].
  destruct (bool_decide (os_List s "chunks/" ≠ [])); [answered|].
  destruct (List.find _ _) as [i|]; [answered|].
  destruct (te_seek_upload env) eqn:Eu; [|split; [done|by intros (_ & _ & _ & _ & ? & _); congruence]]. cbn [negb].
  destruct (os_PutIfMatch s _ data "") as [s'|e]; [answered|].
  destruct e; [answered| |answered].
  destruct (os_Get s (SnapshotKey rev)) as [[existing etag']|e]; [|answered].
  destruct (te_seek_compare env) eqn:Ek; [|split; [done|by intros (_ & _ & _ & _ & _ & ?); congruence]]. cbn [negb].
  destruct (bool_decide (sha256 existing = sha256 data)); answered.
Qed.
End temp.

(** The copy fails after three bytes; the half-written file is gone. *)
Lemma temp_file_refines_witness :
  let env := mkTempEnv true (Some "tmp/netsy_1.netsy") (Some 3%nat) true 0 true true in
  let store : MemoryStore := {[BootstrapSnapshotKey := [Byte.x01; Byte.x02; Byte.x03; Byte.x04]]} in
  (@PromoteBootstrapFile example_codec MemoryStore (MemoryStore_ObjectStorage example_etag) env (λ b, b) store "data"
     {["db.sqlite3" := []]}).2 = {["db.sqlite3" := []]}.
Proof.
  intros env store.
  refine (proj1 (@temp_file_refines example_codec MemoryStore (MemoryStore_ObjectStorage example_etag) env (λ b, b) store
    "data" {["db.sqlite3" := []]} _)).
  intros path [= <-]. reflexivity.
Defined.
