(* ===== verification/DataStoreTheorems.v ===== *)
(** * Theorems on durable files: what is flushed can be imported *)

From S2P Require Import Prelude Records LocalDB History Examples LocalDBTheorems Storage DataFile.
From S2P Require Import ExampleCodec DataStore.

#[local] Open Scope Z_scope.

Section durable.
  Context `{CL : CodecLaws} {OS : Type} `{HS : ObjectStorage OS} (L : ObjectStorageLaws OS).

Lemma import_loop_read_n clock n i r recs r' db db' :
  read_n n r = Ok (recs, r') → replicate_all clock recs db = Ok db' →
  import_loop clock n i r db = (Ok r', db').
Proof.
  revert i r recs db; induction n as [|n IH]; intros i r recs db; simpl.
  { intros [= <- <-]. by intros [= <-]. }
  destruct (Read r) as [[x r1]|]; [|done].
  destruct (read_n n r1) as [[xs r2]|] eqn:E; [|done]. intros [= <- <-]. simpl.
  destruct (ReplicateRecord _ x db) as [[y db1]|]; [|done]. by apply IH.
Qed.

Lemma same_links_file_record r : same_links r (file_record r).
Proof. done. Qed.

(** A batch of records as one finished chunk file. *)
Lemma MarshalChunkBatch_reads now l nodeID key data :
  Z.of_nat (length l) ≤ int64_max →
  MarshalChunkBatch now l nodeID = Some (Ok (key, data)) →
  ∃ results, read_file KIND_CHUNK data = Ok (file_record <$> l, results).
Proof using CL.
  intros Hlen. rewrite /MarshalChunkBatch. destruct (last l) as [r|]; [|done].
  rewrite /NewWriterWithSmartCompression.
  set (c := if decide (KIND_CHUNK = KIND_SNAPSHOT) then _ else _).
  assert (c ≠ COMPRESSION_UNKNOWN) as Hc.
  { rewrite /c. by repeat case_match. }
  destruct (datafile_reads_back now KIND_CHUNK nodeID c l Hc Hlen) as (d & Hw & Hr).
  rewrite Hw. intros [= <- <-]. by eexists.
Qed.

Lemma MarshalChunkBatch_writes now l nodeID r :
  Z.of_nat (length l) ≤ int64_max → last l = Some r →
  ∃ data, MarshalChunkBatch now l nodeID = Some (Ok (ChunkKey (Revision r), data)).
Proof using CL.
  intros Hlen Hl. rewrite /MarshalChunkBatch Hl /NewWriterWithSmartCompression.
  set (c := if decide (KIND_CHUNK = KIND_SNAPSHOT) then _ else _).
  assert (c ≠ COMPRESSION_UNKNOWN) as Hc by (rewrite /c; by repeat case_match).
  destruct (datafile_reads_back now KIND_CHUNK nodeID c l Hc Hlen) as (d & Hw & _). rewrite Hw. by exists d.
Qed.

Lemma MarshalChunkBatch_key now l nodeID key data :
  MarshalChunkBatch now l nodeID = Some (Ok (key, data)) → ∃ r, last l = Some r ∧ key = ChunkKey (Revision r).
Proof using.
  rewrite /MarshalChunkBatch. destruct (last l) as [r|]; [|done]. case_match; [|done].
  intros [= <- _]. by exists r.
Qed.

(** Importing a file whose records continue the history of a database. *)
Lemma import_file clock (s : OS) key kind data l results db :
  os_objects s key = Some data → read_file kind data = Ok (file_record <$> l, results) →
  history (rows db ++ l) →
  DownloadAndImportFile clock s key kind db
  = (Ok results, set_rows (rows db ++ (stored_at clock <$> (file_record <$> l))) db).
Proof using CL L.
  intros Hobj Hread Hh.
  pose proof (os_Get_spec s key) as Hget. rewrite Hobj in Hget. destruct Hget as (etag & Hget & _).
  rewrite /DownloadAndImportFile Hget. rewrite /read_file in Hread.
  destruct (NewReader data (Some kind)) as [r|]; [|done].
  destruct (read_n _ r) as [[recs r']|] eqn:Hrd; [|done].
  destruct (Reader_Close r') as [res|] eqn:Hcl; [|done]. simplify_eq.
  rewrite (import_loop_read_n clock _ 0 r (file_record <$> l) r' db
             (set_rows (rows db ++ (stored_at clock <$> (file_record <$> l))) db) Hrd).
  - apply replicate_all_append. apply history_app_map; [apply same_links_file_record|done].
  - by rewrite Hcl.
Qed.

(** Importing a chunk that continues the history of a database. *)
Lemma import_chunk clock now l nodeID key data (s : OS) db :
  MarshalChunkBatch now l nodeID = Some (Ok (key, data)) → os_objects s key = Some data →
  history (rows db ++ l) → Z.of_nat (length l) ≤ int64_max →
  ∃ results, DownloadAndImportFile clock s key KIND_CHUNK db
    = (Ok results, set_rows (rows db ++ (stored_at clock <$> (file_record <$> l))) db).
Proof using CL L.
  intros Hm Hobj Hh Hlen.
  destruct (MarshalChunkBatch_reads _ _ _ _ _ Hlen Hm) as [results Hread].
  exists results. by eapply import_file.
Qed.

(** A durable chunk restores the records: once a batch that continues the
    history of a database has been flushed with [PutIfAbsent], importing the
    chunk succeeds and appends exactly those records, in order. *)
Theorem flush_import clock now l nodeID key data (s s' : OS) db :
  MarshalChunkBatch now l nodeID = Some (Ok (key, data)) → PutIfAbsent s key data = Ok s' →
  history (rows db ++ l) → Z.of_nat (length l) ≤ int64_max →
  ∃ results, DownloadAndImportFile clock s' key KIND_CHUNK db
    = (Ok results, set_rows (rows db ++ (stored_at clock <$> (file_record <$> l))) db).
Proof using CL L.
  intros Hm Hput. pose proof (PutIfAbsent_cases L s key data) as Hspec.
  rewrite Hput in Hspec. destruct Hspec as [Hobj _]. by apply import_chunk with now nodeID data.
Qed.
End durable.

Lemma flush_import_witness :
  ∃ key data s', @MarshalChunkBatch example_codec 7 (rows example_db) "n1" = Some (Ok (key, data)) ∧
    @PutIfAbsent MemoryStore (MemoryStore_ObjectStorage example_etag) ∅ key data = Ok s' ∧
    ∃ results, @DownloadAndImportFile example_codec MemoryStore
      (MemoryStore_ObjectStorage example_etag) id s' key KIND_CHUNK (mkDB [] [])
    = (Ok results, mkDB (stored_at id <$> (@file_record example_codec <$> rows example_db)) []).
Proof.
  destruct (@datafile_reads_back example_codec example_codec_laws 7 KIND_CHUNK "n1"
    COMPRESSION_NONE (rows example_db)) as (data & Hw & _); [discriminate|vm_compute; discriminate|].
  eexists (ChunkKey 4), data, (<[ChunkKey 4 := data]> ∅).
  assert (@MarshalChunkBatch example_codec 7 (rows example_db) "n1"
          = Some (Ok (ChunkKey 4, data))) as Hm.
  { rewrite /MarshalChunkBatch (_ : last (rows example_db) = Some (List.nth 3 (rows example_db) record_zero));
      [reflexivity|].
    rewrite /NewWriterWithSmartCompression.
    rewrite (_ : (4096 <? payload_size (rows example_db)) = false); [reflexivity|].
    rewrite Hw. reflexivity. }
  split; [exact Hm|]. split; [reflexivity|].
  apply (@flush_import example_codec example_codec_laws MemoryStore
           (MemoryStore_ObjectStorage example_etag) example_store_laws id 7 (rows example_db) "n1"
           (ChunkKey 4) data ∅); [exact Hm|reflexivity|exact example_db_history|vm_compute; discriminate].
Defined.
