(* ===== verification/Quorum.v ===== *)
(** * internal/primary: quorum strategy, receipts and the replica tracker *)

From S2P Require Import Prelude NodeState.

#[local] Open Scope Z_scope.

(** ** Strategy *)

Record txnStrategy := mkStrategy { useQuorum : bool; required : Z }.

Definition requiredReceipts (quorum nodeCount : Z) : Z :=
  if quorum =? 0 then 0
  else if 0 <? quorum then quorum
  else if nodeCount <=? 1 then 0
  else nodeCount `quot` 2.

Definition selectTxnStrategy (quorum nodeCount healthyForQuorum : Z) : txnStrategy :=
  let required := requiredReceipts quorum nodeCount in
  if (required <=? 0) || (healthyForQuorum <? required) then mkStrategy false 0
  else mkStrategy true required.

(** ** Receipt collector *)

Record receiptCollector := mkCollector {
  rc_revision : Z;
  rc_required : Z;
  rc_acked : gset string;
  rc_done : bool;
}.

Definition newReceiptCollector (revision required : Z) : receiptCollector :=
  mkCollector revision required ∅ false.

Definition collectReceipt (nodeID : string) (c : receiptCollector) : receiptCollector :=
  if rc_done c then c
  else
    let acked := {[nodeID]} ∪ rc_acked c in
    mkCollector (rc_revision c) (rc_required c) acked
      (rc_required c <=? Z.of_nat (size acked)).

(** ** Replica tracker *)

(** Health and primary state are kept as int32 codes. *)
Definition healthLoading : Z := 0.
Definition healthHealthy : Z := 1.
Definition healthDegraded : Z := 2.
Definition primaryReplica : Z := 0.
Definition primaryStarting : Z := 1.
Definition primaryActive : Z := 2.
Definition primaryDraining : Z := 3.

Record Replica := mkReplica {
  rp_NodeID : string;
  LastHeartbeat : Z;
  LastReceipt : Z;
  ReceiptCount : Z;
  rp_HealthState : Z;
  rp_PrimaryState : Z;
  rp_LatestRevision : Z;
}.

Definition Replica_Health (r : Replica) : HealthState :=
  if rp_HealthState r =? healthHealthy then HealthHealthy
  else if rp_HealthState r =? healthDegraded then HealthDegraded
  else HealthLoading.

Definition Replica_SetHealth (h : HealthState) (r : Replica) : Replica :=
  let code := match h with
              | HealthHealthy => healthHealthy
              | HealthDegraded => healthDegraded
              | HealthLoading => healthLoading
              end in
  mkReplica (rp_NodeID r) (LastHeartbeat r) (LastReceipt r) (ReceiptCount r) code
    (rp_PrimaryState r) (rp_LatestRevision r).

Definition Replica_Primary (r : Replica) : PrimaryState :=
  if rp_PrimaryState r =? primaryStarting then PrimaryStarting
  else if rp_PrimaryState r =? primaryActive then PrimaryActive
  else if rp_PrimaryState r =? primaryDraining then PrimaryDraining
  else PrimaryReplica.

Definition Replica_SetPrimary (p : PrimaryState) (r : Replica) : Replica :=
  let code := match p with
              | PrimaryStarting => primaryStarting
              | PrimaryActive => primaryActive
              | PrimaryDraining => primaryDraining
              | PrimaryReplica => primaryReplica
              end in
  mkReplica (rp_NodeID r) (LastHeartbeat r) (LastReceipt r) (ReceiptCount r) (rp_HealthState r)
    code (rp_LatestRevision r).

Definition set_LastHeartbeat (now : Z) (r : Replica) : Replica :=
  mkReplica (rp_NodeID r) now (LastReceipt r) (ReceiptCount r) (rp_HealthState r)
    (rp_PrimaryState r) (rp_LatestRevision r).

Definition set_LatestRevision (rev : Z) (r : Replica) : Replica :=
  mkReplica (rp_NodeID r) (LastHeartbeat r) (LastReceipt r) (ReceiptCount r) (rp_HealthState r)
    (rp_PrimaryState r) rev.

Definition count_receipt (now : Z) (r : Replica) : Replica :=
  mkReplica (rp_NodeID r) (LastHeartbeat r) now (wrap64 (ReceiptCount r + 1)) (rp_HealthState r)
    (rp_PrimaryState r) (rp_LatestRevision r).

Definition Replicas : Type := gmap string Replica.

Definition NewReplicas : Replicas := ∅.

Definition Replicas_Add (now : Z) (nodeID : string) (m : Replicas) : Replicas :=
  <[nodeID := mkReplica nodeID now 0 0 healthLoading primaryReplica 0]> m.

Definition Replicas_Remove (nodeID : string) (m : Replicas) : Replicas := delete nodeID m.

Definition Replicas_All (m : Replicas) : list Replica := (map_to_list m).*2.

Definition HealthyCount (m : Replicas) : Z :=
  Z.of_nat (length (filter (λ r, Replica_Health r = HealthHealthy) (Replicas_All m))).

Definition ReceiptedCount (m : Replicas) : Z :=
  Z.of_nat (length (filter (λ r, 0 < ReceiptCount r) (Replicas_All m))).

Definition HealthyForQuorumCount (m : Replicas) : Z :=
  Z.of_nat (length (filter (λ r, Replica_Health r = HealthHealthy ∧ ReceiptCount r ≠ 0)
                      (Replicas_All m))).

(** The boolean result says whether the Replica was found. *)
Definition UpdateHeartbeat (now : Z) (nodeID : string) (h : HealthState) (p : PrimaryState)
    (latestRevision : Z) (m : Replicas) : bool * Replicas :=
  match m !! nodeID with
  | None => (false, m)
  | Some e =>
      (true, <[nodeID := set_LatestRevision latestRevision
                           (Replica_SetPrimary p (Replica_SetHealth h (set_LastHeartbeat now e)))]> m)
  end.

Definition UpdateReceipt (now : Z) (nodeID : string) (h : HealthState) (p : PrimaryState)
    (latestRevision : Z) (m : Replicas) : bool * Replicas :=
  match m !! nodeID with
  | None => (false, m)
  | Some e =>
      (true, <[nodeID := count_receipt now
                           (set_LatestRevision latestRevision
                              (Replica_SetPrimary p (Replica_SetHealth h (set_LastHeartbeat now e))))]> m)
  end.

Definition Replicas_Reset (m : Replicas) : Replicas := ∅.

Definition unackedQuorumNodeIDs (all : list Replica) (c : receiptCollector) : list string :=
  rp_NodeID <$> filter (λ r, (rp_NodeID r ∉ rc_acked c) ∧
                             Replica_Health r = HealthHealthy ∧ ReceiptCount r ≠ 0) all.

(** Degrade the named Replicas that are still tracked. *)
Definition degrade_replicas (nodeIDs : list string) (m : Replicas) : Replicas :=
  foldl (λ m id, match m !! id with
                 | Some e => <[id := Replica_SetHealth HealthDegraded e]> m
                 | None => m
                 end) m nodeIDs.

(** [checkDegradation] at time [now]; durations are int64 nanoseconds. *)
Definition checkDegradation (now degradationCount heartbeatInterval : Z) (m : Replicas) : Replicas :=
  let deadline := wrap64 (degradationCount * heartbeatInterval) in
  (λ e, if decide (Replica_Health e = HealthDegraded) then e
        else if wrap64 (now - LastHeartbeat e) <? deadline then e
        else Replica_SetHealth HealthDegraded e) <$> m.

(** ** Theorems *)

(** A quorum commit always involves a strict majority: under majority
    quorum the required Receipts plus the Primary itself are more than half of
    the registered nodes, and a static quorum asks for exactly the configured
    number; the quorum path is chosen only when that many eligible Replicas
    exist. *)
Theorem selectTxnStrategy_majority quorum nodeCount healthy :
  0 ≤ nodeCount →
  let s := selectTxnStrategy quorum nodeCount healthy in
  if useQuorum s then
    0 < required s ≤ healthy ∧
    (quorum < 0 → nodeCount < 2 * (required s + 1)) ∧ (0 < quorum → required s = quorum)
  else
    quorum = 0 ∨ (quorum < 0 ∧ nodeCount ≤ 1) ∨ healthy < requiredReceipts quorum nodeCount.
Proof.
  intros Hn. rewrite /selectTxnStrategy /requiredReceipts.
  pose proof (Z.quot_rem' nodeCount 2). pose proof (Z.rem_bound_pos nodeCount 2 Hn ltac:(lia)).
  destruct (Z.eqb_spec quorum 0); simpl; [by left|].
  destruct (Z.ltb_spec 0 quorum).
  - destruct (Z.leb_spec quorum 0), (Z.ltb_spec healthy quorum); simpl; try lia; split_and!; lia.
  - destruct (Z.leb_spec nodeCount 1); simpl; [lia|].
    destruct (Z.leb_spec (nodeCount `quot` 2) 0), (Z.ltb_spec healthy (nodeCount `quot` 2)); simpl;
      try lia; split_and!; lia.
Qed.

Lemma selectTxnStrategy_majority_witness :
  useQuorum (selectTxnStrategy (-1) 5 3) = true ∧
  5 < 2 * (required (selectTxnStrategy (-1) 5 3) + 1).
Proof.
  split; [reflexivity|]. apply (selectTxnStrategy_majority (-1) 5 3); lia.
Defined.

Lemma collect_done l c :
  rc_done c = true → foldl (λ c n, collectReceipt n c) c l = c.
Proof.
  induction l as [|n l IH]; intros Hd; [done|]. simpl. rewrite {2}/collectReceipt Hd. by apply IH.
Qed.

(** The collector completes exactly when enough distinct Replicas have
    receipted: duplicates never count twice, and no Receipt is lost. *)
Theorem receiptCollector_complete rev req nodes :
  0 < req →
  rc_done (foldl (λ c n, collectReceipt n c) (newReceiptCollector rev req) nodes) = true ↔
  req ≤ Z.of_nat (size (list_to_set nodes : gset string)).
Proof.
  intros Hreq.
  assert (∀ c, rc_done c = false → rc_required c = req → Z.of_nat (size (rc_acked c)) < req →
    rc_done (foldl (λ c n, collectReceipt n c) c nodes) = true ↔
    req ≤ Z.of_nat (size (rc_acked c ∪ list_to_set nodes : gset string))) as Hgen.
  { induction nodes as [|n l IH]; intros c Hd Hr Hs; simpl.
    - rewrite right_id_L Hd. split; [done|]. lia.
    - assert (rc_acked c ∪ ({[n]} ∪ list_to_set l) = ({[n]} ∪ rc_acked c) ∪ list_to_set l) as ->
        by set_solver.
      rewrite {2}/collectReceipt Hd Hr.
      destruct (Z.leb_spec req (Z.of_nat (size ({[n]} ∪ rc_acked c)))) as [Hle|Hlt].
      + rewrite collect_done //=. split; [|done]. intros _. etrans; [exact Hle|].
        apply inj_le, subseteq_size. set_solver.
      + apply (IH (mkCollector _ _ _ _)); [done|done|done]. }
  rewrite Hgen //= ?left_id_L //.
Qed.

Lemma receiptCollector_complete_witness :
  rc_done (foldl (λ c n, collectReceipt n c) (newReceiptCollector 7 2) ["a"; "a"; "b"]) = true ∧
  rc_done (foldl (λ c n, collectReceipt n c) (newReceiptCollector 7 2) ["a"; "a"]) = false.
Proof.
  split; [|vm_compute; reflexivity].
  apply (receiptCollector_complete 7 2); [lia|vm_compute; discriminate].
Defined.

Lemma Replica_SetHealth_Health h r : Replica_Health (Replica_SetHealth h r) = h.
Proof. by destruct h. Qed.

(** After a degradation check every Replica that still counts toward
    quorum has sent a heartbeat within [degradationCount] intervals. *)
Theorem checkDegradation_fresh now count interval m id e :
  int64 (count * interval) → int64 (now - LastHeartbeat e) →
  checkDegradation now count interval m !! id = Some e →
  Replica_Health e = HealthHealthy →
  now - LastHeartbeat e < count * interval ∧ m !! id = Some e.
Proof.
  intros Hd Hnow Hl Hh. rewrite /checkDegradation lookup_fmap in Hl.
  apply fmap_Some in Hl as (x & Hm & He). case_decide as E1; [congruence|].
  destruct (Z.ltb_spec (wrap64 (now - LastHeartbeat x)) (wrap64 (count * interval))) as [Hlt|Hge].
  - subst. by rewrite (wrap64_id _ Hnow) (wrap64_id _ Hd) in Hlt.
  - subst e. by rewrite Replica_SetHealth_Health in Hh.
Qed.

Lemma checkDegradation_fresh_witness :
  ∃ e, checkDegradation 100 3 10 {["a" := mkReplica "a" 90 0 1 1 0 0]} !! "a" = Some e ∧
       100 - LastHeartbeat e < 3 * 10.
Proof.
  eexists. split; [vm_compute; reflexivity|].
  eapply (checkDegradation_fresh 100 3 10 {["a" := mkReplica "a" 90 0 1 1 0 0]} "a");
    [split; vm_compute; discriminate|split; vm_compute; discriminate|vm_compute; reflexivity
    |vm_compute; reflexivity].
Defined.
