(* ===== verification/ChunkBuffer.v ===== *)
(** * internal/primary/chunk_buffer.go: records awaiting object storage

    The buffer's lock is released while a flush uploads, so a flush is two
    steps, [flush_start] and [flush_finish], between which records may be
    appended.  Uploads can fail before or after the object was written. *)

From S2P Require Import Prelude NodeState Records Storage DataFile ExampleCodec DataStore.
From S2P Require Import DataStoreTheorems.

#[local] Open Scope Z_scope.

(** ** Uploads over an unreliable network *)

Section faults.
  Context {OS : Type} `{ObjectStorage OS}.

(** A create-only [PutIfMatch] with its outcome; after [PutFailAfter] the
    caller sees an error although the object may be there. *)
Definition faulty_create (f : put_fault) (s : OS) (key : string) (data : bytes)
    : res storage_err unit * OS :=
  match f with
  | PutFailBefore => (Err ErrIO, s)
  | PutOk =>
      match os_PutIfMatch s key data "" with
      | Ok s' => (Ok tt, s')
      | Err e => (Err e, s)
      end
  | PutFailAfter =>
      match os_PutIfMatch s key data "" with
      | Ok s' => (Err ErrIO, s')
      | Err e => (Err ErrIO, s)
      end
  end.

(** [PutIfAbsent] over [faulty_create]. *)
Definition faulty_put_absent (f : put_fault) (s : OS) (key : string) (data : bytes)
    : res put_err unit * OS :=
  match faulty_create f s key data with
  | (Ok _, s') => (Ok tt, s')
  | (Err ErrPrecondition, s') =>
      match os_Get s' key with
      | Err e => (Err (ReadExistingErr key e), s')
      | Ok (existing, _) =>
          if negb (bool_decide (existing = data)) then (Err (DifferentContents key), s')
          else (Ok tt, s')
      end
  | (Err e, s') => (Err (UploadErr key e), s')
  end.
End faults.

(** ** The buffer *)

Record chunkBuffer := mkChunkBuffer {
  cb_records : list record;
  cb_bytes : Z;
  cb_oldestAt : option Z;
  cb_flushing : bool;
  cb_thresholdBytes : Z;
  cb_thresholdAge : Z;
}.

Definition newChunkBuffer (thresholdSizeMB thresholdAgeMinutes : Z) : chunkBuffer :=
  mkChunkBuffer [] 0 None false
    (wrap64 (wrap64 (thresholdSizeMB * 1024) * 1024))
    (wrap64 (thresholdAgeMinutes * 60000000000)).

Definition cb_full (b : chunkBuffer) : bool :=
  (0 <? cb_thresholdBytes b) && (cb_thresholdBytes b <=? cb_bytes b).

(** The locked part of [bufferRecord]; [size] is the protobuf size. *)
Definition append_record (now size : Z) (rec : record) (b : chunkBuffer) : chunkBuffer :=
  mkChunkBuffer (cb_records b ++ [rec]) (wrap64 (cb_bytes b + size))
    (if bool_decide (cb_records b = []) then Some now else cb_oldestAt b)
    (cb_flushing b) (cb_thresholdBytes b) (cb_thresholdAge b).

(** First locked part of [flush]: the batch taken, [None] when there is none. *)
Definition flush_start (b : chunkBuffer) : option (list record * Z) * chunkBuffer :=
  if bool_decide (cb_records b = []) || cb_flushing b then (None, b)
  else
    (Some (cb_records b, cb_bytes b),
     mkChunkBuffer (cb_records b) (cb_bytes b) (cb_oldestAt b) true
       (cb_thresholdBytes b) (cb_thresholdAge b)).

(** Last locked part of [flush]. *)
Definition flush_finish (ok : bool) (batch : list record * Z) (b : chunkBuffer) : chunkBuffer :=
  if ok then
    let records := drop (length batch.1) (cb_records b) in
    let bytes := wrap64 (cb_bytes b - batch.2) in
    mkChunkBuffer records (if bytes <? 0 then 0 else bytes)
      (if bool_decide (records = []) then None else cb_oldestAt b) false
      (cb_thresholdBytes b) (cb_thresholdAge b)
  else
    mkChunkBuffer (cb_records b) (cb_bytes b) (cb_oldestAt b) false
      (cb_thresholdBytes b) (cb_thresholdAge b).

Inductive flush_err :=
| FlushMarshalErr (e : option df_err)
| FlushPutErr (e : put_err).

Section buffer.
  Context `{Codec} {OS : Type} `{ObjectStorage OS}.

(** The unlocked part: marshal and upload. *)
Definition upload_batch (now : Z) (f : put_fault) (leaderID : string) (records : list record)
    (s : OS) : res flush_err unit * OS :=
  match MarshalChunkBatch now records leaderID with
  | None => (Err (FlushMarshalErr None), s)
  | Some (Err e) => (Err (FlushMarshalErr (Some e)), s)
  | Some (Ok (key, data)) =>
      match faulty_put_absent f s key data with
      | (Ok _, s') => (Ok tt, s')
      | (Err e, s') => (Err (FlushPutErr e), s')
      end
  end.

(** [flush] with nothing in between. *)
Definition flush (now : Z) (f : put_fault) (leaderID : string) (b : chunkBuffer) (s : OS)
    : res flush_err unit * chunkBuffer * OS :=
  match flush_start b with
  | (None, b1) => (Ok tt, b1, s)
  | (Some batch, b1) =>
      match upload_batch now f leaderID batch.1 s with
      | (Ok _, s') => (Ok tt, flush_finish true batch b1, s')
      | (Err e, s') => (Err e, flush_finish false batch b1, s')
      end
  end.

Definition transitionToDraining (st : State) : State :=
  if bool_decide (primary st ≠ PrimaryActive) then st else (SetPrimary PrimaryDraining st).2.

Definition bufferRecord (now size : Z) (f : put_fault) (leaderID : string) (rec : record)
    (b : chunkBuffer) (st : State) (s : OS) : res flush_err unit * chunkBuffer * State * OS :=
  let b1 := append_record now size rec b in
  if negb (cb_full b1) then (Ok tt, b1, st, s)
  else
    match flush now f leaderID b1 s with
    | (Ok _, b2, s') => (Ok tt, b2, st, s')
    | (Err e, b2, s') =>
        (Err e, b2, if cb_full b2 then transitionToDraining st else st, s')
    end.

(** One tick of [Run]: flush while Draining, or when the oldest record is too old. *)
Definition chunk_tick (now : Z) (f : put_fault) (leaderID : string) (b : chunkBuffer) (st : State)
    (s : OS) : chunkBuffer * OS :=
  if bool_decide (primary st = PrimaryDraining) then
    let '(_, b', s') := flush now f leaderID b s in (b', s')
  else
    let shouldFlush :=
      negb (bool_decide (cb_records b = [])) && (0 <? cb_thresholdAge b) &&
      match cb_oldestAt b with
      | None => false
      | Some t => cb_thresholdAge b <=? wrap64 (now - t)
      end in
    if shouldFlush then let '(_, b', s') := flush now f leaderID b s in (b', s') else (b, s).

(** ** Interleavings

    The buffer with a flush possibly under way, the store, and the records ever
    handed to the buffer. *)
Record cb_sys := mkCbSys {
  cs_buf : chunkBuffer;
  cs_store : OS;
  cs_inflight : option (list record * Z);
  cs_log : list record;
}.

Inductive cb_step (leaderID : string) : cb_sys → cb_sys → Prop :=
| cb_append now size rec c :
    cb_step leaderID c
      (mkCbSys (append_record now size rec (cs_buf c)) (cs_store c) (cs_inflight c)
         (cs_log c ++ [rec]))
| cb_start batch b' c :
    flush_start (cs_buf c) = (Some batch, b') →
    cb_step leaderID c (mkCbSys b' (cs_store c) (Some batch) (cs_log c))
| cb_finish now f batch r s' c :
    cs_inflight c = Some batch → upload_batch now f leaderID batch.1 (cs_store c) = (r, s') →
    cb_step leaderID c (mkCbSys (flush_finish (is_ok r) batch (cs_buf c)) s' None (cs_log c)).

Definition cb_init (mb age : Z) (s : OS) : cb_sys := mkCbSys (newChunkBuffer mb age) s None [].
End buffer.

(** ** Durability *)

Section durability.
  Context `{CL : CodecLaws} {OS : Type} `{HS : ObjectStorage OS} (L : ObjectStorageLaws OS).

(** The chunk of revision [rev] reads back the record. *)
Definition chunk_has (s : OS) (rev : Z) (r : record) : Prop :=
  ∃ data recs results,
    os_objects s (ChunkKey rev) = Some data ∧ read_file KIND_CHUNK data = Ok (recs, results) ∧
    file_record r ∈ recs.

(** Some chunk in the store reads back the record. *)
Definition durable_chunk (s : OS) (r : record) : Prop := ∃ rev, chunk_has s rev r.

(** Nothing stored is lost or altered. *)
Definition store_extends (s s' : OS) : Prop :=
  ∀ k d, os_objects s k = Some d → os_objects s' k = Some d.

Lemma store_extends_refl s : store_extends s s.
Proof. by intros k d. Qed.
#[local] Hint Resolve store_extends_refl : core.

Lemma faulty_create_spec f s key data :
  store_extends s (faulty_create f s key data).2 ∧
  match (faulty_create f s key data).1 with
  | Ok _ => os_objects (faulty_create f s key data).2 key = Some data
  | Err ErrPrecondition => (faulty_create f s key data).2 = s ∧ is_Some (os_objects s key)
  | Err _ => True
  end.
Proof using L.
  pose proof (os_PutIfMatch_create s key data) as Hp. rewrite /faulty_create.
  assert (∀ s', os_objects s key = None →
    (∀ k', os_objects s' k' = if decide (k' = key) then Some data else os_objects s k') →
    store_extends s s') as Hext.
  { intros s' Hn Hs k d Hk. rewrite Hs. case_decide; congruence. }
  destruct f; simpl; [|by auto|].
  - destruct (os_PutIfMatch s key data "") as [s'|e]; simpl.
    + destruct Hp as [Hn Hs]. split; [by apply Hext|]. by rewrite Hs decide_True.
    + destruct Hp as [-> ?]. by auto.
  - destruct (os_PutIfMatch s key data "") as [s'|e]; simpl; [|by auto].
    destruct Hp as [Hn Hs]. split; [by apply Hext|done].
Qed.

Lemma faulty_put_absent_spec f s key data :
  store_extends s (faulty_put_absent f s key data).2 ∧
  ((faulty_put_absent f s key data).1 = Ok tt →
   os_objects (faulty_put_absent f s key data).2 key = Some data).
Proof using L.
  rewrite /faulty_put_absent. pose proof (faulty_create_spec f s key data) as [Hext Hc].
  destruct (faulty_create f s key data) as [[[]|e] s']; simpl in *; [done|].
  destruct e; simpl; try done. destruct Hc as [-> [d Hd]].
  pose proof (os_Get_spec s key) as Hg. rewrite Hd in Hg. destruct Hg as (etag & -> & _).
  case_bool_decide as E; simpl; [|done]. by subst.
Qed.

Lemma upload_batch_spec now f leaderID records s :
  Z.of_nat (length records) ≤ int64_max →
  store_extends s (upload_batch now f leaderID records s).2 ∧
  (is_ok (upload_batch now f leaderID records s).1 = true →
   ∀ r, r ∈ records → durable_chunk (upload_batch now f leaderID records s).2 r).
Proof using CL L.
  intros Hlen. rewrite /upload_batch.
  destruct (MarshalChunkBatch now records leaderID) as [[[key data]|]|] eqn:Hm; simpl; [|by auto..].
  pose proof (faulty_put_absent_spec f s key data) as [Hext Hok].
  destruct (faulty_put_absent f s key data) as [[[]|e] s']; simpl in *; [|done].
  split; [done|]. intros _ r Hr.
  destruct (MarshalChunkBatch_reads _ _ _ _ _ Hlen Hm) as [results Hrd].
  destruct (MarshalChunkBatch_key _ _ _ _ _ Hm) as (l & _ & ->).
  eexists _, _, (file_record <$> records), _.
  split; [by apply Hok|]. split; [exact Hrd|]. by apply list_elem_of_fmap_2.
Qed.

(** A stored single-record chunk makes its record durable. *)
Lemma MarshalChunk_has now r leaderID key data s :
  MarshalChunk now r leaderID = Ok (key, data) → os_objects s key = Some data → chunk_has s (Revision r) r.
Proof using CL.
  rewrite /MarshalChunk. intros Hm Hs.
  destruct (datafile_reads_back now KIND_CHUNK leaderID COMPRESSION_NONE [r]) as (d & Hw & Hr); [done|done|].
  change (NewWriter now KIND_CHUNK 1 leaderID) with
    (NewWriterWithCompression now KIND_CHUNK 1 leaderID (Some COMPRESSION_NONE)) in Hm.
  rewrite /= in Hw. rewrite Hw in Hm. simplify_eq.
  exists data, [file_record r].
  eexists. split; [exact Hs|]. split; [exact Hr|]. by apply list_elem_of_singleton.
Qed.

Lemma MarshalChunk_durable now r leaderID key data s :
  MarshalChunk now r leaderID = Ok (key, data) → os_objects s key = Some data → durable_chunk s r.
Proof using CL. intros Hm Hs. exists (Revision r). by eapply MarshalChunk_has. Qed.

Lemma chunk_has_extends s s' rev r : store_extends s s' → chunk_has s rev r → chunk_has s' rev r.
Proof. intros He (d & recs & res & Hk & Hr & Hin). exists d, recs, res. auto. Qed.

Lemma durable_extends s s' r : store_extends s s' → durable_chunk s r → durable_chunk s' r.
Proof. intros He [rev Hr]. exists rev. by eapply chunk_has_extends. Qed.

Lemma store_extends_trans s1 s2 s3 : store_extends s1 s2 → store_extends s2 s3 → store_extends s1 s3.
Proof. intros H1 H2 k d Hk. by apply H2, H1. Qed.

(** A synchronous flush keeps every buffered record, in the buffer or in the store. *)
Lemma flush_keeps now f leaderID b s r :
  Z.of_nat (length (cb_records b)) ≤ int64_max → r ∈ cb_records b →
  r ∈ cb_records (flush now f leaderID b s).1.2 ∨ durable_chunk (flush now f leaderID b s).2 r.
Proof using CL L.
  intros Hlen Hr. rewrite /flush /flush_start. destruct (_ || _)%bool; [by left|]. simpl.
  pose proof (upload_batch_spec now f leaderID (cb_records b) s Hlen) as [_ Hok].
  destruct (upload_batch now f leaderID (cb_records b) s) as [[[]|e] s']; simpl in *; auto.
Qed.

Lemma bufferRecord_keeps now size f leaderID r b st s :
  Z.of_nat (length (cb_records b)) < int64_max →
  let out := bufferRecord now size f leaderID r b st s in
  r ∈ cb_records out.1.1.2 ∨ durable_chunk out.2 r.
Proof using CL L.
  intros Hlen out. assert (r ∈ cb_records (append_record now size r b)) as Hin.
  { apply elem_of_app. right. by apply list_elem_of_singleton. }
  pose proof (flush_keeps now f leaderID (append_record now size r b) s r) as Hk.
  rewrite /out /bufferRecord. destruct (negb _); [by left|].
  destruct (flush now f leaderID _ s) as [[[[]|e] b2] s']; simpl in *; apply Hk; try done;
    rewrite length_app /=; lia.
Qed.

(** What holds at every moment: the log is what has been flushed followed by the
    buffer, the flushed part is durable, and a batch under way heads the buffer. *)
Definition cb_inv (c : cb_sys) : Prop :=
  (∃ flushed, cs_log c = flushed ++ cb_records (cs_buf c) ∧
              ∀ r, r ∈ flushed → durable_chunk (cs_store c) r) ∧
  match cs_inflight c with
  | Some batch => cb_flushing (cs_buf c) = true ∧ batch.1 `prefix_of` cb_records (cs_buf c)
  | None => cb_flushing (cs_buf c) = false
  end.

Lemma cb_inv_step leaderID c c' :
  cb_step leaderID c c' → Z.of_nat (length (cs_log c)) ≤ int64_max → cb_inv c → cb_inv c'.
Proof using CL L.
  intros Hstep Hlen [(flushed & Hlog & Hdur) Hfl]. destruct Hstep as [now size rec c|batch b' c Hs|now f batch r s' c Hin Hup].
  - split; simpl.
    + exists flushed. by rewrite Hlog app_assoc.
    + destruct (cs_inflight c) as [batch|]; [|done]. destruct Hfl as [? Hp].
      split; [done|]. by apply prefix_app_r.
  - rewrite /flush_start in Hs. destruct (_ || _)%bool; [done|]. simplify_eq.
    split; simpl; [by exists flushed|done].
  - rewrite Hin in Hfl. destruct Hfl as [_ [rest Hp]].
    assert (Z.of_nat (length batch.1) ≤ int64_max) as Hb.
    { rewrite Hlog length_app Hp length_app in Hlen. lia. }
    pose proof (upload_batch_spec now f leaderID batch.1 (cs_store c) Hb) as [Hext Hok].
    rewrite Hup /= in Hext Hok. split; [|by destruct r; simpl; rewrite /flush_finish].
    destruct r as [[]|e]; simpl.
    + exists (flushed ++ batch.1). rewrite Hlog Hp drop_app_length app_assoc. split; [done|].
      intros x. rewrite elem_of_app. intros [Hx|Hx]; [|by apply Hok].
      eapply durable_extends; [exact Hext|by apply Hdur].
    + exists flushed. split; [done|]. intros x Hx. eapply durable_extends; [exact Hext|by apply Hdur].
Qed.

Lemma cb_log_grows leaderID c c' : cb_step leaderID c c' → (length (cs_log c) ≤ length (cs_log c'))%nat.
Proof. destruct 1; simpl; rewrite ?length_app; lia. Qed.

(** C10: no committed record is lost on its way to object storage: under every
    interleaving of appends with flushes that may fail before or after the
    object is written, the records ever buffered are, in order, those already
    durable in a chunk followed by those still in the buffer. *)
Theorem chunkBuffer_no_loss leaderID mb age s c :
  rtc (cb_step leaderID) (cb_init mb age s) c → Z.of_nat (length (cs_log c)) ≤ int64_max →
  ∃ flushed, cs_log c = flushed ++ cb_records (cs_buf c) ∧
             ∀ r, r ∈ flushed → durable_chunk (cs_store c) r.
Proof using CL L.
  intros Hr Hlen.
  enough (cb_inv c) as [? _] by done.
  revert c Hr Hlen. apply (rtc_ind_r (λ c, Z.of_nat (length (cs_log c)) ≤ int64_max → cb_inv c)).
  - intros _. split; [|done]. exists []. split; [done|]. intros r Hr. by apply elem_of_nil in Hr.
  - intros y z _ Hs IH Hlen. pose proof (cb_log_grows _ _ _ Hs).
    eapply cb_inv_step; [exact Hs|lia|apply IH; lia].
Qed.
End durability.

(** The buffer on a concrete run: append, start a flush, append again, finish. *)
Lemma chunkBuffer_no_loss_witness :
  ∃ c, rtc (@cb_step example_codec MemoryStore (MemoryStore_ObjectStorage example_etag) "n1")
         (cb_init 1 1 (∅ : MemoryStore)) c ∧
    cs_log c = [set_Revision 1 record_zero; set_Revision 2 record_zero] ∧
    ∃ flushed, cs_log c = flushed ++ cb_records (cs_buf c) ∧
      ∀ r, r ∈ flushed → @durable_chunk example_codec MemoryStore
                           (MemoryStore_ObjectStorage example_etag) example_store_laws (cs_store c) r.
Proof.
  eassert (rtc (@cb_step example_codec MemoryStore (MemoryStore_ObjectStorage example_etag) "n1")
    (cb_init 1 1 (∅ : MemoryStore)) _) as Hrun.
  { eapply rtc_l; [apply (cb_append "n1" 5 3 (set_Revision 1 record_zero))|].
    eapply rtc_l; [eapply (cb_start "n1"); reflexivity|].
    eapply rtc_l; [apply (cb_append "n1" 6 3 (set_Revision 2 record_zero))|].
    eapply rtc_l; [eapply (cb_finish "n1" 7 PutFailBefore); reflexivity|].
    apply rtc_refl. }
  eexists. split; [exact Hrun|]. split; [reflexivity|].
  apply (@chunkBuffer_no_loss example_codec example_codec_laws MemoryStore
           (MemoryStore_ObjectStorage example_etag) example_store_laws "n1" 1 1 ∅ _ Hrun).
  vm_compute. discriminate.
Defined.
