(* ===== verification/FlushLoop.v ===== *)
(** * internal/primary/chunk_buffer.go: the flush loop in time

    [Run] looks at the buffer every 100 ms.  Here the interleavings of
    ChunkBuffer carry the clock and the time each record was handed to the
    buffer, which bounds how long a committed record can be missing from object
    storage. *)

From S2P Require Import Prelude NodeState Records Storage DataFile ExampleCodec DataStore.
From S2P Require Import DataStoreTheorems ChunkBuffer.

#[local] Open Scope Z_scope.

Section loop.
  Context `{CL : CodecLaws} {OS : Type} `{HS : ObjectStorage OS} (L : ObjectStorageLaws OS).

(** ** The loop *)

(** [Run] until it is cancelled: before each tick transactions, here a function
    on the buffer, the Primary's state and the store, have done their part. *)
Record flush_tick := mkFlushTick {
  ft_meanwhile : chunkBuffer * State * OS → chunkBuffer * State * OS;
  ft_now : Z;
  ft_fault : put_fault;
}.

Definition chunkBuffer_Run (leaderID : string) (ticks : list flush_tick) (x : chunkBuffer * State * OS)
    : chunkBuffer * State * OS :=
  foldl (λ x t,
    let '(b, st, s) := ft_meanwhile t x in
    let '(b', s') := chunk_tick (ft_now t) (ft_fault t) leaderID b st s in (b', st, s')) x ticks.

(** ** The buffer and the clock *)

(** [tm_at] holds, for each record of the log, when it was appended. *)
Record timed := mkTimed { tm_sys : cb_sys (OS := OS); tm_now : Z; tm_at : list Z }.

Inductive timed_step (leaderID : string) : timed → timed → Prop :=
| ts_append now size rec c at_ t :
    t ≤ now →
    timed_step leaderID (mkTimed c t at_)
      (mkTimed (mkCbSys (append_record now size rec (cs_buf c)) (cs_store c) (cs_inflight c) (cs_log c ++ [rec]))
         now (at_ ++ [now]))
| ts_start now batch b' c at_ t :
    t ≤ now → flush_start (cs_buf c) = (Some batch, b') →
    timed_step leaderID (mkTimed c t at_) (mkTimed (mkCbSys b' (cs_store c) (Some batch) (cs_log c)) now at_)
| ts_finish now f batch r s' c at_ t :
    t ≤ now → cs_inflight c = Some batch → upload_batch now f leaderID batch.1 (cs_store c) = (r, s') →
    timed_step leaderID (mkTimed c t at_)
      (mkTimed (mkCbSys (flush_finish (is_ok r) batch (cs_buf c)) s' None (cs_log c)) now at_).

Definition timed_init (mb age : Z) (s : OS) : timed := mkTimed (cb_init mb age s) 0 [].

(** The age the loop measures is never less than that of any buffered record. *)
Definition timed_inv (c : timed) : Prop :=
  let b := cs_buf (tm_sys c) in
  cb_inv L (tm_sys c) ∧ length (tm_at c) = length (cs_log (tm_sys c)) ∧ 0 ≤ tm_now c ∧
  match cb_oldestAt b with
  | None => cb_records b = []
  | Some o =>
      0 ≤ o ≤ tm_now c ∧
      Forall (λ a, o ≤ a) (drop (length (cs_log (tm_sys c)) - length (cb_records b)) (tm_at c))
  end.

Lemma timed_cb_step leaderID c c' : timed_step leaderID c c' → cb_step leaderID (tm_sys c) (tm_sys c').
Proof using Type. destruct 1; by econstructor. Qed.

Lemma Forall_drop_more {A} (P : A → Prop) (l : list A) (k k' : nat) :
  (k ≤ k')%nat → Forall P (drop k l) → Forall P (drop k' l).
Proof using Type. intros Hk Hl. replace k' with (k + (k' - k))%nat by lia. rewrite -drop_drop. by apply Forall_drop. Qed.

Lemma timed_inv_step leaderID c c' :
  timed_step leaderID c c' → Z.of_nat (length (cs_log (tm_sys c))) ≤ int64_max → timed_inv c → timed_inv c'.
Proof using CL.
  intros Hs Hlen (Hcb & Hat & Ht & Ho). pose proof (timed_cb_step _ _ _ Hs) as Hs'.
  assert (cb_inv L (tm_sys c')) as Hcb' by (by eapply cb_inv_step). clear Hs'.
  assert (length (cb_records (cs_buf (tm_sys c))) ≤ length (cs_log (tm_sys c)))%nat as Hle.
  { destruct Hcb as [(fl & -> & _) _]. rewrite length_app. lia. }
  destruct Hs as [now size rec c at_ t Hn|now batch b' c at_ t Hn Hs|now f batch r s' c at_ t Hn Hin Hup];
    rewrite /timed_inv; cbn [tm_sys tm_at tm_now cs_log cs_buf] in *; (split; [done|]); (split; [rewrite ?length_app; cbn; lia|]);
    (split; [lia|]).
  - cbn. rewrite !length_app /=.
    replace (length (cs_log c) + 1 - (length (cb_records (cs_buf c)) + 1))%nat
      with (length (cs_log c) - length (cb_records (cs_buf c)))%nat by lia.
    rewrite drop_app_le; [lia|]. case_bool_decide as E.
    + split; [lia|]. rewrite E /= Nat.sub_0_r -Hat drop_all. by repeat constructor.
    + destruct (cb_oldestAt (cs_buf c)) as [o|]; [|done]. destruct Ho as [Hr Hf]. split; [lia|].
      apply Forall_app. split; [done|]. repeat constructor. lia.
  - rewrite /flush_start in Hs. destruct (_ || _)%bool; [done|]. simplify_eq. cbn.
    destruct (cb_oldestAt (cs_buf c)); [|done]. destruct Ho. split; [lia|done].
  - rewrite /flush_finish. destruct (is_ok r); cbn; [case_bool_decide; [done|]|];
      (destruct (cb_oldestAt (cs_buf c)); [|by rewrite ?Ho ?drop_nil]); destruct Ho as [? Hf]; (split; [lia|]); [|done].
    rewrite length_drop. eapply Forall_drop_more; [|exact Hf]. lia.
Qed.

Lemma timed_reachable leaderID mb age s c :
  rtc (timed_step leaderID) (timed_init mb age s) c →
  Z.of_nat (length (cs_log (tm_sys c))) ≤ int64_max → timed_inv c.
Proof using CL.
  revert c. apply (rtc_ind_r (λ c, Z.of_nat (length (cs_log (tm_sys c))) ≤ int64_max → timed_inv c)).
  - intros _. split; [|done]. split; [|done]. exists []. split; [done|]. intros r Hr. by apply elem_of_nil in Hr.
  - intros y z _ Hs IH Hlen. pose proof (cb_log_grows _ _ _ (timed_cb_step _ _ _ Hs)).
    eapply timed_inv_step; [exact Hs|lia|apply IH; lia].
Qed.

(** ** A flush with a working store *)

Lemma upload_batch_works now leaderID records (s : OS) r :
  Z.of_nat (length records) ≤ int64_max → last records = Some r → os_objects s (ChunkKey (Revision r)) = None →
  (upload_batch now PutOk leaderID records s).1 = Ok tt.
Proof using CL L.
  intros Hlen Hlast Hfree. destruct (MarshalChunkBatch_writes now records leaderID r Hlen Hlast) as [data Hm].
  rewrite /upload_batch Hm /faulty_put_absent /faulty_create.
  pose proof (os_PutIfMatch_create s (ChunkKey (Revision r)) data) as Hp.
  destruct (os_PutIfMatch s _ data "") as [s'|e]; [done|]. destruct Hp as [_ [d Hd]]. congruence.
Qed.

Lemma flush_works now leaderID b (s : OS) :
  Z.of_nat (length (cb_records b)) ≤ int64_max → cb_flushing b = false →
  (∀ r, last (cb_records b) = Some r → os_objects s (ChunkKey (Revision r)) = None) →
  ∀ r, r ∈ cb_records b → durable_chunk L (flush now PutOk leaderID b s).2 r.
Proof using CL.
  intros Hlen Hfl Hfree r Hr. rewrite /flush /flush_start Hfl orb_false_r.
  rewrite bool_decide_eq_false_2; [by intros E; rewrite E in Hr; apply elem_of_nil in Hr|].
  destruct (last (cb_records b)) as [z|] eqn:El; [|apply last_None in El; rewrite El in Hr; by apply elem_of_nil in Hr].
  pose proof (upload_batch_works now leaderID (cb_records b) s z Hlen El (Hfree z eq_refl)) as Hok.
  pose proof (upload_batch_spec L now PutOk leaderID (cb_records b) s Hlen) as [_ Hd]. cbn [fst snd].
  destruct (upload_batch now PutOk leaderID (cb_records b) s) as [[[]|e] s']; [|done]. by apply Hd.
Qed.

Lemma chunk_tick_extends now f leaderID b st (s : OS) :
  Z.of_nat (length (cb_records b)) ≤ int64_max → store_extends L s (chunk_tick now f leaderID b st s).2.
Proof using CL.
  intros Hlen.
  assert (store_extends L s (let '(_, b', s') := flush now f leaderID b s in (b', s')).2) as Hf.
  { rewrite /flush /flush_start. destruct (_ || _)%bool; [apply store_extends_refl|]. cbn [fst snd].
    pose proof (upload_batch_spec L now f leaderID (cb_records b) s Hlen) as [Hx _].
    by destruct (upload_batch now f leaderID (cb_records b) s) as [[[]|e] s']. }
  rewrite /chunk_tick. case_bool_decide; [done|]. destruct (_ && _)%bool; [done|apply store_extends_refl].
Qed.

(** One turn of the loop. *)
Lemma Run_tick leaderID now f b st (s : OS) :
  (chunkBuffer_Run leaderID [mkFlushTick Datatypes.id now f] (b, st, s)).2 = (chunk_tick now f leaderID b st s).2.
Proof using Type. cbn. by destruct (chunk_tick _ _ _ _ _ _). Qed.

End loop.


(** After a flush with appends beside it the age is still that of the flushed
    records, so the next flush comes early: here the second record is one
    nanosecond old when the loop stores it. *)
Lemma early_flush_after_append :
  let b0 := append_record 0 3 (set_Revision 1 record_zero) (newChunkBuffer 1 1) in
  let b1 := (flush_start b0).2 in
  let b2 := append_record 60000000000 3 (set_Revision 2 record_zero) b1 in
  let b3 := flush_finish true (cb_records b0, cb_bytes b0) b2 in
  cb_records b3 = [set_Revision 2 record_zero] ∧
  cb_records (@chunk_tick example_codec MemoryStore (MemoryStore_ObjectStorage example_etag) 60000000001 PutOk "n1"
                b3 NodeState.State_New ∅).1 = [].
Proof. by vm_compute. Qed.
