(* ===== verification/Primary.v ===== *)
(** * internal/primary: the Primary's write path, follow streams and activation

    [Server] is the state the Primary's goroutines share.  [leaderTxnGate] lets
    one write through at a time, so [LeaderTxn] is a function; what other
    goroutines do while it waits for Receipts is the list of events it is given.
    Network and disk outcomes are in its environment. *)

From S2P Require Import Prelude NodeState Records LocalDB RangeApi Storage DataFile DataStore.
From S2P Require Import Quorum ChunkBuffer.

#[local] Open Scope Z_scope.

(** ** Messages *)

Inductive PrimaryMessage :=
| MsgInitial (committedRevision compactionRevision : Z)
| MsgRecord (r : record)
| MsgCommit (rev : Z)
| MsgCompact (rev : Z).

(** A Receipt with its embedded heartbeat; revision 0 is a heartbeat only. *)
Record ReplicaMessage := mkReplicaMessage {
  rm_Revision : Z;
  rm_Heartbeat : option pb_NodeState;
}.

(** etcd transaction requests. *)
Inductive Compare_Target := COMPARE_VERSION | COMPARE_CREATE | COMPARE_MOD | COMPARE_VALUE | COMPARE_LEASE.
Inductive Compare_Result := COMPARE_EQUAL | COMPARE_GREATER | COMPARE_LESS | COMPARE_NOT_EQUAL.
#[export] Instance Compare_Target_eq_dec : EqDecision Compare_Target.
Proof. solve_decision. Defined.
#[export] Instance Compare_Result_eq_dec : EqDecision Compare_Result.
Proof. solve_decision. Defined.

Record Compare := mkCompare {
  cmp_Target : Compare_Target;
  cmp_Result : Compare_Result;
  cmp_Key : bytes;
  cmp_ModRevision : Z;
}.

Record PutRequest := mkPut { put_Key : bytes; put_Value : option bytes; put_Lease : Z; put_PrevKv : bool }.
Record DeleteRangeRequest := mkDelete { del_Key : bytes; del_RangeEnd : bytes; del_PrevKv : bool }.

Inductive RequestOp :=
| OpNone
| OpRange (r : RangeRequest)
| OpPut (p : PutRequest)
| OpDeleteRange (d : DeleteRangeRequest).

Record TxnRequest := mkTxn {
  txn_Compare : list Compare;
  txn_Success : list RequestOp;
  txn_Failure : list RequestOp;
}.

Inductive ResponseOp :=
| RespRange (r : RangeResponse)
| RespPut (revision : Z)
| RespDeleteRange (revision deleted : Z).

Record TxnResponse := mkTxnResponse {
  tr_Revision : Z;
  tr_Succeeded : bool;
  tr_Responses : list ResponseOp;
}.

Inductive parse_err := ParseInvalid (msg : string) | ParseUnsupported.

Inductive txn_err :=
| TxnNotActive (p : PrimaryState)
| TxnCtxDone
| TxnInvalid (e : parse_err)
| TxnBeginErr
| TxnRangeErr (e : range_err)
| TxnInsertErr (e : db_err)
| TxnUploadErr
| TxnCommitErr
| TxnQuorumNotMet.

(** ** Requests and responses *)

(** The operation getters answer nil for another operation. *)
Definition GetRequestPut (o : RequestOp) : option PutRequest :=
  match o with OpPut p => Some p | _ => None end.
Definition GetRequestDeleteRange (o : RequestOp) : option DeleteRangeRequest :=
  match o with OpDeleteRange d => Some d | _ => None end.
Definition GetRequestRange (o : RequestOp) : option RangeRequest :=
  match o with OpRange r => Some r | _ => None end.

(** Absent byte fields are empty lists. *)
Definition ParseTxnRequest (r : TxnRequest) : res parse_err record :=
  match txn_Compare r, txn_Success r with
  | [c], [op] =>
    if (1 <? Z.of_nat (length (txn_Failure r)))
       || negb (bool_decide (cmp_Target c = COMPARE_MOD))
       || negb (bool_decide (cmp_Result c = COMPARE_EQUAL))
    then Err (ParseInvalid "missing required fields")
    else
      let successPut := GetRequestPut op in
      let successDelete := GetRequestDeleteRange op in
      if match successPut with Some p => put_PrevKv p | None => false end
      then Err (ParseInvalid "prevKv not supported for success put operations")
      else if match successDelete with Some d => del_PrevKv d | None => false end
      then Err (ParseInvalid "prevKv not supported for success delete operations")
      else if match successPut with Some p => negb (bool_decide (cmp_Key c = put_Key p)) | None => false end
           || match successDelete with Some d => negb (bool_decide (cmp_Key c = del_Key d)) | None => false end
      then Err (ParseInvalid "key mismatch between compare and success operations")
      else
        let failure : res parse_err (option RangeRequest) :=
          match txn_Failure r with
          | [f] =>
              match GetRequestRange f with
              | None => Err (ParseInvalid "failure operation must contain a range request")
              | Some fr =>
                  if negb (bool_decide (rr_RangeEnd fr = []))
                  then Err (ParseInvalid "rangeEnd not supported for failure range operations")
                  else if negb (bool_decide (cmp_Key c = rr_Key fr))
                  then Err (ParseInvalid "key mismatch between compare and failure operations")
                  else Ok (Some fr)
              end
          | _ => Ok None
          end in
        match failure with
        | Err e => Err e
        | Ok failureRange =>
            match successPut, successDelete, failureRange with
            | Some p, None, fr =>
                if cmp_ModRevision c =? 0 then
                  Ok (mkRecord 0 (put_Key p) true false 0 0 0 (put_Lease p) 0 (put_Value p)
                        None None "" None 0)
                else if (0 <? cmp_ModRevision c) && bool_decide (is_Some fr) then
                  Ok (mkRecord 0 (put_Key p) false false 0 (cmp_ModRevision c) 0 (put_Lease p) 0
                        (put_Value p) None None "" None 0)
                else Err ParseUnsupported
            | None, Some d, Some _ =>
                if 0 <? cmp_ModRevision c then
                  Ok (mkRecord 0 (del_Key d) false true 0 (cmp_ModRevision c) 0 0 0 None
                        None None "" None 0)
                else Err ParseUnsupported
            | _, _, _ => Err ParseUnsupported
            end
        end
  | _, _ => Err (ParseInvalid "missing required fields")
  end.

Definition BuildTxnResponse (rec : option record) (rangeResp : option RangeResponse) : TxnResponse :=
  match rangeResp with
  | Some rr => mkTxnResponse (default 0 (rsp_Header rr)) false [RespRange rr]
  | None =>
      match rec with
      | Some r =>
          if Deleted r then mkTxnResponse (Revision r) true [RespDeleteRange (Revision r) 1]
          else mkTxnResponse (Revision r) true [RespPut (Revision r)]
      | None => mkTxnResponse 0 false []
      end
  end.

(** ** The server *)

Record config := mkConfig {
  cfg_NodeID : string;
  cfg_Quorum : Z;
  cfg_degradationCount : Z;
  cfg_heartbeatInterval : Z;
}.

Definition streamBufferSize : nat := 256.

(** One Follow stream: its identity, what waits in [sendCh], what has been sent
    to the Replica, and the message on whose failed send the send loop ended.
    A replaced session leaves the map; what it still sends goes to a stream the
    Replica has given up. *)
Record followSession := mkSession {
  fs_id : nat;
  fs_sendCh : list PrimaryMessage;
  fs_sent : list PrimaryMessage;
  fs_failed : option PrimaryMessage;
}.

Record Server (OS : Type) := mkServer {
  sv_state : State;
  sv_db : database;
  sv_store : OS;
  sv_next : Z;
  sv_replicas : Replicas;
  sv_streams : gmap string followSession;
  sv_buffer : chunkBuffer;
  sv_collector : option receiptCollector;
  sv_recovering : list record;
  sv_snapshotRequests : list (Z * Z);
}.
Arguments mkServer {OS}.
Arguments sv_state {OS}.
Arguments sv_db {OS}.
Arguments sv_store {OS}.
Arguments sv_next {OS}.
Arguments sv_replicas {OS}.
Arguments sv_streams {OS}.
Arguments sv_buffer {OS}.
Arguments sv_collector {OS}.
Arguments sv_recovering {OS}.
Arguments sv_snapshotRequests {OS}.

Section server.
  Context `{Codec} `{SqlLike} {OS : Type} `{ObjectStorage OS}.
  Context (record_size : record → Z).
  Implicit Types sv : Server OS.

Definition set_state (st : State) sv : Server OS :=
  mkServer st (sv_db sv) (sv_store sv) (sv_next sv) (sv_replicas sv) (sv_streams sv)
    (sv_buffer sv) (sv_collector sv) (sv_recovering sv) (sv_snapshotRequests sv).
Definition set_db (db : database) sv : Server OS :=
  mkServer (sv_state sv) db (sv_store sv) (sv_next sv) (sv_replicas sv) (sv_streams sv)
    (sv_buffer sv) (sv_collector sv) (sv_recovering sv) (sv_snapshotRequests sv).
Definition set_store (s : OS) sv : Server OS :=
  mkServer (sv_state sv) (sv_db sv) s (sv_next sv) (sv_replicas sv) (sv_streams sv)
    (sv_buffer sv) (sv_collector sv) (sv_recovering sv) (sv_snapshotRequests sv).
Definition set_next (n : Z) sv : Server OS :=
  mkServer (sv_state sv) (sv_db sv) (sv_store sv) n (sv_replicas sv) (sv_streams sv)
    (sv_buffer sv) (sv_collector sv) (sv_recovering sv) (sv_snapshotRequests sv).
Definition set_replicas (m : Replicas) sv : Server OS :=
  mkServer (sv_state sv) (sv_db sv) (sv_store sv) (sv_next sv) m (sv_streams sv)
    (sv_buffer sv) (sv_collector sv) (sv_recovering sv) (sv_snapshotRequests sv).
Definition set_streams (m : gmap string followSession) sv : Server OS :=
  mkServer (sv_state sv) (sv_db sv) (sv_store sv) (sv_next sv) (sv_replicas sv) m
    (sv_buffer sv) (sv_collector sv) (sv_recovering sv) (sv_snapshotRequests sv).
Definition set_buffer (b : chunkBuffer) sv : Server OS :=
  mkServer (sv_state sv) (sv_db sv) (sv_store sv) (sv_next sv) (sv_replicas sv) (sv_streams sv)
    b (sv_collector sv) (sv_recovering sv) (sv_snapshotRequests sv).
Definition set_collector (c : option receiptCollector) sv : Server OS :=
  mkServer (sv_state sv) (sv_db sv) (sv_store sv) (sv_next sv) (sv_replicas sv) (sv_streams sv)
    (sv_buffer sv) c (sv_recovering sv) (sv_snapshotRequests sv).
Definition set_recovering (l : list record) sv : Server OS :=
  mkServer (sv_state sv) (sv_db sv) (sv_store sv) (sv_next sv) (sv_replicas sv) (sv_streams sv)
    (sv_buffer sv) (sv_collector sv) l (sv_snapshotRequests sv).
Definition set_snapshotRequests (l : list (Z * Z)) sv : Server OS :=
  mkServer (sv_state sv) (sv_db sv) (sv_store sv) (sv_next sv) (sv_replicas sv) (sv_streams sv)
    (sv_buffer sv) (sv_collector sv) (sv_recovering sv) l.

Definition requirePrimary sv : res PrimaryState unit :=
  match primary (sv_state sv) with
  | PrimaryReplica => Err PrimaryReplica
  | _ => Ok tt
  end.

Definition requireActivePrimary sv : res PrimaryState unit :=
  if bool_decide (primary (sv_state sv) ≠ PrimaryActive) then Err (primary (sv_state sv)) else Ok tt.

Definition initializeRevisionCounter sv : Server OS :=
  set_next (wrap64 (LatestRevision (sv_db sv) + 1)) sv.

(** ** Follow streams *)

Definition addFollowStream (nodeID : string) (id : nat) sv : Server OS :=
  set_streams (<[nodeID := mkSession id [] [] None]> (sv_streams sv)) sv.

Definition removeFollowStream (nodeID : string) (id : nat) sv : Server OS :=
  match sv_streams sv !! nodeID with
  | Some current => if bool_decide (fs_id current = id) then set_streams (delete nodeID (sv_streams sv)) sv else sv
  | None => sv
  end.

(** A message goes to every session whose buffer has room. *)
Definition broadcastToFollowers (msg : PrimaryMessage) sv : Server OS :=
  set_streams
    ((λ s, if (length (fs_sendCh s) <? streamBufferSize)%nat
           then mkSession (fs_id s) (fs_sendCh s ++ [msg]) (fs_sent s) (fs_failed s) else s)
       <$> sv_streams sv) sv.

Definition resetFollowStreams sv : Server OS := set_streams ∅ sv.

Definition BroadcastRecord (r : record) sv : Server OS := broadcastToFollowers (MsgRecord r) sv.
Definition BroadcastCommit (rev : Z) sv : Server OS := broadcastToFollowers (MsgCommit rev) sv.
Definition BroadcastCompact (rev : Z) sv : Server OS := broadcastToFollowers (MsgCompact rev) sv.

(** [Follow] up to the registration of the session. *)
Definition Follow_register (now : Z) (nodeID : string) (id : nat) sv : Server OS :=
  match requirePrimary sv with
  | Err _ => sv
  | Ok _ => addFollowStream nodeID id (set_replicas (Replicas_Add now nodeID (sv_replicas sv)) sv)
  end.

Definition send_now (nodeID : string) (id : nat) (msg : PrimaryMessage) sv : Server OS :=
  match sv_streams sv !! nodeID with
  | Some s =>
      if bool_decide (fs_id s = id) then
        set_streams (<[nodeID := mkSession id (fs_sendCh s) (fs_sent s ++ [msg]) (fs_failed s)]>
                       (sv_streams sv)) sv
      else sv
  | None => sv
  end.

(** The initial message, sent before the send loop starts. *)
Definition Follow_initial (nodeID : string) (id : nat) sv : Server OS :=
  send_now nodeID id (MsgInitial (committed (sv_state sv)) (compaction (sv_state sv))) sv.

(** One iteration of [followSendLoop]; [ok] is whether the stream accepts the
    message.  The loop returns on the first failure. *)
Definition followSend (ok : bool) (nodeID : string) (id : nat) sv : Server OS :=
  match sv_streams sv !! nodeID with
  | Some s =>
      match fs_failed s, fs_sendCh s with
      | None, msg :: rest =>
          if bool_decide (fs_id s = id) then
            let s' := if ok then mkSession id rest (fs_sent s ++ [msg]) None
                      else mkSession id rest (fs_sent s) (Some msg) in
            set_streams (<[nodeID := s']> (sv_streams sv)) sv
          else sv
      | _, _ => sv
      end
  | None => sv
  end.

(** The deferred clean-up of [Follow]. *)
Definition Follow_close (nodeID : string) (id : nat) sv : Server OS :=
  let sv := removeFollowStream nodeID id sv in
  set_replicas (Replicas_Remove nodeID (sv_replicas sv)) sv.

Definition Server_collectReceipt (nodeID : string) (revision : Z) sv : Server OS :=
  match sv_collector sv with
  | None => sv
  | Some c =>
      if negb (rc_revision c =? revision) then sv
      else set_collector (Some (collectReceipt nodeID c)) sv
  end.

(** One message of [followRecvLoop] on the stream of [nodeID]; the boolean says
    whether the stream goes on. *)
Definition followRecv (now : Z) (nodeID : string) (msg : ReplicaMessage) sv : bool * Server OS :=
  match rm_Heartbeat msg with
  | None => (true, sv)
  | Some hb =>
      if negb (bool_decide (ns_NodeId hb = nodeID)) then (false, sv)
      else
        let h := HealthFromProto (ns_HealthState hb) in
        let p := PrimaryFromProto (ns_PrimaryState hb) in
        if 0 <? rm_Revision msg then
          let sv := set_replicas (UpdateReceipt now nodeID h p (ns_LatestRevision hb) (sv_replicas sv)).2 sv in
          (true, Server_collectReceipt nodeID (rm_Revision msg) sv)
        else
          (true, set_replicas (UpdateHeartbeat now nodeID h p (ns_LatestRevision hb) (sv_replicas sv)).2 sv)
  end.

Definition SendHeartbeat (now : Z) (req : pb_NodeState) sv : bool * Server OS :=
  match requirePrimary sv with
  | Err _ => (false, sv)
  | Ok _ =>
      if bool_decide (ns_NodeId req = "") then (false, sv)
      else
        let '(found, m) := UpdateHeartbeat now (ns_NodeId req) (HealthFromProto (ns_HealthState req))
                             (PrimaryFromProto (ns_PrimaryState req)) (ns_LatestRevision req)
                             (sv_replicas sv) in
        (found, set_replicas m sv)
  end.

(** What other goroutines do meanwhile. *)
Inductive event :=
| EvRecv (now : Z) (nodeID : string) (msg : ReplicaMessage)
| EvSendHeartbeat (now : Z) (req : pb_NodeState)
| EvDegradation (now : Z)
| EvFollowRegister (now : Z) (nodeID : string) (id : nat)
| EvFollowInitial (nodeID : string) (id : nat)
| EvFollowSend (ok : bool) (nodeID : string) (id : nat)
| EvFollowClose (nodeID : string) (id : nat)
| EvChunkTick (now : Z) (f : put_fault).

Context (cfg : config).

Definition handle_event (e : event) sv : Server OS :=
  match e with
  | EvRecv now nodeID msg => (followRecv now nodeID msg sv).2
  | EvSendHeartbeat now req => (SendHeartbeat now req sv).2
  | EvDegradation now =>
      set_replicas (checkDegradation now (cfg_degradationCount cfg) (cfg_heartbeatInterval cfg)
                      (sv_replicas sv)) sv
  | EvFollowRegister now nodeID id => Follow_register now nodeID id sv
  | EvFollowInitial nodeID id => Follow_initial nodeID id sv
  | EvFollowSend ok nodeID id => followSend ok nodeID id sv
  | EvFollowClose nodeID id => Follow_close nodeID id sv
  | EvChunkTick now f =>
      let '(b, s) := chunk_tick now f (cfg_NodeID cfg) (sv_buffer sv) (sv_state sv) (sv_store sv) in
      set_store s (set_buffer b sv)
  end.

Definition handle_events (es : list event) sv : Server OS := foldl (λ sv e, handle_event e sv) sv es.

(** ** Transactions *)

(** Clock readings and outcomes met by one [LeaderTxn]. *)
Record txn_env := mkEnv {
  te_ctxDone : bool;
  te_beginFails : bool;
  te_now : Z;
  te_marshalNow : Z;
  te_put1 : put_fault;
  te_put2 : put_fault;
  te_events : list event;
  te_commitFails : bool;
  te_bufferNow : Z;
  te_bufferPut : put_fault;
}.

(** [writeRecord]: create-only upload, retried once. *)
Definition writeRecord (env : txn_env) (r : record) sv : bool * Server OS :=
  match MarshalChunk (te_marshalNow env) r (cfg_NodeID cfg) with
  | Err _ => (false, sv)
  | Ok (key, data) =>
      match faulty_create (te_put1 env) (sv_store sv) key data with
      | (Ok _, s1) => (true, set_store s1 sv)
      | (Err _, s1) =>
          match faulty_create (te_put2 env) s1 key data with
          | (Ok _, s2) => (true, set_store s2 sv)
          | (Err _, s2) => (false, set_store s2 sv)
          end
      end
  end.

(** [writeRecordIfMissing] at time [now]. *)
Definition writeRecordIfMissing (now : Z) (f : put_fault) (r : record) sv : bool * Server OS :=
  match MarshalChunk now r (cfg_NodeID cfg) with
  | Err _ => (false, sv)
  | Ok (key, data) =>
      match faulty_put_absent f (sv_store sv) key data with
      | (Ok _, s) => (true, set_store s sv)
      | (Err _, s) => (false, set_store s sv)
      end
  end.

(** The requests handed to the snapshot worker, which a Primary has. *)
Definition checkAndCreateSnapshot (recordSize : Z) sv : Server OS :=
  if committed (sv_state sv) <=? 0 then sv
  else set_snapshotRequests (sv_snapshotRequests sv ++ [(committed (sv_state sv), recordSize)]) sv.

(** Leave Active for Draining and keep retrying the upload in the background. *)
Definition startObjectStorageRecovery (r : record) sv : Server OS :=
  let st := if bool_decide (primary (sv_state sv) = PrimaryActive)
            then (SetPrimary PrimaryDraining (sv_state sv)).2 else sv_state sv in
  set_recovering (sv_recovering sv ++ [r]) (set_state st sv).

(** One attempt of the recovery goroutine for [r]. *)
Definition recovery_attempt (now : Z) (f : put_fault) (r : record) sv : bool * Server OS :=
  match writeRecordIfMissing now f r sv with
  | (true, sv') =>
      (true, set_recovering (filter (λ x, x ≠ r) (sv_recovering sv'))
               (set_state (SetPrimary PrimaryReplica (sv_state sv')).2 sv'))
  | (false, sv') => (false, sv')
  end.

(** The transaction's uncommitted database is [tx]; dropping it rolls back. *)
Definition executeObjectStorageTxn (env : txn_env) (tx : database) (r : record) sv
    : res txn_err unit * Server OS :=
  match writeRecord env r sv with
  | (false, sv1) => (Err TxnUploadErr, startObjectStorageRecovery r sv1)
  | (true, sv1) =>
      if te_commitFails env then
        (Err TxnCommitErr, set_state (SetPrimary PrimaryDraining (sv_state sv1)).2 sv1)
      else
        let sv2 := set_next (wrap64 (sv_next sv1 + 1)) (set_db tx sv1) in
        let sv3 := BroadcastRecord r sv2 in
        let sv4 := set_state (SetCommitted (Revision r) (sv_state sv3)) sv3 in
        let sv5 := BroadcastCommit (Revision r) sv4 in
        (Ok tt, checkAndCreateSnapshot (record_size r) sv5)
  end.

(** The deferred [clearReceiptCollector] closes every branch.  The flush started
    in the background after a rollback is a later event. *)
Definition executeQuorumTxn (env : txn_env) (tx : database) (r : record) (strategy : txnStrategy) sv
    : res txn_err unit * Server OS :=
  let sv1 := set_collector (Some (newReceiptCollector (Revision r) (required strategy))) sv in
  let sv2 := BroadcastRecord r sv1 in
  let sv3 := handle_events (te_events env) sv2 in
  match sv_collector sv3 with
  | None => (Err TxnQuorumNotMet, sv3)
  | Some c =>
      if negb (rc_done c) then
        let missing := unackedQuorumNodeIDs (Replicas_All (sv_replicas sv3)) c in
        (Err TxnQuorumNotMet,
         set_collector None (set_replicas (degrade_replicas missing (sv_replicas sv3)) sv3))
      else if te_commitFails env then (Err TxnCommitErr, set_collector None sv3)
      else
        let sv4 := set_next (wrap64 (sv_next sv3 + 1)) (set_db tx sv3) in
        let sv5 := set_state (SetCommitted (Revision r) (sv_state sv4)) sv4 in
        let sv6 := BroadcastCommit (Revision r) sv5 in
        let '(_, b, st, s) := bufferRecord (te_bufferNow env) (record_size r) (te_bufferPut env)
                                (cfg_NodeID cfg) r (sv_buffer sv6) (sv_state sv6) (sv_store sv6) in
        let sv7 := set_store s (set_state st (set_buffer b sv6)) in
        (Ok tt, set_collector None (checkAndCreateSnapshot (record_size r) sv7))
  end.

(** The range request of the failure branch: only the key is set. *)
Definition failure_range (k : bytes) : RangeRequest :=
  mkRangeRequest k [] 0 0 SORT_NONE 0 false false false 0 0 0 0.

(** [entry] is the server as the call finds it, [sv] the server once the call
    holds [leaderTxnGate]: other transactions may have run in between. *)
Definition LeaderTxn (entry : Server OS) (env : txn_env) (r : TxnRequest) sv
    : res txn_err (option record * TxnResponse) * Server OS :=
  match requireActivePrimary entry with
  | Err p => (Err (TxnNotActive p), sv)
  | Ok _ =>
    if te_ctxDone env then (Err TxnCtxDone, sv)
    else
      match ParseTxnRequest r with
      | Err e => (Err (TxnInvalid e), sv)
      | Ok rec0 =>
        let rec := set_Revision (sv_next sv) (set_LeaderId (cfg_NodeID cfg) rec0) in
        let strategy := selectTxnStrategy (cfg_Quorum cfg) (NodeCount (cluster (sv_state sv)))
                          (HealthyForQuorumCount (sv_replicas sv)) in
        if te_beginFails env then (Err TxnBeginErr, sv)
        else
          match InsertRecord (te_now env) rec (sv_db sv) with
          | Err e =>
            if bool_decide (e = ErrCompareRevisionFailed) && (length (txn_Failure r) =? 1)%nat then
              match Range (sv_db sv) (failure_range (Key rec)) (committed (sv_state sv)) with
              | Err e => (Err (TxnRangeErr e), sv)
              | Ok rr => (Ok (None, BuildTxnResponse None (Some rr)), sv)
              end
            else (Err (TxnInsertErr e), sv)
          | Ok (inserted, tx) =>
            match (if useQuorum strategy then executeQuorumTxn env tx inserted strategy sv
                   else executeObjectStorageTxn env tx inserted sv) with
            | (Err e, sv') => (Err e, sv')
            | (Ok _, sv') => (Ok (Some inserted, BuildTxnResponse (Some inserted) None), sv')
            end
          end
      end
  end.
End server.
