(* ===== verification/PrimaryTheorems.v ===== *)
(** * Theorems on the Primary's write path *)

From S2P Require Import Prelude NodeState Records LocalDB History Examples LocalDBTheorems RangeApi.
From S2P Require Import Storage DataFile ExampleCodec DataStore Quorum ChunkBuffer Primary.

#[local] Open Scope Z_scope.

(** What an active Primary maintains: a well-formed history, the revision
    counter one past it, and everything in the database committed. *)
Definition primary_inv {OS} (sv : Server OS) : Prop :=
  history (rows (sv_db sv)) ∧ sv_next sv = LatestRevision (sv_db sv) + 1 ∧
  committed (sv_state sv) = LatestRevision (sv_db sv).

(** The nodes that receipted revision [rev] among the events. *)
Definition receipted (rev : Z) (es : list event) (n : string) : Prop :=
  ∃ now msg, EvRecv now n msg ∈ es ∧ rm_Revision msg = rev.

Section primary.
  Context `{HC : Codec} `{HL : SqlLike} {OS : Type} `{HS : ObjectStorage OS}.
  Context (record_size : record → Z) (cfg : config).
  Implicit Types sv : Server OS.

(** ** What the events of other goroutines leave alone *)

Definition same_core sv sv' : Prop :=
  sv_db sv' = sv_db sv ∧ sv_next sv' = sv_next sv ∧ sv_state sv' = sv_state sv.

Lemma handle_event_core e sv : same_core sv (handle_event cfg e sv).
Proof.
  destruct e; simpl.
  - rewrite /followRecv /Server_collectReceipt. by repeat case_match; simplify_eq/=.
  - rewrite /SendHeartbeat. by repeat case_match; simplify_eq/=.
  - done.
  - rewrite /Follow_register. by case_match.
  - rewrite /Follow_initial /send_now. by repeat case_match.
  - rewrite /followSend. by repeat case_match.
  - rewrite /Follow_close /removeFollowStream. by repeat case_match.
  - by destruct (chunk_tick _ _ _ _ _ _).
Qed.

Lemma handle_events_core es sv : same_core sv (handle_events cfg es sv).
Proof.
  revert sv; induction es as [|e es IH]; intros sv; [done|]. simpl.
  destruct (handle_event_core e sv) as (E1 & E2 & E3).
  destruct (IH (handle_event cfg e sv)) as (F1 & F2 & F3).
  rewrite /same_core. by rewrite F1 F2 F3.
Qed.

Lemma writeRecord_core env r sv : same_core sv (writeRecord cfg env r sv).2.
Proof. rewrite /writeRecord. by repeat case_match. Qed.

Lemma bufferRecord_committed now size f leader r b st (s : OS) :
  committed (bufferRecord now size f leader r b st s).1.2 = committed st.
Proof.
  rewrite /bufferRecord. destruct (negb _); [done|].
  destruct (flush now f leader _ s) as [[[[]|e] b2] s']; simpl; [done|].
  destruct (cb_full b2); [|done]. rewrite /transitionToDraining. case_bool_decide; [done|].
  by destruct (SetPrimary_fields PrimaryDraining st) as (_ & _ & _ & ? & _).
Qed.

Lemma checkAndCreateSnapshot_core n sv : same_core sv (checkAndCreateSnapshot n sv).
Proof. rewrite /checkAndCreateSnapshot. by case_match. Qed.

(** ** Both commit paths *)

(** A path either commits the record or leaves the store as it was. *)
Definition path_outcome (tx : database) (r : record) sv (out : res txn_err unit * Server OS) : Prop :=
  match out.1 with
  | Ok _ => sv_db out.2 = tx ∧ sv_next out.2 = wrap64 (sv_next sv + 1) ∧
            committed (sv_state out.2) = Revision r
  | Err _ => sv_db out.2 = sv_db sv ∧ sv_next out.2 = sv_next sv ∧
             committed (sv_state out.2) = committed (sv_state sv)
  end.

Lemma executeObjectStorageTxn_outcome env tx r sv :
  path_outcome tx r sv (executeObjectStorageTxn record_size cfg env tx r sv).
Proof.
  rewrite /executeObjectStorageTxn. pose proof (writeRecord_core env r sv) as (E1 & E2 & E3).
  destruct (writeRecord cfg env r sv) as [[] sv1]; simpl in *.
  - destruct (te_commitFails env); rewrite /path_outcome /=.
    + rewrite E1 E2. split; [done|split; [done|]].
      destruct (SetPrimary_fields PrimaryDraining (sv_state sv1)) as (_ & _ & _ & -> & _). by rewrite E3.
    + set (x := checkAndCreateSnapshot _ _).
      pose proof (checkAndCreateSnapshot_core (record_size r)
        (BroadcastCommit (Revision r) (set_state (SetCommitted (Revision r) (sv_state sv1))
          (BroadcastRecord r (set_next (wrap64 (sv_next sv1 + 1)) (set_db tx sv1)))))) as (F1 & F2 & F3).
      rewrite /x F1 F2 F3 /=. by rewrite E2.
  - rewrite /path_outcome /=. rewrite E1 E2. split; [done|split; [done|]].
    case_bool_decide; [|by rewrite E3].
    destruct (SetPrimary_fields PrimaryDraining (sv_state sv1)) as (_ & _ & _ & -> & _). by rewrite E3.
Qed.

Lemma executeQuorumTxn_outcome env tx r strategy sv :
  path_outcome tx r sv (executeQuorumTxn record_size cfg env tx r strategy sv).
Proof.
  rewrite /executeQuorumTxn.
  set (sv2 := BroadcastRecord r _). pose proof (handle_events_core (te_events env) sv2) as (E1 & E2 & E3).
  set (sv3 := handle_events cfg (te_events env) sv2) in *.
  destruct (sv_collector sv3) as [c|]; [|by rewrite /path_outcome /= E1 E2 E3].
  destruct (rc_done c); simpl; [|by rewrite /path_outcome /= E1 E2 E3].
  destruct (te_commitFails env); [by rewrite /path_outcome /= E1 E2 E3|].
  pose proof (bufferRecord_committed (te_bufferNow env) (record_size r) (te_bufferPut env)
    (cfg_NodeID cfg) r (sv_buffer sv3) (SetCommitted (Revision r) (sv_state sv3)) (sv_store sv3)) as Hb.
  destruct (bufferRecord _ _ _ _ r _ _ _) as [[[rr b] st] s]; simpl in Hb.
  rewrite /path_outcome. cbn [fst snd].
  destruct (checkAndCreateSnapshot_core (record_size r) (set_store s (set_state st (set_buffer b
    (BroadcastCommit (Revision r) (set_state (SetCommitted (Revision r) (sv_state sv3))
      (set_next (wrap64 (sv_next sv3 + 1)) (set_db tx sv3)))))))) as (F1 & F2 & F3).
  cbn [set_collector sv_db sv_next sv_state]. rewrite F1 F2 F3. cbn. rewrite E2 Hb. done.
Qed.

(** ** LeaderTxn *)

(** The record [LeaderTxn] hands to [InsertRecord]. *)
Definition stamped sv (rec0 : record) : record :=
  set_Revision (sv_next sv) (set_LeaderId (cfg_NodeID cfg) rec0).

Definition path_run env tx inserted sv : res txn_err unit * Server OS :=
  let strategy := selectTxnStrategy (cfg_Quorum cfg) (NodeCount (cluster (sv_state sv)))
                    (HealthyForQuorumCount (sv_replicas sv)) in
  if useQuorum strategy then executeQuorumTxn record_size cfg env tx inserted strategy sv
  else executeObjectStorageTxn record_size cfg env tx inserted sv.

Lemma path_run_outcome env tx r sv : path_outcome tx r sv (path_run env tx r sv).
Proof.
  rewrite /path_run. destruct (useQuorum _);
    [apply executeQuorumTxn_outcome|apply executeObjectStorageTxn_outcome].
Qed.

(** The ways a transaction can end. *)
Inductive txn_outcome env r sv : res txn_err (option record * TxnResponse) * Server OS → Prop :=
| outcome_refused e :
    (∀ ie, e ≠ TxnInsertErr ie) →
    txn_outcome env r sv (Err e, sv)
| outcome_insert_err rec0 e :
    ParseTxnRequest r = Ok rec0 →
    InsertRecord (te_now env) (stamped sv rec0) (sv_db sv) = Err e →
    bool_decide (e = ErrCompareRevisionFailed) && (length (txn_Failure r) =? 1)%nat = false →
    txn_outcome env r sv (Err (TxnInsertErr e), sv)
| outcome_compare_failed rec0 rr :
    ParseTxnRequest r = Ok rec0 →
    InsertRecord (te_now env) (stamped sv rec0) (sv_db sv) = Err ErrCompareRevisionFailed →
    Range (sv_db sv) (failure_range (Key rec0)) (committed (sv_state sv)) = Ok rr →
    length (txn_Failure r) = 1%nat →
    txn_outcome env r sv (Ok (None, BuildTxnResponse None (Some rr)), sv)
| outcome_path_err rec0 inserted tx e sv' :
    ParseTxnRequest r = Ok rec0 →
    InsertRecord (te_now env) (stamped sv rec0) (sv_db sv) = Ok (inserted, tx) →
    path_run env tx inserted sv = (Err e, sv') → (∀ ie, e ≠ TxnInsertErr ie) →
    txn_outcome env r sv (Err e, sv')
| outcome_committed rec0 inserted tx sv' :
    ParseTxnRequest r = Ok rec0 →
    InsertRecord (te_now env) (stamped sv rec0) (sv_db sv) = Ok (inserted, tx) →
    path_run env tx inserted sv = (Ok tt, sv') →
    txn_outcome env r sv (Ok (Some inserted, BuildTxnResponse (Some inserted) None), sv').

Lemma path_run_not_insert_err env tx r sv e sv' ie :
  path_run env tx r sv = (Err e, sv') → e ≠ TxnInsertErr ie.
Proof.
  rewrite /path_run /executeQuorumTxn /executeObjectStorageTxn. intros E.
  repeat case_match; simplify_eq/=; done.
Qed.

Lemma LeaderTxn_outcome entry env r sv :
  txn_outcome env r sv (LeaderTxn record_size cfg entry env r sv).
Proof.
  rewrite /LeaderTxn. destruct (requireActivePrimary entry) as [[]|p]; [|by apply outcome_refused].
  destruct (te_ctxDone env); [by apply outcome_refused|].
  destruct (ParseTxnRequest r) as [rec0|e] eqn:Hp; [|by apply outcome_refused].
  destruct (te_beginFails env); [by apply outcome_refused|].
  change (set_Revision (sv_next sv) (set_LeaderId (cfg_NodeID cfg) rec0)) with (stamped sv rec0).
  destruct (InsertRecord (te_now env) (stamped sv rec0) (sv_db sv)) as [[ins tx]|e] eqn:Hi.
  - fold (path_run env tx ins sv). destruct (path_run env tx ins sv) as [[[]|e] sv'] eqn:Hr.
    + by eapply outcome_committed.
    + eapply outcome_path_err; [done..|]. intros ie. by eapply path_run_not_insert_err.
  - destruct (bool_decide (e = ErrCompareRevisionFailed) && _)%bool eqn:Hc.
    + apply andb_true_iff in Hc as [->%bool_decide_eq_true Hlen%Nat.eqb_eq].
      destruct (Range _ _ _) as [rr|re] eqn:Hrange; [|by apply outcome_refused].
      by eapply outcome_compare_failed.
    + by eapply outcome_insert_err.
Qed.

(** A parsed request is valid for [InsertRecord] as soon as the request names a
    key and a non-negative lease and the node has an identity. *)
Lemma parsed_valid r rec0 sv :
  ParseTxnRequest r = Ok rec0 → Key rec0 ≠ [] → 0 ≤ Lease rec0 → cfg_NodeID cfg ≠ "" →
  0 < sv_next sv → invalid_for_insert (stamped sv rec0) = false.
Proof.
  rewrite /ParseTxnRequest. intros Hp Hk Hl Hid Hn.
  rewrite /invalid_for_insert /stamped /= !orb_false_iff.
  repeat (case_match; simplify_eq/=; try done); bool_to_prop; split_and!; try done;
    try (by apply bool_decide_eq_false_2); lia.
Qed.

Lemma insert_at_next env sv rec0 inserted tx :
  primary_inv sv → InsertRecord (te_now env) (stamped sv rec0) (sv_db sv) = Ok (inserted, tx) →
  history (rows tx) ∧ rows tx = rows (sv_db sv) ++ [inserted] ∧ Revision inserted = sv_next sv ∧
  LatestRevision tx = sv_next sv.
Proof.
  intros (Hh & Hn & Hc) Hi. assert (Revision (stamped sv rec0) = LatestRevision (sv_db sv) + 1) as Hrev by done.
  destruct (invalid_for_insert (stamped sv rec0)) eqn:Hv; [by rewrite /InsertRecord Hv in Hi|].
  rewrite InsertRecord_spec // in Hi. destruct (insert_verdict _ _) eqn:Hver; [done|]. simplify_eq.
  pose proof (inserted_row_history (te_now env) _ _ Hh Hv Hrev Hver) as Hh'.
  split; [done|]. split; [done|]. split; [done|].
  rewrite /LatestRevision /= /latest_revision_for_table last_snoc /=. done.
Qed.

Lemma LeaderTxn_keeps_inv entry env r sv :
  primary_inv sv → sv_next sv < int64_max →
  primary_inv (LeaderTxn record_size cfg entry env r sv).2.
Proof.
  intros Hinv Hmax. pose proof (LeaderTxn_outcome entry env r sv) as Hout.
  destruct Hout as [e He|rec0 e Hp Hi|rec0 rr Hp Hi Hr|rec0 ins tx e sv' Hp Hi Hr He|rec0 ins tx sv' Hp Hi Hr];
    cbn [snd]; [done..| |];
    pose proof (path_run_outcome env tx ins sv) as Ho; rewrite Hr /path_outcome /= in Ho;
    destruct Ho as (E1 & E2 & E3); rewrite /primary_inv E1 E2 E3; [done|].
  destruct (insert_at_next env sv rec0 ins tx Hinv Hi) as (Hh & Happ & Hrev & Hlat).
  rewrite Hlat Hrev. split; [done|]. split; [|done].
  destruct Hinv as (Hh0 & Hn & _). rewrite wrap64_id //.
  rewrite Hn /LatestRevision history_latest_table // in Hmax |- *.
  rewrite /int64 /int64_min /int64_max in Hmax |- *. lia.
Qed.

Lemma LeaderTxn_cases entry env r sv :
  primary_inv sv →
  match LeaderTxn record_size cfg entry env r sv with
  | (Ok (Some inserted, resp), sv') =>
      rows (sv_db sv') = rows (sv_db sv) ++ [inserted] ∧ Revision inserted = sv_next sv ∧
      committed (sv_state sv') = Revision inserted ∧
      tr_Succeeded resp = true ∧ tr_Revision resp = Revision inserted
  | (Ok (None, resp), sv') => sv' = sv ∧ tr_Succeeded resp = false
  | (Err _, sv') => sv_db sv' = sv_db sv ∧ sv_next sv' = sv_next sv ∧
                    committed (sv_state sv') = committed (sv_state sv)
  end.
Proof.
  intros Hinv. pose proof (LeaderTxn_outcome entry env r sv) as Hout.
  destruct Hout as [e He|rec0 e Hp Hi|rec0 rr Hp Hi Hr|rec0 ins tx e sv' Hp Hi Hr He|rec0 ins tx sv' Hp Hi Hr];
    try done;
    pose proof (path_run_outcome env tx ins sv) as Ho; rewrite Hr /path_outcome /= in Ho;
    destruct Ho as (E1 & E2 & E3); [done|].
  destruct (insert_at_next env sv rec0 ins tx Hinv Hi) as (_ & Happ & Hrev & _).
  rewrite E1 E3 Happ /=. split; [done|]. split; [done|]. split; [done|].
  by destruct (Deleted ins).
Qed.

(** C1: every transaction, whatever the network, the disk and the other
    goroutines do and whatever the role is by the time the gate opens, keeps
    the Primary's invariant and is atomic: it either appends exactly the
    acknowledged record at the next revision and commits it, or changes neither
    the database, the revision counter nor the committed revision. *)
Theorem LeaderTxn_atomic entry env r sv :
  primary_inv sv → sv_next sv < int64_max →
  let out := LeaderTxn record_size cfg entry env r sv in
  primary_inv out.2 ∧
  match out.1 with
  | Ok (Some inserted, resp) =>
      rows (sv_db out.2) = rows (sv_db sv) ++ [inserted] ∧ Revision inserted = sv_next sv ∧
      committed (sv_state out.2) = Revision inserted ∧
      tr_Succeeded resp = true ∧ tr_Revision resp = Revision inserted
  | Ok (None, resp) => out.2 = sv ∧ tr_Succeeded resp = false
  | Err _ => sv_db out.2 = sv_db sv ∧ sv_next out.2 = sv_next sv ∧
             committed (sv_state out.2) = committed (sv_state sv)
  end.
Proof.
  intros Hinv Hmax out. split; [by apply LeaderTxn_keeps_inv|].
  pose proof (LeaderTxn_cases entry env r sv Hinv) as Hc. rewrite /out.
  by destruct (LeaderTxn record_size cfg entry env r sv) as [[[[]]|] sv'].
Qed.

(** The write path implements the compare-and-set store: an acknowledged
    transaction is the contract's successful step on the parsed request, a
    compare failure answered with the current value is the contract's compare
    failure, and a rejected insert is the contract's error. *)
Theorem LeaderTxn_refines_kv entry env r sv rec0 :
  primary_inv sv → ParseTxnRequest r = Ok rec0 → Key rec0 ≠ [] → 0 ≤ Lease rec0 →
  cfg_NodeID cfg ≠ "" →
  let spec := kv_txn (sv_next sv) (Key rec0) (Created rec0) (Deleted rec0) (PrevRevision rec0)
                (Lease rec0) (kv_of_table (rows (sv_db sv))) in
  match LeaderTxn record_size cfg entry env r sv with
  | (Ok (Some _, _), sv') => spec = Ok (kv_of_table (rows (sv_db sv')))
  | (Ok (None, _), _) => spec = Err ErrCompareRevisionFailed
  | (Err (TxnInsertErr e), _) => spec = Err e
  | (Err _, sv') => kv_of_table (rows (sv_db sv')) = kv_of_table (rows (sv_db sv))
  end.
Proof.
  intros (Hh & Hn & Hc) Hp Hk Hl Hid spec.
  assert (invalid_for_insert (stamped sv rec0) = false) as Hv.
  { apply (parsed_valid r); [done..|]. rewrite Hn /LatestRevision history_latest_table //. lia. }
  pose proof (InsertRecord_kv (te_now env) (stamped sv rec0) (sv_db sv) Hh Hn Hv) as Hkv.
  change (kv_txn _ _ _ _ _ _ _) with spec in Hkv.
  pose proof (LeaderTxn_outcome entry env r sv) as Hout.
  destruct Hout as [e He|rec1 e Hp1 Hi|rec1 rr Hp1 Hi Hr|rec1 ins tx e sv' Hp1 Hi Hr He|rec1 ins tx sv' Hp1 Hi Hr];
    subst spec; try (rewrite Hp1 in Hp; injection Hp as ->; rewrite Hi in Hkv).
  - destruct e; try done. by destruct (He e).
  - done.
  - done.
  - pose proof (path_run_outcome env tx ins sv) as Ho. rewrite Hr /path_outcome /= in Ho.
    destruct Ho as (E1 & _ & _). destruct e; try by rewrite E1. by destruct (He e).
  - pose proof (path_run_outcome env tx ins sv) as Ho. rewrite Hr /path_outcome /= in Ho.
    destruct Ho as (-> & _ & _). done.
Qed.
End primary.

(** ** Durability before acknowledgement *)

Section durable.
  Context `{CL : CodecLaws} `{HL : SqlLike} {OS : Type} `{HS : ObjectStorage OS}.
  Context (L : ObjectStorageLaws OS).
  Context (record_size : record → Z) (cfg : config).
  Implicit Types sv : Server OS.

Lemma writeRecord_durable env r sv :
  (writeRecord cfg env r sv).1 = true →
  chunk_has L (sv_store (writeRecord cfg env r sv).2) (Revision r) r.
Proof using CL L.
  rewrite /writeRecord.
  destruct (MarshalChunk (te_marshalNow env) r (cfg_NodeID cfg)) as [[key data]|] eqn:Hm; [|done].
  pose proof (λ s, MarshalChunk_has L _ _ _ _ _ s Hm) as Hdur.
  pose proof (faulty_create_spec L (te_put1 env) (sv_store sv) key data) as [_ H1].
  destruct (faulty_create (te_put1 env) (sv_store sv) key data) as [[[]|e] s1]; simpl in *; [by auto|].
  pose proof (faulty_create_spec L (te_put2 env) s1 key data) as [_ H2].
  destruct (faulty_create (te_put2 env) s1 key data) as [[[]|e2] s2]; simpl in *; by auto.
Qed.

(** Every node a collector has counted sent a Receipt for its revision. *)
Definition collector_ok (rev req : Z) (es : list event) (c : receiptCollector) : Prop :=
  rc_revision c = rev ∧ rc_required c = req ∧ (∀ n, n ∈ rc_acked c → receipted rev es n) ∧
  (rc_done c = true → req ≤ Z.of_nat (size (rc_acked c))).

Lemma receipted_snoc rev es e n : receipted rev es n → receipted rev (es ++ [e]) n.
Proof. intros (now & m & Hin & Hr). exists now, m. split; [|done]. apply elem_of_app. by left. Qed.

Lemma collect_ok rev req es now node msg c :
  rm_Revision msg = rev → collector_ok rev req es c →
  collector_ok rev req (es ++ [EvRecv now node msg]) (collectReceipt node c).
Proof.
  intros Hm (Hrev & Hreq & Hack & Hdone). rewrite /collectReceipt /collector_ok.
  destruct (rc_done c) eqn:Hd; simpl.
  - split; [done|]. split; [done|]. split; [|by rewrite Hd]. intros n Hn. by apply receipted_snoc, Hack.
  - split; [done|]. split; [done|]. split.
    + intros n Hn. apply elem_of_union in Hn as [->%elem_of_singleton|Hn]; [|by apply receipted_snoc, Hack].
      exists now, msg. split; [|done]. apply elem_of_app. right. by apply list_elem_of_singleton.
    + intros Hle%Z.leb_le. by rewrite Hreq in Hle.
Qed.

Lemma handle_event_collector rev req es e sv c :
  sv_collector sv = Some c → collector_ok rev req es c →
  ∃ c', sv_collector (handle_event cfg e sv) = Some c' ∧ collector_ok rev req (es ++ [e]) c'.
Proof.
  intros Hc Hok. assert (collector_ok rev req (es ++ [e]) c) as Hsame.
  { destruct Hok as (? & ? & Hack & ?). split; [done|]. split; [done|]. split; [|done].
    intros n Hn. by apply receipted_snoc, Hack. }
  destruct e as [now node msg|now q|now|now node id|node id|node id|node id|now f]; simpl.
  - rewrite /followRecv /Server_collectReceipt.
    destruct (rm_Heartbeat msg) as [hb|]; [|by exists c]. destruct (negb _); [by exists c|].
    destruct (0 <? rm_Revision msg); simpl; [|by exists c]. rewrite Hc.
    destruct (Z.eqb_spec (rc_revision c) (rm_Revision msg)) as [E|]; simpl; [|by exists c].
    eexists. split; [done|]. apply collect_ok; [|done]. destruct Hok as (? & _). congruence.
  - rewrite /SendHeartbeat. exists c. split; [|done]. by repeat case_match; simplify_eq/=.
  - by exists c.
  - rewrite /Follow_register. exists c. split; [|done]. by case_match.
  - rewrite /Follow_initial /send_now. exists c. split; [|done]. by repeat case_match.
  - rewrite /followSend. exists c. split; [|done]. by repeat case_match.
  - rewrite /Follow_close /removeFollowStream. exists c. split; [|done]. by repeat case_match.
  - destruct (chunk_tick _ _ _ _ _ _). by exists c.
Qed.

Lemma handle_events_collector rev req es0 es sv c :
  sv_collector sv = Some c → collector_ok rev req es0 c →
  ∃ c', sv_collector (handle_events cfg es sv) = Some c' ∧ collector_ok rev req (es0 ++ es) c'.
Proof.
  revert es0 sv c; induction es as [|e es IH]; intros es0 sv c Hc Hok.
  { exists c. by rewrite app_nil_r. }
  destruct (handle_event_collector rev req es0 e sv c Hc Hok) as (c1 & Hc1 & Hok1).
  destruct (IH _ _ _ Hc1 Hok1) as (c2 & Hc2 & Hok2). exists c2. rewrite -app_assoc in Hok2. done.
Qed.

(** Nothing but the Primary's own transaction adds to the buffer. *)
Lemma handle_event_buffer e sv :
  (length (cb_records (sv_buffer (handle_event cfg e sv))) ≤ length (cb_records (sv_buffer sv)))%nat.
Proof.
  destruct e; simpl; try done.
  - rewrite /followRecv /Server_collectReceipt. by repeat case_match; simplify_eq/=.
  - rewrite /SendHeartbeat. by repeat case_match; simplify_eq/=.
  - rewrite /Follow_register. by case_match.
  - rewrite /Follow_initial /send_now. by repeat case_match.
  - rewrite /followSend. by repeat case_match.
  - rewrite /Follow_close /removeFollowStream. by repeat case_match.
  - rewrite /chunk_tick /flush /flush_start /flush_finish.
    repeat case_match; simplify_eq/=; rewrite ?length_drop; lia.
Qed.

Lemma handle_events_buffer es sv :
  (length (cb_records (sv_buffer (handle_events cfg es sv))) ≤ length (cb_records (sv_buffer sv)))%nat.
Proof.
  revert sv; induction es as [|e es IH]; intros sv; [done|]. simpl.
  etrans; [apply IH|apply handle_event_buffer].
Qed.

Lemma executeObjectStorageTxn_durable env tx r sv :
  (executeObjectStorageTxn record_size cfg env tx r sv).1 = Ok tt →
  chunk_has L (sv_store (executeObjectStorageTxn record_size cfg env tx r sv).2) (Revision r) r.
Proof using CL L.
  rewrite /executeObjectStorageTxn. pose proof (writeRecord_durable env r sv) as Hw.
  destruct (writeRecord cfg env r sv) as [[] sv1]; [|done].
  destruct (te_commitFails env); [done|]. simpl. intros _.
  rewrite /checkAndCreateSnapshot. case_match; by apply Hw.
Qed.

Lemma executeQuorumTxn_durable env tx r strategy sv :
  Z.of_nat (length (cb_records (sv_buffer sv))) < int64_max → 0 < required strategy →
  let out := executeQuorumTxn record_size cfg env tx r strategy sv in
  out.1 = Ok tt →
  (∃ N : gset string, required strategy ≤ Z.of_nat (size N) ∧
     ∀ n, n ∈ N → receipted (Revision r) (te_events env) n) ∧
  (r ∈ cb_records (sv_buffer out.2) ∨ durable_chunk L (sv_store out.2) r).
Proof using CL L.
  intros Hlen Hreq. rewrite /executeQuorumTxn.
  set (sv2 := BroadcastRecord r _).
  destruct (handle_events_collector (Revision r) (required strategy) [] (te_events env) sv2
    (newReceiptCollector (Revision r) (required strategy))) as (c & Hc & Hok); [done|by split_and!|].
  pose proof (handle_events_buffer (te_events env) sv2) as Hb.
  set (sv3 := handle_events cfg (te_events env) sv2) in *. rewrite Hc.
  destruct (rc_done c) eqn:Hd; [|done]. destruct (te_commitFails env); [done|].
  pose proof (bufferRecord_keeps L (te_bufferNow env) (record_size r) (te_bufferPut env) (cfg_NodeID cfg) r
    (sv_buffer sv3) (SetCommitted (Revision r) (sv_state sv3)) (sv_store sv3)) as Hk.
  cbn [negb] in *. cbn [sv_buffer sv_state sv_store BroadcastCommit broadcastToFollowers set_streams set_state set_next set_db].
  destruct (bufferRecord _ _ _ _ r _ _ _) as [[[rr b] st] s]. intros _. split.
  - destruct Hok as (_ & _ & Hack & Hsz). exists (rc_acked c). auto.
  - rewrite /checkAndCreateSnapshot. case_match; apply Hk; simpl in Hb; lia.
Qed.

(** The two ways a record is committed. *)
Lemma LeaderTxn_paths entry env r sv inserted resp :
  Z.of_nat (length (cb_records (sv_buffer sv))) < int64_max →
  let out := LeaderTxn record_size cfg entry env r sv in
  out.1 = Ok (Some inserted, resp) →
  let req := requiredReceipts (cfg_Quorum cfg) (NodeCount (cluster (sv_state sv))) in
  chunk_has L (sv_store out.2) (Revision inserted) inserted ∨
  (inserted ∈ cb_records (sv_buffer out.2) ∨ durable_chunk L (sv_store out.2) inserted) ∧
  useQuorum (selectTxnStrategy (cfg_Quorum cfg) (NodeCount (cluster (sv_state sv)))
    (HealthyForQuorumCount (sv_replicas sv))) = true ∧
  ∃ N : gset string, 0 < req ≤ Z.of_nat (size N) ∧
    ∀ n, n ∈ N → receipted (Revision inserted) (te_events env) n.
Proof using CL L.
  intros Hlen out. pose proof (LeaderTxn_outcome record_size cfg entry env r sv) as Hout.
  fold out in Hout.
  destruct Hout as [e He|rec0 e Hp Hi|rec0 rr Hp Hi Hr|rec0 ins tx e sv' Hp Hi Hr He|rec0 ins tx sv' Hp Hi Hr];
    [done..|]. intros [= -> _] req.
  rewrite /path_run in Hr. destruct (useQuorum _) eqn:Hq.
  - assert (0 < req ∧ required (selectTxnStrategy (cfg_Quorum cfg) (NodeCount (cluster (sv_state sv)))
      (HealthyForQuorumCount (sv_replicas sv))) = req) as [Hpos Heq].
    { rewrite /selectTxnStrategy -/req in Hq |- *.
      destruct (Z.leb_spec req 0); [done|]. by destruct (_ <? req). }
    pose proof (executeQuorumTxn_durable env tx inserted _ sv Hlen (eq_ind_r (Z.lt 0) Hpos Heq)) as Hd.
    rewrite Hr Heq in Hd. destruct (Hd eq_refl) as [(N & HN & Hack) Hdur]. right.
    split; [done|]. split; [done|]. by exists N.
  - left. pose proof (executeObjectStorageTxn_durable env tx inserted sv) as Hd.
    rewrite Hr in Hd. by apply Hd.
Qed.

(** C3: durability before acknowledgement: when a transaction succeeds, either
    its record reads back from a chunk in object storage, or it waits in the chunk
    buffer and as many distinct Replicas as the configuration requires sent a
    Receipt for its revision while the Primary waited. *)
Theorem LeaderTxn_durable entry env r sv inserted resp :
  Z.of_nat (length (cb_records (sv_buffer sv))) < int64_max →
  let out := LeaderTxn record_size cfg entry env r sv in
  out.1 = Ok (Some inserted, resp) →
  let req := requiredReceipts (cfg_Quorum cfg) (NodeCount (cluster (sv_state sv))) in
  durable_chunk L (sv_store out.2) inserted ∨
  inserted ∈ cb_records (sv_buffer out.2) ∧
  ∃ N : gset string, 0 < req ≤ Z.of_nat (size N) ∧
    ∀ n, n ∈ N → receipted (Revision inserted) (te_events env) n.
Proof using CL L.
  intros Hlen out Hok req.
  destruct (LeaderTxn_paths entry env r sv inserted resp Hlen Hok) as [Hc|([Hb|Hd] & _ & HN)].
  - left. by exists (Revision inserted).
  - by right.
  - by left.
Qed.
End durable.
