(* ===== verification/PrimaryExamples.v ===== *)
(** * The Primary on concrete runs

    Witnesses for the theorems on the write path, and runs that show where the
    code departs from its comments. *)

From S2P Require Import Prelude NodeState Records LocalDB History Examples RangeApi Storage.
From S2P Require Import DataFile ExampleCodec DataStore Quorum ChunkBuffer Primary PrimaryTheorems.

#[local] Open Scope Z_scope.
#[local] Existing Instance example_codec.
#[local] Existing Instance example_codec_laws.
#[local] Existing Instance ascii_like.
#[local] Hint Extern 0 (ObjectStorage MemoryStore) =>
  exact (MemoryStore_ObjectStorage example_etag) : typeclass_instances.

Definition example_cfg : config := mkConfig "n1" (-1) 3 10.
Definition example_size (_ : record) : Z := 100.

(** n1 is the active Primary of a three-node cluster; n2 follows it, healthy and
    with a Receipt to its name. *)
Definition example_primary_state : State :=
  mkState HealthHealthy ElectorFollower PrimaryActive
    (mkClusterState NodeInfo_zero NodeInfo_zero 3) 4 0 7.
Definition example_server : Server MemoryStore :=
  mkServer example_primary_state example_db (∅ : MemoryStore) 5
    {["n2" := mkReplica "n2" 0 0 1 healthHealthy primaryReplica 4]}
    {["n2" := mkSession 1 [] [] None]}
    (newChunkBuffer 4 5) None [] [].

Definition healthy_beat (n : string) (rev : Z) : pb_NodeState :=
  mk_pb_NodeState n HEALTH_HEALTHY ELECTOR_FOLLOWER PRIMARY_REPLICA rev 0.

Definition quiet_env (es : list event) : txn_env :=
  mkEnv false false 50 51 PutOk PutOk es false 52 PutOk.

(** Create /b with value [v], with or without a failure range. *)
Definition create_b (v : Byte.byte) (failure : list RequestOp) : TxnRequest :=
  mkTxn [mkCompare COMPARE_MOD COMPARE_EQUAL key_b 0] [OpPut (mkPut key_b (Some [v]) 0 false)] failure.

Definition receipt (n : string) (rev : Z) : ReplicaMessage :=
  mkReplicaMessage rev (Some (healthy_beat n rev)).

(** The record is sent to n2, which receipts it. *)
Definition quorum_env : txn_env :=
  quiet_env [EvFollowSend true "n2" 1; EvRecv 60 "n2" (receipt "n2" 5)].

Lemma example_server_inv : primary_inv example_server.
Proof. split; [apply example_db_history|]. split; vm_compute; reflexivity. Qed.

Definition run_txn (sv : Server MemoryStore) (env : txn_env) (r : TxnRequest) :=
  LeaderTxn example_size example_cfg sv env r sv.

Lemma LeaderTxn_atomic_witness :
  ∃ inserted resp, (run_txn example_server quorum_env (create_b Byte.x33 [])).1 = Ok (Some inserted, resp) ∧
    rows (sv_db (run_txn example_server quorum_env (create_b Byte.x33 [])).2)
    = rows example_db ++ [inserted].
Proof.
  pose proof (LeaderTxn_atomic example_size example_cfg example_server quorum_env (create_b Byte.x33 [])
    example_server example_server_inv eq_refl) as [_ H].
  fold (run_txn example_server quorum_env (create_b Byte.x33 [])) in H.
  eassert ((run_txn example_server quorum_env (create_b Byte.x33 [])).1 = Ok (Some _, _)) as E
    by (vm_compute; reflexivity).
  rewrite E in H. destruct H as [H _]. eexists _, _. split; [exact E|exact H].
Defined.

(** A delete of /a at its revision is the contract's delete. *)
Lemma LeaderTxn_refines_kv_witness :
  ∃ sv' : Server MemoryStore, kv_txn 5 key_a false true 3 0 (kv_of_table (rows example_db))
         = Ok (kv_of_table (rows (sv_db sv'))) ∧ LatestRevision (sv_db sv') = 5.
Proof.
  set (req := mkTxn [mkCompare COMPARE_MOD COMPARE_EQUAL key_a 3] [OpDeleteRange (mkDelete key_a [] false)]
                [OpRange (failure_range key_a)]).
  eassert (ParseTxnRequest req = Ok _) as Hp by reflexivity.
  pose proof (LeaderTxn_refines_kv example_size example_cfg example_server quorum_env req
    example_server _ example_server_inv Hp ltac:(done) ltac:(done) ltac:(done)) as H.
  fold (run_txn example_server quorum_env req) in H.
  eassert (run_txn example_server quorum_env req = (Ok (Some _, _), _)) as E
    by (vm_compute; reflexivity).
  rewrite E in H. eexists. split; [exact H|vm_compute; reflexivity].
Defined.

(** A quorum commit: n2 has receipted revision 5 and the record is buffered. *)
Lemma LeaderTxn_durable_witness :
  ∃ inserted resp, (run_txn example_server quorum_env (create_b Byte.x33 [])).1 = Ok (Some inserted, resp) ∧
    let out := run_txn example_server quorum_env (create_b Byte.x33 []) in
    (durable_chunk example_store_laws (sv_store out.2) inserted ∨
     inserted ∈ cb_records (sv_buffer out.2) ∧
     ∃ N : gset string, 0 < 1 ≤ Z.of_nat (size N) ∧
       ∀ n, n ∈ N → receipted (Revision inserted) (te_events quorum_env) n).
Proof.
  eassert ((run_txn example_server quorum_env (create_b Byte.x33 [])).1 = Ok (Some _, _)) as E
    by (vm_compute; reflexivity).
  eexists _, _. split; [exact E|].
  exact (LeaderTxn_durable example_store_laws example_size example_cfg example_server quorum_env
    (create_b Byte.x33 []) example_server _ _ eq_refl E).
Defined.

(** ** Departures from the comments *)

(** A create of an existing key whose transaction has a failure range is an
    error: the range is not executed. *)
Lemma create_existing_no_range :
  (run_txn example_server (quiet_env [])
     (mkTxn [mkCompare COMPARE_MOD COMPARE_EQUAL key_a 0] [OpPut (mkPut key_a None 0 false)]
        [OpRange (failure_range key_a)])).1
  = Err (TxnInsertErr ErrCreateKeyExists).
Proof. vm_compute. reflexivity. Qed.

(** First attempt: the record reaches n2, whose Receipt is slow; the quorum is
    not met.  n2's heartbeat then makes it eligible again. *)
Definition slow_first : Server MemoryStore :=
  handle_event example_cfg (EvSendHeartbeat 70 (healthy_beat "n2" 4))
    (run_txn example_server (quiet_env [EvFollowSend true "n2" 1]) (create_b Byte.x33 [])).2.

(** Second attempt, another value: the late Receipt of the first arrives. *)
Definition late_env : txn_env := quiet_env [EvRecv 80 "n2" (receipt "n2" 5)].

(** Receipts carry only the revision, which a rolled-back attempt leaves to the
    next: the late Receipt commits a record that has been sent to no Replica
    and is in no chunk. *)
Lemma late_receipt_commits :
  ∃ inserted resp sv', run_txn slow_first late_env (create_b Byte.x34 []) = (Ok (Some inserted, resp), sv') ∧
    Value inserted = Some [Byte.x34] ∧ sv_store sv' = ∅ ∧
    ∃ other, (fs_sent <$> sv_streams sv' !! "n2") = Some [MsgRecord other] ∧
      Value other = Some [Byte.x33].
Proof.
  eexists _, _, _. split; [vm_compute; reflexivity|]. split; [reflexivity|]. split; [reflexivity|].
  eexists. split; vm_compute; reflexivity.
Qed.

(** [LeaderTxn] reads the role before it waits at the gate: a transaction that
    was waiting when an upload failure moved the Primary to Draining commits
    under the revision whose upload is being recovered, and the recovery then
    never succeeds. *)
Definition upload_fails : txn_env :=
  mkEnv false false 50 51 PutFailBefore PutFailBefore [] false 52 PutOk.
Definition example_cfg0 : config := mkConfig "n1" 0 3 10.

Lemma draining_primary_commits :
  let sv1 := (LeaderTxn example_size example_cfg0 example_server upload_fails (create_b Byte.x33 [])
                example_server).2 in
  let out := LeaderTxn example_size example_cfg0 example_server (quiet_env []) (create_b Byte.x34 []) sv1 in
  primary (sv_state sv1) = PrimaryDraining ∧
  (∃ inserted resp, out.1 = Ok (Some inserted, resp) ∧ Revision inserted = 5) ∧
  (∃ failed, sv_recovering out.2 = [failed] ∧ Revision failed = 5 ∧
     (recovery_attempt example_cfg0 90 PutOk failed out.2).1 = false).
Proof.
  split; [vm_compute; reflexivity|]. split.
  - eexists _, _. split; [vm_compute; reflexivity|]. reflexivity.
  - eexists. split; [vm_compute; reflexivity|]. split; [reflexivity|]. vm_compute. reflexivity.
Qed.
