(* ===== verification/Preflight.v ===== *)
(** * internal/primary: activation, draining and resignation

    Preflight reconciles the database of a newly elected Primary with object
    storage before it takes writes; draining flushes what is buffered before it
    gives up leadership. *)

From S2P Require Import Prelude NodeState Records LocalDB RangeApi Storage DataFile DataStore.
From S2P Require Import Quorum ChunkBuffer Primary.

#[local] Open Scope Z_scope.

(** ** Preflight *)

(** Clock readings and outcomes met by one pass; [stop] says at which
    iteration of a loop the context is done or the role has changed. *)
Record preflight_env := mkPreflightEnv {
  pe_snapshotsFail : bool;
  pe_chunksFail : bool;
  pe_stopChunk : nat → bool;
  pe_downloadFails : nat → bool;
  pe_clock : Z → Z;
  pe_initialNow : Z;
  pe_stopRecord : nat → bool;
  pe_now : nat → Z;
  pe_put : nat → put_fault;
}.

Inductive preflight_err :=
| PreflightStopped
| PreflightSnapshotsErr
| PreflightBehindSnapshot (local snapshot : Z)
| PreflightChunksErr
| PreflightImportErr (key : string)
| PreflightInitialErr (e : db_err)
| PreflightUploadErr (revision : Z).

(** [initialRecordKey], "_netsy". *)
Definition initialRecordKey : bytes :=
  [Byte.x5f; Byte.x6e; Byte.x65; Byte.x74; Byte.x73; Byte.x79].

Section preflight.
  Context `{Codec} `{SqlLike} {OS : Type} `{ObjectStorage OS}.
  Context (cfg : config).
  Implicit Types sv : Server OS.

(** The loop over the chunks: the durable revision reached. *)
Fixpoint preflight_chunks (env : preflight_env) (i : nat) (chunks : list FileInfo)
    (latestLocal durable : Z) sv : res preflight_err Z * Server OS :=
  match chunks with
  | [] => (Ok durable, sv)
  | c :: chunks' =>
      if pe_stopChunk env i || negb (bool_decide (primary (sv_state sv) = PrimaryStarting))
      then (Err PreflightStopped, sv)
      else
        let durable := if durable <? fi_Revision c then fi_Revision c else durable in
        if fi_Revision c <=? latestLocal
        then preflight_chunks env (S i) chunks' latestLocal durable sv
        else if pe_downloadFails env i then (Err (PreflightImportErr (fi_Key c)), sv)
        else
          match DownloadAndImportFile (pe_clock env) (sv_store sv) (fi_Key c) KIND_CHUNK (sv_db sv) with
          | (Err _, db) => (Err (PreflightImportErr (fi_Key c)), set_db db sv)
          | (Ok _, db) => preflight_chunks env (S i) chunks' latestLocal durable (set_db db sv)
          end
  end.

(** The loop that uploads and broadcasts the records above the durable
    revision. *)
Fixpoint preflight_upload (env : preflight_env) (i : nat) (records : list record) sv
    : res preflight_err unit * Server OS :=
  match records with
  | [] => (Ok tt, sv)
  | r :: records' =>
      if pe_stopRecord env i || negb (bool_decide (primary (sv_state sv) = PrimaryStarting))
      then (Err PreflightStopped, sv)
      else
        match writeRecordIfMissing cfg (pe_now env i) (pe_put env i) r sv with
        | (false, sv') => (Err (PreflightUploadErr (Revision r)), sv')
        | (true, sv') => preflight_upload env (S i) records' (BroadcastRecord r sv')
        end
  end.

(** On an empty cluster the first Primary writes one record. *)
Definition initial_record : record :=
  mkRecord 1 initialRecordKey true false 0 0 0 0 0 (Some []) None None (cfg_NodeID cfg) None 0.

Definition preflight_initial (env : preflight_env) (latestLocal durable : Z) sv
    : res preflight_err unit * Server OS :=
  if (durable =? 0) && (latestLocal =? 0) then
    match InsertRecord (pe_initialNow env) initial_record (sv_db sv) with
    | Err e => (Err (PreflightInitialErr e), sv)
    | Ok (_, db) => (Ok tt, set_db db sv)
    end
  else (Ok tt, sv).

(** From the compaction revision to the broadcast of the committed revision. *)
Definition preflight_activate sv : Server OS :=
  let current := LatestCompactionRevision (sv_db sv) in
  let sv1 :=
    if current =? 0 then
      let derived := DeriveCompactionRevision (sv_db sv) in
      set_state (SetCompaction derived (sv_state sv)) (set_db (PersistCompactionRevision derived (sv_db sv)) sv)
    else set_state (SetCompaction current (sv_state sv)) sv in
  let latest := LatestRevision (sv_db sv1) in
  BroadcastCommit latest
    (set_next (wrap64 (latest + 1)) (set_state (SetCommitted latest (sv_state sv1)) sv1)).

Definition runPreflightPass (env : preflight_env) sv : res preflight_err unit * Server OS :=
  let latestLocal := LatestRevision (sv_db sv) in
  if pe_snapshotsFail env then (Err PreflightSnapshotsErr, sv)
  else
    let snapshot := GetLatestSnapshot (sv_store sv) in
    let behind := match snapshot with Some f => latestLocal <? fi_Revision f | None => false end in
    if behind
    then (Err (PreflightBehindSnapshot latestLocal (default 0 (fi_Revision <$> snapshot))), sv)
    else if pe_chunksFail env then (Err PreflightChunksErr, sv)
    else
      match preflight_chunks env 0 (ListChunks (sv_store sv) 0) latestLocal
              (default 0 (fi_Revision <$> snapshot)) sv with
      | (Err e, sv1) => (Err e, sv1)
      | (Ok durable, sv1) =>
          match preflight_initial env latestLocal durable sv1 with
          | (Err e, sv2) => (Err e, sv2)
          | (Ok _, sv2) =>
              match preflight_upload env 0 (FindRecordsAfterRevision durable (sv_db sv2)) sv2 with
              | (Err e, sv3) => (Err e, sv3)
              | (Ok _, sv3) => (Ok tt, preflight_activate sv3)
              end
          end
      end.

(** [runPreflight], one element of the list per retry; [true] when it has
    returned. *)
Fixpoint runPreflight (envs : list preflight_env) sv : bool * Server OS :=
  match envs with
  | [] => (false, sv)
  | env :: envs' =>
      if negb (bool_decide (primary (sv_state sv) = PrimaryStarting)) then (true, sv)
      else
        match runPreflightPass env sv with
        | (Ok _, sv') => (true, set_state (SetPrimary PrimaryActive (sv_state sv')).2 sv')
        | (Err PreflightStopped, sv') => (true, sv')
        | (Err _, sv') => runPreflight envs' sv'
        end
  end.

(** ** Draining and resignation *)

Inductive drain_err := DrainTransition (e : state_err) | DrainFlush (e : flush_err).

Definition GracefulDrain (now : Z) (f : put_fault) sv : res drain_err unit * Server OS :=
  let ps := primary (sv_state sv) in
  if bool_decide (ps = PrimaryReplica) then (Ok tt, sv)
  else
    let '(tr, st) :=
      if bool_decide (ps = PrimaryActive) || bool_decide (ps = PrimaryStarting)
      then SetPrimary PrimaryDraining (sv_state sv) else (Ok tt, sv_state sv) in
    match tr with
    | Err e => (Err (DrainTransition e), sv)
    | Ok _ =>
        let sv1 := set_state st sv in
        match flush now f (cfg_NodeID cfg) (sv_buffer sv1) (sv_store sv1) with
        | (Err e, b, s) => (Err (DrainFlush e), set_store s (set_buffer b sv1))
        | (Ok _, b, s) => (Ok tt, set_store s (set_buffer b sv1))
        end
    end.

(** [StopServices] of running services: streams and the replica tracker go. *)
Definition StopServices sv : Server OS :=
  set_replicas (Replicas_Reset (sv_replicas sv)) (resetFollowStreams sv).

Definition ResignLeadership sv : bool * Server OS :=
  if negb (bool_decide (primary (sv_state sv) = PrimaryDraining)) then (false, sv)
  else
    match SetPrimary PrimaryReplica (sv_state sv) with
    | (Err _, _) => (false, sv)
    | (Ok _, st) => (true, StopServices (set_state st sv))
    end.
End preflight.
