(* ===== verification/FollowStreams.v ===== *)
(** * internal/primary/follow.go: the Follow handlers of all Replicas together

    Each call of [Follow] runs from its registration to its deferred clean-up,
    beside the handlers of other nodes, beside an older or newer handler of the
    same node, and beside transactions and the end of a term.  The state is the
    server with the handlers that are running. *)

From S2P Require Import Prelude NodeState Records LocalDB Storage DataFile ExampleCodec DataStore.
From S2P Require Import Quorum ChunkBuffer Primary PrimaryExamples Preflight.

#[local] Open Scope Z_scope.

Section streams.
  Context {OS : Type}.
  Implicit Types sv : Server OS.

(** A handler before and after its initial message. *)
Inductive phase := Opened | Streaming.

Record follow_sys := mkFollowSys {
  fy_server : Server OS;
  fy_handlers : gmap nat (string * phase);
  fy_next : nat;
}.

(** The deferred function of [Follow], run when the handler returns. *)
Definition handler_ends (id : nat) (node : string) (y : follow_sys) : follow_sys :=
  mkFollowSys (Follow_close node id (fy_server y)) (delete id (fy_handlers y)) (fy_next y).

Definition on_server (f : Server OS → Server OS) (y : follow_sys) : follow_sys :=
  mkFollowSys (f (fy_server y)) (fy_handlers y) (fy_next y).

(** One step.  [orderly] restricts the runs to those in which a node opens a
    stream only after its last one ended, and the term goes on. *)
Inductive follow_step (orderly : bool) : follow_sys → follow_sys → Prop :=
| fl_open now node y :
    requirePrimary (fy_server y) = Ok tt →
    (orderly = true → ∀ id ph, fy_handlers y !! id ≠ Some (node, ph)) →
    follow_step orderly y
      (mkFollowSys (Follow_register now node (fy_next y) (fy_server y))
         (<[fy_next y := (node, Opened)]> (fy_handlers y)) (S (fy_next y)))
| fl_initial id node y :
    fy_handlers y !! id = Some (node, Opened) →
    follow_step orderly y
      (mkFollowSys (Follow_initial node id (fy_server y)) (<[id := (node, Streaming)]> (fy_handlers y)) (fy_next y))
| fl_send ok id node y :
    fy_handlers y !! id = Some (node, Streaming) →
    follow_step orderly y (on_server (followSend ok node id) y)
| fl_recv now id node msg sv' y :
    fy_handlers y !! id = Some (node, Streaming) →
    followRecv now node msg (fy_server y) = (true, sv') →
    follow_step orderly y (on_server (λ _, sv') y)
| fl_end id node ph y :
    (* the initial message or a receive failed, a heartbeat was of another
       node, or the Replica closed the stream *)
    fy_handlers y !! id = Some (node, ph) → follow_step orderly y (handler_ends id node y)
| fl_broadcast msg y : follow_step orderly y (on_server (broadcastToFollowers msg) y)
| fl_stop y : orderly = false → follow_step orderly y (on_server StopServices y)
| fl_other sv' y :
    (* everything that leaves the sessions alone and tracks no other nodes *)
    sv_streams sv' = sv_streams (fy_server y) → dom (sv_replicas sv') = dom (sv_replicas (fy_server y)) →
    follow_step orderly y (on_server (λ _, sv') y).

Definition follow_init (sv : Server OS) : follow_sys := mkFollowSys (StopServices sv) ∅ 0.

(** ** The invariant *)

(** A session in the map against its handler. *)
Definition session_ok (ph : phase) (s : followSession) : Prop :=
  (length (fs_sendCh s) ≤ streamBufferSize)%nat ∧
  match ph with
  | Opened => fs_sent s = [] ∧ fs_failed s = None
  | Streaming => ∃ c k rest, fs_sent s = MsgInitial c k :: rest
  end.

Record follow_inv (orderly : bool) (y : follow_sys) : Prop := {
  fi_session node s :
    sv_streams (fy_server y) !! node = Some s →
    ∃ ph, fy_handlers y !! fs_id s = Some (node, ph) ∧ session_ok ph s;
  fi_newest node s id ph :
    sv_streams (fy_server y) !! node = Some s → fy_handlers y !! id = Some (node, ph) → (id ≤ fs_id s)%nat;
  fi_tracked node :
    node ∈ dom (sv_replicas (fy_server y)) → ∃ id ph, fy_handlers y !! id = Some (node, ph);
  fi_fresh id h : fy_handlers y !! id = Some h → (id < fy_next y)%nat;
  fi_orderly id node ph :
    orderly = true → fy_handlers y !! id = Some (node, ph) →
    node ∈ dom (sv_replicas (fy_server y)) ∧ ∃ s, sv_streams (fy_server y) !! node = Some s ∧ fs_id s = id;
}.

(** Steps that keep the sessions' identities, the handlers and the tracked nodes. *)
Lemma inv_sessions orderly sv' y :
  dom (sv_replicas sv') = dom (sv_replicas (fy_server y)) →
  (∀ node, option_Forall2 (λ s s', fs_id s' = fs_id s ∧
     ∀ ph, fy_handlers y !! fs_id s = Some (node, ph) → session_ok ph s → session_ok ph s')
     (sv_streams (fy_server y) !! node) (sv_streams sv' !! node)) →
  follow_inv orderly y → follow_inv orderly (on_server (λ _, sv') y).
Proof using Type.
  intros Hd Hs [H1 H2 H3 H4 H5]. split; cbn [on_server fy_server fy_handlers fy_next].
  - intros node s' Hs'. specialize (Hs node). rewrite Hs' in Hs. inversion Hs as [s ? [Hid Hok] E|]; subst.
    symmetry in E. destruct (H1 _ _ E) as (ph & Hph & Ho). exists ph. rewrite Hid. auto.
  - intros node s' id ph Hs' Hid. specialize (Hs node). rewrite Hs' in Hs. inversion Hs as [s ? [Hi Hok] E|]; subst.
    symmetry in E. rewrite Hi. by eapply H2.
  - intros node. rewrite Hd. apply H3.
  - done.
  - intros id node ph Ho Hid. destruct (H5 id node ph Ho Hid) as (Hn & s & E & Hi). rewrite Hd. split; [done|].
    specialize (Hs node). rewrite E in Hs. inversion Hs as [? s' [Hi' _]|]; subst. by exists s'.
Qed.

(** What a send does to the session it is about. *)
Lemma followSend_sessions ok id node sv n :
  sv_streams (followSend ok node id sv) !! n = sv_streams sv !! n ∨
  n = node ∧ ∃ s s', sv_streams sv !! n = Some s ∧ sv_streams (followSend ok node id sv) !! n = Some s' ∧
    fs_id s = id ∧ fs_id s' = id ∧ (session_ok Streaming s → session_ok Streaming s').
Proof using Type.
  rewrite /followSend. destruct (sv_streams sv !! node) as [s|] eqn:E; [|by left].
  destruct (fs_failed s) eqn:Ef, (fs_sendCh s) as [|msg rest] eqn:Ec; try by left.
  case_bool_decide as Ei; [|by left]. cbn [sv_streams set_streams].
  destruct (decide (n = node)) as [->|Hne]; [right|by left; rewrite lookup_insert_ne].
  split; [done|]. rewrite lookup_insert_eq E. eexists _, _. split_and!; [done|done|done|by destruct ok|].
  intros [Hl (c & k & l & Hsent)]. rewrite Ec /= in Hl. split; [destruct ok; cbn; lia|].
  destruct ok; cbn; rewrite Hsent; by eexists _, _, _.
Qed.

Lemma followSend_replicas ok id node sv : sv_replicas (followSend ok node id sv) = sv_replicas sv.
Proof using Type. rewrite /followSend. by repeat case_match. Qed.

(** Updates of tracked Replicas track no other. *)
Lemma followRecv_frame now node msg sv :
  sv_streams (followRecv now node msg sv).2 = sv_streams sv ∧
  dom (sv_replicas (followRecv now node msg sv).2) = dom (sv_replicas sv).
Proof using Type.
  rewrite /followRecv /Server_collectReceipt /UpdateReceipt /UpdateHeartbeat. unfold Replicas in *.
  destruct (sv_replicas sv !! node) eqn:E; repeat (case_match; try done); cbn;
    (split; [done|]); rewrite ?dom_insert_lookup_L //.
Qed.

Lemma removeFollowStream_streams node id sv n :
  sv_streams (removeFollowStream node id sv) !! n =
    match sv_streams sv !! n with
    | Some s => if bool_decide (n = node) && bool_decide (fs_id s = id) then None else Some s
    | None => None
    end.
Proof using Type.
  rewrite /removeFollowStream. destruct (decide (n = node)) as [->|Hne].
  - rewrite (bool_decide_eq_true_2 (node = node)) //=. destruct (sv_streams sv !! node) as [s|] eqn:E; [|done].
    case_bool_decide; cbn; [by rewrite lookup_delete_eq|done].
  - rewrite (bool_decide_eq_false_2 (n = node)) //=. repeat case_match; cbn; rewrite ?lookup_delete_ne //.
Qed.

Lemma inv_open orderly now node y :
  requirePrimary (fy_server y) = Ok tt →
  (orderly = true → ∀ id ph, fy_handlers y !! id ≠ Some (node, ph)) → follow_inv orderly y →
  follow_inv orderly
    (mkFollowSys (Follow_register now node (fy_next y) (fy_server y))
       (<[fy_next y := (node, Opened)]> (fy_handlers y)) (S (fy_next y))).
Proof using Type.
  intros Hp Hord [H1 H2 H3 H4 H5].
  rewrite /Follow_register Hp. split; cbn [fy_server fy_handlers fy_next addFollowStream set_streams sv_streams
    sv_replicas set_replicas].
  + intros n s. destruct (decide (n = node)) as [->|Hne].
    * rewrite lookup_insert_eq. intros [= <-]. exists Opened. cbn. rewrite lookup_insert_eq.
      split; [done|]. split; [cbn; lia|done].
    * rewrite lookup_insert_ne //. intros Hs. destruct (H1 _ _ Hs) as (ph & Hph & Hok). exists ph.
      rewrite lookup_insert_ne; [|done]. intros E. pose proof (H4 _ _ Hph). lia.
  + intros n s id ph. destruct (decide (n = node)) as [->|Hne].
    * rewrite lookup_insert_eq. intros [= <-]. cbn. destruct (decide (id = fy_next y)) as [->|]; [lia|].
      rewrite lookup_insert_ne //. intros Hh. pose proof (H4 _ _ Hh). lia.
    * rewrite lookup_insert_ne //. intros Hs. destruct (decide (id = fy_next y)) as [->|].
      { rewrite lookup_insert_eq. intros [= <- _]. done. }
      rewrite lookup_insert_ne //. by apply H2.
  + intros n. rewrite /Replicas_Add dom_insert_L elem_of_union elem_of_singleton.
    intros [->|Hn]; [exists (fy_next y), Opened; by rewrite lookup_insert_eq|].
    destruct (H3 n Hn) as (id & ph & Hh). exists id, ph. rewrite lookup_insert_ne //.
    intros E. pose proof (H4 _ _ Hh). lia.
  + intros id h. destruct (decide (id = fy_next y)) as [->|]; [lia|]. rewrite lookup_insert_ne //.
    intros Hh. pose proof (H4 _ _ Hh). lia.
  + intros id n ph Ho. destruct (decide (id = fy_next y)) as [->|].
    * rewrite lookup_insert_eq. intros [= <- _]. rewrite lookup_insert_eq. split; [set_solver|by eexists].
    * rewrite lookup_insert_ne //. intros Hh. destruct (H5 _ _ _ Ho Hh) as (Hn & s & Hs & Hi).
      assert (n ≠ node) as Hne by (intros ->; by eapply Hord). rewrite lookup_insert_ne //.
      split; [set_solver|by exists s].
Qed.

Lemma send_now_streams node id msg sv n :
  sv_streams (send_now node id msg sv) !! n =
    (λ s, if bool_decide (n = node) && bool_decide (fs_id s = id)
          then mkSession id (fs_sendCh s) (fs_sent s ++ [msg]) (fs_failed s) else s) <$> sv_streams sv !! n.
Proof using Type.
  rewrite /send_now. destruct (decide (n = node)) as [->|Hne].
  - rewrite (bool_decide_eq_true_2 (node = node)) //=. destruct (sv_streams sv !! node) as [s|] eqn:E; [|by rewrite E].
    cbn. case_bool_decide; cbn; [by rewrite lookup_insert_eq|by rewrite E].
  - rewrite (bool_decide_eq_false_2 (n = node)) //=. trans (sv_streams sv !! n); [|by destruct (_ !! n)].
    destruct (sv_streams sv !! node); [|done]. case_bool_decide; [|done]. cbn. by rewrite lookup_insert_ne.
Qed.

Lemma send_now_replicas node id msg sv : sv_replicas (send_now node id msg sv) = sv_replicas sv.
Proof using Type. rewrite /send_now. by repeat case_match. Qed.

Lemma send_now_id node id msg sv n s' :
  sv_streams (send_now node id msg sv) !! n = Some s' →
  ∃ s, sv_streams sv !! n = Some s ∧ fs_id s' = fs_id s.
Proof using Type.
  rewrite send_now_streams. intros (s & E & ->)%fmap_Some. exists s. split; [done|].
  case_bool_decide; [|done]. by case_bool_decide.
Qed.

(** The handler's own session gets the initial message first. *)
Lemma inv_initial orderly id node y :
  fy_handlers y !! id = Some (node, Opened) → follow_inv orderly y →
  follow_inv orderly
    (mkFollowSys (Follow_initial node id (fy_server y)) (<[id := (node, Streaming)]> (fy_handlers y)) (fy_next y)).
Proof using Type.
  intros Hid [H1 H2 H3 H4 H5]. rewrite /Follow_initial. set (msg := MsgInitial _ _).
  assert (∀ k n ph, <[id := (node, Streaming)]> (fy_handlers y) !! k = Some (n, ph) →
    ∃ ph', fy_handlers y !! k = Some (n, ph')) as Hh.
  { intros k n ph. destruct (decide (k = id)) as [->|]; [rewrite lookup_insert_eq|rewrite lookup_insert_ne; eauto].
    intros [= <- _]. eauto. }
  split; cbn [fy_server fy_handlers fy_next].
  - intros n s'. rewrite send_now_streams. intros (s & E & ->)%fmap_Some. destruct (H1 _ _ E) as (ph & Hph & Hok).
    destruct (decide (fs_id s = id)) as [Hi|Hi].
    + rewrite Hi Hid in Hph. injection Hph as <- <-. rewrite !bool_decide_eq_true_2 //. exists Streaming. cbn.
      rewrite lookup_insert_eq. split; [done|]. destruct Hok as [? [-> _]]. split; [done|]. by eexists _, _, _.
    + rewrite (bool_decide_eq_false_2 (fs_id s = id)) // andb_false_r. exists ph. by rewrite lookup_insert_ne.
  - intros n s' k ph (s & E & ->)%send_now_id [ph' Hk]%Hh. by eapply H2.
  - intros n. rewrite send_now_replicas. intros (k & ph & Hk)%H3. destruct (decide (k = id)) as [->|].
    + rewrite Hid in Hk. injection Hk as -> _. exists id, Streaming. by rewrite lookup_insert_eq.
    + exists k, ph. by rewrite lookup_insert_ne.
  - intros k [n ph] [ph' Hk]%Hh. by eapply H4.
  - intros k n ph Ho [ph' Hk]%Hh. rewrite send_now_replicas send_now_streams.
    destruct (H5 _ _ _ Ho Hk) as (Hn & s & -> & Hi). split; [done|]. cbn. eexists. split; [done|].
    case_bool_decide; [|done]. case_bool_decide; cbn; congruence.
Qed.

(** The clean-up removes the handler's own session only. *)
Lemma inv_end orderly id node ph y :
  fy_handlers y !! id = Some (node, ph) → follow_inv orderly y → follow_inv orderly (handler_ends id node y).
Proof using Type.
  intros Hid [H1 H2 H3 H4 H5].
  assert (∀ n s, sv_streams (fy_server (handler_ends id node y)) !! n = Some s →
    sv_streams (fy_server y) !! n = Some s ∧ (n = node → fs_id s ≠ id)) as Hs.
  { intros n s. cbn [handler_ends fy_server Follow_close set_replicas sv_streams]. rewrite removeFollowStream_streams.
    destruct (sv_streams (fy_server y) !! n) as [s0|]; [|done]. case_bool_decide; [case_bool_decide|];
      cbn; intros [= <-]; done. }
  assert (dom (sv_replicas (fy_server (handler_ends id node y))) = dom (sv_replicas (fy_server y)) ∖ {[node]}) as Hr.
  { cbn [handler_ends fy_server Follow_close set_replicas sv_replicas]. rewrite /Replicas_Remove dom_delete_L.
    f_equal. rewrite /removeFollowStream. by repeat case_match. }
  split; cbn [handler_ends fy_handlers fy_next].
  - intros n s [E Hne]%Hs. destruct (H1 _ _ E) as (ph' & Hph & Hok). exists ph'. rewrite lookup_delete_ne //.
    intros Hi. rewrite -Hi Hid in Hph. injection Hph as -> _. by apply Hne.
  - intros n s k ph' [E _]%Hs [_ Hk]%lookup_delete_Some. by eapply H2.
  - intros n. rewrite Hr. intros [Hn Hne]%elem_of_difference. destruct (H3 n Hn) as (k & ph' & Hk). exists k, ph'.
    rewrite lookup_delete_ne //. intros <-. rewrite Hid in Hk. injection Hk as -> _. set_solver.
  - intros k h [_ Hk]%lookup_delete_Some. by eapply H4.
  - intros k n ph' Ho [Hne Hk]%lookup_delete_Some. destruct (H5 _ _ _ Ho Hk) as (Hn & s & E & Hi).
    assert (n ≠ node) as Hnn.
    { intros ->. destruct (H5 _ _ _ Ho Hid) as (_ & s0 & E0 & Hi0). congruence. }
    rewrite Hr. split; [set_solver|]. exists s. split; [|done].
    cbn [handler_ends fy_server Follow_close set_replicas sv_streams].
    rewrite removeFollowStream_streams E bool_decide_eq_false_2 //.
Qed.

Lemma follow_inv_step orderly y y' : follow_step orderly y y' → follow_inv orderly y → follow_inv orderly y'.
Proof using Type.
  intros Hs Hinv.
  destruct Hs as [now node y Hp Hord|id node y Hid|ok id node y Hid|now id node msg sv' y Hid Hrecv
    |id node ph y Hid|msg y|y Ho|sv' y Hst Hrep].
  - by apply inv_open.
  - by apply inv_initial.
  - apply (inv_sessions _ (followSend ok node id (fy_server y))); [by rewrite followSend_replicas| |done].
    intros n. destruct (followSend_sessions ok id node (fy_server y) n) as [->|(-> & s & s' & -> & -> & Hi & Hi' & Hok)].
    + by destruct (sv_streams _ !! n); constructor.
    + constructor. split; [congruence|]. intros ph Hph. rewrite Hi Hid in Hph. by injection Hph as <-.
  - pose proof (followRecv_frame now node msg (fy_server y)) as [E1 E2]. rewrite Hrecv in E1, E2.
    apply inv_sessions; [done| |done]. intros n. cbn in E1. rewrite E1. by destruct (sv_streams _ !! n); constructor.
  - by eapply inv_end.
  - apply (inv_sessions _ (broadcastToFollowers msg (fy_server y))); [done| |done]. intros n. cbn.
    rewrite lookup_fmap. destruct (sv_streams _ !! n) as [s|]; constructor. case_match eqn:El; [|done].
    split; [done|]. intros ph _ [Hl Hok]. split; [|done]. cbn. rewrite length_app /=. apply Nat.leb_le in El.
    rewrite /streamBufferSize. lia.
  - subst. destruct Hinv as [H1 H2 H3 H4 H5]. split; cbn; done.
  - apply inv_sessions; [done| |done]. intros n. rewrite Hst. by destruct (sv_streams _ !! n); constructor.
Qed.

(** C24: the Follow streams of all Replicas, in any interleaving of handlers,
    transactions and the end of a term.  A session in the map belongs to the
    newest running handler of its node, which an older handler of that node
    never removes; its buffer holds at most 256 messages, and the first message
    a Replica is sent is the initial one.  A tracked Replica has a running
    handler.  When a node opens a stream only after its last one ended, every
    running handler has its session and its Replica is tracked. *)
Theorem follow_sessions orderly sv y :
  rtc (follow_step orderly) (follow_init sv) y →
  (∀ node s, sv_streams (fy_server y) !! node = Some s →
     (∃ ph, fy_handlers y !! fs_id s = Some (node, ph)) ∧
     (∀ id ph, fy_handlers y !! id = Some (node, ph) → (id ≤ fs_id s)%nat) ∧
     (length (fs_sendCh s) ≤ streamBufferSize)%nat ∧
     (fs_sent s = [] ∨ ∃ c k rest, fs_sent s = MsgInitial c k :: rest)) ∧
  (∀ node, node ∈ dom (sv_replicas (fy_server y)) → ∃ id ph, fy_handlers y !! id = Some (node, ph)) ∧
  (orderly = true → ∀ id node ph, fy_handlers y !! id = Some (node, ph) →
     node ∈ dom (sv_replicas (fy_server y)) ∧ ∃ s, sv_streams (fy_server y) !! node = Some s ∧ fs_id s = id).
Proof using Type.
  intros Hr. assert (follow_inv orderly y) as [H1 H2 H3 H4 H5].
  { apply (rtc_invariant (follow_step orderly) (follow_inv orderly) (follow_inv_step orderly) (follow_init sv)); [done|].
    split; cbn; done. }
  split_and!; [|done|by intros; eapply H5].
  intros node s Hs. destruct (H1 _ _ Hs) as (ph & Hph & Hl & Hok). split_and!; [by exists ph| |done|].
  - intros id ph'. by apply H2.
  - destruct ph; [by left; destruct Hok|by right].
Qed.
End streams.

(** ** Concrete runs *)

(** n2 opens a stream and gets its initial message. *)
Definition opened_streams : follow_sys (OS := MemoryStore) :=
  mkFollowSys (Follow_initial "n2" 0 (Follow_register 10 "n2" 0 (StopServices example_server)))
    {[0%nat := ("n2", Streaming)]} 1.

Lemma open_run orderly : rtc (follow_step orderly) (follow_init example_server) opened_streams.
Proof.
  eapply rtc_l; [apply (fl_open _ 10 "n2"); [reflexivity|done]|].
  eapply rtc_l; [apply (fl_initial _ 0 "n2"); reflexivity|]. apply rtc_refl.
Qed.

Lemma follow_sessions_witness :
  ∃ s, sv_streams (fy_server opened_streams) !! "n2" = Some s ∧ fs_id s = 0%nat ∧
       "n2" ∈ dom (sv_replicas (fy_server opened_streams)).
Proof.
  destruct (follow_sessions true example_server opened_streams (open_run true)) as (_ & _ & H).
  destruct (H eq_refl 0%nat "n2" Streaming eq_refl) as (Hn & s & Hs & Hi). by exists s.
Defined.

(** n2 reconnects before its first handler has returned: the handler's clean-up
    then drops the Replica, although the new stream runs, and nothing tracks it
    again: its Receipts find no entry, and it does not count for quorum. *)
Lemma reconnect_untracks :
  ∃ y, rtc (follow_step false) opened_streams y ∧
    fy_handlers y = {[1%nat := ("n2", Streaming)]} ∧
    (∃ s, sv_streams (fy_server y) !! "n2" = Some s ∧ fs_id s = 1%nat) ∧
    sv_replicas (fy_server y) = ∅ ∧
    sv_replicas (followRecv 60 "n2" (receipt "n2" 5) (fy_server y)).2 = ∅.
Proof.
  eexists. split.
  { eapply rtc_l; [apply (fl_open _ 20 "n2"); [reflexivity|done]|].
    eapply rtc_l; [apply (fl_initial _ 1 "n2"); reflexivity|].
    eapply rtc_l; [apply (fl_end _ 0 "n2" Streaming); reflexivity|]. apply rtc_refl. }
  split; [by vm_compute|]. split; [eexists; by vm_compute|]. by vm_compute.
Qed.
