(* ===== verification/PreflightTheorems.v ===== *)
(** * Theorems on activation and draining *)

From S2P Require Import Prelude NodeState Records LocalDB History Examples LocalDBTheorems RangeApi.
From S2P Require Import Storage DataFile ExampleCodec DataStore DataStoreTheorems Quorum.
From S2P Require Import ChunkBuffer Primary PrimaryTheorems PrimaryExamples Preflight.

#[local] Open Scope Z_scope.

Section preflight.
  Context `{CL : CodecLaws} `{HL : SqlLike} {OS : Type} `{HS : ObjectStorage OS}.
  Context (L : ObjectStorageLaws OS) (cfg : config).
  Implicit Types sv : Server OS.

Lemma writeRecordIfMissing_spec now f r sv :
  let out := writeRecordIfMissing cfg now f r sv in
  same_core sv out.2 ∧ store_extends L (sv_store sv) (sv_store out.2) ∧
  (out.1 = true → durable_chunk L (sv_store out.2) r).
Proof using CL L.
  rewrite /writeRecordIfMissing.
  destruct (MarshalChunk now r (cfg_NodeID cfg)) as [[key data]|] eqn:Hm;
    [|simpl; split; [done|]; split; [apply store_extends_refl|done]].
  pose proof (faulty_put_absent_spec L f (sv_store sv) key data) as [Hext Hok].
  destruct (faulty_put_absent f (sv_store sv) key data) as [[[]|e] s']; simpl in *; [|done].
  split; [done|]. split; [done|]. intros _. by eapply MarshalChunk_durable, Hok.
Qed.

Lemma preflight_upload_spec env i records sv :
  let out := preflight_upload cfg env i records sv in
  same_core sv out.2 ∧ store_extends L (sv_store sv) (sv_store out.2) ∧
  (out.1 = Ok tt → ∀ r, r ∈ records → durable_chunk L (sv_store out.2) r).
Proof using CL L.
  revert i sv; induction records as [|x records IH]; intros i sv; cbn [preflight_upload].
  { split; [done|]. split; [apply store_extends_refl|]. intros _ r Hr. by apply elem_of_nil in Hr. }
  destruct (_ || _)%bool; [simpl; split; [done|]; split; [apply store_extends_refl|done]|].
  pose proof (writeRecordIfMissing_spec (pe_now env i) (pe_put env i) x sv) as ((E1 & E2 & E3) & Hext & Hdur).
  destruct (writeRecordIfMissing cfg _ _ x sv) as [[] sv1]; simpl in *; [|done].
  destruct (IH (S i) (BroadcastRecord x sv1)) as ((F1 & F2 & F3) & Hext' & Hall).
  set (out := preflight_upload cfg env (S i) records (BroadcastRecord x sv1)) in *.
  split; [by rewrite /same_core F1 F2 F3|]. split; [by eapply store_extends_trans|].
  intros Hok r [->|Hr]%elem_of_cons; [|by apply Hall].
  eapply durable_extends; [exact Hext'|]. by apply Hdur.
Qed.

(** Imports change the database only. *)
Lemma preflight_chunks_store env i chunks latest durable sv :
  let out := preflight_chunks env i chunks latest durable sv in
  sv_store out.2 = sv_store sv ∧ sv_state out.2 = sv_state sv ∧
  (∀ d, out.1 = Ok d → d = foldl (λ d c, Z.max d (fi_Revision c)) durable chunks).
Proof.
  revert i durable sv; induction chunks as [|c chunks IH]; intros i durable sv; cbn [preflight_chunks].
  { split; [done|]. split; [done|]. by intros d [= <-]. }
  destruct (_ || _)%bool; [done|].
  assert ((if durable <? fi_Revision c then fi_Revision c else durable) = Z.max durable (fi_Revision c)) as ->.
  { destruct (Z.ltb_spec durable (fi_Revision c)); lia. }
  destruct (fi_Revision c <=? latest); [apply IH|].
  destruct (pe_downloadFails env i); [done|].
  destruct (DownloadAndImportFile _ _ _ _ _) as [[res|e] db]; [|done].
  apply (IH (S i) _ (set_db db sv)).
Qed.

(** The durable revision a pass works with: the newest snapshot or chunk. *)
Definition durable_revision (s : OS) : Z :=
  foldl (λ d c, Z.max d (fi_Revision c)) (default 0 (fi_Revision <$> GetLatestSnapshot s)) (ListChunks s 0).

(** C14: when preflight succeeds the new Primary is consistent with object
    storage: its database is at least as new as the newest snapshot, every
    record above the durable revision reads back from a chunk, nothing already
    stored was altered, and committed revision and revision counter are those
    of the database. *)
Theorem preflight_durable env sv :
  let out := runPreflightPass cfg env sv in
  out.1 = Ok tt →
  (∀ f, GetLatestSnapshot (sv_store sv) = Some f → fi_Revision f ≤ LatestRevision (sv_db sv)) ∧
  (∀ r, r ∈ rows (sv_db out.2) → durable_revision (sv_store sv) < Revision r →
        durable_chunk L (sv_store out.2) r) ∧
  store_extends L (sv_store sv) (sv_store out.2) ∧
  committed (sv_state out.2) = LatestRevision (sv_db out.2) ∧
  sv_next out.2 = wrap64 (LatestRevision (sv_db out.2) + 1).
Proof using CL L.
  rewrite /runPreflightPass. destruct (pe_snapshotsFail env); [done|].
  destruct (match GetLatestSnapshot (sv_store sv) with Some _ => _ | None => _ end) eqn:Hb; [done|].
  destruct (pe_chunksFail env); [done|].
  pose proof (preflight_chunks_store env 0 (ListChunks (sv_store sv) 0) (LatestRevision (sv_db sv))
    (default 0 (fi_Revision <$> GetLatestSnapshot (sv_store sv))) sv) as (S1 & _ & S3).
  destruct (preflight_chunks env 0 _ _ _ sv) as [[durable|e] sv1]; [|done]. cbn [fst snd] in *.
  assert (durable = durable_revision (sv_store sv)) as -> by (by apply S3).
  destruct (preflight_initial cfg env _ _ sv1) as [[[]|e] sv2] eqn:Hinit; [|done].
  assert (sv_store sv2 = sv_store sv) as S4.
  { rewrite /preflight_initial in Hinit. by repeat case_match; simplify_eq/=. }
  pose proof (preflight_upload_spec env 0 (FindRecordsAfterRevision (durable_revision (sv_store sv)) (sv_db sv2)) sv2)
    as ((E1 & _ & _) & Hext & Hdur).
  destruct (preflight_upload cfg env 0 _ sv2) as [[[]|e] sv3]; [|done]. cbn [fst snd] in *. intros _.
  assert (rows (sv_db (preflight_activate sv3)) = rows (sv_db sv3) ∧ sv_store (preflight_activate sv3) = sv_store sv3)
    as [-> ->].
  { rewrite /preflight_activate /PersistCompactionRevision. by repeat case_match. }
  split; [|split; [|split; [|split]]].
  - intros f Hf. rewrite Hf in Hb. by apply Z.ltb_ge.
  - intros r Hr Hlt. apply Hdur; [done|]. rewrite E1 in Hr. by apply list_elem_of_filter.
  - by rewrite -S4.
  - rewrite /preflight_activate. by case_match.
  - rewrite /preflight_activate. by case_match.
Qed.

(** ** Replay *)

(** The object at the chunk's key is the chunk file of [l]. *)
Definition chunk_holds (s : OS) (c : FileInfo) (l : list record) : Prop :=
  ∃ now nodeID data, MarshalChunkBatch now l nodeID = Some (Ok (fi_Key c, data)) ∧
    os_objects s (fi_Key c) = Some data.

Definition imported (clock : Z → Z) (r : record) : record := stored_at clock (file_record r).

Lemma same_links_imported clock r : same_links r (imported clock r).
Proof. done. Qed.

Definition quiet_pass (env : preflight_env) : Prop :=
  pe_snapshotsFail env = false ∧ pe_chunksFail env = false ∧
  (∀ i, pe_stopChunk env i = false) ∧ (∀ i, pe_downloadFails env i = false).

Lemma preflight_chunks_replay env i chunks latest durable sv ls :
  quiet_pass env → primary (sv_state sv) = PrimaryStarting →
  Forall2 (chunk_holds (sv_store sv)) (filter (λ c, latest < fi_Revision c) chunks) ls →
  history (rows (sv_db sv) ++ concat ls) → Z.of_nat (length (concat ls)) ≤ int64_max →
  preflight_chunks env i chunks latest durable sv
  = (Ok (foldl (λ d c, Z.max d (fi_Revision c)) durable chunks),
     set_db (set_rows (rows (sv_db sv) ++ (imported (pe_clock env) <$> concat ls)) (sv_db sv)) sv).
Proof using CL L.
  intros (_ & _ & Hq1 & Hq2). revert i durable sv ls.
  induction chunks as [|c chunks IH]; intros i durable sv ls Hst HF Hh Hlen; cbn [preflight_chunks].
  { apply Forall2_nil_inv_l in HF as ->. rewrite /= app_nil_r. by destruct sv as [? []]. }
  rewrite Hq1 bool_decide_eq_true_2 //=.
  assert ((if durable <? fi_Revision c then fi_Revision c else durable) = Z.max durable (fi_Revision c)) as ->.
  { destruct (Z.ltb_spec durable (fi_Revision c)); lia. }
  rewrite filter_cons in HF. destruct (Z.leb_spec (fi_Revision c) latest) as [Hle|Hlt].
  { rewrite decide_False in HF; [lia|]. by apply IH. }
  rewrite decide_True // in HF. apply Forall2_cons_inv_l in HF as (l & ls' & (now & node & data & Hm & Hobj) & HF & ->).
  cbn [concat] in *. rewrite length_app in Hlen. rewrite Hq2.
  destruct (import_chunk L (pe_clock env) now l node _ data (sv_store sv) (sv_db sv) Hm Hobj)
    as [results ->]; [|lia|].
  { rewrite app_assoc in Hh. by apply history_app_inv in Hh. }
  rewrite (IH _ _ _ ls') //.
  - rewrite /= -app_assoc -list_fmap_compose. by apply history_map_middle.
  - lia.
  - rewrite /= fmap_app app_assoc -list_fmap_compose. by destruct sv as [? []].
Qed.


(** ** Draining *)

Lemma SetPrimary_draining st :
  primary st = PrimaryActive ∨ primary st = PrimaryStarting →
  ∃ st', SetPrimary PrimaryDraining st = (Ok tt, st') ∧ primary st' = PrimaryDraining.
Proof. rewrite /SetPrimary. intros [-> | ->]; eexists; split; reflexivity. Qed.

(** C40: a graceful drain that reports success while no flush is under way has
    emptied the chunk buffer into object storage: every buffered record reads
    back from a chunk, the Primary is Draining and takes no more writes, and
    leadership can then be resigned. *)
Theorem GracefulDrain_flushes now f sv :
  primary (sv_state sv) ≠ PrimaryReplica → cb_flushing (sv_buffer sv) = false →
  Z.of_nat (length (cb_records (sv_buffer sv))) ≤ int64_max →
  let out := GracefulDrain cfg now f sv in
  out.1 = Ok tt →
  cb_records (sv_buffer out.2) = [] ∧
  (∀ r, r ∈ cb_records (sv_buffer sv) → durable_chunk L (sv_store out.2) r) ∧
  requireActivePrimary out.2 = Err PrimaryDraining ∧
  (ResignLeadership out.2).1 = true ∧
  primary (sv_state (ResignLeadership out.2).2) = PrimaryReplica.
Proof using CL L.
  intros Hr Hfl Hlen out. rewrite /out /GracefulDrain bool_decide_eq_false_2 //.
  assert (∃ st', (if bool_decide (primary (sv_state sv) = PrimaryActive)
                     || bool_decide (primary (sv_state sv) = PrimaryStarting)
                  then SetPrimary PrimaryDraining (sv_state sv) else (Ok tt, sv_state sv)) = (Ok tt, st') ∧
                 primary st' = PrimaryDraining) as (st' & -> & Hst).
  { destruct (primary (sv_state sv)) eqn:E; try done;
      [apply SetPrimary_draining; by right|apply SetPrimary_draining; by left|by eexists]. }
  pose proof (upload_batch_spec L now f (cfg_NodeID cfg) (cb_records (sv_buffer sv)) (sv_store sv) Hlen) as [_ Hup].
  rewrite /flush /flush_start /= Hfl orb_false_r.
  assert (∀ sv', primary (sv_state sv') = PrimaryDraining →
    requireActivePrimary sv' = Err PrimaryDraining ∧ (ResignLeadership sv').1 = true ∧
    primary (sv_state (ResignLeadership sv').2) = PrimaryReplica) as Hresign.
  { intros sv' E. rewrite /requireActivePrimary /ResignLeadership /SetPrimary E. done. }
  case_bool_decide as Hnil; simpl.
  - intros _. split; [done|]. split; [intros r Hr'; rewrite Hnil in Hr'; by apply elem_of_nil in Hr'|].
    by apply Hresign.
  - destruct (upload_batch _ _ _ _ _) as [[[]|e] s']; simpl in *; [|done]. intros _.
    split; [by rewrite drop_all|]. split; [by apply Hup|]. by apply Hresign.
Qed.

(** While another flush is under way the drain reports success with the buffer
    untouched. *)
Lemma drain_skips_running_flush now f sv :
  primary (sv_state sv) = PrimaryActive → cb_flushing (sv_buffer sv) = true →
  let out := GracefulDrain cfg now f sv in
  out.1 = Ok tt ∧ sv_buffer out.2 = sv_buffer sv ∧ sv_store out.2 = sv_store sv.
Proof.
  intros Hp Hf. destruct (SetPrimary_draining (sv_state sv)) as (st' & E & _); [by left|].
  rewrite /GracefulDrain Hp /= E /flush /flush_start /= Hf orb_true_r. done.
Qed.
End preflight.

(** ** On concrete runs *)

#[local] Existing Instance example_codec.
#[local] Existing Instance example_codec_laws.
#[local] Existing Instance ascii_like.
#[local] Hint Extern 0 (ObjectStorage MemoryStore) =>
  exact (MemoryStore_ObjectStorage example_etag) : typeclass_instances.

Definition quiet_preflight : preflight_env :=
  mkPreflightEnv false false (λ _, false) (λ _, false) (λ n, 100 + n) 90 (λ _, false) (λ _, 95) (λ _, PutOk).

Definition starting_server (db : database) (s : MemoryStore) : Server MemoryStore :=
  mkServer (mkState HealthHealthy ElectorFollower PrimaryStarting
              (mkClusterState NodeInfo_zero NodeInfo_zero 3) 0 0 7)
    db s 1 ∅ ∅ (newChunkBuffer 4 5) None [] [].

(** On an empty cluster the initial record is written and uploaded. *)
Lemma preflight_durable_witness :
  let out := runPreflightPass example_cfg quiet_preflight (starting_server (mkDB [] []) ∅) in
  out.1 = Ok tt ∧ committed (sv_state out.2) = 1 ∧
  ∃ r, r ∈ rows (sv_db out.2) ∧ durable_chunk example_store_laws (sv_store out.2) r.
Proof.
  intros out. assert (out.1 = Ok tt) as Hok by (vm_compute; reflexivity). split; [done|].
  pose proof (preflight_durable example_store_laws example_cfg quiet_preflight
    (starting_server (mkDB [] []) ∅) Hok) as (_ & Hdur & _ & Hc & _).
  fold out in Hdur, Hc. split; [rewrite Hc; vm_compute; reflexivity|].
  eassert (rows (sv_db out.2) = [_]) as Hrows by (vm_compute; reflexivity).
  eexists. split; [rewrite Hrows; by left|].
  apply Hdur; [rewrite Hrows; by left|vm_compute; reflexivity].
Defined.

(** The old Primary flushed revisions 3 and 4; the new one has 1 and 2. *)
Definition old_chunk : string * bytes :=
  match MarshalChunkBatch 50 (drop 2 (rows example_db)) "n9" with Some (Ok kd) => kd | _ => ("", []) end.


(** A Primary with one quorum-committed record in its buffer drains. *)
Lemma GracefulDrain_flushes_witness :
  let sv := (run_txn example_server quorum_env (create_b Byte.x33 [])).2 in
  let out := GracefulDrain example_cfg 70 PutOk sv in
  length (cb_records (sv_buffer sv)) = 1%nat ∧ out.1 = Ok tt ∧ cb_records (sv_buffer out.2) = [].
Proof.
  intros sv out. assert (out.1 = Ok tt) as Hok by (vm_compute; reflexivity).
  split; [vm_compute; reflexivity|]. split; [exact Hok|].
  assert (primary (sv_state sv) ≠ PrimaryReplica) as H1 by (vm_compute; discriminate).
  assert (cb_flushing (sv_buffer sv) = false) as H2 by (vm_compute; reflexivity).
  assert (Z.of_nat (length (cb_records (sv_buffer sv))) ≤ int64_max) as H3 by (vm_compute; discriminate).
  destruct (GracefulDrain_flushes example_store_laws example_cfg 70 PutOk sv H1 H2 H3 Hok) as [H _].
  exact H.
Defined.
