(* ===== verification/Watch.v ===== *)
(** * internal/watch: watchers, watches and the watch manager

    Watchers are shared objects: the manager's map holds references to them
    and a closed watcher, no longer in the map, still drains its inbox.  So the
    manager keeps the objects in [wm_objects] and the ids in its map in
    [wm_watchers].  Each function that takes a watcher's lock once is one step;
    [CreateWatch] and [SetWatchAdmissionFloor], which race, are also given as
    their separate locked parts.

    Go iterates over maps in an unspecified order; the models take the order of
    the map's elements, of which the proofs use only that each comes once. *)

From S2P Require Import Prelude NodeState Records LocalDB RangeApi.

#[local] Open Scope Z_scope.

(** ** Messages *)

Inductive EventType := PUT | DELETE.

Record Event := mkEvent {
  ev_Type : EventType;
  ev_Kv : KeyValue;
  ev_PrevKv : option KeyValue;
}.

Inductive cancel_reason :=
| ReasonCompacted (start floor : Z)
| ReasonUserWatchID
| ReasonRevisionCompacted (start : Z)
| ReasonGetRevision (start : Z)
| ReasonSendFailed.

Record WatchResponse := mkWatchResponse {
  wr_Revision : Z;
  wr_Created : bool;
  wr_Canceled : bool;
  wr_CancelReason : option cancel_reason;
  wr_CompactRevision : Z;
  wr_WatchId : Z;
  wr_Events : list Event;
}.

Inductive FilterType := NOPUT | NODELETE | FILTER_UNRECOGNIZED (n : Z).
#[export] Instance FilterType_eq_dec : EqDecision FilterType.
Proof. solve_decision. Defined.

Record WatchCreateRequest := mkWatchCreate {
  wc_Key : bytes;
  wc_RangeEnd : bytes;
  wc_StartRevision : Z;
  wc_ProgressNotify : bool;
  wc_Filters : list FilterType;
  wc_PrevKv : bool;
  wc_WatchId : Z;
}.

(** ** Watchers *)

Record watchEntry := mkWatchEntry {
  we_key : bytes;
  we_rangeEnd : bytes;
  we_startRevision : Z;
  we_prevKv : bool;
  we_progressNotify : bool;
  we_filtersNoPut : bool;
  we_filtersNoDelete : bool;
}.

(** [wt_sent] is what the client stream has been sent, [wt_failed] the message
    on whose failed send the dispatch goroutine ended; [doneCh] is closed
    together with the inbox. *)
Record Watcher := mkWatcher {
  wt_sent : list WatchResponse;
  wt_failed : option WatchResponse;
  wt_inbox : list WatchResponse;
  wt_inboxOk : bool;
  wt_watches : gmap Z watchEntry;
  wt_progress : gmap Z bool;
}.

Definition inboxCapacity : nat := 64.

Definition Watcher_empty : Watcher := mkWatcher [] None [] true ∅ ∅.

(** [Send]; [ok] is whether the stream accepts the message. *)
Definition Send (ok : bool) (resp : WatchResponse) (w : Watcher) : Watcher :=
  if ok then mkWatcher (wt_sent w ++ [resp]) (wt_failed w) (wt_inbox w) (wt_inboxOk w)
                (wt_watches w) (wt_progress w)
  else w.

(** A non-blocking send on the inbox channel: [None] when it is full. *)
Definition inbox_push (resp : WatchResponse) (w : Watcher) : option Watcher :=
  if (length (wt_inbox w) <? inboxCapacity)%nat
  then Some (mkWatcher (wt_sent w) (wt_failed w) (wt_inbox w ++ [resp]) (wt_inboxOk w)
               (wt_watches w) (wt_progress w))
  else None.

(** The stream's dispatch goroutine takes one message and sends it; [ok] is
    whether the stream accepts it.  The goroutine returns on the first failure. *)
Definition dispatch (ok : bool) (w : Watcher) : Watcher :=
  match wt_failed w, wt_inbox w with
  | Some _, _ | _, [] => w
  | None, msg :: rest =>
      let w' := mkWatcher (wt_sent w) None rest (wt_inboxOk w) (wt_watches w) (wt_progress w) in
      if ok then Send ok msg w'
      else mkWatcher (wt_sent w) (Some msg) rest (wt_inboxOk w) (wt_watches w) (wt_progress w)
  end.

(** The part of [Cleanup] on the watcher itself. *)
Definition close_watcher (w : Watcher) : Watcher :=
  if negb (wt_inboxOk w) then w
  else mkWatcher (wt_sent w) (wt_failed w) (wt_inbox w) false ∅ ∅.

Definition add_watch (watchID : Z) (e : watchEntry) (progress : bool) (w : Watcher) : Watcher :=
  mkWatcher (wt_sent w) (wt_failed w) (wt_inbox w) (wt_inboxOk w)
    (<[watchID := e]> (wt_watches w)) (<[watchID := progress]> (wt_progress w)).

Definition CancelWatch (ok : bool) (watchID revision : Z) (reason : option cancel_reason) (w : Watcher)
    : Watcher :=
  let w := mkWatcher (wt_sent w) (wt_failed w) (wt_inbox w) (wt_inboxOk w)
             (delete watchID (wt_watches w)) (delete watchID (wt_progress w)) in
  Send ok (mkWatchResponse revision false (bool_decide (is_Some reason)) reason 0 watchID []) w.

(** ** Matching *)

Fixpoint trim_right_zero (k : bytes) : bytes :=
  match k with
  | [] => []
  | b :: k' =>
      match trim_right_zero k' with
      | [] => if bool_decide (b = Byte.x00) then [] else [b]
      | t => b :: t
      end
  end.

(** [None] is the slice panic on an empty range key. *)
Definition isInRange (key rangeKey rangeEnd : bytes) : option bool :=
  let zeroByte := [Byte.x00] in
  let rangeKeyAndZeroByte := rangeKey ++ [Byte.x00] in
  let prefixValue : option (option bytes) :=
    if bool_decide (key = []) then Some None
    else match last rangeKey with
         | None => None
         | Some c => Some (Some (take (length rangeKey - 1) rangeKey ++ [byte_succ c]))
         end in
  match prefixValue with
  | None => None
  | Some rangeEndPrefixValue =>
      Some
        (if bool_decide (rangeEnd = []) || bool_decide (rangeEnd = rangeKeyAndZeroByte)
         then bool_decide (key = trim_right_zero rangeKey)
         else if bool_decide (rangeKey = zeroByte) && bool_decide (rangeEnd = zeroByte) then true
         else if bool_decide (rangeEnd = zeroByte) then bytes_leb rangeKey key
         else if bool_decide (rangeEndPrefixValue = Some rangeEnd) then has_prefix key rangeKey
         else bytes_leb rangeKey key && bytes_ltb key rangeEnd)
  end.

Definition isWatchMatch (w : watchEntry) (r : record) : option bool :=
  if we_filtersNoPut w && negb (Deleted r) then Some false
  else if we_filtersNoDelete w && Deleted r then Some false
  else if Revision r <? we_startRevision w then Some false
  else isInRange (Key r) (we_key w) (we_rangeEnd w).

(** ** The manager *)

(** The two counters are the package's global id counters. *)
Record Manager := mkManager {
  wm_objects : gmap Z Watcher;
  wm_watchers : gset Z;
  watchAdmissionFloor : Z;
  wm_pending : gset Z;
  watcherIDCounter : Z;
  watchIDCounter : Z;
}.

Definition NewManager : Manager := mkManager ∅ ∅ 0 ∅ 0 0.

Definition set_objects (o : gmap Z Watcher) (m : Manager) : Manager :=
  mkManager o (wm_watchers m) (watchAdmissionFloor m) (wm_pending m) (watcherIDCounter m) (watchIDCounter m).
Definition set_watchers (s : gset Z) (m : Manager) : Manager :=
  mkManager (wm_objects m) s (watchAdmissionFloor m) (wm_pending m) (watcherIDCounter m) (watchIDCounter m).
Definition set_floor (f : Z) (m : Manager) : Manager :=
  mkManager (wm_objects m) (wm_watchers m) f (wm_pending m) (watcherIDCounter m) (watchIDCounter m).
Definition set_pending (p : gset Z) (m : Manager) : Manager :=
  mkManager (wm_objects m) (wm_watchers m) (watchAdmissionFloor m) p (watcherIDCounter m) (watchIDCounter m).
Definition set_watchIDCounter (n : Z) (m : Manager) : Manager :=
  mkManager (wm_objects m) (wm_watchers m) (watchAdmissionFloor m) (wm_pending m) (watcherIDCounter m) n.

Definition update_watcher (id : Z) (f : Watcher → Watcher) (m : Manager) : Manager :=
  set_objects (alter f id (wm_objects m)) m.

(** [NewWatcher] followed by [Register]. *)
Definition Register (m : Manager) : Z * Manager :=
  let id := wrap64 (watcherIDCounter m + 1) in
  (id, mkManager (<[id := Watcher_empty]> (wm_objects m)) ({[id]} ∪ wm_watchers m)
         (watchAdmissionFloor m) (wm_pending m) id (watchIDCounter m)).

Definition Unregister (id : Z) (m : Manager) : Manager := set_watchers (wm_watchers m ∖ {[id]}) m.

Definition Cleanup (id : Z) (m : Manager) : Manager := update_watcher id close_watcher (Unregister id m).

Definition kv_of (r : record) : KeyValue :=
  mkKeyValue (Key r) (CreateRevision r) (Revision r) (Value r) (Version r) (Lease r).

Definition watch_event (r : record) (prev : option record) (e : watchEntry) : Event :=
  mkEvent (if Deleted r then DELETE else PUT) (kv_of r)
    (if we_prevKv e then kv_of <$> prev else None).

Definition event_msg (r : record) (prev : option record) (watchID : Z) (e : watchEntry) : WatchResponse :=
  mkWatchResponse (Revision r) false false None 0 watchID [watch_event r prev e].

(** The inner loop of [Distribute] over a watcher's watches: whether the
    watcher is slow, and the watcher.  [None] is a panic: an empty range key,
    or a send on a closed channel. *)
Fixpoint distribute_watches (r : record) (prev : option record) (ws : list (Z * watchEntry))
    (w : Watcher) : option (bool * Watcher) :=
  match ws with
  | [] => Some (false, w)
  | (watchID, e) :: ws' =>
      match isWatchMatch e r with
      | None => None
      | Some false => distribute_watches r prev ws' w
      | Some true =>
          if negb (wt_inboxOk w) then None
          else
            match inbox_push (event_msg r prev watchID e) w with
            | None => Some (true, w)
            | Some w' => distribute_watches r prev ws' w'
            end
      end
  end.

(** The outer loop: the slow watchers and the manager. *)
Fixpoint distribute_watchers (r : record) (prev : option record) (ids : list Z) (m : Manager)
    : option (list Z * Manager) :=
  match ids with
  | [] => Some ([], m)
  | id :: ids' =>
      match wm_objects m !! id with
      | None => distribute_watchers r prev ids' m
      | Some w =>
          match distribute_watches r prev (map_to_list (wt_watches w)) w with
          | None => None
          | Some (slow, w') =>
              match distribute_watchers r prev ids' (set_objects (<[id := w']> (wm_objects m)) m) with
              | None => None
              | Some (slowWatchers, m') => Some (if slow then id :: slowWatchers else slowWatchers, m')
              end
          end
      end
  end.

Definition Distribute (r : record) (prev : option record) (m : Manager) : option Manager :=
  match distribute_watchers r prev (elements (wm_watchers m)) m with
  | None => None
  | Some (slowWatchers, m') => Some (foldl (λ m id, Cleanup id m) m' slowWatchers)
  end.

Definition EnqueueWatchRevision (revision : Z) (m : Manager) : Manager :=
  if revision <=? 0 then m else set_pending ({[revision]} ∪ wm_pending m) m.

Definition ResetPending (m : Manager) : Manager := set_pending ∅ m.

(** The record at [revision] with its predecessor. *)
Definition record_and_prev (db : database) (revision : Z) : option (record * option record) :=
  match FindRecordByRev revision db with
  | Err _ => None
  | Ok r =>
      Some (r, if negb (Created r) && (0 <? PrevRevision r)
               then match FindRecordByRev (PrevRevision r) db with Ok p => Some p | Err _ => None end
               else None)
  end.

Definition distributeFromDB (db : database) (revision : Z) (m : Manager) : option Manager :=
  match record_and_prev db revision with
  | None => Some m
  | Some (r, prev) => Distribute r prev m
  end.

(** The pending revisions that [rev] makes ready, ascending. *)
Definition ready_revisions (rev : Z) (m : Manager) : list Z :=
  merge_sort Z.le (elements (filter (λ r, r ≤ rev) (wm_pending m))).

Definition distribute_all (db : database) (revs : list Z) (m : Manager) : option Manager :=
  foldl (λ om r, om ≫= distributeFromDB db r) (Some m) revs.

Definition AdvanceCommittedRevision (rev : Z) (db : database) (m : Manager) : option Manager :=
  let ready := ready_revisions rev m in
  distribute_all db ready (set_pending (wm_pending m ∖ list_to_set ready) m).

(** The watches of all registered watchers. *)
Definition active_entries (m : Manager) : list watchEntry :=
  id ← elements (wm_watchers m);
  match wm_objects m !! id with
  | Some w => (map_to_list (wt_watches w)).*2
  | None => []
  end.

Definition WatchCount (m : Manager) : Z := Z.of_nat (length (active_entries m)).

Definition MinWatchRevision (m : Manager) : Z :=
  foldl (λ minRev e, if (minRev <? 0) || (we_startRevision e <? minRev) then we_startRevision e else minRev)
    (-1) (active_entries m).

Definition below_floor (revision : Z) (e : watchEntry) : bool :=
  (0 <? we_startRevision e) && (we_startRevision e <? revision).

(** [SetWatchAdmissionFloor] with nothing in between; [false] is the error. *)
Definition SetWatchAdmissionFloor (revision : Z) (m : Manager) : bool * Manager :=
  if existsb (below_floor revision) (active_entries m) then (false, m)
  else (true, set_floor revision m).

(** ** Creating watches *)

Definition created_msg (revision watchID : Z) : WatchResponse :=
  mkWatchResponse revision true false None 0 watchID [].
Definition canceled_msg (revision : Z) (reason : cancel_reason) (compactRevision watchID : Z)
    : WatchResponse :=
  mkWatchResponse revision false true (Some reason) compactRevision watchID [].

(** Every rejection is a created response followed by a canceled one. *)
Definition reject_watch (ok : bool) (revision : Z) (reason : cancel_reason)
    (compactRevision watchID : Z) (w : Watcher) : Watcher :=
  Send ok (canceled_msg revision reason compactRevision watchID)
    (Send ok (created_msg revision watchID) w).

Definition entry_of (r : WatchCreateRequest) : watchEntry :=
  mkWatchEntry (wc_Key r) (wc_RangeEnd r) (wc_StartRevision r) (wc_PrevKv r) (wc_ProgressNotify r)
    (bool_decide (NOPUT ∈ wc_Filters r)) (bool_decide (NODELETE ∈ wc_Filters r)).

(** What the checks before the lock decide. *)
Inductive create_check :=
| CheckReject (revision : Z) (reason : cancel_reason) (compactRevision : Z)
| CheckUserID
| CheckOk (headerRevision revision : Z).

(** The checks before the watcher's lock is taken; [floor] is the admission
    floor they read. *)
Definition CreateWatch_check (AutoWatchID : Z) (r : WatchCreateRequest) (latestRevision : Z)
    (compactionRevision floor : Z) (db : database) : create_check :=
  let compactionRevision := if compactionRevision <? floor then floor else compactionRevision in
  if (0 <? wc_StartRevision r) && (0 <? compactionRevision) && (wc_StartRevision r <=? compactionRevision)
  then CheckReject latestRevision (ReasonCompacted (wc_StartRevision r) compactionRevision) compactionRevision
  else if negb (wc_WatchId r =? AutoWatchID) then CheckUserID
  else if wc_StartRevision r =? 0 then CheckOk latestRevision latestRevision
  else
    match GetRevision (wc_StartRevision r) db with
    | Ok (revision, true) =>
        CheckReject revision (ReasonRevisionCompacted (wc_StartRevision r)) (wc_StartRevision r)
    | Ok (revision, false) => CheckOk revision revision
    | Err _ =>
        if wc_StartRevision r <=? latestRevision
        then CheckReject (wc_StartRevision r) (ReasonGetRevision (wc_StartRevision r)) 0
        else CheckOk 0 latestRevision
    end.

(** The part under the watcher's lock; [floor] is re-read there.  The boolean
    says whether the watch was added. *)
Definition CreateWatch_locked (ok : bool) (r : WatchCreateRequest) (headerRevision floor watchID : Z)
    (w : Watcher) : bool * Watcher :=
  if negb (wt_inboxOk w) then (false, w)
  else if (0 <? wc_StartRevision r) && (0 <? floor) && (wc_StartRevision r <=? floor)
  then (false, reject_watch ok headerRevision (ReasonCompacted (wc_StartRevision r) floor) floor watchID w)
  else (true, add_watch watchID (entry_of r) (wc_ProgressNotify r) w).

(** The acknowledgement; a failed send cancels the watch. *)
Definition CreateWatch_ack (ok : bool) (headerRevision revision watchID : Z) (w : Watcher) : Watcher :=
  if ok then Send ok (created_msg headerRevision watchID) w
  else CancelWatch ok watchID revision (Some ReasonSendFailed) w.

(** The whole handler with nothing in between. *)
Definition CreateWatch (AutoWatchID : Z) (ok : bool) (id : Z) (r : WatchCreateRequest)
    (latestRevision compactionRevision : Z) (db : database) (m : Manager) : Manager :=
  let floor := watchAdmissionFloor m in
  match CreateWatch_check AutoWatchID r latestRevision compactionRevision floor db with
  | CheckUserID =>
      update_watcher id (reject_watch ok latestRevision ReasonUserWatchID 0 (wc_WatchId r)) m
  | CheckReject revision reason compactRevision =>
      let watchID := wrap64 (watchIDCounter m + 1) in
      update_watcher id (reject_watch ok revision reason compactRevision watchID)
        (set_watchIDCounter watchID m)
  | CheckOk headerRevision revision =>
      let watchID := wrap64 (watchIDCounter m + 1) in
      update_watcher id
        (λ w, match CreateWatch_locked ok r headerRevision floor watchID w with
              | (false, w') => w'
              | (true, w') => CreateWatch_ack ok headerRevision revision watchID w'
              end)
        (set_watchIDCounter watchID m)
  end.

(** ** Progress *)

(** [ReportProgressOnInterval]: one broadcast when every watch asked for
    progress, else one message per watch that did; a full inbox skips. *)
Definition progress_msg (revision watchID : Z) : WatchResponse :=
  mkWatchResponse revision false false None 0 watchID [].

Definition push_or_skip (resp : WatchResponse) (w : Watcher) : Watcher :=
  default w (inbox_push resp w).

Definition ReportProgress (InvalidWatchID revision : Z) (w : Watcher) : Watcher :=
  if negb (wt_inboxOk w) then w
  else
    let ids := (filter (λ p : Z * bool, p.2 = true) (map_to_list (wt_progress w))).*1 in
    if forallb snd (map_to_list (wt_progress w))
    then push_or_skip (progress_msg revision InvalidWatchID) w
    else foldl (λ w watchID, push_or_skip (progress_msg revision watchID) w) w ids.

(** ** The client's Watch stream *)

Inductive WatchRequest :=
| ReqCreate (r : WatchCreateRequest)
| ReqCancel (watchID : Z)
| ReqProgress.

(** One iteration of [watchLoop] on a received message. *)
Definition Watch_request (AutoWatchID InvalidWatchID : Z) (ok : bool) (id : Z) (req : WatchRequest)
    (st : State) (db : database) (m : Manager) : Manager :=
  match req with
  | ReqCreate r => CreateWatch AutoWatchID ok id r (committed st) (compaction st) db m
  | ReqCancel watchID => update_watcher id (CancelWatch ok watchID (committed st) None) m
  | ReqProgress => update_watcher id (ReportProgress InvalidWatchID (committed st)) m
  end.
