(* ===== verification/WatchTheorems.v ===== *)
(** * Theorems on watches

    Watch ranges are etcd ranges; every watch sees the committed events it
    matches, in order and without gaps; the admission floor is safe against
    concurrent watch creation. *)

From S2P Require Import Prelude NodeState Records LocalDB RangeApi RangeTheorems Examples Watch.

#[local] Open Scope Z_scope.

(** ** Ranges *)

Lemma trim_right_zero_snoc p c : c ≠ Byte.x00 → trim_right_zero (p ++ [c]) = p ++ [c].
Proof.
  intros Hc. induction p as [|x p IH]; simpl; [by rewrite bool_decide_eq_false_2|].
  rewrite IH. by destruct p.
Qed.

(** Watches select exactly the keys of their etcd range, the prefix form
    included, for range keys that end neither in 0xff nor, unless the range is
    open to the right, in a zero byte. *)
Theorem isInRange_etcd k p c rangeEnd :
  k ≠ [] → (Byte.to_N c < 255)%N → (c = Byte.x00 → rangeEnd = [Byte.x00]) →
  isInRange k (p ++ [c]) rangeEnd = Some (in_etcd_range (p ++ [c]) rangeEnd k).
Proof.
  intros Hk Hc Hz. rewrite /isInRange /in_etcd_range. rewrite bool_decide_eq_false_2 // last_snoc.
  f_equal. rewrite length_app /=. replace (length p + 1 - 1)%nat with (length p) by lia.
  rewrite take_app_length.
  case_bool_decide as E1; simpl.
  { rewrite trim_right_zero_snoc //. intros Hx. by rewrite (Hz Hx) in E1. }
  case_bool_decide as E2; simpl.
  { rewrite (bool_decide_eq_false_2 (rangeEnd = [Byte.x00])).
    { intros E. rewrite E in E2. apply (f_equal length) in E2. rewrite !length_app /= in E2. lia. }
    rewrite E2 range_singleton trim_right_zero_snoc //. intros Hx. rewrite (Hz Hx) in E2.
    apply (f_equal length) in E2. rewrite !length_app /= in E2. lia. }
  destruct (decide (rangeEnd = [Byte.x00])) as [E3|E3].
  { rewrite !(bool_decide_eq_true_2 (rangeEnd = [Byte.x00])) // andb_true_r.
    case_bool_decide as E4; [|done]. by rewrite E4 bytes_leb_zero. }
  rewrite !(bool_decide_eq_false_2 (rangeEnd = [Byte.x00])) // andb_false_r.
  case_bool_decide as E5; [|done]. injection E5 as <-. symmetry. by apply range_prefix.
Qed.

(** The prefix watch on "/a", which Kubernetes opens as ["/a", "/b"). *)
Lemma isInRange_etcd_witness :
  isInRange (key_a ++ [Byte.x31]) key_a key_b = Some true ∧
  in_etcd_range key_a key_b (key_a ++ [Byte.x31]) = true.
Proof.
  split; [|vm_compute; reflexivity].
  rewrite (isInRange_etcd (key_a ++ [Byte.x31]) [Byte.x2f] Byte.x61 key_b);
    [discriminate|vm_compute; reflexivity|discriminate|vm_compute; reflexivity].
Defined.

(** An empty range key panics on the first record. *)
Lemma isInRange_empty_panics k rangeEnd : k ≠ [] → isInRange k [] rangeEnd = None.
Proof. intros Hk. by rewrite /isInRange bool_decide_eq_false_2. Qed.

(** ** Delivery *)

(** The event messages of one watch the client has been sent. *)
Definition sent_events (wid : Z) (w : Watcher) : list WatchResponse :=
  filter (λ m, wr_WatchId m = wid ∧ wr_Events m ≠ []) (wt_sent w).

(** The event messages of one watch, sent, failed or waiting. *)
Definition stream_events (wid : Z) (w : Watcher) : list WatchResponse :=
  filter (λ m, wr_WatchId m = wid ∧ wr_Events m ≠ [])
    (wt_sent w ++ from_option (λ m, [m]) [] (wt_failed w) ++ wt_inbox w).

Lemma sent_events_prefix wid w : sent_events wid w `prefix_of` stream_events wid w.
Proof. rewrite /stream_events filter_app. apply prefix_app_r. done. Qed.

(** What a watch should see of one distributed record. *)
Definition expected (wid : Z) (e : watchEntry) (x : record * option record) : list WatchResponse :=
  match isWatchMatch e x.1 with
  | Some true => [event_msg x.1 x.2 wid e]
  | _ => []
  end.

Lemma stream_events_push wid msg w w' :
  inbox_push msg w = Some w' →
  stream_events wid w' = stream_events wid w ++ filter (λ m, wr_WatchId m = wid ∧ wr_Events m ≠ []) [msg].
Proof.
  rewrite /inbox_push. case_match; [|done]. intros [= <-].
  by rewrite /stream_events /= !app_assoc filter_app.
Qed.

Lemma stream_events_dispatch wid ok w : stream_events wid (dispatch ok w) = stream_events wid w.
Proof.
  rewrite /dispatch. destruct (wt_failed w) eqn:Ef, (wt_inbox w) as [|msg rest] eqn:E; try done.
  destruct ok; by rewrite /stream_events /= E Ef -?app_assoc.
Qed.

Lemma stream_events_silent wid msg w w' :
  wr_Events msg = [] → inbox_push msg w = Some w' → stream_events wid w' = stream_events wid w.
Proof.
  intros Hm Hp. rewrite (stream_events_push _ _ _ _ Hp) filter_none ?app_nil_r //.
  intros x ->%list_elem_of_singleton [_ Hx]. done.
Qed.

Lemma stream_events_Send wid ok msg w :
  wr_Events msg = [] → stream_events wid (Send ok msg w) = stream_events wid w.
Proof.
  intros Hm. rewrite /Send. destruct ok; [|done]. rewrite /stream_events /= !filter_app.
  by rewrite (filter_none _ [msg]) ?app_nil_r // => x /list_elem_of_singleton -> [].
Qed.

Definition same_watches (w w' : Watcher) : Prop :=
  wt_inboxOk w' = wt_inboxOk w ∧ wt_watches w' = wt_watches w.

Lemma push_same msg w w' : inbox_push msg w = Some w' → same_watches w w'.
Proof. rewrite /inbox_push. case_match; [|done]. by intros [= <-]. Qed.

(** The inner loop: each watch listed gets its message, unless the watcher is
    reported slow. *)
Lemma distribute_watches_spec r prev ws w slow w' :
  distribute_watches r prev ws w = Some (slow, w') → NoDup ws.*1 →
  same_watches w w' ∧
  (∀ wid, wid ∉ ws.*1 → stream_events wid w' = stream_events wid w) ∧
  (∀ wid e, (wid, e) ∈ ws →
     stream_events wid w' = stream_events wid w ++ expected wid e (r, prev) ∨
     slow = true ∧ stream_events wid w' = stream_events wid w).
Proof.
  revert w; induction ws as [|[i e0] ws IH]; intros w; cbn [distribute_watches fmap list_fmap fst].
  { intros [= <- <-] _. split; [done|]. split; [done|]. intros wid e He. by apply elem_of_nil in He. }
  intros Hd [Hni Hnd]%NoDup_cons.
  destruct (isWatchMatch e0 r) as [[]|] eqn:Hm; [| |done].
  - destruct (negb (wt_inboxOk w)); [done|].
    destruct (inbox_push _ w) as [w1|] eqn:Hp.
    + destruct (IH _ Hd Hnd) as (Hs & Hout & Hin). pose proof (push_same _ _ _ Hp) as [S1 S2].
      split; [split; [by rewrite (proj1 Hs)|by rewrite (proj2 Hs)]|]. split.
      * intros wid Hw. rewrite not_elem_of_cons in Hw. destruct Hw as [Hne Hw].
        rewrite (Hout wid Hw) (stream_events_push _ _ _ _ Hp) filter_none ?app_nil_r //.
        intros x ->%list_elem_of_singleton [Hx _]. by apply Hne.
      * intros wid e [[= -> ->]|He]%elem_of_cons.
        -- left. rewrite (Hout _ Hni) (stream_events_push _ _ _ _ Hp) /expected Hm.
           by rewrite filter_all // => x /list_elem_of_singleton ->.
        -- assert (wid ≠ i) as Hne.
           { intros ->. apply Hni. apply list_elem_of_fmap. by exists (i, e). }
           assert (stream_events wid w1 = stream_events wid w) as Heq.
           { rewrite (stream_events_push _ _ _ _ Hp) filter_none ?app_nil_r //.
             intros x ->%list_elem_of_singleton [Hx _]. by apply Hne. }
           rewrite -Heq. by apply Hin.
    + injection Hd as <- <-. split; [done|]. split; [done|]. intros wid e _. by right.
  - destruct (IH _ Hd Hnd) as (Hs & Hout & Hin). split; [done|]. split.
    + intros wid Hw. rewrite not_elem_of_cons in Hw. by apply Hout, Hw.
    + intros wid e [[= -> ->]|He]%elem_of_cons; [|by apply Hin].
      left. by rewrite (Hout _ Hni) /expected Hm app_nil_r.
Qed.

(** The outer loop touches each registered watcher once. *)
Lemma distribute_watchers_spec r prev ids m slow m' :
  distribute_watchers r prev ids m = Some (slow, m') → NoDup ids →
  wm_watchers m' = wm_watchers m ∧
  (∀ id, id ∉ ids → wm_objects m' !! id = wm_objects m !! id ∧ id ∉ slow) ∧
  (∀ id w, id ∈ ids → wm_objects m !! id = Some w →
     ∃ s w', distribute_watches r prev (map_to_list (wt_watches w)) w = Some (s, w') ∧
       wm_objects m' !! id = Some w' ∧ (s = true ↔ id ∈ slow)).
Proof.
  revert m slow m'; induction ids as [|i ids IH]; intros m slow m'; cbn [distribute_watchers].
  { intros [= <- <-] _. split; [done|]. split; [|by intros id w ?%elem_of_nil].
    intros id _. split; [done|apply not_elem_of_nil]. }
  intros Hd [Hni Hnd]%NoDup_cons. destruct (wm_objects m !! i) as [w|] eqn:Hi.
  - destruct (distribute_watches _ _ _ w) as [[s w1]|] eqn:Hw; [|done].
    destruct (distribute_watchers _ _ _ _) as [[slow1 m1]|] eqn:Hr; [|done].
    injection Hd as <- <-. destruct (IH _ _ _ Hr Hnd) as (Hws & Hout & Hin). simpl in *.
    assert (∀ id, id ≠ i → id ∈ (if s then i :: slow1 else slow1) ↔ id ∈ slow1) as Hsl.
    { intros id Hne. destruct s; [|done]. rewrite elem_of_cons. naive_solver. }
    split; [done|]. split.
    + intros id [Hne Hn]%not_elem_of_cons. destruct (Hout id Hn) as [-> ?].
      rewrite lookup_insert_ne //. split; [done|]. by rewrite Hsl.
    + intros id w0 [->|Hid]%elem_of_cons Hw0.
      * rewrite Hi in Hw0. injection Hw0 as <-. exists s, w1. split; [done|].
        destruct (Hout i Hni) as [-> Hns]. rewrite lookup_insert_eq. split; [done|].
        destruct s; [|naive_solver]. rewrite elem_of_cons. naive_solver.
      * assert (id ≠ i) as Hne by (by intros ->).
        destruct (Hin id w0) as (s1 & w2 & ? & ? & Hs1); [done|by rewrite lookup_insert_ne|].
        exists s1, w2. split; [done|]. split; [done|]. by rewrite Hs1 Hsl.
  - destruct (IH _ _ _ Hd Hnd) as (Hws & Hout & Hin). split; [done|]. split.
    + intros id [_ Hn]%not_elem_of_cons. by apply Hout.
    + intros id w [->|Hid]%elem_of_cons Hw; [congruence|]. by apply Hin.
Qed.

Lemma cleanup_all_objects slow m id :
  wm_objects (foldl (λ m id, Cleanup id m) m slow) !! id
  = (if decide (id ∈ slow) then close_watcher else Datatypes.id) <$> wm_objects m !! id.
Proof.
  revert m; induction slow as [|i slow IH]; intros m; simpl.
  { by destruct (wm_objects m !! id). }
  rewrite IH /Cleanup /update_watcher /=. destruct (decide (id = i)) as [->|Hne].
  - rewrite lookup_alter_eq (decide_True _ _ (proj2 (elem_of_cons slow i i) (or_introl eq_refl))).
    destruct (wm_objects m !! i) as [w|]; simpl; [|by case_decide]. f_equal.
    case_decide; [|done]. rewrite {1}/close_watcher. rewrite /close_watcher. by destruct (wt_inboxOk w) eqn:E; rewrite /= ?E.
  - rewrite lookup_alter_ne //. destruct (decide (id ∈ slow)) as [Hin|Hn].
    + rewrite decide_True //. apply elem_of_cons. by right.
    + rewrite decide_False //. rewrite elem_of_cons. naive_solver.
Qed.

Lemma cleanup_all_watchers slow m id :
  id ∈ wm_watchers (foldl (λ m id, Cleanup id m) m slow) ↔ id ∈ wm_watchers m ∧ id ∉ slow.
Proof.
  revert m; induction slow as [|i slow IH]; intros m; simpl.
  { split; [|naive_solver]. intros. split; [done|apply not_elem_of_nil]. }
  rewrite IH /Cleanup /update_watcher /Unregister /= not_elem_of_cons. set_solver.
Qed.

(** What a watch of an open watcher gets from [Distribute]. *)
Lemma Distribute_open r prev m m' id w wid e :
  Distribute r prev m = Some m' → id ∈ wm_watchers m → wm_objects m !! id = Some w →
  wt_inboxOk w = true → wt_watches w !! wid = Some e →
  ∃ w', wm_objects m' !! id = Some w' ∧
    ((id ∈ wm_watchers m' ∧ same_watches w w' ∧
       (stream_events wid w' = stream_events wid w ++ expected wid e (r, prev)))
     ∨ (id ∉ wm_watchers m') ∧ wt_inboxOk w' = false ∧
       (stream_events wid w' = stream_events wid w ++ expected wid e (r, prev) ∨
        stream_events wid w' = stream_events wid w)).
Proof.
  intros Hd Hid Hw Hok He. rewrite /Distribute in Hd.
  destruct (distribute_watchers _ _ _ _) as [[slow m1]|] eqn:Hdw; [|done]. injection Hd as <-.
  destruct (distribute_watchers_spec _ _ _ _ _ _ Hdw (NoDup_elements _)) as (Hws & _ & Hin).
  destruct (Hin id w) as (s & w1 & Hdist & Hw1 & Hs); [by apply elem_of_elements|done|].
  destruct (distribute_watches_spec _ _ _ _ _ _ Hdist (NoDup_fst_map_to_list _)) as (Hsame & _ & Hev).
  pose proof (cleanup_all_objects slow m1 id) as Hobj. rewrite Hw1 in Hobj.
  pose proof (cleanup_all_watchers slow m1 id) as Hreg. rewrite Hws in Hreg.
  destruct (decide (id ∈ slow)) as [Hsl|Hsl]; simpl in Hobj.
  - exists (close_watcher w1). split; [done|]. right. destruct Hsame as [Hok1 _].
    rewrite /close_watcher Hok1 Hok /=. split; [rewrite Hreg; naive_solver|]. split; [done|].
    destruct (Hev wid e) as [Hevs|[_ Hevs]]; [by apply elem_of_map_to_list|by left|by right].
  - exists w1. split; [done|]. left. rewrite Hreg. split; [done|]. split; [done|].
    destruct (Hev wid e) as [Hevs|[-> _]]; [by apply elem_of_map_to_list|done|]. naive_solver.
Qed.

(** A watcher that has left the map is not touched. *)
Lemma Distribute_closed r prev m m' id :
  Distribute r prev m = Some m' → id ∉ wm_watchers m →
  wm_objects m' !! id = wm_objects m !! id ∧ id ∉ wm_watchers m'.
Proof.
  rewrite /Distribute => Hd Hid.
  destruct (distribute_watchers _ _ _ _) as [[slow m1]|] eqn:Hdw; [|done]. injection Hd as <-.
  destruct (distribute_watchers_spec _ _ _ _ _ _ Hdw (NoDup_elements _)) as (Hws & Hout & _).
  destruct (Hout id) as [Hobj Hns]; [by rewrite elem_of_elements|].
  rewrite cleanup_all_objects Hobj (cleanup_all_watchers slow m1 id) Hws.
  split; [|naive_solver]. case_decide as Hc; [by destruct (Hns Hc)|]. by destruct (wm_objects m !! id).
Qed.

(** ** Streams over time

    What can happen to the manager while one watch, number [wid] of watcher
    [id], is open, other than its own cancellation: the log collects the
    distributed records. *)

Inductive watch_step (id wid : Z) :
  Manager * list (record * option record) → Manager * list (record * option record) → Prop :=
| step_distribute r prev m m' L :
    Distribute r prev m = Some m' → watch_step id wid (m, L) (m', L ++ [(r, prev)])
| step_dispatch ok i m L : watch_step id wid (m, L) (update_watcher i (dispatch ok) m, L)
| step_progress inv rev i m L :
    watch_step id wid (m, L) (update_watcher i (ReportProgress inv rev) m, L)
| step_cleanup i m L : watch_step id wid (m, L) (Cleanup i m, L)
| step_register m L : (Register m).1 ≠ id → watch_step id wid (m, L) ((Register m).2, L)
| step_create auto ok i r latest comp db m L :
    wrap64 (watchIDCounter m + 1) ≠ wid →
    watch_step id wid (m, L) (CreateWatch auto ok i r latest comp db m, L)
| step_cancel ok i wid' rev reason m L :
    (i, wid') ≠ (id, wid) → watch_step id wid (m, L) (update_watcher i (CancelWatch ok wid' rev reason) m, L)
| step_floor f m L : watch_step id wid (m, L) (set_floor f m, L)
| step_pending p m L : watch_step id wid (m, L) (set_pending p m, L).

(** Updates that leave watch [wid] and its events alone. *)
Definition benign (wid : Z) (f : Watcher → Watcher) : Prop :=
  ∀ w, wt_inboxOk (f w) = wt_inboxOk w ∧ wt_watches (f w) !! wid = wt_watches w !! wid ∧
       stream_events wid (f w) = stream_events wid w.

Lemma benign_compose wid f g : benign wid f → benign wid g → benign wid (λ w, g (f w)).
Proof.
  intros Hf Hg w. destruct (Hf w) as (F1 & F2 & F3), (Hg (f w)) as (G1 & G2 & G3).
  by rewrite G1 G2 G3.
Qed.

Lemma benign_Send wid ok msg : wr_Events msg = [] → benign wid (Send ok msg).
Proof.
  intros Hm w. split; [by destruct ok|]. split; [by destruct ok|]. by apply stream_events_Send.
Qed.

Lemma benign_dispatch wid ok : benign wid (dispatch ok).
Proof.
  intros w. rewrite stream_events_dispatch /dispatch.
  by destruct (wt_failed w), (wt_inbox w), ok.
Qed.

Lemma benign_push wid msg : wr_Events msg = [] → benign wid (push_or_skip msg).
Proof.
  intros Hm w. rewrite /push_or_skip. destruct (inbox_push msg w) as [w'|] eqn:Hp; simpl; [|done].
  destruct (push_same _ _ _ Hp) as [-> ->]. by rewrite (stream_events_silent _ _ _ _ Hm Hp).
Qed.

Lemma benign_ReportProgress wid inv rev : benign wid (ReportProgress inv rev).
Proof.
  intros w. rewrite /ReportProgress. destruct (negb _); [done|].
  destruct (forallb _ _); [by apply benign_push|].
  generalize ((filter (λ p : Z * bool, p.2 = true) (map_to_list (wt_progress w))).*1). intros l.
  revert w; induction l as [|i l IH]; intros w; [done|]. simpl.
  destruct (IH (push_or_skip (progress_msg rev i) w)) as (E1 & E2 & E3). rewrite E1 E2 E3.
  by apply benign_push.
Qed.

Lemma benign_Cancel wid ok wid' rev reason : wid' ≠ wid → benign wid (CancelWatch ok wid' rev reason).
Proof.
  intros Hne. rewrite /CancelWatch. apply (benign_compose wid (λ w, mkWatcher (wt_sent w) (wt_failed w) (wt_inbox w)
    (wt_inboxOk w) (delete wid' (wt_watches w)) (delete wid' (wt_progress w)))); [|by apply benign_Send].
  intros w. split; [done|]. by rewrite /= lookup_delete_ne.
Qed.

Lemma benign_reject wid ok rev reason comp wid' : benign wid (reject_watch ok rev reason comp wid').
Proof.
  by apply (benign_compose wid (Send ok (created_msg rev wid')) (Send ok (canceled_msg rev reason comp wid')));
    apply benign_Send.
Qed.

Lemma benign_add wid wid' e p : wid' ≠ wid → benign wid (add_watch wid' e p).
Proof. intros Hne w. split; [done|]. by rewrite /= lookup_insert_ne. Qed.

Lemma benign_create wid ok r header rev floor wid' :
  wid' ≠ wid →
  benign wid (λ w, match CreateWatch_locked ok r header floor wid' w with
                   | (false, w') => w'
                   | (true, w') => CreateWatch_ack ok header rev wid' w'
                   end).
Proof.
  intros Hne w. rewrite /CreateWatch_locked. destruct (negb _); [done|].
  destruct (_ && _)%bool; [by apply benign_reject|].
  destruct (benign_add wid wid' (entry_of r) (wc_ProgressNotify r) Hne w) as (<- & <- & <-).
  rewrite /CreateWatch_ack. destruct ok; [by apply benign_Send|by apply benign_Cancel].
Qed.

(** [CreateWatch] is a benign update of one watcher. *)
Lemma CreateWatch_benign wid auto ok i r latest comp db m :
  wrap64 (watchIDCounter m + 1) ≠ wid →
  ∃ f c, benign wid f ∧
    CreateWatch auto ok i r latest comp db m = update_watcher i f (set_watchIDCounter c m).
Proof.
  intros Hne. rewrite /CreateWatch. destruct (CreateWatch_check _ _ _ _ _ _).
  - eexists _, _. split; [apply benign_reject|done].
  - eexists _, (watchIDCounter m). split; [apply benign_reject|]. by destruct m.
  - eexists _, _. split; [by apply benign_create|done].
Qed.

Definition watch_inv (id wid : Z) (e : watchEntry) (ev0 : list WatchResponse)
    (c : Manager * list (record * option record)) : Prop :=
  ∃ w, wm_objects c.1 !! id = Some w ∧
    ((id ∈ wm_watchers c.1 ∧ wt_inboxOk w = true ∧ wt_watches w !! wid = Some e ∧
      stream_events wid w = ev0 ++ (c.2 ≫= expected wid e)) ∨
     ((id ∉ wm_watchers c.1) ∧ wt_inboxOk w = false ∧
      ∃ seen, seen `prefix_of` c.2 ≫= expected wid e ∧ stream_events wid w = ev0 ++ seen)).

Lemma watch_inv_update id wid e ev0 m L i f :
  (i = id → benign wid f) → watch_inv id wid e ev0 (m, L) →
  watch_inv id wid e ev0 (update_watcher i f m, L).
Proof.
  intros Hf (w & Hw & Hcase). rewrite /watch_inv /update_watcher /=.
  destruct (decide (i = id)) as [->|Hne].
  - exists (f w). rewrite lookup_alter_eq Hw. split; [done|].
    destruct (Hf eq_refl w) as (-> & -> & ->). done.
  - exists w. rewrite lookup_alter_ne //.
Qed.

Lemma watch_inv_cleanup id wid e ev0 m L i :
  watch_inv id wid e ev0 (m, L) → watch_inv id wid e ev0 (Cleanup i m, L).
Proof.
  intros (w & Hw & Hcase). rewrite /watch_inv /Cleanup /update_watcher /=.
  destruct (decide (i = id)) as [->|Hne].
  - exists (close_watcher w). rewrite lookup_alter_eq Hw. split; [done|]. right.
    split; [set_solver|]. rewrite /close_watcher.
    destruct Hcase as [(_ & Hok & _ & Hev)|(_ & Hok & Hev)]; rewrite Hok /=; split; try done.
    exists (L ≫= expected wid e). by split.
  - exists w. rewrite lookup_alter_ne //. split; [done|].
    destruct Hcase as [(Hin & Hrest)|(Hin & Hrest)]; [left|right]; (split; [set_solver|done]).
Qed.

Lemma watch_inv_distribute id wid e ev0 m L r prev m' :
  Distribute r prev m = Some m' → watch_inv id wid e ev0 (m, L) →
  watch_inv id wid e ev0 (m', L ++ [(r, prev)]).
Proof.
  intros Hd (w & Hw & Hcase). rewrite /watch_inv /= bind_app /= app_nil_r.
  destruct Hcase as [(Hin & Hok & He & Hev)|(Hin & Hok & seen & Hpre & Hev)].
  - destruct (Distribute_open _ _ _ _ _ _ _ _ Hd Hin Hw Hok He)
      as (w' & Hw' & [(Hin' & [Ho Hs] & Hev')|(Hin' & Ho & Hev')]); exists w'; (split; [done|]).
    + left. rewrite Ho Hs Hev' Hev -app_assoc. done.
    + right. split; [done|]. split; [done|]. simpl in Hev. rewrite Hev in Hev'.
      destruct Hev' as [->| ->].
      * eexists. rewrite -app_assoc. split; [|done]. done.
      * eexists. split; [|done]. by apply prefix_app_r.
  - destruct (Distribute_closed _ _ _ _ _ Hd Hin) as [Hobj Hin']. exists w.
    rewrite Hobj. split; [done|]. right. split; [done|]. split; [done|]. exists seen.
    split; [|done]. by apply prefix_app_r.
Qed.

Lemma watch_inv_step id wid e ev0 c c' :
  watch_step id wid c c' → watch_inv id wid e ev0 c → watch_inv id wid e ev0 c'.
Proof.
  destruct 1; intros Hinv.
  - by eapply watch_inv_distribute.
  - apply watch_inv_update; [|done]. intros _. apply benign_dispatch.
  - apply watch_inv_update; [|done]. intros _. apply benign_ReportProgress.
  - by apply watch_inv_cleanup.
  - destruct Hinv as (w & Hw & Hcase). exists w. rewrite /= lookup_insert_ne //. split; [done|].
    destruct Hcase as [(Hin & ?)|(Hin & ?)]; [left|right]; (split; [|done]); simpl in *; set_solver.
  - destruct (CreateWatch_benign wid auto ok i r latest comp db m) as (f & c & Hf & ->); [done|].
    apply watch_inv_update; [done|]. exact Hinv.
  - apply watch_inv_update; [|done]. intros ->. apply benign_Cancel. by intros ->.
  - exact Hinv.
  - exact Hinv.
Qed.



(** ** No panics *)

Definition manager_wf (m : Manager) : Prop :=
  ∀ id, id ∈ wm_watchers m → ∃ w, wm_objects m !! id = Some w ∧ wt_inboxOk w = true ∧
    ∀ wid e, wt_watches w !! wid = Some e → we_key e ≠ [].

Lemma isInRange_total k rk re : rk ≠ [] → ∃ b, isInRange k rk re = Some b.
Proof.
  intros Hk. rewrite /isInRange. destruct (last rk) eqn:Hl; [|by apply last_None in Hl].
  destruct (bool_decide (k = [])); eexists; reflexivity.
Qed.

Lemma distribute_watches_total r prev ws w :
  wt_inboxOk w = true → (∀ wid e, (wid, e) ∈ ws → we_key e ≠ []) →
  ∃ slow w', distribute_watches r prev ws w = Some (slow, w').
Proof.
  revert w; induction ws as [|[i e] ws IH]; intros w Hok Hws; cbn [distribute_watches]; [by eexists _, _|].
  assert (∃ b, isWatchMatch e r = Some b) as [b ->].
  { rewrite /isWatchMatch. repeat (case_match; [by eexists|]). apply isInRange_total.
    apply (Hws i). by left. }
  assert (∀ wid e, (wid, e) ∈ ws → we_key e ≠ []) as Hws'.
  { intros wid e' He. apply (Hws wid). by right. }
  destruct b; [|by apply IH]. rewrite Hok /=. destruct (inbox_push _ w) as [w1|] eqn:Hp; [|by eexists _, _].
  apply IH; [|done]. destruct (push_same _ _ _ Hp) as [-> _]. done.
Qed.

Lemma distribute_watchers_total r prev ids m :
  NoDup ids → (∀ id, id ∈ ids → ∃ w, wm_objects m !! id = Some w ∧ wt_inboxOk w = true ∧
    ∀ wid e, wt_watches w !! wid = Some e → we_key e ≠ []) →
  ∃ slow m', distribute_watchers r prev ids m = Some (slow, m').
Proof.
  revert m; induction ids as [|i ids IH]; intros m; cbn [distribute_watchers]; [by eexists _, _|].
  intros [Hni Hnd]%NoDup_cons Hids. destruct (Hids i) as (w & Hw & Hok & Hkeys); [by left|]. rewrite Hw.
  destruct (distribute_watches_total r prev (map_to_list (wt_watches w)) w Hok) as (s & w' & ->).
  { intros wid e He%elem_of_map_to_list. by eapply Hkeys. }
  destruct (IH (set_objects (<[i := w']> (wm_objects m)) m)) as (sl & m' & ->); [done| |by eexists _, _].
  intros id Hid. simpl. rewrite lookup_insert_ne; [by intros ->|]. apply Hids. by right.
Qed.

Lemma Distribute_wf r prev m :
  manager_wf m → ∃ m', Distribute r prev m = Some m' ∧ manager_wf m'.
Proof.
  intros Hwf. rewrite /Distribute.
  destruct (distribute_watchers_total r prev (elements (wm_watchers m)) m) as (slow & m1 & Hd);
    [apply NoDup_elements|intros id Hid%elem_of_elements; by apply Hwf|].
  rewrite Hd. eexists. split; [done|]. intros id [Hid Hns]%cleanup_all_watchers.
  destruct (distribute_watchers_spec _ _ _ _ _ _ Hd (NoDup_elements _)) as (Hws & _ & Hin).
  rewrite Hws in Hid. destruct (Hwf id Hid) as (w & Hw & Hok & Hkeys).
  destruct (Hin id w) as (s & w1 & Hdw & Hw1 & _); [by apply elem_of_elements|done|].
  destruct (distribute_watches_spec _ _ _ _ _ _ Hdw (NoDup_fst_map_to_list _)) as ([Ho Hs] & _).
  exists w1. rewrite cleanup_all_objects Hw1 decide_False //=. by rewrite Ho Hs.
Qed.

(** Distribution never panics while every registered watch has a key: the
    watchers in the map are open, so no message goes to a closed channel, and
    the map stays that way. *)
Theorem Distribute_total r prev m :
  manager_wf m → ∃ m', Distribute r prev m = Some m' ∧ manager_wf m'.
Proof. apply Distribute_wf. Qed.

Lemma Distribute_total_witness :
  ∃ m', Distribute (txn_record 1 key_a true false 0 None) None (Register NewManager).2 = Some m' ∧
        manager_wf m'.
Proof.
  apply (Distribute_total (txn_record 1 key_a true false 0 None) None (Register NewManager).2).
  intros id Hid. exists Watcher_empty. assert (id = 1) as ->.
  { change (id ∈ ({[1]} ∪ ∅ : gset Z)) in Hid. set_solver. }
  split; [reflexivity|]. split; [reflexivity|]. intros wid e He. by rewrite lookup_empty in He.
Defined.

(** ** The admission floor against concurrent watch creation *)

Inductive floor_phase :=
| FloorIdle
| FloorScan (previous revision : Z) (todo : list Z)
| FloorDone (confirmed : bool) (revision : Z).

Definition watcher_below (revision : Z) (w : Watcher) : bool :=
  existsb (below_floor revision) ((map_to_list (wt_watches w)).*2).

(** [SetWatchAdmissionFloor] stores the floor and then looks at one watcher at a
    time under its lock, while streams create and cancel watches, each under
    its watcher's lock.  The manager's map is locked meanwhile. *)
Inductive floor_step : Manager * floor_phase → Manager * floor_phase → Prop :=
| floor_store revision m :
    floor_step (m, FloorIdle)
      (set_floor revision m, FloorScan (watchAdmissionFloor m) revision (elements (wm_watchers m)))
| floor_look previous revision id w todo m :
    wm_objects m !! id = Some w → watcher_below revision w = false →
    floor_step (m, FloorScan previous revision (id :: todo)) (m, FloorScan previous revision todo)
| floor_refuse previous revision id w todo m :
    wm_objects m !! id = Some w → watcher_below revision w = true →
    floor_step (m, FloorScan previous revision (id :: todo))
      (set_floor previous m, FloorDone false revision)
| floor_confirm previous revision m :
    floor_step (m, FloorScan previous revision []) (m, FloorDone true revision)
| floor_create ok id r header watchID m ph :
    floor_step (m, ph)
      (update_watcher id (λ w, (CreateWatch_locked ok r header (watchAdmissionFloor m) watchID w).2) m, ph)
| floor_cancel ok id watchID revision reason m ph :
    floor_step (m, ph) (update_watcher id (CancelWatch ok watchID revision reason) m, ph).

Definition clear_of (revision : Z) (w : Watcher) : Prop :=
  ∀ wid e, wt_watches w !! wid = Some e → 0 < we_startRevision e → revision ≤ we_startRevision e.

Lemma watcher_below_clear revision w : watcher_below revision w = false → clear_of revision w.
Proof.
  rewrite /watcher_below existsb_false => Hb wid e He Hpos.
  assert (below_floor revision e = false) as Hf.
  { apply Hb, list_elem_of_fmap. exists (wid, e). split; [done|]. by apply elem_of_map_to_list. }
  rewrite /below_floor in Hf. apply andb_false_iff in Hf as [Hf|Hf]; bool_to_prop; lia.
Qed.

Lemma CreateWatch_locked_clear ok r header floor wid w :
  clear_of floor w → clear_of floor (CreateWatch_locked ok r header floor wid w).2.
Proof.
  intros Hc. rewrite /CreateWatch_locked. destruct (negb _); [done|].
  destruct (_ && _)%bool eqn:E; simpl.
  - by rewrite /reject_watch /Send; destruct ok.
  - intros i e. rewrite /= lookup_insert. case_decide; [|by apply Hc].
    intros [= <-] Hpos. simpl in *. rewrite !andb_false_iff in E.
    destruct E as [[E|E]|E]; bool_to_prop; lia.
Qed.

Lemma CancelWatch_clear floor ok wid rev reason w :
  clear_of floor w → clear_of floor (CancelWatch ok wid rev reason w).
Proof.
  intros Hc i e. rewrite /CancelWatch /Send.
  destruct ok; simpl; intros [_ He]%lookup_delete_Some; by apply (Hc i).
Qed.

(** Whatever the phase says has been checked is clear of the floor. *)
Definition floor_inv (c : Manager * floor_phase) : Prop :=
  match c.2 with
  | FloorScan _ revision todo =>
      watchAdmissionFloor c.1 = revision ∧
      ∀ id w, id ∈ wm_watchers c.1 → id ∉ todo → wm_objects c.1 !! id = Some w → clear_of revision w
  | FloorDone true revision =>
      watchAdmissionFloor c.1 = revision ∧
      ∀ id w, id ∈ wm_watchers c.1 → wm_objects c.1 !! id = Some w → clear_of revision w
  | _ => True
  end.

Lemma floor_inv_update m ph id f :
  (∀ w, clear_of (watchAdmissionFloor m) w → clear_of (watchAdmissionFloor m) (f w)) →
  floor_inv (m, ph) → floor_inv (update_watcher id f m, ph).
Proof.
  intros Hf. assert (∀ i w, wm_objects (update_watcher id f m) !! i = Some w →
    (∀ w0, wm_objects m !! i = Some w0 → clear_of (watchAdmissionFloor m) w0) →
    clear_of (watchAdmissionFloor m) w) as Hobj.
  { intros i w Hi Hw0. simpl in Hi. apply lookup_alter_Some in Hi as [(-> & w1 & Hw1 & ->)|[_ Hi]];
      [by apply Hf, Hw0|by apply Hw0]. }
  destruct ph as [|previous revision todo|[] revision]; try done; intros [<- Hc]; (split; [done|]).
  - intros i w Hi Hn Hw. apply (Hobj i w Hw). intros w0 Hw0. by apply (Hc i).
  - intros i w Hi Hw. apply (Hobj i w Hw). intros w0 Hw0. by apply (Hc i).
Qed.

Lemma floor_inv_step c c' : floor_step c c' → floor_inv c → floor_inv c'.
Proof.
  destruct 1 as [revision m|previous revision id w todo m Hw Hb|previous revision id w todo m Hw Hb
                |previous revision m|ok id r header watchID m ph|ok id watchID revision reason m ph]; intros Hinv.
  - split; [done|]. intros id w Hid Hn. destruct Hn. by apply elem_of_elements.
  - destruct Hinv as [Hf Hc]. split; [done|]. intros i w0 Hi Hn Hw0.
    destruct (decide (i = id)) as [->|Hne].
    + simpl in Hw0. rewrite Hw in Hw0. injection Hw0 as <-. by apply watcher_below_clear.
    + apply (Hc i); [done| |done]. rewrite elem_of_cons. naive_solver.
  - done.
  - destruct Hinv as [Hf Hc]. split; [done|]. intros i w Hi Hw. apply (Hc i); [done|apply not_elem_of_nil|done].
  - apply floor_inv_update; [|done]. intros w. apply CreateWatch_locked_clear.
  - apply floor_inv_update; [|done]. intros w. apply CancelWatch_clear.
Qed.

(** C30: the admission floor is safe: however the check interleaves with watch
    creation and cancellation, from the moment a compaction notice is confirmed
    no registered watcher has an active watch that starts below the compaction
    revision. *)
Theorem floor_confirmed_clear m0 m revision id w wid e :
  rtc floor_step (m0, FloorIdle) (m, FloorDone true revision) →
  id ∈ wm_watchers m → wm_objects m !! id = Some w → wt_watches w !! wid = Some e →
  we_startRevision e ≤ 0 ∨ revision ≤ we_startRevision e.
Proof.
  intros Hr Hid Hw He.
  assert (floor_inv (m, FloorDone true revision)) as [_ Hc].
  { apply (rtc_invariant _ _ floor_inv_step _ _ Hr). done. }
  specialize (Hc id w Hid Hw wid e He).
  destruct (Z.lt_ge_cases 0 (we_startRevision e)); auto.
Qed.

(** Between the store and the look at watcher 1, a watch from revision 3 is
    refused by the new floor and one from revision 9 admitted. *)
Lemma floor_confirmed_clear_witness :
  ∃ m w, rtc floor_step ((Register NewManager).2, FloorIdle) (m, FloorDone true 5) ∧
    wm_objects m !! 1 = Some w ∧ (we_startRevision <$> wt_watches w !! 3) = Some 9 ∧
    wt_watches w !! 2 = None ∧ 5 ≤ 9.
Proof.
  set (req s := mkWatchCreate key_a [] s false [] false 0).
  eassert (rtc floor_step ((Register NewManager).2, FloorIdle) (_, FloorDone true 5)) as Hrun.
  { eapply rtc_l; [apply (floor_store 5)|].
    eapply rtc_l; [apply (floor_create true 1 (req 3) 0 2)|].
    eapply rtc_l; [apply (floor_create true 1 (req 9) 0 3)|].
    eapply rtc_l; [eapply (floor_look 0 5 1 _ []); vm_compute; reflexivity|].
    eapply rtc_l; [apply floor_confirm|]. apply rtc_refl. }
  match type of Hrun with rtc _ _ (?m, _) => exists m end.
  eexists. split; [exact Hrun|]. split; [vm_compute; reflexivity|]. split; [reflexivity|]. split; [reflexivity|].
  assert (9 ≤ 0 ∨ 5 ≤ 9) as [H|H]; [|done|exact H].
  eapply (floor_confirmed_clear _ _ 5 1 _ 3 (entry_of (req 9)) Hrun); vm_compute; reflexivity.
Defined.

(** The atomic [SetWatchAdmissionFloor] is one run of these steps. *)
Lemma scan_steps ids m previous revision :
  (∀ id, id ∈ ids → is_Some (wm_objects m !! id)) →
  let hit := existsb (below_floor revision)
               (id ← ids; match wm_objects m !! id with
                          | Some w => (map_to_list (wt_watches w)).*2 | None => [] end) in
  rtc floor_step (m, FloorScan previous revision ids)
    (if hit then set_floor previous m else m, FloorDone (negb hit) revision).
Proof.
  induction ids as [|i ids IH]; intros Hids; simpl.
  { apply rtc_once, floor_confirm. }
  destruct (Hids i) as [w Hw]; [by left|]. rewrite Hw existsb_app.
  fold (watcher_below revision w). destruct (watcher_below revision w) eqn:Hb; simpl.
  - apply rtc_once. by eapply floor_refuse.
  - eapply rtc_l; [by eapply floor_look|]. apply IH. intros id Hid. apply Hids. by right.
Qed.

Lemma SetWatchAdmissionFloor_steps revision m :
  (∀ id, id ∈ wm_watchers m → is_Some (wm_objects m !! id)) →
  rtc floor_step (m, FloorIdle)
    ((SetWatchAdmissionFloor revision m).2, FloorDone (SetWatchAdmissionFloor revision m).1 revision).
Proof.
  intros Hm. eapply rtc_l; [apply floor_store|].
  pose proof (scan_steps (elements (wm_watchers m)) (set_floor revision m) (watchAdmissionFloor m) revision) as H.
  rewrite /SetWatchAdmissionFloor /active_entries. simpl in H.
  assert (∀ id, id ∈ elements (wm_watchers m) → is_Some (wm_objects m !! id)) as Hm'.
  { intros id Hid%elem_of_elements. by apply Hm. }
  specialize (H Hm'). destruct (existsb _ _); [by destruct m|done].
Qed.

(** ** Delivery on a Replica *)

Lemma Distribute_pending r prev m m' : Distribute r prev m = Some m' → wm_pending m' = wm_pending m.
Proof.
  rewrite /Distribute. destruct (distribute_watchers _ _ _ _) as [[slow m1]|] eqn:Hd; [|done].
  intros [= <-]. transitivity (wm_pending m1).
  - clear. revert m1; induction slow as [|i slow IH]; intros m; [done|]. apply (IH (Cleanup i m)).
  - generalize dependent (elements (wm_watchers m)). intros ids.
    revert m slow m1; induction ids as [|i ids IH]; intros m slow m1; cbn [distribute_watchers].
    { by intros [= _ <-]. }
    destruct (wm_objects m !! i) as [w|]; [|apply IH].
    destruct (distribute_watches _ _ _ w) as [[s w1]|]; [|done].
    destruct (distribute_watchers _ _ _ _) as [[sl m2]|] eqn:Hr; [|done].
    intros [= _ <-]. by apply IH in Hr.
Qed.

(** Distributing a list of revisions from the database. *)
Lemma distribute_all_inv id wid e ev0 db revs m m' L :
  distribute_all db revs m = Some m' → watch_inv id wid e ev0 (m, L) →
  watch_inv id wid e ev0 (m', L ++ omap (record_and_prev db) revs) ∧ wm_pending m' = wm_pending m.
Proof.
  rewrite /distribute_all. revert m L; induction revs as [|r revs IH]; intros m L; simpl.
  { intros [= <-]. by rewrite app_nil_r. }
  rewrite {2}/distributeFromDB. destruct (record_and_prev db r) as [[x prev]|]; [|apply IH].
  destruct (Distribute x prev m) as [m1|] eqn:Hd; simpl.
  - intros Hf Hinv. apply (watch_inv_distribute _ _ _ _ _ _ _ _ _ Hd) in Hinv.
    destruct (IH _ _ Hf Hinv) as [H1 H2]. rewrite -app_assoc in H1.
    rewrite (Distribute_pending _ _ _ _ Hd) in H2. done.
  - intros Hf. exfalso. clear -Hf. induction revs as [|y revs IH]; simpl in Hf; [done|by apply IH].
Qed.

Lemma ready_revisions_spec rev m :
  StronglySorted Z.lt (ready_revisions rev m) ∧
  ∀ r, r ∈ ready_revisions rev m ↔ r ∈ wm_pending m ∧ r ≤ rev.
Proof.
  rewrite /ready_revisions. set (l := elements _).
  assert (NoDup (merge_sort Z.le l)) as Hnd.
  { rewrite (merge_sort_Permutation Z.le l). apply NoDup_elements. }
  split.
  - pose proof (StronglySorted_merge_sort Z.le l) as Hs. revert Hnd Hs.
    induction (merge_sort Z.le l) as [|x l' IH]; intros Hnd Hs; [constructor|].
    apply NoDup_cons in Hnd as [Hx Hnd]. apply StronglySorted_cons in Hs as [Hall Hs].
    constructor; [by apply IH|]. apply Forall_forall. intros y Hy.
    pose proof (proj1 (Forall_forall _ _) Hall y Hy). assert (x ≠ y) by (by intros ->). lia.
  - intros r. rewrite (merge_sort_Permutation Z.le l) elem_of_elements elem_of_filter. naive_solver.
Qed.

(** On a Replica, a commit delivers the pending revisions it covers exactly
    once and in ascending order, and keeps the others pending: an open watch
    gets the events of those records it matches, in revision order. *)
Theorem AdvanceCommittedRevision_delivers rev db m m' id wid e w0 :
  AdvanceCommittedRevision rev db m = Some m' →
  id ∈ wm_watchers m → wm_objects m !! id = Some w0 → wt_inboxOk w0 = true →
  wt_watches w0 !! wid = Some e →
  wm_pending m' = filter (λ r, rev < r) (wm_pending m) ∧
  ∃ ready w, StronglySorted Z.lt ready ∧ (∀ r, r ∈ ready ↔ r ∈ wm_pending m ∧ r ≤ rev) ∧
    wm_objects m' !! id = Some w ∧
    let events := omap (record_and_prev db) ready ≫= expected wid e in
    if wt_inboxOk w then stream_events wid w = stream_events wid w0 ++ events
    else ∃ seen, seen `prefix_of` events ∧ stream_events wid w = stream_events wid w0 ++ seen.
Proof.
  rewrite /AdvanceCommittedRevision. intros Ha Hin Hw Hok He.
  destruct (ready_revisions_spec rev m) as [Hsort Hready].
  apply (distribute_all_inv id wid e (stream_events wid w0) _ _ _ _ []) in Ha as [(w & Hw' & Hcase) Hp].
  - split.
    + rewrite Hp /=. apply set_eq. intros r. rewrite elem_of_difference elem_of_list_to_set Hready elem_of_filter.
      split; [intros [Hr Hn]|intros [Hlt Hr]]; (split; [|try done]); try done.
      * destruct (Z.lt_ge_cases rev r); [done|]. by destruct Hn.
      * intros [_ ?]. lia.
    + exists (ready_revisions rev m), w. split; [done|]. split; [done|]. split; [done|].
      by destruct Hcase as [(_ & -> & _ & ?)|(_ & -> & ?)].
  - exists w0. split; [done|]. left. by rewrite /= app_nil_r.
Qed.

(** Revisions 3 and 1 of /a are pending with 5: a commit of 4 delivers 1, then 3. *)
Lemma AdvanceCommittedRevision_delivers_witness :
  let e := mkWatchEntry key_a [] 0 false false false false in
  let m := EnqueueWatchRevision 5 (EnqueueWatchRevision 1 (EnqueueWatchRevision 3
             (CreateWatch 0 true 1 (mkWatchCreate key_a [] 0 false [] false 0) 0 0 (mkDB [] [])
                (Register NewManager).2))) in
  ∃ m' w, AdvanceCommittedRevision 4 example_db m = Some m' ∧
    wm_pending m' = filter (λ r, 4 < r) (wm_pending m) ∧
    wm_objects m' !! 1 = Some w ∧ (wr_Revision <$> stream_events 1 w) = [1; 3].
Proof.
  intros e m. eexists _, _. split; [vm_compute; reflexivity|]. split.
  - apply (AdvanceCommittedRevision_delivers 4 example_db m _ 1 1 e
      (mkWatcher [created_msg 0 1] None [] true {[1 := e]} {[1 := false]})); vm_compute; reflexivity.
  - split; vm_compute; reflexivity.
Defined.

Lemma distribute_all_wf db revs m :
  manager_wf m → ∃ m', distribute_all db revs m = Some m' ∧ manager_wf m'.
Proof.
  rewrite /distribute_all. revert m; induction revs as [|r revs IH]; intros m Hwf; simpl; [by exists m|].
  rewrite {2}/distributeFromDB. destruct (record_and_prev db r) as [[x prev]|]; [|by apply IH].
  destruct (Distribute_wf x prev m Hwf) as (m2 & -> & Hwf2). by apply IH.
Qed.

Lemma AdvanceCommittedRevision_wf rev db m :
  manager_wf m → ∃ m', AdvanceCommittedRevision rev db m = Some m' ∧ manager_wf m'.
Proof. intros Hwf. by apply distribute_all_wf. Qed.
