(* ===== verification/ClientTxn.v ===== *)
(** * internal/clientapi: the client's Txn call

    [ApplyTxn] runs the Primary's write path and then hands the record to the
    node's watch manager.  The two parts are separate definitions: between them
    the write gate is open again. *)

From S2P Require Import Prelude NodeState Records LocalDB History Examples LocalDBTheorems RangeApi.
From S2P Require Import Storage DataFile ExampleCodec DataStore Quorum ChunkBuffer Primary.
From S2P Require Import PrimaryTheorems PrimaryExamples Watch WatchTheorems.

#[local] Open Scope Z_scope.

Inductive api_err :=
| ApiInvalidArgument (e : txn_err)
| ApiInternal (e : txn_err)
| ApiUnavailable
| ApiRemote.

Section client.
  Context `{Codec} `{SqlLike} {OS : Type} `{ObjectStorage OS}.
  Context (record_size : record → Z) (cfg : config).
  Implicit Types sv : Server OS.

(** Compare failures are answers, not errors: an unsuccessful response with the
    committed revision. *)
Definition txn_answer (sv : Server OS) (out : res txn_err (option record * TxnResponse))
    : res api_err (option record * TxnResponse) :=
  match out with
  | Ok (inserted, resp) => Ok (inserted, resp)
  | Err (TxnInsertErr ErrCompareRevisionFailed)
  | Err (TxnInsertErr ErrCreateKeyExists)
  | Err (TxnInsertErr ErrDeleteKeyNotFound) =>
      Ok (None, mkTxnResponse (committed (sv_state sv)) false [])
  | Err (TxnInvalid e) => Err (ApiInvalidArgument (TxnInvalid e))
  | Err e => Err (ApiInternal e)
  end.

(** The predecessor given to watches that ask for it. *)
Definition prev_record (inserted : record) (db : database) : option record :=
  if negb (Created inserted) && (0 <? PrevRevision inserted)
  then match FindRecordByRev (PrevRevision inserted) db with Ok p => Some p | Err _ => None end
  else None.

(** The part after [LeaderTxn] has returned. *)
Definition distribute_inserted (inserted : option record) sv (m : Manager) : option Manager :=
  match inserted with
  | None => Some m
  | Some r => Distribute r (prev_record r (sv_db sv)) m
  end.

(** [None] is a panic in the distribution. *)
Definition ApplyTxn (entry : Server OS) (env : txn_env) (r : TxnRequest) sv (m : Manager)
    : option (res api_err TxnResponse * Server OS * Manager) :=
  let '(out, sv') := LeaderTxn record_size cfg entry env r sv in
  match txn_answer sv' out with
  | Err e => Some (Err e, sv', m)
  | Ok (inserted, resp) =>
      match distribute_inserted inserted sv' m with
      | None => None
      | Some m' => Some (Ok resp, sv', m')
      end
  end.

(** [Txn]: local on the Primary, else validated and forwarded; [forward] is the
    Primary's answer over the peer connection, [None] without one. *)
Definition Txn (entry : Server OS) (env : txn_env) (r : TxnRequest)
    (forward : option (res api_err TxnResponse)) sv (m : Manager)
    : option (res api_err TxnResponse * Server OS * Manager) :=
  let primaryID := NodeID (cs_Primary (cluster (sv_state sv))) in
  if negb (bool_decide (primaryID = "")) && negb (bool_decide (primaryID = cfg_NodeID cfg)) then
    match ParseTxnRequest r with
    | Err e => Some (Err (ApiInvalidArgument (TxnInvalid e)), sv, m)
    | Ok _ =>
        match forward with
        | None => Some (Err ApiUnavailable, sv, m)
        | Some a => Some (a, sv, m)
        end
    end
  else ApplyTxn entry env r sv m.

(** C28: read your writes and watch them: on the Primary a transaction that reports
    success has committed its record at the revision in the answer, and every
    open watch it matches gets exactly that event (or its slow stream is
    closed); an answer without success changes neither the database nor any
    watch stream. *)
Theorem ApplyTxn_effect entry env r sv m :
  primary_inv sv → manager_wf m →
  ∃ a sv' m', ApplyTxn entry env r sv m = Some (a, sv', m') ∧ manager_wf m' ∧
    match a with
    | Ok resp =>
        if tr_Succeeded resp then
          ∃ inserted, rows (sv_db sv') = rows (sv_db sv) ++ [inserted] ∧
            tr_Revision resp = Revision inserted ∧ committed (sv_state sv') = Revision inserted ∧
            ∀ id w wid e, id ∈ wm_watchers m → wm_objects m !! id = Some w → wt_inboxOk w = true →
              wt_watches w !! wid = Some e →
              ∃ w', wm_objects m' !! id = Some w' ∧
                (wt_inboxOk w' = true →
                 stream_events wid w'
                 = stream_events wid w ++ expected wid e (inserted, prev_record inserted (sv_db sv')))
        else sv_db sv' = sv_db sv ∧ m' = m
    | Err _ => sv_db sv' = sv_db sv ∧ m' = m
    end.
Proof.
  intros Hinv Hwf. rewrite /ApplyTxn.
  pose proof (LeaderTxn_cases record_size cfg entry env r sv Hinv) as Hc.
  destruct (LeaderTxn record_size cfg entry env r sv) as [[[[ins|] resp]|e] sv'].
  - destruct Hc as (Hrows & Hrev & Hcomm & Hsucc & Hresp). cbn [txn_answer distribute_inserted].
    destruct (Distribute_wf ins (prev_record ins (sv_db sv')) m Hwf) as (m' & Hd & Hwf').
    rewrite Hd. eexists _, _, _. split; [done|]. split; [done|]. rewrite Hsucc.
    exists ins. split; [done|]. split; [done|]. split; [done|].
    intros id w wid e Hid Hw Hok He.
    destruct (Distribute_open _ _ _ _ _ _ _ _ Hd Hid Hw Hok He)
      as (w' & Hw' & [(_ & _ & Hev)|(_ & Hcl & _)]); exists w'; (split; [done|]); [done|].
    by rewrite Hcl.
  - destruct Hc as [-> Hs]. cbn [txn_answer distribute_inserted]. eexists _, _, _.
    split; [done|]. split; [done|]. by rewrite Hs.
  - destruct Hc as (Hdb & _ & _). rewrite /txn_answer.
    repeat (case_match; simplify_eq/=; try (eexists _, _, _; split; [done|]; split; [done|]; simpl; done)).
Qed.
End client.

(** ** On concrete runs *)

#[local] Existing Instance example_codec.
#[local] Existing Instance ascii_like.
#[local] Hint Extern 0 (ObjectStorage MemoryStore) =>
  exact (MemoryStore_ObjectStorage example_etag) : typeclass_instances.

(** A watch on every key from "/" on. *)
Definition all_watch : Manager :=
  CreateWatch 0 true 1 (mkWatchCreate [Byte.x2f] [Byte.x00] 0 false [] false 0) 4 0 example_db
    (Register NewManager).2.

Lemma all_watch_wf : manager_wf all_watch.
Proof.
  intros id Hid. change (id ∈ ({[1]} ∪ ∅ : gset Z)) in Hid. assert (id = 1) as -> by set_solver.
  eexists. split; [vm_compute; reflexivity|]. split; [reflexivity|].
  intros wid e He. change (({[1 := entry_of (mkWatchCreate [Byte.x2f] [Byte.x00] 0 false [] false 0)]}
    : gmap Z watchEntry) !! wid = Some e) in He.
  apply lookup_singleton_Some in He as [_ <-]. discriminate.
Qed.

Lemma ApplyTxn_effect_witness :
  ∃ resp sv' m', ApplyTxn example_size example_cfg example_server quorum_env (create_b Byte.x33 [])
                   example_server all_watch = Some (Ok resp, sv', m') ∧
    tr_Succeeded resp = true ∧ tr_Revision resp = 5 ∧ manager_wf m'.
Proof.
  destruct (ApplyTxn_effect example_size example_cfg example_server quorum_env (create_b Byte.x33 [])
    example_server all_watch example_server_inv all_watch_wf) as (a & sv' & m' & E & Hwf & _).
  assert (a = Ok (mkTxnResponse 5 true [RespPut 5])) as ->.
  { enough (fst ∘ fst <$> Some (a, sv', m') = Some (Ok (mkTxnResponse 5 true [RespPut 5]))) as Hx
      by (by injection Hx). rewrite -E. vm_compute. reflexivity. }
  eexists _, sv', m'. split; [exact E|]. split; [reflexivity|]. split; [reflexivity|exact Hwf].
Defined.

(** The write gate is released before the record is distributed, so the handler
    of revision 6 can overtake that of revision 5: a watch then receives the
    events out of order. *)
Definition second_env : txn_env := quiet_env [EvFollowSend true "n2" 1; EvRecv 62 "n2" (receipt "n2" 6)].
Definition create_c : TxnRequest :=
  mkTxn [mkCompare COMPARE_MOD COMPARE_EQUAL [Byte.x2f; Byte.x63] 0]
    [OpPut (mkPut [Byte.x2f; Byte.x63] None 0 false)] [].

Lemma events_out_of_order :
  let out1 := run_txn example_server quorum_env (create_b Byte.x33 []) in
  let out2 := run_txn out1.2 second_env create_c in
  ∃ r5 resp5 r6 resp6 m m' w,
    out1.1 = Ok (Some r5, resp5) ∧ out2.1 = Ok (Some r6, resp6) ∧
    distribute_inserted (Some r6) out2.2 all_watch = Some m ∧
    distribute_inserted (Some r5) out2.2 m = Some m' ∧
    wm_objects m' !! 1 = Some w ∧ (wr_Revision <$> stream_events 1 w) = [6; 5].
Proof.
  eexists _, _, _, _, _, _, _. split; [vm_compute; reflexivity|]. split; [vm_compute; reflexivity|].
  split; [vm_compute; reflexivity|]. split; [vm_compute; reflexivity|].
  split; vm_compute; reflexivity.
Qed.
