(* ===== verification/Compaction.v ===== *)
(** * Cluster-wide compaction

    internal/primary/compaction.go drives it; internal/node/server.go answers
    on every node.  The nodes are a map from peer address to what a node's
    handlers read: its committed revision and its watch manager.  A call to a
    peer may fail before or after the peer acted. *)

From S2P Require Import Prelude NodeState Records LocalDB RangeApi Storage DataFile DataStore.
From S2P Require Import Quorum ChunkBuffer Primary Examples Watch WatchTheorems Discovery.

#[local] Open Scope Z_scope.

(** ** The node's handlers *)

Record peer := mkPeer { pr_committed : Z; pr_watches : Manager }.

Definition GetMinWatchRevision (p : peer) : Z :=
  let minRev := MinWatchRevision (pr_watches p) in
  if minRev <? 0 then pr_committed p else minRev.

Definition SendCompactionNotice (revision : Z) (p : peer) : bool * peer :=
  let '(confirmed, m) := SetWatchAdmissionFloor revision (pr_watches p) in
  (confirmed, mkPeer (pr_committed p) m).

(** ** Calls over the network *)

Inductive rpc_outcome := RpcOk | RpcFailBefore | RpcFailAfter.

Definition nodes : Type := gmap string peer.

(** Confirmed, as the Primary sees it. *)
Definition call_notice (o : rpc_outcome) (addr : string) (revision : Z) (ns : nodes) : bool * nodes :=
  match ns !! addr with
  | None => (false, ns)
  | Some p =>
      match o with
      | RpcFailBefore => (false, ns)
      | RpcFailAfter => (false, <[addr := (SendCompactionNotice revision p).2]> ns)
      | RpcOk => ((SendCompactionNotice revision p).1, <[addr := (SendCompactionNotice revision p).2]> ns)
      end
  end.

Definition call_min (o : rpc_outcome) (addr : string) (ns : nodes) : option Z :=
  match o, ns !! addr with
  | RpcOk, Some p => Some (GetMinWatchRevision p)
  | _, _ => None
  end.

(** ** The Primary's protocol *)

(** Outcomes of the calls of one cycle, by position of the registration. *)
Record compaction_env := mkCompactionEnv {
  ce_query : nat → rpc_outcome;
  ce_notice1 : nat → rpc_outcome;
  ce_notice2 : nat → rpc_outcome;
  ce_rollback : nat → rpc_outcome;
  ce_persistFails : bool;
}.

(** The loop over the registrations that computes [globalMin], from -1; [None]
    when the cycle is given up. *)
Fixpoint query_min (env : compaction_env) (i : nat) (regs : list NodeRegistration) (globalMin : Z)
    (ns : nodes) : option Z :=
  match regs with
  | [] => Some globalMin
  | reg :: regs' =>
      if bool_decide (nr_PeerAdvertiseAddress reg = "") then None
      else
        match call_min (ce_query env i) (nr_PeerAdvertiseAddress reg) ns with
        | None => None
        | Some minRev =>
            query_min env (S i) regs'
              (if (globalMin <? 0) || (minRev <? globalMin) then minRev else globalMin) ns
        end
  end.

(** Two attempts at one node. *)
Definition notify_node (env : compaction_env) (i : nat) (addr : string) (revision : Z) (ns : nodes)
    : bool * nodes :=
  match call_notice (ce_notice1 env i) addr revision ns with
  | (true, ns1) => (true, ns1)
  | (false, ns1) => call_notice (ce_notice2 env i) addr revision ns1
  end.

Fixpoint rollback (env : compaction_env) (i : nat) (addrs : list string) (previous : Z) (ns : nodes)
    : nodes :=
  match addrs with
  | [] => ns
  | addr :: addrs' =>
      rollback env (S i) addrs' previous (call_notice (ce_rollback env i) addr previous ns).2
  end.

(** The notice loop: whether every node confirmed. *)
Fixpoint notify_all (env : compaction_env) (i : nat) (regs : list NodeRegistration)
    (confirmedAddrs : list string) (previous revision : Z) (ns : nodes) : bool * nodes :=
  match regs with
  | [] => (true, ns)
  | reg :: regs' =>
      match notify_node env i (nr_PeerAdvertiseAddress reg) revision ns with
      | (false, ns1) => (false, rollback env 0 confirmedAddrs previous ns1)
      | (true, ns1) =>
          notify_all env (S i) regs' (confirmedAddrs ++ [nr_PeerAdvertiseAddress reg]) previous revision ns1
      end
  end.

Section protocol.
  Context {OS : Type}.
  Implicit Types sv : Server OS.

(** The boolean says whether compaction at [revision] was decided. *)
Definition runCompactionProtocol (env : compaction_env) (regs : list NodeRegistration)
    (compactionRevision : Z) (ns : nodes) sv : bool * nodes * Server OS :=
  match notify_all env 0 regs [] (compaction (sv_state sv)) compactionRevision ns with
  | (false, ns') => (false, ns', sv)
  | (true, ns') =>
      if ce_persistFails env then (false, ns', sv)
      else
        (true, ns',
         BroadcastCompact compactionRevision
           (set_state (SetCompaction compactionRevision (sv_state sv))
              (set_db (PersistCompactionRevision compactionRevision (sv_db sv)) sv)))
  end.

(** The revision a cycle proposes; [None] when it does nothing. *)
Definition proposed_revision (env : compaction_env) (regs : list NodeRegistration) (ns : nodes) sv
    : option Z :=
  if bool_decide (regs = []) then None
  else
    match query_min env 0 regs (-1) ns with
    | None => None
    | Some globalMin =>
        if globalMin <=? 0 then None
        else
          let proposedRevision := wrap64 (globalMin - 1) in
          if proposedRevision <=? 0 then None
          else if proposedRevision <=? compaction (sv_state sv) then None
          else Some proposedRevision
    end.

(** [regs] is what [ListNodeRegistrations] returned, [None] an error;
    [meanwhile] is what happens on the nodes between queries and notices. *)
Definition runCompactionCycle (env : compaction_env) (regs : option (list NodeRegistration))
    (meanwhile : nodes → nodes) (ns : nodes) sv : bool * nodes * Server OS :=
  match requireActivePrimary sv, regs with
  | Ok _, Some regs =>
      match proposed_revision env regs ns sv with
      | None => (false, meanwhile ns, sv)
      | Some revision => runCompactionProtocol env regs revision (meanwhile ns) sv
      end
  | _, _ => (false, meanwhile ns, sv)
  end.

(** [executeCompaction], started in the background. *)
Definition executeCompaction (now compactionRevision : Z) sv : Server OS :=
  set_db (ExecuteCompaction now compactionRevision (sv_db sv)).2 sv.
End protocol.
