(* ===== verification/CompactionTheorems.v ===== *)
(** * Theorems on cluster-wide compaction *)

From S2P Require Import Prelude NodeState Records LocalDB History Examples LocalDBTheorems RangeApi.
From S2P Require Import Storage DataFile DataStore Quorum ChunkBuffer Primary PrimaryExamples Watch.
From S2P Require Import WatchTheorems Discovery Compaction.

#[local] Open Scope Z_scope.

(** The node has accepted [revision]: it admits no watch at or below it and has
    no active watch below it. *)
Definition accepted (revision : Z) (ns : nodes) (addr : string) : Prop :=
  ∃ p, ns !! addr = Some p ∧ watchAdmissionFloor (pr_watches p) = revision ∧
    ∀ e, e ∈ active_entries (pr_watches p) → we_startRevision e ≤ 0 ∨ revision ≤ we_startRevision e.

Lemma SendCompactionNotice_cases revision p :
  match SendCompactionNotice revision p with
  | (true, p') => p' = mkPeer (pr_committed p) (set_floor revision (pr_watches p)) ∧
      ∀ e, e ∈ active_entries (pr_watches p) → we_startRevision e ≤ 0 ∨ revision ≤ we_startRevision e
  | (false, p') => p' = p ∧
      ∃ e, e ∈ active_entries (pr_watches p) ∧ 0 < we_startRevision e < revision
  end.
Proof.
  rewrite /SendCompactionNotice /SetWatchAdmissionFloor.
  destruct (existsb _ _) eqn:E; split; try done; [by destruct p| |].
  - apply existsb_exists in E as (e & He%list_elem_of_In & Hb). exists e. split; [done|].
    rewrite /below_floor in Hb. bool_to_prop. lia.
  - rewrite existsb_false in E. intros e He. specialize (E e He). rewrite /below_floor in E.
    apply andb_false_iff in E as [E|E]; bool_to_prop; lia.
Qed.

Lemma accepted_notice revision o addr ns a :
  accepted revision ns a → accepted revision (call_notice o addr revision ns).2 a.
Proof.
  intros (p & Hp & Hfl & Hclear). rewrite /call_notice.
  destruct (ns !! addr) as [q|] eqn:Hq; [|by exists p].
  assert (accepted revision (<[addr := (SendCompactionNotice revision q).2]> ns) a) as Hins.
  { destruct (decide (addr = a)) as [->|Hne]; [|exists p; rewrite lookup_insert_ne //].
    rewrite Hp in Hq. injection Hq as <-. eexists. rewrite lookup_insert_eq. split; [done|].
    pose proof (SendCompactionNotice_cases revision p) as Hc.
    destruct (SendCompactionNotice revision p) as [[] p']; destruct Hc as [-> Hc]; done. }
  destruct o; [done|by exists p|done].
Qed.

Lemma notice_accepted revision o addr ns :
  (call_notice o addr revision ns).1 = true → accepted revision (call_notice o addr revision ns).2 addr.
Proof.
  rewrite /call_notice. destruct (ns !! addr) as [q|] eqn:Hq; [|done]. destruct o; try done. simpl.
  pose proof (SendCompactionNotice_cases revision q) as Hc.
  destruct (SendCompactionNotice revision q) as [[] p']; [|done]. destruct Hc as [-> Hc]. intros _.
  eexists. by rewrite lookup_insert_eq.
Qed.

Lemma notify_node_accepted env i addr revision ns :
  (∀ a, accepted revision ns a → accepted revision (notify_node env i addr revision ns).2 a) ∧
  ((notify_node env i addr revision ns).1 = true →
   accepted revision (notify_node env i addr revision ns).2 addr).
Proof.
  rewrite /notify_node. pose proof (accepted_notice revision (ce_notice1 env i) addr ns) as A1.
  pose proof (notice_accepted revision (ce_notice1 env i) addr ns) as N1.
  destruct (call_notice (ce_notice1 env i) addr revision ns) as [[] ns1]; simpl in *; [by split; [|auto]|].
  split; [|apply notice_accepted]. intros a Ha. by apply accepted_notice, A1.
Qed.

Lemma notify_all_accepted env i regs confirmed previous revision ns :
  (notify_all env i regs confirmed previous revision ns).1 = true →
  (∀ a, accepted revision ns a → accepted revision (notify_all env i regs confirmed previous revision ns).2 a) ∧
  (∀ reg, reg ∈ regs →
     accepted revision (notify_all env i regs confirmed previous revision ns).2 (nr_PeerAdvertiseAddress reg)).
Proof.
  revert i confirmed ns; induction regs as [|reg regs IH]; intros i confirmed ns; cbn [notify_all].
  { intros _. split; [done|]. by intros reg ?%elem_of_nil. }
  destruct (notify_node_accepted env i (nr_PeerAdvertiseAddress reg) revision ns) as [Hkeep Hnew].
  destruct (notify_node _ _ _ _ ns) as [[] ns1]; [|done]. simpl in *. intros Hok.
  destruct (IH _ _ _ Hok) as [IH1 IH2]. split.
  - intros a Ha. by apply IH1, Hkeep.
  - intros reg' [->|Hin]%elem_of_cons; [by apply IH1, Hnew|by apply IH2].
Qed.

Lemma query_min_lower env i regs g0 g ns :
  (∀ a p, ns !! a = Some p → 0 ≤ GetMinWatchRevision p) →
  query_min env i regs g0 ns = Some g →
  (0 ≤ g0 → g ≤ g0) ∧
  ∀ reg, reg ∈ regs → ∃ p, ns !! nr_PeerAdvertiseAddress reg = Some p ∧ g ≤ GetMinWatchRevision p.
Proof.
  intros Hpos. revert i g0; induction regs as [|reg regs IH]; intros i g0; cbn [query_min].
  { intros [= <-]. split; [done|]. by intros reg ?%elem_of_nil. }
  case_bool_decide; [done|]. rewrite /call_min. destruct (ce_query env i); try done.
  destruct (ns !! nr_PeerAdvertiseAddress reg) as [p|] eqn:Hp; [|done].
  intros Hq. apply IH in Hq as [Hle Hall]. specialize (Hpos _ _ Hp).
  assert (g ≤ GetMinWatchRevision p ∧ (0 ≤ g0 → g ≤ g0)) as [H1 H2].
  { destruct (Z.ltb_spec g0 0), (Z.ltb_spec (GetMinWatchRevision p) g0); simpl in Hle; lia. }
  split; [done|]. intros reg' [->|Hin]%elem_of_cons; [by exists p|by apply Hall].
Qed.

(** C22: compaction is decided only with everyone's consent: when a cycle
    decides a revision it is above the previous one and below every revision any
    registered node's watches still need; every registered node has raised its
    admission floor to it and has no active watch below it; and it is durable
    in the Primary's database. *)
Theorem compaction_consent {OS} env regs meanwhile ns ns' (sv sv' : Server OS) :
  (∀ a p, ns !! a = Some p → 0 ≤ pr_committed p ∧ GetMinWatchRevision p ≤ int64_max) →
  runCompactionCycle env (Some regs) meanwhile ns sv = (true, ns', sv') →
  let revision := compaction (sv_state sv') in
  compaction (sv_state sv) < revision ∧ revision ∈ compactions (sv_db sv') ∧
  ∀ reg, reg ∈ regs →
    (∃ p, ns !! nr_PeerAdvertiseAddress reg = Some p ∧ revision < GetMinWatchRevision p) ∧
    accepted revision ns' (nr_PeerAdvertiseAddress reg).
Proof.
  intros Hns. rewrite /runCompactionCycle. destruct (requireActivePrimary sv) as [[]|]; [|done].
  destruct (proposed_revision env regs ns sv) as [rev|] eqn:Hprop; [|done].
  rewrite /runCompactionProtocol.
  pose proof (notify_all_accepted env 0 regs [] (compaction (sv_state sv)) rev (meanwhile ns)) as Hacc.
  destruct (notify_all _ _ _ _ _ _ _) as [[] ns1]; [|done]. destruct (ce_persistFails env); [done|].
  intros [= <- <-]. destruct (Hacc eq_refl) as [_ Hall]. simpl in *. clear Hacc.
  rewrite /proposed_revision in Hprop. case_bool_decide; [done|].
  destruct (query_min env 0 regs (-1) ns) as [g|] eqn:Hq; [|done].
  assert (∀ a p, ns !! a = Some p → 0 ≤ GetMinWatchRevision p) as Hpos.
  { intros a p Hp. rewrite /GetMinWatchRevision. destruct (Hns a p Hp).
    destruct (Z.ltb_spec (MinWatchRevision (pr_watches p)) 0); lia. }
  destruct (query_min_lower env 0 regs (-1) g ns Hpos Hq) as [_ Hmin].
  assert (g ≤ int64_max) as Hg.
  { destruct regs as [|reg regs']; [done|]. destruct (Hmin reg) as (p & Hp & Hle); [by left|].
    destruct (Hns _ _ Hp). lia. }
  destruct (Z.leb_spec g 0); [done|].
  rewrite wrap64_id in Hprop; [solve_int64|].
  destruct (Z.leb_spec (g - 1) 0); [done|].
  destruct (Z.leb_spec (g - 1) (compaction (sv_state sv))); [done|]. injection Hprop as <-.
  split; [done|]. split.
  - rewrite /PersistCompactionRevision. destruct (Z.leb_spec (g - 1) 0); [lia|].
    destruct (existsb _ _) eqn:E; simpl; [|by left].
    apply existsb_exists in E as (c & Hc%list_elem_of_In & ->%Z.eqb_eq). done.
  - intros reg Hreg. split; [|by apply Hall]. destruct (Hmin reg Hreg) as (p & Hp & Hle).
    exists p. split; [done|]. lia.
Qed.

(** n1's watch needs revision 6; n2 has no watches and has committed 9. *)
Definition watched_manager : Manager :=
  CreateWatch 0 true 1 (mkWatchCreate key_a [] 6 false [] false 0) 5 0 (mkDB [] []) (Register NewManager).2.
Definition example_nodes : nodes :=
  {["p1" := mkPeer 9 watched_manager; "p2" := mkPeer 9 NewManager]}.
Definition example_regs : list NodeRegistration :=
  [mkNodeRegistration "n1" "c1" "p1"; mkNodeRegistration "n2" "c2" "p2"].
Definition compaction_ok_env : compaction_env :=
  mkCompactionEnv (λ _, RpcOk) (λ i, if decide (i = 0%nat) then RpcFailAfter else RpcOk) (λ _, RpcOk)
    (λ _, RpcOk) false.

Lemma compaction_consent_witness :
  ∃ ns' sv', runCompactionCycle compaction_ok_env (Some example_regs) id example_nodes example_server
             = (true, ns', sv') ∧ compaction (sv_state sv') = 5 ∧
    accepted 5 ns' "p1" ∧ accepted 5 ns' "p2".
Proof.
  eassert (runCompactionCycle compaction_ok_env (Some example_regs) id example_nodes example_server
           = (true, _, _)) as Hrun by (vm_compute; reflexivity).
  assert (∀ a p, example_nodes !! a = Some p → 0 ≤ pr_committed p ∧ GetMinWatchRevision p ≤ int64_max) as Hns.
  { intros a p Hp. rewrite /example_nodes in Hp.
    apply lookup_insert_Some in Hp as [[_ <-]|[_ Hp]]; [split; vm_compute; discriminate|].
    apply lookup_singleton_Some in Hp as [_ <-]. split; vm_compute; discriminate. }
  destruct (compaction_consent compaction_ok_env example_regs id example_nodes _ _ _ Hns Hrun)
    as (_ & _ & Hall).
  eexists _, _. split; [exact Hrun|]. split; [reflexivity|].
  split; [apply (Hall (mkNodeRegistration "n1" "c1" "p1")); by left|].
  apply (Hall (mkNodeRegistration "n2" "c2" "p2")). right. by left.
Defined.

(** A cycle that does not decide leaves the Primary as it was. *)
Lemma compaction_abort {OS} env regs meanwhile ns ns' (sv sv' : Server OS) :
  runCompactionCycle env regs meanwhile ns sv = (false, ns', sv') → sv' = sv.
Proof.
  rewrite /runCompactionCycle /runCompactionProtocol. intros E.
  repeat (case_match; simplify_eq/=; try done).
Qed.

(** ** Observations *)

(** A watch that starts "now" (start revision 0) keeps its node's minimum at 0,
    so no cycle proposes a compaction while it is open. *)
Lemma min_zero es minRev :
  (∀ e, e ∈ es → 0 ≤ we_startRevision e) →
  let f := λ m e, if (m <? 0) || (we_startRevision e <? m) then we_startRevision e else m in
  (minRev = 0 → foldl f minRev es = 0) ∧
  ((∃ e, e ∈ es ∧ we_startRevision e = 0) → foldl f minRev es = 0).
Proof.
  intros Hes f. revert minRev; induction es as [|e es IH]; intros m; simpl.
  { split; [done|]. by intros (e & ?%elem_of_nil & _). }
  assert (∀ e', e' ∈ es → 0 ≤ we_startRevision e') as Hes' by (intros e' He'; apply Hes; by right).
  pose proof (Hes e (list_elem_of_here e es)) as He. split.
  - intros ->. apply (proj1 (IH Hes' _)). rewrite /f /=.
    destruct (Z.ltb_spec (we_startRevision e) 0); lia.
  - intros (x & [->|Hx]%elem_of_cons & Hx0); [|apply (proj2 (IH Hes' _)); by exists x].
    apply (proj1 (IH Hes' _)). rewrite /f Hx0. destruct (Z.ltb_spec m 0), (Z.ltb_spec 0 m); simpl; lia.
Qed.

Lemma watch_from_now_blocks {OS} env regs ns (sv : Server OS) reg p e :
  (∀ a p, ns !! a = Some p → 0 ≤ pr_committed p) →
  reg ∈ regs → ns !! nr_PeerAdvertiseAddress reg = Some p →
  (∀ e, e ∈ active_entries (pr_watches p) → 0 ≤ we_startRevision e) →
  e ∈ active_entries (pr_watches p) → we_startRevision e = 0 →
  proposed_revision env regs ns sv = None.
Proof.
  intros Hns Hreg Hp Hes He He0. rewrite /proposed_revision. case_bool_decide; [done|].
  destruct (query_min env 0 regs (-1) ns) as [g|] eqn:Hq; [|done].
  assert (∀ a p, ns !! a = Some p → 0 ≤ GetMinWatchRevision p) as Hpos.
  { intros a q Hq'. rewrite /GetMinWatchRevision. specialize (Hns a q Hq').
    destruct (Z.ltb_spec (MinWatchRevision (pr_watches q)) 0); lia. }
  destruct (query_min_lower env 0 regs (-1) g ns Hpos Hq) as [_ Hmin].
  destruct (Hmin reg Hreg) as (q & Hq' & Hle). rewrite Hp in Hq'. injection Hq' as <-.
  assert (MinWatchRevision (pr_watches p) = 0) as Hz.
  { apply (proj2 (min_zero _ (-1) Hes)). by exists e. }
  rewrite /GetMinWatchRevision Hz /= in Hle. destruct (Z.leb_spec g 0); [done|lia].
Qed.

(** The reply of a node's second notice is lost and the cycle aborts: the node
    is not among the confirmed ones, so its raised floor is not rolled back. *)
Lemma lost_reply_keeps_floor :
  let env := mkCompactionEnv (λ _, RpcOk) (λ _, RpcFailBefore) (λ _, RpcFailAfter) (λ _, RpcOk) false in
  let out := runCompactionCycle env (Some example_regs) id example_nodes example_server in
  out.1.1 = false ∧ compaction (sv_state out.2) = 0 ∧
  (watchAdmissionFloor ∘ pr_watches <$> out.1.2 !! "p1") = Some 5.
Proof. vm_compute. auto. Qed.

(** The check on active watches is strict where admission is not: a watch from
    exactly the proposed revision survives a notice that would refuse it. *)
Lemma notice_keeps_watch_at_floor :
  let p := mkPeer 9 watched_manager in
  (SendCompactionNotice 6 p).1 = true ∧
  ∀ db, CreateWatch_check 0 (mkWatchCreate key_a [] 6 false [] false 0) 9 0 6 db
        = CheckReject 9 (ReasonCompacted 6 6) 6.
Proof. split; [vm_compute; reflexivity|]. intros db. reflexivity. Qed.

(** ** The scheduler *)

(** A round of [RunCompactionScheduler]: what transactions do to the Primary
    while it sleeps, then a cycle. *)
Record compaction_round {OS : Type} := mkRound {
  cr_between : Server OS → Server OS;
  cr_env : compaction_env;
  cr_regs : option (list NodeRegistration);
  cr_meanwhile : nodes → nodes;
}.

(** The revisions the rounds decided, oldest first.  Without an interval the
    scheduler returns at once. *)
Definition RunCompactionScheduler {OS} (interval : Z) (rounds : list (compaction_round (OS := OS)))
    (x : nodes * Server OS) : list Z * (nodes * Server OS) :=
  if interval <=? 0 then ([], x)
  else
    foldl (λ acc r,
      let '(decided, (ns, sv)) := acc in
      let '(b, ns, sv) := runCompactionCycle (cr_env r) (cr_regs r) (cr_meanwhile r) ns (cr_between r sv) in
      (if b then decided ++ [compaction (sv_state sv)] else decided, (ns, sv))) ([], x) rounds.

Lemma runCompactionCycle_compaction {OS} env regs meanwhile ns (sv : Server OS) b ns' sv' :
  runCompactionCycle env regs meanwhile ns sv = (b, ns', sv') →
  if b then compaction (sv_state sv) < compaction (sv_state sv') else sv_state sv' = sv_state sv.
Proof.
  rewrite /runCompactionCycle. destruct (requireActivePrimary sv), regs as [regs|]; try by intros [= <- _ <-].
  destruct (proposed_revision env regs ns sv) as [rev|] eqn:Hp; [|by intros [= <- _ <-]].
  assert (compaction (sv_state sv) < rev) as Hlt.
  { rewrite /proposed_revision in Hp. repeat case_match; simplify_eq; bool_to_prop; lia. }
  rewrite /runCompactionProtocol. destruct (notify_all _ _ _ _ _ _ _) as [[] ns1]; [|by intros [= <- _ <-]].
  destruct (ce_persistFails env); by intros [= <- _ <-].
Qed.

(** The scheduler only moves forward: while nothing else lowers the compaction
    revision, the revisions it decides increase, and the last one is in force. *)
Theorem scheduler_forward {OS} interval (rounds : list (compaction_round (OS := OS))) ns sv :
  Forall (λ r, ∀ sv, compaction (sv_state (cr_between r sv)) = compaction (sv_state sv)) rounds →
  let '(decided, (_, sv')) := RunCompactionScheduler interval rounds (ns, sv) in
  StronglySorted Z.lt (compaction (sv_state sv) :: decided) ∧
  last (compaction (sv_state sv) :: decided) = Some (compaction (sv_state sv')).
Proof.
  intros Hr. rewrite /RunCompactionScheduler. destruct (interval <=? 0); [split; [repeat constructor|done]|].
  induction rounds as [|r rounds IH] using rev_ind; [split; [repeat constructor|done]|].
  apply Forall_app in Hr as [Hr [Hb _]%Forall_cons]. rewrite foldl_snoc. specialize (IH Hr).
  destruct (foldl _ _ rounds) as [decided [ns1 sv1]]. destruct IH as [Hs Hl].
  destruct (runCompactionCycle _ _ _ ns1 _) as [[b ns2] sv2] eqn:Hc.
  apply runCompactionCycle_compaction in Hc. destruct b; [|by rewrite Hc Hb].
  rewrite Hb in Hc. rewrite app_comm_cons last_snoc. split; [|done].
  apply last_Some in Hl as [l El]. rewrite El in Hs |- *. apply StronglySorted_app.
  split_and!; [|done|by repeat constructor]. intros x y Hx ->%list_elem_of_singleton.
  apply StronglySorted_app in Hs as (Hlt & _ & _).
  apply elem_of_app in Hx as [Hx| ->%list_elem_of_singleton]; [|done].
  specialize (Hlt x _ Hx (list_elem_of_here _ _)). lia.
Qed.
