(* ===== verification/ClientHistory.v ===== *)
(** * Clients see one etcd store

    The client-facing operations of an active Primary taken together: writes
    ([clientapi.ApplyTxn] over [primary.LeaderTxn]), reads ([clientapi.Range]),
    compactions and the Receipts, heartbeats and stream events that arrive in
    between.  Any sequence of them answers as an etcd store that keeps every
    revision answers. *)

From S2P Require Import Prelude NodeState Records LocalDB History Examples LocalDBTheorems Queries RangeApi RangeTheorems.
From S2P Require Import Storage DataFile ExampleCodec DataStore Quorum ChunkBuffer Primary PrimaryTheorems PrimaryExamples.
From S2P Require Import Watch WatchTheorems ClientTxn Compaction.

#[local] Open Scope Z_scope.

(** ** The specification *)

(** The key-value pairs of each revision, from 0 on. *)
Definition contents : Type := gmap bytes KeyValue.
Definition Etcd : Type := list contents.

Definition current (e : Etcd) : contents := default ∅ (last e).
Definition revision (e : Etcd) : Z := Z.of_nat (length e) - 1.

(** A write guarded by the key's mod revision, 0 for an absent key; [None]
    deletes. *)
Record write := mkWrite { w_key : bytes; w_expected : Z; w_put : option (option bytes * Z) }.

Definition write_of (r : TxnRequest) : option write :=
  match txn_Compare r, txn_Success r with
  | [c], [OpPut p] => Some (mkWrite (cmp_Key c) (cmp_ModRevision c) (Some (put_Value p, put_Lease p)))
  | [c], [OpDeleteRange _] => Some (mkWrite (cmp_Key c) (cmp_ModRevision c) None)
  | _, _ => None
  end.

Definition guard_holds (w : write) (m : contents) : bool :=
  default 0 (kv_ModRevision <$> m !! w_key w) =? w_expected w.

Definition apply_write (rev : Z) (w : write) (m : contents) : contents :=
  match w_put w with
  | None => delete (w_key w) m
  | Some (v, lease) =>
      <[w_key w := mkKeyValue (w_key w) (default rev (kv_CreateRevision <$> m !! w_key w)) rev v
                     (default 0 (kv_Version <$> m !! w_key w) + 1) lease]> m
  end.

Definition success_answer (rev : Z) (w : write) : TxnResponse :=
  mkTxnResponse rev true [if bool_decide (is_Some (w_put w)) then RespPut rev else RespDeleteRange rev 1].

(** What a transaction whose guard fails is answered with: the current pair,
    if the request has a failure operation and does not create the key (or
    delete an absent one). *)
Definition failure_answer (e : Etcd) (r : TxnRequest) (w : write) : TxnResponse :=
  let found := current e !! w_key w in
  mkTxnResponse (revision e) false
    (if (length (txn_Failure r) =? 1)%nat && negb (w_expected w =? 0)
        && (bool_decide (is_Some found) || bool_decide (is_Some (w_put w)))
     then [RespRange (mkRangeResponse (Some (revision e)) (option_list found)
                        (Z.of_nat (length (option_list found))) false)]
     else []).

Section spec.
  Context `{HL : SqlLike}.

(** The pairs a read selects, in key order. *)
Definition selects (q : where_clause) (m : contents) (l : list KeyValue) : Prop :=
  StronglySorted (λ a b, bytes_lt (kv_Key a) (kv_Key b)) l ∧
  ∀ kv, kv ∈ l ↔ where_key q (kv_Key kv) = true ∧ m !! kv_Key kv = Some kv.

(** The reads the store answers with pairs. *)
Definition plain_read (r : RangeRequest) (q : where_clause) : Prop :=
  0 ≤ rr_Revision r ∧ validateRangeRequest r = Ok tt ∧ buildRangeQuery r = Some q ∧
  rr_SortOrder r ≠ SORT_DESCEND ∧ rr_CountOnly r = false ∧ int64 (rr_Limit r).

(** A read at a revision (0 and the future are the present) answers the page of
    that revision; one in the past may be refused as compacted. *)
Definition read_answer (e : Etcd) (r : RangeRequest) (q : where_clause) (a : res range_err RangeResponse) : Prop :=
  let rev := if (rr_Revision r =? 0) || (revision e <? rr_Revision r) then revision e else rr_Revision r in
  ∃ m l, e !! Z.to_nat rev = Some m ∧ selects q m l ∧
    let page := limited (rr_Limit r) l in
    a = Ok (mkRangeResponse (Some (revision e)) page (Z.of_nat (length l))
              (Z.of_nat (length page) <? Z.of_nat (length l)))
    ∨ rev < revision e ∧ a = Err ErrGRPCCompacted.

Section operations.
  Context {OS : Type}.

Inductive op :=
| ClientTxn (entry : Server OS) (env : txn_env) (r : TxnRequest)
| ClientRange (r : RangeRequest)
| CompactTo (now rev : Z)
| OtherEvent (e : event).

Inductive answer :=
| AnswerTxn (a : res api_err TxnResponse)
| AnswerRange (a : res range_err RangeResponse)
| NoAnswer.

(** One operation of the store. *)
Inductive etcd_step (e : Etcd) : op → answer → Etcd → Prop :=
| step_applied entry env r w :
    write_of r = Some w → guard_holds w (current e) = true →
    etcd_step e (ClientTxn entry env r) (AnswerTxn (Ok (success_answer (revision e + 1) w)))
      (e ++ [apply_write (revision e + 1) w (current e)])
| step_guard_failed entry env r w :
    write_of r = Some w → guard_holds w (current e) = false →
    etcd_step e (ClientTxn entry env r) (AnswerTxn (Ok (failure_answer e r w))) e
| step_txn_error entry env r err :
    etcd_step e (ClientTxn entry env r) (AnswerTxn (Err err)) e
| step_read r a :
    (∀ q, plain_read r q → read_answer e r q a) →
    etcd_step e (ClientRange r) (AnswerRange a) e
| step_compact now rev : etcd_step e (CompactTo now rev) NoAnswer e
| step_event ev : etcd_step e (OtherEvent ev) NoAnswer e.

Inductive etcd_run : Etcd → list op → list answer → Etcd → Prop :=
| etcd_done e : etcd_run e [] [] e
| etcd_next e o a e1 os l e2 :
    etcd_step e o a e1 → etcd_run e1 os l e2 → etcd_run e (o :: os) (a :: l) e2.
End operations.
End spec.
Arguments op : clear implicits.

(** ** The store a table stands for *)

Definition kvs_apply (m : contents) (r : record) : contents :=
  if Deleted r then delete (Key r) m else <[Key r := to_kv r]> m.
Definition kvs_of_table (t : table) : contents := foldl kvs_apply ∅ t.

Lemma kvs_of_table_snoc t r : kvs_of_table (t ++ [r]) = kvs_apply (kvs_of_table t) r.
Proof. by rewrite /kvs_of_table foldl_app. Qed.

Lemma kvs_of_table_lookup t k : kvs_of_table t !! k = to_kv <$> live_for_key k t.
Proof.
  induction t as [|r t IH] using rev_ind; [by rewrite lookup_empty|].
  rewrite kvs_of_table_snoc /kvs_apply /live_for_key latest_snoc.
  destruct (Deleted r) eqn:Hd; case_decide as Hk; subst.
  - by rewrite lookup_delete_eq Hd.
  - by rewrite lookup_delete_ne.
  - by rewrite lookup_insert_eq Hd.
  - by rewrite lookup_insert_ne.
Qed.

(** Every revision of a log. *)
Definition etcd_of (log : table) : Etcd := (λ i, kvs_of_table (take i log)) <$> seq 0 (S (length log)).

Lemma etcd_of_length log : length (etcd_of log) = S (length log).
Proof. by rewrite /etcd_of length_fmap length_seq. Qed.

Lemma etcd_of_revision log : revision (etcd_of log) = Z.of_nat (length log).
Proof. rewrite /revision etcd_of_length. lia. Qed.

Lemma etcd_of_lookup log i : (i ≤ length log)%nat → etcd_of log !! i = Some (kvs_of_table (take i log)).
Proof. intros Hi. rewrite /etcd_of list_lookup_fmap lookup_seq_lt; [lia|done]. Qed.

Lemma etcd_of_current log : current (etcd_of log) = kvs_of_table log.
Proof.
  rewrite /current last_lookup etcd_of_length /= etcd_of_lookup // take_ge //.
Qed.

Lemma etcd_of_snoc log r : etcd_of (log ++ [r]) = etcd_of log ++ [kvs_of_table (log ++ [r])].
Proof.
  rewrite /etcd_of length_app Nat.add_1_r (seq_S (S (length log))) fmap_app.
  cbn [fmap list_fmap Nat.add]. rewrite (take_ge (log ++ [r])); [rewrite length_app /=; lia|].
  f_equal. apply list_fmap_ext. intros i x Hx. apply lookup_seq in Hx as [-> Hlt].
  rewrite take_app_le //. lia.
Qed.

(** A table holds a log some values of which have been compacted away, none of
    a current row. *)
Record holds (log t : table) : Prop := {
  h_history : history log;
  h_image : ∃ f, (∀ r, same_links r (f r)) ∧ (∀ r, f r = r ∨ compacted (f r) = true) ∧ t = f <$> log;
  h_live k x : live_for_key k t = Some x → compacted x = false;
}.

Lemma holds_history log t : holds log t → history t ∧ length t = length log.
Proof. intros [Hh (f & Hf & _ & ->) _]. rewrite length_fmap. split; [by apply history_map|done]. Qed.

(** The current rows are the log's. *)
Lemma holds_live log t k : holds log t → live_for_key k t = live_for_key k log.
Proof.
  intros [Hh (f & Hf & Hc & ->) Hl]. specialize (Hl k). rewrite (live_map _ Hf) in Hl |- *.
  destruct (live_for_key k log) as [x|]; [|done]. specialize (Hl (f x) eq_refl). cbn.
  destruct (Hc x) as [->|E]; [done|congruence].
Qed.

Lemma holds_snoc log t r :
  holds log t → history (log ++ [r]) → compacted r = false → holds (log ++ [r]) (t ++ [r]).
Proof.
  intros Hhold Hh Hr. pose proof (holds_live log t) as Hlive. destruct Hhold as [Hh0 (f & Hf & Hc & Ht) Hl]. split.
  - done.
  - exists (λ x, if Revision x <=? Z.of_nat (length log) then f x else x).
    split; [intros x; by case_match|]. split; [intros x; case_match; [apply Hc|by left]|].
    rewrite fmap_app Ht /=. f_equal.
    + apply list_fmap_ext. intros i x Hx%list_elem_of_lookup_2.
      pose proof (history_row_bound _ _ Hh0 Hx). by rewrite (proj2 (Z.leb_le _ _)); [lia|].
    + apply history_snoc_inv in Hh as (_ & Hrev & _). cbn. by rewrite (proj2 (Z.leb_gt _ _)); [lia|].
  - intros k x. rewrite /live_for_key latest_snoc. case_decide; [|apply Hl].
    destruct (Deleted r); [done|]. by intros [= <-].
Qed.

Lemma holds_compacted log t now c : holds log t → holds log (compact_update now c t <$> t).
Proof.
  intros Hhold. pose proof (holds_history _ _ Hhold) as [Ht _]. destruct Hhold as [Hh (f & Hf & Hc & E) Hl].
  split; [done| |].
  - exists (compact_update now c t ∘ f). split; [|split].
    + intros r. eapply same_links_trans; [apply Hf|apply same_links_compact_update].
    + intros r. cbn. rewrite /compact_update. destruct (compactable t c (f r)); [by right|apply Hc].
    + by rewrite {2}E -list_fmap_compose.
  - intros k x. rewrite live_after_compaction; [by apply history_wf|apply Hl].
Qed.

(** ** Reads *)

Section server.
  Context `{HC : Codec} `{HL : SqlLike} {OS : Type} `{HS : ObjectStorage OS}.
  Context (record_size : record → Z) (cfg : config).
  Implicit Types sv : Server OS.

Lemma visible_take rev log :
  history log → 0 < rev ≤ Z.of_nat (length log) → visible rev log = take (Z.to_nat rev) log.
Proof.
  intros Hh Hr. rewrite -{1}(take_drop (Z.to_nat rev) log) /visible filter_app.
  rewrite -{1}(take_drop (Z.to_nat rev) log) in Hh.
  assert (length (take (Z.to_nat rev) log) = Z.to_nat rev) as Hlen by (rewrite length_take; lia).
  rewrite -[RHS]app_nil_r. f_equal.
  - apply filter_all. intros x Hx _. apply history_app_inv in Hh.
    pose proof (history_row_bound _ _ Hh Hx). lia.
  - apply filter_none. intros x Hx Hf. pose proof (history_tail_bound _ _ _ Hh Hx). lia.
Qed.

(** The pairs of a snapshot are the pairs of its revision. *)
Lemma snapshot_selects q rev log :
  history log → 0 < rev ≤ Z.of_nat (length log) →
  selects q (kvs_of_table (take (Z.to_nat rev) log)) (to_kv <$> snapshot q rev log).
Proof using HL.
  intros Hh Hrev. destruct (snapshot_spec q rev log (history_wf _ Hh)) as [Hs Hin].
  rewrite visible_take // in Hin. split.
  - clear Hin. induction Hs as [|x l Hs IH Hall]; cbn; constructor; [done|]. by apply Forall_fmap.
  - intros kv. rewrite list_elem_of_fmap kvs_of_table_lookup. split.
    + intros (x & -> & [Hq Hx]%Hin). by rewrite /= Hx.
    + intros (Hq & (x & Hx & ->)%fmap_Some). exists x. split; [done|]. by apply Hin.
Qed.

Lemma selects_nil q : selects q ∅ [].
Proof using HL. split; [constructor|]. intros kv. rewrite lookup_empty. split; [by intros ?%not_elem_of_nil|by intros [_ ?]]. Qed.

(** The page of a table that holds a log: the log's page, unless it meets a
    compacted row, which no present one does. *)
Lemma holds_page log t q rev limit :
  holds log t →
  let page := limited limit (snapshot q rev t) in
  length (snapshot q rev t) = length (snapshot q rev log) ∧
  (existsb compacted page = false → page = limited limit (snapshot q rev log)) ∧
  (rev = Z.of_nat (length log) → existsb compacted page = false).
Proof using HL.
  intros Hhold page. pose proof (holds_history _ _ Hhold) as [Ht El]. destruct Hhold as [Hh (f & Hf & Hc & E) Hl].
  assert (snapshot q rev t = f <$> snapshot q rev log) as Es by (rewrite E; apply snapshot_map; [done|by apply history_wf]).
  rewrite /page Es length_fmap limited_fmap. split; [done|]. split.
  - intros Hex. rewrite -[RHS]list_fmap_id. apply list_fmap_ext. intros i x Hx.
    destruct (Hc x) as [->|Hcx]; [done|]. rewrite existsb_false in Hex.
    rewrite Hex in Hcx; [|done]. apply list_elem_of_fmap_2. by eapply list_elem_of_lookup_2.
  - intros ->. apply existsb_false. intros x Hx. rewrite -limited_fmap -Es in Hx. apply limited_elem in Hx.
    apply snapshot_spec in Hx as [_ Hx]; [|by apply history_wf].
    rewrite /visible filter_all in Hx; [|by apply (Hl (Key x))].
    intros y Hy _. pose proof (history_row_bound _ _ Ht Hy). lia.
Qed.

(** A read of a table that holds the log answers from the log. *)
Lemma Client_Range_answers log st db r q :
  holds log (rows db) → committed st = Z.of_nat (length log) → Z.of_nat (length log) ≤ int64_max →
  plain_read r q → read_answer (etcd_of log) r q (Client_Range st db r).
Proof using HL.
  intros Hhold Hc Hlen (Hr & Hv & Hq & Hord & Hco & Hi). destruct (holds_history _ _ Hhold) as [_ El].
  rewrite (Client_Range_page st db r q) //; [lia|]. rewrite /read_answer etcd_of_revision Hc.
  set (rev := if (rr_Revision r =? 0) || (Z.of_nat (length log) <? rr_Revision r)
              then Z.of_nat (length log) else rr_Revision r).
  assert (0 ≤ rev ≤ Z.of_nat (length log)) as Hrev.
  { rewrite /rev. destruct (Z.eqb_spec (rr_Revision r) 0), (Z.ltb_spec (Z.of_nat (length log)) (rr_Revision r)); simpl; lia. }
  pose proof (holds_page log (rows db) q rev (rr_Limit r) Hhold) as Hpage.
  destruct (decide (rev = 0)) as [E0|Hpos].
  - assert (length log = 0%nat) as Hl0.
    { revert E0. rewrite /rev. destruct (Z.eqb_spec (rr_Revision r) 0), (Z.ltb_spec (Z.of_nat (length log)) (rr_Revision r)); simpl; lia. }
    apply length_zero_iff_nil in Hl0 as ->.
    assert (rows db = []) as -> by (by apply length_zero_iff_nil).
    exists ∅, []. rewrite E0. split; [done|]. split; [apply selects_nil|]. left.
    rewrite /limited. destruct (0 <? rr_Limit r); cbn; by rewrite ?take_nil.
  - exists (kvs_of_table (take (Z.to_nat rev) log)), (to_kv <$> snapshot q rev log).
    split; [apply etcd_of_lookup; lia|]. split; [apply snapshot_selects; [apply Hhold|lia]|].
    rewrite limited_fmap !length_fmap. destruct Hpage as (E & Hp & Hcur). rewrite E.
    destruct (existsb compacted _) eqn:Ex.
    + right. split; [|done]. destruct (decide (rev = Z.of_nat (length log))) as [Er|?]; [|lia].
      by specialize (Hcur Er).
    + left. by rewrite (Hp eq_refl).
Qed.

(** ** Writes *)

Lemma write_of_parsed r rec0 :
  ParseTxnRequest r = Ok rec0 →
  ∃ w, write_of r = Some w ∧ w_key w = Key rec0 ∧ w_expected w = PrevRevision rec0 ∧
    Created rec0 = (PrevRevision rec0 =? 0) ∧
    w_put w = if Deleted rec0 then None else Some (Value rec0, Lease rec0).
Proof.
  rewrite /ParseTxnRequest /write_of. intros Hp.
  repeat (case_match; simplify_eq/=; try done); bool_to_prop; simplify_eq/=; eexists; split_and!; try done. all: try lia.
Qed.

(** The guard of a write, by the live row of its key. *)
Lemma verdict_guard log rec w :
  history log → w_key w = Key rec → w_expected w = PrevRevision rec → 0 ≤ PrevRevision rec →
  Created rec = (PrevRevision rec =? 0) → Created rec && Deleted rec = false →
  guard_holds w (kvs_of_table log) = bool_decide (insert_verdict rec (live_for_key (Key rec) log) = None).
Proof.
  intros Hh Hk He Hp Hc Hcd. rewrite /guard_holds Hk He kvs_of_table_lookup /insert_verdict.
  destruct (live_for_key (Key rec) log) as [l|] eqn:El;
    cbn [fmap option_fmap option_map from_option id to_kv kv_ModRevision].
  - apply live_for_key_spec in El as [[Hin _]%latest_elem _]. pose proof (history_row_bound _ _ Hh Hin).
    rewrite Hc. destruct (Z.eqb_spec (PrevRevision rec) 0), (Z.eqb_spec (Revision l) (PrevRevision rec)),
      (Z.eqb_spec (PrevRevision rec) (Revision l)); try lia; done.
  - rewrite Hc in Hcd. destruct (Z.eqb_spec (PrevRevision rec) 0), (Z.eqb_spec 0 (PrevRevision rec)); try lia;
      revert Hcd; by destruct (Deleted rec).
Qed.

(** An accepted row writes what the request says. *)
Lemma inserted_applies now rec log w :
  history log → invalid_for_insert rec = false → Revision rec = Z.of_nat (length log) + 1 →
  insert_verdict rec (live_for_key (Key rec) log) = None →
  w_key w = Key rec → w_put w = (if Deleted rec then None else Some (Value rec, Lease rec)) →
  kvs_of_table (log ++ [inserted_row now rec log]) = apply_write (Revision rec) w (kvs_of_table log).
Proof.
  intros Hh Hi Hrev Hv Hk Hp. destruct (inserted_row_ok now rec log Hh Hi Hrev Hv) as [_ Hok].
  rewrite kvs_of_table_snoc /kvs_apply /apply_write Hk Hp kvs_of_table_lookup.
  change (Deleted (inserted_row now rec log)) with (Deleted rec) in *.
  change (Key (inserted_row now rec log)) with (Key rec) in *.
  destruct (Deleted rec); [done|]. f_equal. rewrite /to_kv.
  change (Revision (inserted_row now rec log)) with (Revision rec) in *.
  destruct (live_for_key (Key rec) log) as [l|];
    cbn [fmap option_fmap option_map from_option id to_kv kv_CreateRevision kv_Version].
  - by destruct Hok as (_ & -> & _ & ->).
  - by destruct Hok as (_ & -> & _ & ->).
Qed.

(** The rows before it enter an insertion only through their links. *)
Lemma inserted_row_same now rec log t :
  holds log t → inserted_row now rec t = inserted_row now rec log.
Proof.
  intros [_ (f & Hf & _ & ->) _].
  assert (∀ o, Version <$> (f <$> o) = (Version <$> o : option Z)) as Hver.
  { intros [x|]; [|done]. cbn. f_equal. apply Hf. }
  rewrite /inserted_row. f_equal; cbn [insertRecordSQL v_create_revision v_version].
  - rewrite (live_map _ Hf). destruct (live_for_key (Key rec) log) as [x|]; cbn; [apply Hf|].
    rewrite /latest_revision_for_table fmap_last. destruct (last log) as [x|]; [|done]. cbn. f_equal. apply Hf.
  - by rewrite (latest_map _ Hf) Hver.
Qed.

(** Which failed guards are answered with the current pair. *)
Lemma verdict_failure rec live w e :
  insert_verdict rec live = Some e → Created rec = (PrevRevision rec =? 0) →
  w_expected w = PrevRevision rec → w_put w = (if Deleted rec then None else Some (Value rec, Lease rec)) →
  negb (w_expected w =? 0) && (bool_decide (is_Some live) || bool_decide (is_Some (w_put w)))
  = bool_decide (e = ErrCompareRevisionFailed).
Proof.
  rewrite /insert_verdict. intros Hv Hc -> ->. rewrite Hc in Hv.
  destruct live as [l|]; [destruct (PrevRevision rec =? 0), (negb (PrevRevision rec =? Revision l))|
    destruct (Deleted rec), (PrevRevision rec =? 0)]; by simplify_eq/=.
Qed.

(** The read of the failure branch. *)
Lemma snapshot_key k t :
  history t → snapshot (WhereKeyEq k) 0 t = option_list (live_for_key k t).
Proof using HL.
  intros Hh. destruct (snapshot_spec (WhereKeyEq k) 0 t (history_wf _ Hh)) as [Hs Hin].
  rewrite /visible filter_all in Hin; [by lia|].
  assert (∀ x, x ∈ snapshot (WhereKeyEq k) 0 t ↔ live_for_key k t = Some x) as Hin'.
  { intros x. rewrite Hin /=. split; [intros [->%bool_decide_eq_true ?]; done|]. intros Hx.
    assert (Key x = k) as -> by (apply live_for_key_spec in Hx as [[_ ?]%latest_elem _]; done).
    by rewrite bool_decide_true. }
  destruct (live_for_key k t) as [x|] eqn:El; cbn.
  - assert (x ∈ snapshot (WhereKeyEq k) 0 t) as Hx by (by apply Hin').
    destruct (snapshot (WhereKeyEq k) 0 t) as [|y [|z l]]; [by apply not_elem_of_nil in Hx| |].
    + assert (Some x = Some y) as [= ->] by (apply Hin'; by left). done.
    + exfalso. assert (Some x = Some y) as [= <-] by (apply Hin'; by left).
      assert (Some x = Some z) as [= <-] by (apply Hin'; right; by left).
      apply StronglySorted_inv in Hs as [_ [Hlt _]%Forall_cons]. by apply bytes_lt_irrefl in Hlt.
  - destruct (snapshot (WhereKeyEq k) 0 t) as [|y l]; [done|].
    assert (None = Some y) as [=] by (apply Hin'; by left).
Qed.

Lemma failure_range_answers log db k c rr :
  holds log (rows db) → k ≠ [] → Range db (failure_range k) c = Ok rr →
  let found := kvs_of_table log !! k in
  rr = mkRangeResponse (Some c) (option_list found) (Z.of_nat (length (option_list found))) false.
Proof using HL.
  intros Hhold Hk. pose proof (holds_history _ _ Hhold) as [Ht El].
  assert (buildRangeQuery (failure_range k) = Some (WhereKeyEq k)) as Hq.
  { rewrite /buildRangeQuery. cbn [failure_range rr_Key rr_RangeEnd].
    destruct (last k) as [c0|] eqn:E; [done|]. by apply last_None in E. }
  rewrite (Range_snapshot db (failure_range k) c (WhereKeyEq k)) //; cbn [failure_range rr_Revision rr_Limit].
  all: rewrite snapshot_key // (holds_live log) //.
  { by destruct (live_for_key k log). }
  rewrite kvs_of_table_lookup. destruct (live_for_key k log) as [x|]; cbn; [|by intros [= <-]].
  destruct (compacted x); [done|]. by intros [= <-].
Qed.


(** ** Any sequence of operations *)

(** One operation of the server; [None] is a panic in the distribution to the
    watches. *)
Definition serve (o : op OS) (sm : Server OS * Manager) : option (answer * (Server OS * Manager)) :=
  let '(sv, m) := sm in
  match o with
  | ClientTxn entry env r =>
      match ApplyTxn record_size cfg entry env r sv m with
      | None => None
      | Some (a, sv', m') => Some (AnswerTxn a, (sv', m'))
      end
  | ClientRange r => Some (AnswerRange (Client_Range (sv_state sv) (sv_db sv) r), (sv, m))
  | CompactTo now rev => Some (NoAnswer, (executeCompaction now rev sv, m))
  | OtherEvent e => Some (NoAnswer, (handle_event cfg e sv, m))
  end.

Fixpoint serve_all (os : list (op OS)) (sm : Server OS * Manager) : option (list answer * (Server OS * Manager)) :=
  match os with
  | [] => Some ([], sm)
  | o :: os =>
      match serve o sm with
      | None => None
      | Some (a, sm') =>
          match serve_all os sm' with
          | None => None
          | Some (l, sm'') => Some (a :: l, sm'')
          end
      end
  end.

(** The server works on a log. *)
Definition serves (log : table) (sm : Server OS * Manager) : Prop :=
  primary_inv sm.1 ∧ manager_wf sm.2 ∧ holds log (rows (sv_db sm.1)).

(** What [InsertRecord] says of a write on the log. *)
Lemma insert_on_log now sv rec0 w log r :
  primary_inv sv → holds log (rows (sv_db sv)) → ParseTxnRequest r = Ok rec0 → write_of r = Some w →
  let rec := stamped cfg sv rec0 in
  let found := kvs_of_table log !! w_key w in
  match InsertRecord now rec (sv_db sv) with
  | Ok (ins, tx) =>
      guard_holds w (kvs_of_table log) = true ∧ holds (log ++ [ins]) (rows tx) ∧
      kvs_of_table (log ++ [ins]) = apply_write (Revision ins) w (kvs_of_table log) ∧
      Deleted ins = negb (bool_decide (is_Some (w_put w))) ∧ Revision ins = Z.of_nat (length log) + 1
  | Err ErrInvalidRecord => True
  | Err e =>
      guard_holds w (kvs_of_table log) = false ∧ w_key w = Key rec0 ∧ Key rec0 ≠ [] ∧
      negb (w_expected w =? 0) && (bool_decide (is_Some found) || bool_decide (is_Some (w_put w)))
      = bool_decide (e = ErrCompareRevisionFailed)
  end.
Proof.
  intros (Hh & Hn & _) Hhold Hp Hw rec found. destruct (holds_history _ _ Hhold) as [_ El].
  destruct (write_of_parsed r rec0 Hp) as (w' & Hw' & Hk & He & Hc & Hput). rewrite Hw in Hw'. injection Hw' as <-.
  destruct (invalid_for_insert rec) eqn:Hi; [by rewrite /InsertRecord Hi|].
  destruct (invalid_for_insert_false _ Hi) as (_ & Hkey & Hprev & Hcd).
  assert (Revision rec = LatestRevision (sv_db sv) + 1) as Hrev by done.
  assert (Revision rec = Z.of_nat (length log) + 1) as Hrev'
    by (rewrite Hrev /LatestRevision history_latest_table // El //).
  rewrite InsertRecord_spec // (holds_live log) //.
  pose proof (verdict_guard log rec w (h_history _ _ Hhold) Hk He Hprev Hc Hcd) as Hg.
  destruct (insert_verdict rec (live_for_key (Key rec) log)) as [e|] eqn:Ev.
  - assert (is_Some found ↔ is_Some (live_for_key (Key rec) log)) as Hf
      by (rewrite /found Hk kvs_of_table_lookup fmap_is_Some //).
    pose proof (verdict_failure rec _ w e Ev Hc He Hput) as Hv. rewrite -(bool_decide_ext _ _ Hf) in Hv.
    destruct e; try done.
  - rewrite bool_decide_true // in Hg. rewrite (inserted_row_same now rec log) //.
    pose proof (inserted_applies now rec log w (h_history _ _ Hhold) Hi Hrev' Ev Hk Hput) as Ha.
    split; [done|]. split; [|split; [done|split; [|done]]].
    + apply holds_snoc; [done| |done]. constructor; [apply Hhold|done|].
      by apply inserted_row_ok; [apply Hhold|..].
    + cbn. rewrite Hput. by destruct (Deleted rec0).
Qed.

(** The transaction on the log. *)
Lemma LeaderTxn_log entry env r sv log :
  primary_inv sv → holds log (rows (sv_db sv)) →
  let e := etcd_of log in
  let out := LeaderTxn record_size cfg entry env r sv in
  match txn_answer out.2 out.1 with
  | Ok (Some ins, resp) =>
      holds (log ++ [ins]) (rows (sv_db out.2)) ∧
      ∃ w, write_of r = Some w ∧ guard_holds w (current e) = true ∧
        resp = success_answer (revision e + 1) w ∧
        etcd_of (log ++ [ins]) = e ++ [apply_write (revision e + 1) w (current e)]
  | Ok (None, resp) =>
      rows (sv_db out.2) = rows (sv_db sv) ∧
      ∃ w, write_of r = Some w ∧ guard_holds w (current e) = false ∧ resp = failure_answer e r w
  | Err _ => rows (sv_db out.2) = rows (sv_db sv)
  end.
Proof using HL.
  intros Hinv Hhold e out. rewrite /out /e etcd_of_current etcd_of_revision.
  assert (committed (sv_state sv) = Z.of_nat (length log)) as Hcm.
  { destruct Hinv as (Hh & _ & ->). by rewrite /LatestRevision history_latest_table // (proj2 (holds_history _ _ Hhold)). }
  pose proof (LeaderTxn_outcome record_size cfg entry env r sv) as Hout.
  destruct Hout as [er He|rec0 er Hp Hi Hf|rec0 rr Hp Hi Hr Hf|rec0 ins tx er sv' Hp Hi Hr He|rec0 ins tx sv' Hp Hi Hr];
    cbn [fst snd].
  - destruct er; try done. by destruct (He e0).
  - destruct (write_of_parsed r rec0 Hp) as (w & Hw & _).
    pose proof (insert_on_log (te_now env) sv rec0 w log r Hinv Hhold Hp Hw) as Hv. cbn in Hv. rewrite Hi in Hv.
    destruct er; try done; cbn [txn_answer]; (split; [done|]); exists w; destruct Hv as (Hg & _ & _ & Hv);
      (split; [done|]); (split; [done|]); rewrite /failure_answer etcd_of_current etcd_of_revision -andb_assoc Hv Hcm;
      rewrite andb_comm Hf; done.
  - destruct (write_of_parsed r rec0 Hp) as (w & Hw & _).
    pose proof (insert_on_log (te_now env) sv rec0 w log r Hinv Hhold Hp Hw) as Hv. cbn in Hv. rewrite Hi in Hv.
    destruct Hv as (Hg & Hk & Hne & Hv). cbn [txn_answer]. split; [done|]. exists w. split; [done|]. split; [done|].
    pose proof (failure_range_answers log _ _ _ _ Hhold Hne Hr) as ->.
    rewrite /failure_answer etcd_of_current etcd_of_revision -andb_assoc Hv Hf Hk /BuildTxnResponse. cbn [rsp_Header]. by rewrite Hcm.
  - pose proof (path_run_outcome record_size cfg env tx ins sv) as Ho. rewrite Hr in Ho.
    destruct Ho as (E1 & _ & _). destruct er; try (by rewrite /= E1). by destruct (He e0).
  - destruct (write_of_parsed r rec0 Hp) as (w & Hw & _).
    pose proof (insert_on_log (te_now env) sv rec0 w log r Hinv Hhold Hp Hw) as Hv. cbn in Hv. rewrite Hi in Hv.
    destruct Hv as (Hg & Hh & Ha & Hd & Hrev). pose proof (path_run_outcome record_size cfg env tx ins sv) as Ho.
    rewrite Hr in Ho. destruct Ho as (E1 & _ & _). cbn [txn_answer fst snd] in *. rewrite E1.
    split; [done|]. exists w. split; [done|]. split; [done|]. rewrite etcd_of_snoc Ha Hrev. split; [|done].
    rewrite /BuildTxnResponse /success_answer Hd Hrev. by destruct (bool_decide _).
Qed.

Lemma serve_step o sm log :
  serves log sm → Z.of_nat (length log) + 1 < int64_max →
  ∃ a sm' log', serve o sm = Some (a, sm') ∧ serves log' sm' ∧ (length log' ≤ S (length log))%nat ∧
    etcd_step (etcd_of log) o a (etcd_of log').
Proof using HL.
  destruct sm as [sv m]. intros (Hinv & Hm & Hhold) Hlen. cbn [fst snd] in *.
  destruct (holds_history _ _ Hhold) as [Hh El]. pose proof Hinv as (_ & Hn & Hc).
  rewrite /LatestRevision history_latest_table // El in Hn, Hc.
  destruct o as [entry env r|r|now rev|ev]; cbn [serve].
  - pose proof (LeaderTxn_log entry env r sv log Hinv Hhold) as Hlog.
    pose proof (LeaderTxn_keeps_inv record_size cfg entry env r sv Hinv ltac:(lia)) as Hinv'. rewrite /ApplyTxn.
    destruct (LeaderTxn record_size cfg entry env r sv) as [out sv'] eqn:Eout. cbn [fst snd] in *.
    destruct (txn_answer sv' out) as [[[ins|] resp]|err]; cbn [distribute_inserted].
    + destruct Hlog as (Hhold' & w & Hw & Hg & -> & Ee).
      destruct (Distribute_wf ins (prev_record ins (sv_db sv')) m Hm) as (m' & -> & Hm').
      eexists _, _, (log ++ [ins]). split; [done|]. split; [done|]. rewrite length_app /=. split; [lia|].
      rewrite Ee. by constructor.
    + destruct Hlog as (Er & w & Hw & Hg & ->). eexists _, _, log. split; [done|].
      split; [by rewrite /serves /= Er|]. split; [lia|]. by constructor.
    + eexists _, _, log. split; [done|]. split; [by rewrite /serves /= Hlog|]. split; [lia|]. by constructor.
  - eexists _, _, log. split; [done|]. split; [done|]. split; [lia|]. constructor. intros q Hq.
    apply Client_Range_answers; [done|done|lia|done].
  - eexists _, _, log. split; [done|]. split; [|split; [lia|by constructor]].
    assert (holds log (rows (sv_db (executeCompaction now rev sv)))) as Hhold'.
    { rewrite /executeCompaction. cbn [sv_db set_db]. rewrite ExecuteCompaction_rows.
      destruct (rev <=? 0); [done|]. by apply holds_compacted. }
    split; [|split; [done|done]]. destruct (holds_history _ _ Hhold') as [Hh' El'].
    rewrite /primary_inv /LatestRevision history_latest_table // El'. by split.
  - eexists _, _, log. split; [done|]. split; [|split; [lia|by constructor]].
    destruct (handle_event_core cfg ev sv) as (E1 & E2 & E3). rewrite /serves /primary_inv /= E1 E2 E3. by split.
Qed.

End server.

(** ** On a concrete run

    A create, a read of it, a guarded write with a stale revision, a compaction
    and a read of the past. *)

#[local] Existing Instance example_codec.
#[local] Existing Instance ascii_like.
#[local] Hint Extern 0 (ObjectStorage MemoryStore) =>
  exact (MemoryStore_ObjectStorage example_etag) : typeclass_instances.

Lemma example_holds : holds (rows example_db) (rows example_db).
Proof.
  split; [apply example_db_history| |].
  - exists id. split; [done|]. split; [by left|]. by rewrite list_fmap_id.
  - intros k x [[Hin _]%latest_elem _]%live_for_key_spec. revert x Hin. apply Forall_forall.
    repeat constructor.
Qed.

Definition client_ops : list (op MemoryStore) :=
  [ClientTxn example_server quorum_env (create_b Byte.x33 []);
   ClientRange (set_rr_Revision 0 example_all);
   ClientTxn example_server quorum_env (create_b Byte.x34 []);
   CompactTo 70 3; ClientRange (set_rr_Revision 2 example_all)].


(** Its answers: applied at 5, the five pairs, refused, and compacted. *)
Lemma client_ops_answers :
  ∃ r5 rr rf sm', serve_all example_size example_cfg client_ops (example_server, all_watch)
    = Some ([AnswerTxn (Ok r5); AnswerRange (Ok rr); AnswerTxn (Ok rf); NoAnswer; AnswerRange (Err ErrGRPCCompacted)], sm') ∧
    tr_Succeeded r5 = true ∧ rsp_Header rr = Some 5 ∧ tr_Succeeded rf = false.
Proof. eexists _, _, _, _. split; [vm_compute; reflexivity|]. vm_compute. done. Qed.
