(* ===== verification/Follower.v ===== *)
(** * internal/replication: the Replica's side of a Follow stream

    [Follower] is what the stream's handlers share: node state, database, watch
    manager and the lag timer.  A stream is the list of messages received on
    it.  Compaction runs in the background, so it is an operation of its own. *)

From S2P Require Import Prelude NodeState Records LocalDB RangeApi Storage DataFile DataStore.
From S2P Require Import Quorum ChunkBuffer Primary Watch.

#[local] Open Scope Z_scope.

(** [fl_lagTarget] is the committed revision of the armed lag timer. *)
Record Follower := mkFollower {
  fl_nodeID : string;
  fl_state : State;
  fl_db : database;
  fl_watch : Manager;
  fl_lagTarget : option Z;
}.

Definition set_fl_state (st : State) (f : Follower) : Follower :=
  mkFollower (fl_nodeID f) st (fl_db f) (fl_watch f) (fl_lagTarget f).
Definition set_fl_db (db : database) (f : Follower) : Follower :=
  mkFollower (fl_nodeID f) (fl_state f) db (fl_watch f) (fl_lagTarget f).
Definition set_fl_watch (m : Manager) (f : Follower) : Follower :=
  mkFollower (fl_nodeID f) (fl_state f) (fl_db f) m (fl_lagTarget f).
Definition set_fl_lag (t : option Z) (f : Follower) : Follower :=
  mkFollower (fl_nodeID f) (fl_state f) (fl_db f) (fl_watch f) t.

(** [heartbeat.Sender.BuildNodeState]; [startTime] is the node's. *)
Definition BuildNodeState (startTime : Z) (f : Follower) : pb_NodeState :=
  mk_pb_NodeState (fl_nodeID f) (HealthToProto (health (fl_state f))) (ElectorToProto (elector (fl_state f)))
    (PrimaryToProto (primary (fl_state f))) (LatestRevision (fl_db f)) startTime.

Inductive follow_err :=
| FollowReplicateErr (e : db_err)
| FollowSendErr
| FollowPersistErr
| FollowPanic.

Definition degradeSelf (f : Follower) : Follower :=
  if bool_decide (health (fl_state f) = HealthDegraded) then f
  else set_fl_state (SetHealth HealthDegraded (fl_state f)).2 f.

(** ** Lag *)

Definition cancelCommittedRevisionLagCheck (f : Follower) : Follower := set_fl_lag None f.

Definition scheduleCommittedRevisionLagCheck (committedRevision : Z) (f : Follower) : Follower :=
  if committedRevision <=? 0 then cancelCommittedRevisionLagCheck f
  else if committedRevision <=? LatestRevision (fl_db f) then cancelCommittedRevisionLagCheck f
  else set_fl_lag (Some committedRevision) f.

(** The timer fires, [committedRevisionLagGracePeriod] later. *)
Definition lag_timer (f : Follower) : Follower :=
  match fl_lagTarget f with
  | None => f
  | Some target =>
      let f' := if LatestRevision (fl_db f) <? target then degradeSelf f else f in
      set_fl_lag None f'
  end.

(** ** Handlers *)

(** [persistFails] is a failure of the database. *)
Definition handleInitial (persistFails : bool) (committedRevision compactionRevision : Z) (f : Follower)
    : res follow_err unit * Follower :=
  let seed := (0 <? compactionRevision) && (LatestCompactionRevision (fl_db f) =? 0) in
  if seed && persistFails then (Err FollowPersistErr, f)
  else
    let f1 := if seed then set_fl_db (PersistCompactionRevision compactionRevision (fl_db f)) f else f in
    let f2 := set_fl_state (SetCompaction compactionRevision (SetCommitted committedRevision (fl_state f1))) f1 in
    match AdvanceCommittedRevision committedRevision (fl_db f2) (fl_watch f2) with
    | None => (Err FollowPanic, f2)
    | Some m => (Ok tt, set_fl_watch m f2)
    end.

(** The Receipts sent are returned; [send1] and [send2] are the outcomes of the
    two attempts. *)
Definition handleRecord (now startTime : Z) (send1 send2 : bool) (r : record) (f : Follower)
    : res follow_err unit * list ReplicaMessage * Follower :=
  match ReplicateTentativeRecord now r (committed (fl_state f)) (fl_db f) with
  | (Err e, db) => (Err (FollowReplicateErr e), [], set_fl_db db f)
  | (Ok _, db) =>
      let f1 := set_fl_db db f in
      let f2 := set_fl_watch (EnqueueWatchRevision (Revision r) (fl_watch f1)) f1 in
      let receipt := mkReplicaMessage (Revision r) (Some (BuildNodeState startTime f2)) in
      if send1 || send2 then (Ok tt, [receipt], f2)
      else (Err FollowSendErr, [], degradeSelf f2)
  end.

Definition handleCommit (committedRevision : Z) (f : Follower) : res follow_err unit * Follower :=
  let f1 := set_fl_state (SetCommitted committedRevision (fl_state f)) f in
  match AdvanceCommittedRevision committedRevision (fl_db f1) (fl_watch f1) with
  | None => (Err FollowPanic, f1)
  | Some m =>
      let f2 := set_fl_watch m f1 in
      (Ok tt, if bool_decide (health (fl_state f2) = HealthHealthy)
              then scheduleCommittedRevisionLagCheck committedRevision f2 else f2)
  end.

Definition handleCompact (persistFails : bool) (compactionRevision : Z) (f : Follower)
    : res follow_err unit * Follower :=
  if persistFails then (Err FollowPersistErr, f)
  else
    let f1 := set_fl_db (PersistCompactionRevision compactionRevision (fl_db f)) f in
    (Ok tt, set_fl_state (SetCompaction compactionRevision (fl_state f1)) f1).

(** The compaction [handleCompact] starts in the background. *)
Definition run_compaction (now compactionRevision : Z) (f : Follower) : Follower :=
  set_fl_db (ExecuteCompaction now compactionRevision (fl_db f)).2 f.

(** ** The stream *)

(** Outcomes met by the handler of one message. *)
Record follow_env := mkFollowEnv {
  fe_now : Z;
  fe_startTime : Z;
  fe_send1 : bool;
  fe_send2 : bool;
  fe_persistFails : bool;
}.

(** One iteration of [processStream] after [Recv]. *)
Definition handle_message (env : follow_env) (msg : PrimaryMessage) (f : Follower)
    : res follow_err unit * list ReplicaMessage * Follower :=
  match msg with
  | MsgInitial c k => let '(r, f') := handleInitial (fe_persistFails env) c k f in (r, [], f')
  | MsgRecord r => handleRecord (fe_now env) (fe_startTime env) (fe_send1 env) (fe_send2 env) r f
  | MsgCommit c => let '(r, f') := handleCommit c f in (r, [], f')
  | MsgCompact k => let '(r, f') := handleCompact (fe_persistFails env) k f in (r, [], f')
  end.

(** The messages of one stream until an error ends it; the Receipts sent. *)
Fixpoint processStream (msgs : list (follow_env * PrimaryMessage)) (f : Follower)
    : res follow_err unit * list ReplicaMessage * Follower :=
  match msgs with
  | [] => (Ok tt, [], f)
  | (env, msg) :: msgs' =>
      match handle_message env msg f with
      | (Err e, out, f') => (Err e, out, f')
      | (Ok _, out, f') =>
          let '(r, out', f'') := processStream msgs' f' in (r, out ++ out', f'')
      end
  end.

(** [connectAndFollow] once the stream is open. *)
Definition follow_stream (msgs : list (follow_env * PrimaryMessage)) (f : Follower)
    : res follow_err unit * list ReplicaMessage * Follower :=
  processStream msgs (set_fl_watch (ResetPending (fl_watch f)) f).
