(* ===== verification/FollowerTheorems.v ===== *)
(** * Theorems on replication

    A Receipt means the record is stored; a Replica that misses no message of
    its Primary's stream holds the Primary's committed table, whatever attempts
    the Primary rolled back in between. *)

From S2P Require Import Prelude NodeState Records LocalDB History Examples LocalDBTheorems RangeApi.
From S2P Require Import Storage DataFile DataStore Quorum ChunkBuffer Primary Watch WatchTheorems.
From S2P Require Import Follower.

#[local] Open Scope Z_scope.

(** ** Receipts *)

(** A Receipt is sent only for a record that the Replica's table holds, equal
    on every replicated column, and handling a record never disturbs the rows
    at or below the Replica's committed revision. *)
Theorem handleRecord_receipt now start send1 send2 r f :
  let out := handleRecord now start send1 send2 r f in
  (∀ m, m ∈ out.1.2 → rm_Revision m = Revision r ∧
     ∃ x, FindRecordByRev (Revision r) (fl_db out.2) = Ok x ∧ recordsEqualForReplication x r = true) ∧
  (∀ x, x ∈ rows (fl_db f) → Revision x ≤ committed (fl_state f) → x ∈ rows (fl_db out.2)) ∧
  committed (fl_state out.2) = committed (fl_state f).
Proof.
  rewrite /handleRecord.
  pose proof (ReplicateTentativeRecord_keeps now r (committed (fl_state f)) (fl_db f)) as Hkeep.
  pose proof (ReplicateTentativeRecord_found now r (committed (fl_state f)) (fl_db f)) as Hfound.
  destruct (ReplicateTentativeRecord _ _ _ _) as [[x|e] db]; simpl in *.
  - assert (∀ g, committed (fl_state (degradeSelf g)) = committed (fl_state g) ∧
                 fl_db (degradeSelf g) = fl_db g) as Hdeg.
    { intros g. rewrite /degradeSelf /SetHealth. repeat case_match; done. }
    destruct (send1 || send2)%bool; simpl.
    + split; [|split; [apply Hkeep|done]]. intros m ->%list_elem_of_singleton. split; [done|].
      exists x. by apply Hfound.
    + split; [by intros m ?%elem_of_nil|]. destruct (Hdeg (set_fl_watch
        (EnqueueWatchRevision (Revision r) (fl_watch f)) (set_fl_db db f))) as [-> ->].
      split; [apply Hkeep|done].
  - split; [by intros m ?%elem_of_nil|]. split; [apply Hkeep|done].
Qed.

(** ** Following a Primary *)

(** The messages a Primary puts on a stream while its committed table grows from
    one to another: every attempt broadcasts its record at the next revision,
    and a commit follows those that succeed. *)
Inductive primary_stream : table → list PrimaryMessage → table → Prop :=
| stream_nil t : primary_stream t [] t
| stream_attempt t r msgs t' :
    Revision r = Z.of_nat (length t) + 1 → row_ok t r → primary_stream t msgs t' →
    primary_stream t (MsgRecord r :: msgs) t'
| stream_commit t r msgs t' :
    Revision r = Z.of_nat (length t) + 1 → row_ok t r → primary_stream (t ++ [r]) msgs t' →
    primary_stream t (MsgRecord r :: MsgCommit (Revision r) :: msgs) t'
| stream_compact t k msgs t' :
    primary_stream t msgs t' → primary_stream t (MsgCompact k :: msgs) t'.

Definition replica_row (r x : record) : Prop := recordsEqualForReplication x r = true.

Lemma replica_row_links r x : replica_row r x → same_links r x.
Proof.
  rewrite /replica_row /recordsEqualForReplication /same_links.
  rewrite !andb_true_iff !Z.eqb_eq !bool_decide_eq_true !Bool.eqb_true_iff. tauto.
Qed.

(** The Replica holds table [t], and above it at most one tentative row. *)
Definition follows (t : table) (f : Follower) : Prop :=
  committed (fl_state f) = Z.of_nat (length t) ∧ manager_wf (fl_watch f) ∧
  ∃ c tent, rows (fl_db f) = c ++ tent ∧ Forall2 replica_row t c ∧
    (tent = [] ∨ ∃ x, tent = [x] ∧ Revision x = Z.of_nat (length t) + 1).

Lemma stored_replica_row now r : replica_row r (stored_row now r).
Proof. apply (recordsEqual_stored now 0 r). Qed.

(** Storing the record of an attempt over whatever tentative row is there. *)
Lemma tentative_overwrite now r t c tent db :
  history t → rows db = c ++ tent → Forall2 replica_row t c →
  (tent = [] ∨ ∃ x, tent = [x] ∧ Revision x = Z.of_nat (length t) + 1) →
  Revision r = Z.of_nat (length t) + 1 → row_ok t r →
  ∃ x db', ReplicateTentativeRecord now r (Z.of_nat (length t)) db = (Ok x, db') ∧
    rows db' = c ++ [x] ∧ replica_row r x.
Proof.
  intros Ht Hrows HF Htent Hrev Hok.
  assert (Forall2 same_links t c) as HL by (eapply Forall2_impl; [exact HF|apply replica_row_links]).
  pose proof (Forall2_length _ _ _ HF) as Hlen.
  assert (history (c ++ [r])) as Hh.
  { apply (history_Forall2 (t ++ [r])); [by constructor|]. apply Forall2_app; [done|by constructor]. }
  destruct (history_snoc_inv _ _ Hh) as (Hc & _ & Hokc).
  assert (∀ d, rows d = c → ReplicateRecord now r d
    = Ok (stored_row now r, set_rows (rows d ++ [stored_row now r]) d)) as Happend.
  { intros d Hd. apply ReplicateRecord_append; rewrite Hd // -Hlen //. }
  rewrite /ReplicateTentativeRecord. destruct (Z.leb_spec (Revision r) (Z.of_nat (length t))); [lia|].
  destruct Htent as [->|(x & -> & Hx)].
  { rewrite app_nil_r in Hrows. rewrite (Happend db Hrows). eexists _, _. split; [done|].
    rewrite /= Hrows. split; [done|apply stored_replica_row]. }
  assert (FindRecordByRev (Revision r) db = Ok x) as Hfind.
  { rewrite /FindRecordByRev Hrows filter_app filter_none; [|by rewrite filter_cons_True ?Hx].
    intros y Hy. pose proof (history_row_bound _ _ Hc Hy). lia. }
  assert (rows (delete_revision (Revision r) db) = c) as Hdel.
  { rewrite /= Hrows filter_app filter_cons_False; [by rewrite Hx Hrev; intros []|].
    rewrite app_nil_r filter_all //. intros y Hy. pose proof (history_row_bound _ _ Hc Hy). lia. }
  assert (ReplicateRecord now r db
    = if negb (recordsEqualForReplication x (set_ReplicatedAt (Some now) r))
      then Err (ErrReplicateConflict (Revision r)) else Ok (x, db)) as ->.
  { rewrite /ReplicateRecord. destruct (Z.eqb_spec (Revision r) 0); [lia|].
    rewrite sql_insert_replicate; [apply Hok|].
    assert (existsb (λ x, Revision x =? Revision r) (rows db) = true) as ->; [|by rewrite Hfind].
    apply existsb_exists. exists x. split; [apply list_elem_of_In; rewrite Hrows; set_solver|].
    apply Z.eqb_eq. lia. }
  destruct (recordsEqualForReplication x (set_ReplicatedAt (Some now) r)) eqn:E; simpl.
  - eexists _, _. split; [done|]. split; [done|exact E].
  - rewrite (Happend _ Hdel). eexists _, _. split; [done|]. rewrite Hdel. split; [done|apply stored_replica_row].
Qed.

(** The environments of a stream that meets no failure. *)
Definition steady (env : follow_env) : Prop :=
  fe_persistFails env = false ∧ (fe_send1 env || fe_send2 env)%bool = true.

(** The Replica holds [t] and above it the record of the last attempt. *)
Definition holds_attempt (t : table) (r : record) (f : Follower) : Prop :=
  committed (fl_state f) = Z.of_nat (length t) ∧ manager_wf (fl_watch f) ∧
  ∃ c x, rows (fl_db f) = c ++ [x] ∧ Forall2 replica_row t c ∧ replica_row r x.

Lemma holds_attempt_follows t r f :
  Revision r = Z.of_nat (length t) + 1 → holds_attempt t r f → follows t f.
Proof.
  intros Hrev (Hc & Hwf & c & x & Hrows & HF & Hx). split; [done|]. split; [done|].
  exists c, [x]. split; [done|]. split; [done|]. right. exists x. split; [done|].
  apply replica_row_links in Hx as [-> _]. done.
Qed.

Lemma manager_wf_enqueue rev m : manager_wf m → manager_wf (EnqueueWatchRevision rev m).
Proof. rewrite /EnqueueWatchRevision. by case_match. Qed.

Lemma handleRecord_follows env t r f :
  history t → follows t f → steady env → Revision r = Z.of_nat (length t) + 1 → row_ok t r →
  ∃ m f', handle_message env (MsgRecord r) f = (Ok tt, [m], f') ∧ rm_Revision m = Revision r ∧
    holds_attempt t r f'.
Proof.
  intros Ht (Hc & Hwf & c & tent & Hrows & HF & Htent) [_ Hsend] Hrev Hok.
  destruct (tentative_overwrite (fe_now env) r t c tent (fl_db f) Ht Hrows HF Htent Hrev Hok)
    as (x & db' & Hrep & Hrows' & Hx).
  rewrite /= /handleRecord Hc Hrep Hsend. eexists _, _. split; [reflexivity|]. split; [done|].
  split; [done|]. split; [by apply manager_wf_enqueue|]. by exists c, x.
Qed.

Lemma scheduleLag_fields c f :
  fl_state (scheduleCommittedRevisionLagCheck c f) = fl_state f ∧
  fl_watch (scheduleCommittedRevisionLagCheck c f) = fl_watch f ∧
  fl_db (scheduleCommittedRevisionLagCheck c f) = fl_db f.
Proof. rewrite /scheduleCommittedRevisionLagCheck. by repeat case_match. Qed.

Lemma handleCommit_follows env t r f :
  holds_attempt t r f → Revision r = Z.of_nat (length t) + 1 →
  ∃ f', handle_message env (MsgCommit (Revision r)) f = (Ok tt, [], f') ∧ follows (t ++ [r]) f'.
Proof.
  intros (Hc & Hwf & c & x & Hrows & HF & Hx) Hrev. rewrite /= /handleCommit.
  destruct (AdvanceCommittedRevision_wf (Revision r) (fl_db f) (fl_watch f) Hwf) as (m & Hm & Hwf').
  rewrite /= Hm. eexists. split; [reflexivity|].
  assert (∀ g : Follower, follows (t ++ [r]) g →
    follows (t ++ [r]) (scheduleCommittedRevisionLagCheck (Revision r) g)) as Hlag.
  { intros g. rewrite /follows. by destruct (scheduleLag_fields (Revision r) g) as (-> & -> & ->). }
  assert (follows (t ++ [r]) (set_fl_watch m (set_fl_state (SetCommitted (Revision r) (fl_state f)) f))) as Hf.
  { split; [rewrite /= Hrev length_app /=; lia|]. split; [done|]. exists (c ++ [x]), [].
    rewrite app_nil_r. split; [done|]. split; [|by left]. apply Forall2_app; [done|by constructor]. }
  case_bool_decide; [by apply Hlag|done].
Qed.

Lemma handleCompact_follows env t k f :
  follows t f → steady env → ∃ f', handle_message env (MsgCompact k) f = (Ok tt, [], f') ∧ follows t f'.
Proof.
  intros Hf [Hp _]. rewrite /= /handleCompact Hp. eexists. split; [reflexivity|].
  rewrite /follows /= /PersistCompactionRevision. by repeat case_match.
Qed.

Definition record_revisions (msgs : list PrimaryMessage) : list Z :=
  omap (λ m, match m with MsgRecord r => Some (Revision r) | _ => None end) msgs.

Lemma processStream_converges t t' msgs f :
  history t → follows t f → primary_stream t msgs.*2 t' → Forall steady msgs.*1 →
  let out := processStream msgs f in
  out.1.1 = Ok tt ∧ follows t' out.2 ∧ rm_Revision <$> out.1.2 = record_revisions msgs.*2.
Proof.
  intros Ht Hf Hs. remember msgs.*2 as ms eqn:Hms. revert msgs f Hms Ht Hf.
  induction Hs as [t|t r ms t' Hrev Hok Hs IH|t r ms t' Hrev Hok Hs IH|t k ms t' Hs IH];
    intros msgs f Hms Ht Hf Henv.
  - destruct msgs; [|done]. done.
  - destruct msgs as [|[env m] msgs]; [done|]. simpl in Hms. injection Hms as <- Hms.
    apply Forall_cons in Henv as [He Henv]. cbn [processStream].
    destruct (handleRecord_follows env t r f Ht Hf He Hrev Hok) as (m & f1 & -> & Hm & Hf1).
    apply holds_attempt_follows in Hf1; [|done].
    destruct (IH msgs f1 Hms Ht Hf1 Henv) as (E1 & E2 & E3).
    destruct (processStream msgs f1) as [[res out] f2]. cbn [fst snd app] in *. by rewrite fmap_cons E3 Hm.
  - destruct msgs as [|[env m] [|[env2 m2] msgs]]; [done..|]. simpl in Hms. injection Hms as <- <- Hms.
    apply Forall_cons in Henv as [He [_ Henv]%Forall_cons]. cbn [processStream].
    destruct (handleRecord_follows env t r f Ht Hf He Hrev Hok) as (m & f1 & -> & Hm & Hf1).
    destruct (handleCommit_follows env2 t r f1 Hf1 Hrev) as (f2 & -> & Hf2).
    destruct (IH msgs f2 Hms) as (E1 & E2 & E3); [by constructor|done|done|].
    destruct (processStream msgs f2) as [[res out] f3]. cbn [fst snd app] in *. by rewrite fmap_cons E3 Hm.
  - destruct msgs as [|[env m] msgs]; [done|]. simpl in Hms. injection Hms as <- Hms.
    apply Forall_cons in Henv as [He Henv]. cbn [processStream].
    destruct (handleCompact_follows env t k f Hf He) as (f1 & -> & Hf1).
    destruct (IH msgs f1 Hms Ht Hf1 Henv) as (E1 & E2 & E3).
    by destruct (processStream msgs f1) as [[res out] f2].
Qed.


(** ** On concrete runs *)

Definition healthy_replica : Follower :=
  mkFollower "n2" (mkState HealthHealthy ElectorFollower PrimaryReplica
                     (mkClusterState NodeInfo_zero NodeInfo_zero 3) 0 0 8)
    (mkDB [] []) NewManager None.
Definition ok_env : follow_env := mkFollowEnv 60 0 true true false.

Definition row_at (i : nat) : record := default record_zero (rows example_db !! i).

Definition rolled_back : record :=
  mkRecord 1 key_b true false 1 0 1 0 0 (Some [Byte.x31]) (Some 9) None "n1" None 0.


(** A full stream buffer drops a message without ending the stream: a Replica
    that misses revision 2 stores and receipts revision 3, is not behind the
    committed revision, arms no lag timer and stays Healthy, with a hole in its
    table. *)
Lemma dropped_record_undetected :
  let msgs := (ok_env,.) <$> [MsgRecord (row_at 0); MsgCommit 1; MsgRecord (row_at 2); MsgCommit 3] in
  let out := processStream msgs healthy_replica in
  out.1.1 = Ok tt ∧ (rm_Revision <$> out.1.2) = [1; 3] ∧
  health (fl_state out.2) = HealthHealthy ∧ fl_lagTarget out.2 = None ∧
  committed (fl_state out.2) = 3 ∧ LatestRevision (fl_db out.2) = 3 ∧
  VerifyIntegrity (fl_db out.2) = Err (ErrIntegrity 2 3).
Proof. vm_compute. auto 10. Qed.
