(* ===== verification/Cluster.v ===== *)
(** * A Primary and its Replica together

    The messages the Primary's write path puts on a Follow stream describe its
    committed table, so a Replica that receives them all holds that table. *)

From S2P Require Import Prelude NodeState Records LocalDB History Examples LocalDBTheorems RangeApi.
From S2P Require Import Storage DataFile ExampleCodec DataStore Quorum ChunkBuffer Primary.
From S2P Require Import PrimaryTheorems PrimaryExamples Watch WatchTheorems Follower.
From S2P Require Import FollowerTheorems.

#[local] Open Scope Z_scope.

(** Everything put on a session: sent, failed, then waiting. *)
Definition session_log (s : followSession) : list PrimaryMessage :=
  fs_sent s ++ from_option (λ m, [m]) [] (fs_failed s) ++ fs_sendCh s.

(** Events that neither open, replace nor close the stream of [node]. *)
Definition keeps_stream (node : string) (e : event) : Prop :=
  match e with
  | EvFollowRegister _ n _ | EvFollowInitial n _ | EvFollowClose n _ => n ≠ node
  | _ => True
  end.

Section cluster.
  Context `{HC : Codec} `{HL : SqlLike} {OS : Type} `{HS : ObjectStorage OS}.
  Context (record_size : record → Z) (cfg : config) (node : string).
  Implicit Types sv : Server OS.

(** The session of [node] has log [l] and [n] free slots at least. *)
Definition has_log (n : nat) (l : list PrimaryMessage) sv : Prop :=
  ∃ s, sv_streams sv !! node = Some s ∧ session_log s = l ∧
       (length (fs_sendCh s) + n ≤ streamBufferSize)%nat.

Lemma has_log_streams n l sv sv' : sv_streams sv' = sv_streams sv → has_log n l sv → has_log n l sv'.
Proof. rewrite /has_log. by intros ->. Qed.

Lemma has_log_broadcast n l msg sv :
  has_log (S n) l sv → has_log n (l ++ [msg]) (broadcastToFollowers msg sv).
Proof.
  intros (s & Hs & Hl & Hroom). rewrite /has_log /broadcastToFollowers /= lookup_fmap Hs /=.
  destruct (Nat.ltb_spec (length (fs_sendCh s)) streamBufferSize); [|lia].
  eexists. split; [done|]. rewrite /session_log /= in Hl |- *.
  split; [by rewrite -Hl -!app_assoc|]. rewrite length_app /=. lia.
Qed.

Lemma has_log_event n l e sv : keeps_stream node e → has_log n l sv → has_log n l (handle_event cfg e sv).
Proof.
  intros Hk (s & Hs & Hl & Hroom).
  destruct e as [now n' msg|now q|now|now n' id|n' id|ok n' id|n' id|now f]; simpl in *.
  - rewrite /followRecv /Server_collectReceipt. exists s.
    by repeat case_match; simplify_eq/=.
  - rewrite /SendHeartbeat. exists s. by repeat case_match; simplify_eq/=.
  - by exists s.
  - rewrite /Follow_register. exists s. destruct (requirePrimary sv); [|done].
    by rewrite /= lookup_insert_ne.
  - rewrite /Follow_initial /send_now. exists s. destruct (sv_streams sv !! n'); [|done].
    case_bool_decide; [|done]. by rewrite /= lookup_insert_ne.
  - rewrite /followSend. destruct (decide (n' = node)) as [->|Hne].
    + rewrite Hs. destruct (fs_failed s) eqn:Hf; [by exists s|].
      destruct (fs_sendCh s) as [|m rest] eqn:Hch; [by exists s; rewrite Hch|].
      case_bool_decide; [|by exists s; rewrite Hch]. eexists. rewrite /= lookup_insert_eq. split; [done|].
      rewrite /session_log Hch Hf /= in Hl |- *. simpl in *.
      destruct ok; rewrite /= -?app_assoc; (split; [done|lia]).
    + exists s. destruct (sv_streams sv !! n') as [s'|]; [|done].
      destruct (fs_failed s'), (fs_sendCh s'); try done.
      case_bool_decide; [|done]. by rewrite /= lookup_insert_ne.
  - rewrite /Follow_close /removeFollowStream. exists s. destruct (sv_streams sv !! n'); [|done].
    case_bool_decide; [|done]. by rewrite /= lookup_delete_ne.
  - destruct (chunk_tick _ _ _ _ _ _). by exists s.
Qed.

Lemma has_log_events n l es sv :
  Forall (keeps_stream node) es → has_log n l sv → has_log n l (handle_events cfg es sv).
Proof.
  revert sv; induction es as [|e es IH]; intros sv; [done|]. intros [He Hes]%Forall_cons Hl. simpl.
  apply IH; [done|]. by apply has_log_event.
Qed.

Lemma has_log_weaken n n' l sv : (n' ≤ n)%nat → has_log n l sv → has_log n' l sv.
Proof. intros Hn (s & Hs & Hl & Hroom). exists s. split; [done|]. split; [done|]. lia. Qed.

(** What one commit path puts on the stream. *)
Definition path_log (l : list PrimaryMessage) (r : record) (out : res txn_err unit * Server OS) : Prop :=
  match out.1 with
  | Ok _ => has_log 0 (l ++ [MsgRecord r; MsgCommit (Revision r)]) out.2
  | Err _ => has_log 0 l out.2 ∨ has_log 0 (l ++ [MsgRecord r]) out.2
  end.

Lemma executeObjectStorageTxn_log env tx r sv l :
  has_log 2 l sv → path_log l r (executeObjectStorageTxn record_size cfg env tx r sv).
Proof.
  intros Hl. rewrite /executeObjectStorageTxn.
  assert (sv_streams (writeRecord cfg env r sv).2 = sv_streams sv) as Hw.
  { rewrite /writeRecord. by repeat case_match. }
  destruct (writeRecord cfg env r sv) as [[] sv1]; simpl in *; rewrite /path_log.
  - destruct (te_commitFails env); cbn [fst snd].
    + left. apply (has_log_weaken 2); [lia|]. by apply (has_log_streams _ _ sv).
    + apply (has_log_streams _ _ (BroadcastCommit (Revision r)
        (set_state (SetCommitted (Revision r) (sv_state sv1))
          (BroadcastRecord r (set_next (wrap64 (sv_next sv1 + 1)) (set_db tx sv1)))))).
      { rewrite /checkAndCreateSnapshot. by case_match. }
      change [MsgRecord r; MsgCommit (Revision r)] with ([MsgRecord r] ++ [MsgCommit (Revision r)]).
      rewrite app_assoc. apply has_log_broadcast.
      apply (has_log_streams _ _ (BroadcastRecord r (set_next (wrap64 (sv_next sv1 + 1)) (set_db tx sv1)))); [done|].
      apply has_log_broadcast. by apply (has_log_streams _ _ sv).
  - left. apply (has_log_weaken 2); [lia|]. by apply (has_log_streams _ _ sv).
Qed.

Lemma executeQuorumTxn_log env tx r strategy sv l :
  has_log 2 l sv → Forall (keeps_stream node) (te_events env) →
  path_log l r (executeQuorumTxn record_size cfg env tx r strategy sv).
Proof.
  intros Hl Hes. rewrite /executeQuorumTxn.
  set (sv2 := BroadcastRecord r _).
  assert (has_log 1 (l ++ [MsgRecord r]) sv2) as H2.
  { apply has_log_broadcast. by apply (has_log_streams _ _ sv). }
  apply (has_log_events _ _ _ _ Hes) in H2. set (sv3 := handle_events cfg (te_events env) sv2) in *.
  assert (has_log 0 (l ++ [MsgRecord r]) sv3) as H3 by (by apply (has_log_weaken 1); [lia|]).
  destruct (sv_collector sv3) as [c|]; [|by right].
  destruct (rc_done c); simpl; [|by right]. destruct (te_commitFails env); [by right|].
  destruct (bufferRecord _ _ _ _ r _ _ _) as [[[rr b] st] s]. rewrite /path_log /=.
  apply (has_log_streams _ _ (BroadcastCommit (Revision r)
    (set_state (SetCommitted (Revision r) (sv_state sv3)) (set_next (wrap64 (sv_next sv3 + 1)) (set_db tx sv3))))).
  { rewrite /checkAndCreateSnapshot. by case_match. }
  change [MsgRecord r; MsgCommit (Revision r)] with ([MsgRecord r] ++ [MsgCommit (Revision r)]).
  rewrite app_assoc. apply has_log_broadcast. by apply (has_log_streams _ _ sv3).
Qed.

Lemma primary_stream_app t m1 t1 m2 t2 :
  primary_stream t m1 t1 → primary_stream t1 m2 t2 → primary_stream t (m1 ++ m2) t2.
Proof.
  induction 1; intros H2; simpl; [done|apply stream_attempt|apply stream_commit|apply stream_compact]; auto.
Qed.

(** A transaction puts on the stream what it does to the committed table. *)
Lemma LeaderTxn_stream entry env r sv l :
  primary_inv sv → has_log 2 l sv → Forall (keeps_stream node) (te_events env) →
  let sv' := (LeaderTxn record_size cfg entry env r sv).2 in
  ∃ msgs, has_log 0 (l ++ msgs) sv' ∧ primary_stream (rows (sv_db sv)) msgs (rows (sv_db sv')).
Proof.
  intros Hinv Hl Hes sv'.
  assert (∃ msgs, has_log 0 (l ++ msgs) sv ∧ primary_stream (rows (sv_db sv)) msgs (rows (sv_db sv))) as Hsame.
  { exists []. rewrite app_nil_r. split; [by apply (has_log_weaken 2); [lia|]|constructor]. }
  assert (∀ tx ins, path_log l ins (path_run record_size cfg env tx ins sv)) as Hpath.
  { intros tx ins. rewrite /path_run. destruct (useQuorum _);
      [by apply executeQuorumTxn_log|by apply executeObjectStorageTxn_log]. }
  pose proof (LeaderTxn_outcome record_size cfg entry env r sv) as Hout. rewrite /sv'.
  destruct Hout as [e He|rec0 e Hp Hi|rec0 rr Hp Hi Hr|rec0 ins tx e sv1 Hp Hi Hr He|rec0 ins tx sv1 Hp Hi Hr];
    cbn [snd]; [done..| |];
    specialize (Hpath tx ins); rewrite Hr /path_log /= in Hpath;
    pose proof (path_run_outcome record_size cfg env tx ins sv) as Ho; rewrite Hr /path_outcome /= in Ho;
    destruct Ho as (-> & _ & _);
    destruct (insert_at_next cfg env sv rec0 ins tx Hinv Hi) as (Hh & Happ & Hrev & _);
    pose proof Hh as Hh'; rewrite Happ in Hh'; apply history_snoc_inv in Hh' as (_ & Hnext & Hok).
  - destruct Hpath as [Hlog|Hlog]; [exists []|exists [MsgRecord ins]].
    + rewrite app_nil_r. split; [done|constructor].
    + split; [done|]. constructor; [done|done|constructor].
  - exists [MsgRecord ins; MsgCommit (Revision ins)]. split; [done|].
    apply stream_commit; [done|done|]. rewrite Happ. constructor.
Qed.

(** The Primary at work while the stream of [node] stays up and has room. *)
Inductive primary_step : Server OS → Server OS → Prop :=
| pstep_txn entry env r sv l :
    sv_next sv < int64_max → has_log 2 l sv → Forall (keeps_stream node) (te_events env) →
    primary_step sv (LeaderTxn record_size cfg entry env r sv).2
| pstep_event e sv : keeps_stream node e → primary_step sv (handle_event cfg e sv).

Lemma has_log_unique n n' l l' sv : has_log n l sv → has_log n' l' sv → l = l'.
Proof. intros (s & Hs & <- & _) (s' & Hs' & <- & _). congruence. Qed.

Lemma primary_steps_stream sv0 sv l0 :
  rtc primary_step sv0 sv → primary_inv sv0 → has_log 0 l0 sv0 →
  primary_inv sv ∧ ∃ msgs, has_log 0 (l0 ++ msgs) sv ∧
    primary_stream (rows (sv_db sv0)) msgs (rows (sv_db sv)).
Proof.
  intros Hr. revert l0. induction Hr as [sv|sv0 sv1 sv Hstep Hr IH]; intros l0 Hinv Hl.
  { split; [done|]. exists []. rewrite app_nil_r. split; [done|constructor]. }
  assert (primary_inv sv1 ∧ ∃ m1, has_log 0 (l0 ++ m1) sv1 ∧
    primary_stream (rows (sv_db sv0)) m1 (rows (sv_db sv1))) as (Hinv1 & m1 & Hl1 & Hs1).
  { destruct Hstep as [entry env r sv0 l Hmax Hroom Hes|e sv0 Hk].
    - rewrite (has_log_unique _ _ _ _ _ Hl Hroom). split; [|by apply LeaderTxn_stream].
      by apply LeaderTxn_keeps_inv.
    - destruct (handle_event_core cfg e sv0) as (E1 & E2 & E3). split; [by rewrite /primary_inv E1 E2 E3|].
      exists []. rewrite app_nil_r E1. split; [by apply has_log_event|constructor]. }
  destruct (IH _ Hinv1 Hl1) as (Hinv' & m2 & Hl2 & Hs2). split; [done|].
  exists (m1 ++ m2). rewrite app_assoc. split; [done|]. by eapply primary_stream_app.
Qed.

(** C6: the cluster replicates: let a Primary work through any transactions,
    failures, Receipts and heartbeats while a Replica's stream stays up and its
    buffer never overflows.  Processing the messages put on the stream since
    the Replica held the Primary's table succeeds and leaves it holding the
    Primary's committed table again. *)
Theorem cluster_replicates sv0 sv l0 f :
  rtc primary_step sv0 sv → primary_inv sv0 → has_log 0 l0 sv0 → follows (rows (sv_db sv0)) f →
  ∃ msgs, has_log 0 (l0 ++ msgs) sv ∧
    ∀ ms, ms.*2 = msgs → Forall steady ms.*1 →
      (processStream ms f).1.1 = Ok tt ∧ follows (rows (sv_db sv)) (processStream ms f).2.
Proof.
  intros Hr Hinv Hl Hf. destruct (primary_steps_stream sv0 sv l0 Hr Hinv Hl) as (_ & msgs & Hlog & Hs).
  exists msgs. split; [done|]. intros ms Hms Henv. rewrite -Hms in Hs. destruct Hinv as (Hh & _ & _).
  by destruct (processStream_converges _ _ _ _ Hh Hf Hs Henv) as (? & ? & _).
Qed.
End cluster.

(** ** On a concrete run *)

#[local] Existing Instance example_codec.
#[local] Existing Instance ascii_like.
#[local] Hint Extern 0 (ObjectStorage MemoryStore) =>
  exact (MemoryStore_ObjectStorage example_etag) : typeclass_instances.

Definition synced_replica : Follower :=
  mkFollower "n2" (mkState HealthHealthy ElectorFollower PrimaryReplica
                     (mkClusterState NodeInfo_zero NodeInfo_zero 3) 4 0 8)
    (mkDB (rows example_db) []) NewManager None.

(** n2 holds the table of [example_server]; a quorum commit and a heartbeat
    later it holds the new one. *)
Lemma cluster_replicates_witness :
  ∃ sv msgs, rtc (primary_step example_size example_cfg "n2") example_server sv ∧
    length (rows (sv_db sv)) = 5%nat ∧
    follows (rows (sv_db sv)) (processStream ((ok_env,.) <$> msgs) synced_replica).2.
Proof.
  eassert (rtc (primary_step example_size example_cfg "n2") example_server _) as Hrun.
  { eapply rtc_l.
    { apply (pstep_txn example_size example_cfg "n2" example_server quorum_env (create_b Byte.x33 []) _ []);
        [vm_compute; reflexivity| |by repeat constructor].
      eexists. split; [vm_compute; reflexivity|]. split; [reflexivity|]. simpl. rewrite /streamBufferSize. lia. }
    eapply rtc_l; [apply (pstep_event example_size example_cfg "n2" (EvSendHeartbeat 70 (healthy_beat "n2" 5))); done|].
    apply rtc_refl. }
  destruct (cluster_replicates example_size example_cfg "n2" _ _ [] synced_replica Hrun example_server_inv)
    as (msgs & _ & Hconv).
  - eexists. split; [vm_compute; reflexivity|]. split; [reflexivity|]. simpl. rewrite /streamBufferSize. lia.
  - split; [reflexivity|]. split; [intros id Hid; by apply elem_of_empty in Hid|].
    exists (rows example_db), []. split; [by rewrite app_nil_r|]. split; [|by left].
    apply Forall_Forall2_diag, Forall_forall. intros r _. apply (recordsEqual_refl r).
  - eexists _, msgs. split; [exact Hrun|]. split; [vm_compute; reflexivity|].
    apply Hconv; [rewrite -list_fmap_compose; apply list_fmap_id|].
    apply Forall_forall. intros env Henv. rewrite -list_fmap_compose in Henv.
    apply list_elem_of_fmap in Henv as (m & -> & _). done.
Defined.
