(* ===== verification/PeerClient.v ===== *)
(** * internal/peerclient: outbound connections and role changes

    [PeerManager] is the Manager's own fields; the node state it shares with
    the other components is passed beside it.  A gRPC connection is the address
    it was made to; whether [grpc.NewClient] succeeds is a function [dial] of
    the address, and what a remote node answers is an argument.  The role
    callback is the last thing [ApplyClusterState] does: it is returned as the
    argument the callback gets, [None] when it is not called. *)

From S2P Require Import Prelude NodeState.

#[local] Open Scope string_scope.
#[local] Open Scope Z_scope.

Inductive elector_client := LocalElectorClient | RemoteElectorClient (conn : string).

#[export] Instance elector_client_eq_dec : EqDecision elector_client.
Proof. solve_decision. Defined.

Record PeerManager := mkPeerManager {
  pm_nodeID : string;
  pm_tls : bool;
  pm_onPrimaryChange : bool;
  pm_electorAddr : string;
  pm_electorConn : option string;
  pm_electorClient : option elector_client;
  pm_primaryAddr : string;
  pm_primaryConn : option string;
}.

#[export] Instance PeerManager_eq_dec : EqDecision PeerManager.
Proof. solve_decision. Defined.

Definition NewPeerManager (nodeID : string) (tls : bool) : PeerManager :=
  mkPeerManager nodeID tls false "" None None "" None.

Definition SetPrimaryChangeFunc (m : PeerManager) : PeerManager :=
  mkPeerManager (pm_nodeID m) (pm_tls m) true (pm_electorAddr m) (pm_electorConn m)
    (pm_electorClient m) (pm_primaryAddr m) (pm_primaryConn m).

Definition set_elector (addr : string) (conn : option string) (client : option elector_client)
    (m : PeerManager) : PeerManager :=
  mkPeerManager (pm_nodeID m) (pm_tls m) (pm_onPrimaryChange m) addr conn client
    (pm_primaryAddr m) (pm_primaryConn m).

Definition set_primary_conn (addr : string) (conn : option string) (m : PeerManager) : PeerManager :=
  mkPeerManager (pm_nodeID m) (pm_tls m) (pm_onPrimaryChange m) (pm_electorAddr m)
    (pm_electorConn m) (pm_electorClient m) addr conn.

Inductive peer_err :=
| DialErr (addr : string)
| TLSNotSet
| NotSupported (method : string)
| RpcErr.

(** ** Connections *)

Definition ConnectElector (dial : string → bool) (electorNodeID addr : string) (m : PeerManager)
    : res peer_err unit * PeerManager :=
  if bool_decide (electorNodeID = pm_nodeID m) then
    (Ok tt, set_elector addr (pm_electorConn m) (Some LocalElectorClient) m)
  else if negb (dial addr) then (Err (DialErr addr), m)
  else (Ok tt, set_elector addr (Some addr) (Some (RemoteElectorClient addr)) m).

Definition ElectorClient (m : PeerManager) : option elector_client := pm_electorClient m.
Definition PrimaryClient (m : PeerManager) : option string := pm_primaryConn m.
Definition PrimaryKVClient (m : PeerManager) : option string := pm_primaryConn m.

(** The Elector client is kept. *)
Definition PeerManager_Close (m : PeerManager) : PeerManager :=
  set_primary_conn (pm_primaryAddr m) None
    (set_elector (pm_electorAddr m) None (pm_electorClient m) m).

Definition updateElector (dial : string → bool) (elector : NodeInfo) (m : PeerManager) : PeerManager :=
  let addr := PeerAdvertiseAddr elector in
  if bool_decide (addr = pm_electorAddr m) then m
  else
    let m := set_elector (pm_electorAddr m) None None m in
    if bool_decide (NodeID elector = pm_nodeID m) then
      set_elector addr None (Some LocalElectorClient) m
    else if bool_decide (addr = "") then set_elector "" None None m
    else if negb (dial addr) then m
    else set_elector addr (Some addr) (Some (RemoteElectorClient addr)) m.

Definition updatePrimary (dial : string → bool) (primary : NodeInfo) (m : PeerManager) : PeerManager :=
  let addr := PeerAdvertiseAddr primary in
  if bool_decide (addr = pm_primaryAddr m) && bool_decide (NodeID primary ≠ "") then m
  else
    let m := set_primary_conn (pm_primaryAddr m) None m in
    if bool_decide (NodeID primary = pm_nodeID m) then set_primary_conn addr None m
    else if bool_decide (addr = "") || bool_decide (NodeID primary = "") then
      set_primary_conn "" None m
    else if negb (dial addr) then m
    else set_primary_conn addr (Some addr) m.

(** ** Cluster state updates *)

Definition ApplyClusterState (dial : string → bool) (cs : ClusterState) (m : PeerManager) (st : State)
    : PeerManager * State * option bool :=
  let old := cluster st in
  let st := SetClusterState cs st in
  let wasPrimary := bool_decide (NodeID (cs_Primary old) = pm_nodeID m) in
  let isPrimary := bool_decide (NodeID (cs_Primary cs) = pm_nodeID m) in
  let st := if isPrimary && bool_decide (primary st = PrimaryReplica)
            then (SetPrimary PrimaryStarting st).2 else st in
  let st := if negb isPrimary && bool_decide (primary st = PrimaryStarting)
            then (SetPrimary PrimaryReplica st).2 else st in
  let m := if bool_decide (PeerAdvertiseAddr (cs_Elector cs) ≠ PeerAdvertiseAddr (cs_Elector old))
           then updateElector dial (cs_Elector cs) m else m in
  let m := if bool_decide (PeerAdvertiseAddr (cs_Primary cs) ≠ PeerAdvertiseAddr (cs_Primary old))
              || bool_decide (NodeID (cs_Primary cs) ≠ NodeID (cs_Primary old))
           then updatePrimary dial (cs_Primary cs) m else m in
  let remotePrimaryAppeared :=
    bool_decide (NodeID (cs_Primary old) = "") && bool_decide (NodeID (cs_Primary cs) ≠ "")
    && negb isPrimary in
  let callback :=
    if pm_onPrimaryChange m && (negb (Bool.eqb wasPrimary isPrimary) || remotePrimaryAppeared)
    then Some isPrimary else None in
  (m, st, callback).

#[global] Arguments ApplyClusterState : simpl never.

(** ** Calls to other nodes *)

Definition dialNode (dial : string → bool) (addr : string) (m : PeerManager) : res peer_err string :=
  if negb (pm_tls m) then Err TLSNotSet
  else if negb (dial addr) then Err (DialErr addr)
  else Ok addr.

(** The node's reply, [None] when the call fails. *)
Definition peer_call {A} (dial : string → bool) (reply : string → option A) (addr : string)
    (m : PeerManager) : res peer_err A :=
  match dialNode dial addr m with
  | Err e => Err e
  | Ok conn => match reply conn with Some a => Ok a | None => Err RpcErr end
  end.

Definition Peer_GetNodeState (dial : string → bool) (reply : string → option pb_NodeState)
    (addr : string) (m : PeerManager) : res peer_err pb_NodeState :=
  peer_call dial reply addr m.

Definition PushClusterStateTo (dial : string → bool)
    (reply : string → pb_ClusterState → option unit) (addr : string) (cs : pb_ClusterState)
    (m : PeerManager) : res peer_err unit :=
  peer_call dial (λ conn, reply conn cs) addr m.

Definition Peer_GetMinWatchRevision (dial : string → bool) (reply : string → option Z)
    (addr : string) (m : PeerManager) : res peer_err Z :=
  peer_call dial reply addr m.

Definition Peer_SendCompactionNotice (dial : string → bool) (reply : string → Z → option bool)
    (addr : string) (revision : Z) (m : PeerManager) : res peer_err bool :=
  peer_call dial (λ conn, reply conn revision) addr m.

(** ** The local Elector client

    It answers heartbeats through the in-process server and nothing else. *)

Definition Client_DeregisterNode {A} (reply : string → option A) (c : elector_client) : res peer_err A :=
  match c with
  | LocalElectorClient => Err (NotSupported "DeregisterNode")
  | RemoteElectorClient conn => match reply conn with Some a => Ok a | None => Err RpcErr end
  end.

Definition Client_RegisterNode {A} (reply : string → option A) (c : elector_client) : res peer_err A :=
  match c with
  | LocalElectorClient => Err (NotSupported "RegisterNode")
  | RemoteElectorClient conn => match reply conn with Some a => Ok a | None => Err RpcErr end
  end.

Definition Client_GetClusterState {A} (reply : string → option A) (c : elector_client) : res peer_err A :=
  match c with
  | LocalElectorClient => Err (NotSupported "GetClusterState")
  | RemoteElectorClient conn => match reply conn with Some a => Ok a | None => Err RpcErr end
  end.

Definition Client_GetMemberList {A} (reply : string → option A) (c : elector_client) : res peer_err A :=
  match c with
  | LocalElectorClient => Err (NotSupported "GetMemberList")
  | RemoteElectorClient conn => match reply conn with Some a => Ok a | None => Err RpcErr end
  end.

Definition Client_SendHeartbeat {A} (local : option A) (reply : string → option A) (c : elector_client)
    : res peer_err A :=
  match c with
  | LocalElectorClient => match local with Some a => Ok a | None => Err RpcErr end
  | RemoteElectorClient conn => match reply conn with Some a => Ok a | None => Err RpcErr end
  end.
