(* ===== verification/NodeServer.v ===== *)
(** * internal/node: the split-brain guard and the Node service

    [GetNodeState] and [PushClusterState] are what the Elector calls on every
    node; the two handlers of the compaction protocol are in Compaction.  Time
    is in nanoseconds, the clock reading an argument. *)

From S2P Require Import Prelude NodeState PeerClient.

#[local] Open Scope string_scope.
#[local] Open Scope Z_scope.

(** ** The guard *)

Definition splitBrainWindow : Z := 30 * 10 ^ 9.

(** [handoffAt] is the zero time until the first handoff. *)
Record ElectorGuard := mkElectorGuard {
  currentElector : string;
  previousElector : string;
  handoffAt : option Z;
}.

Definition NewElectorGuard : ElectorGuard := mkElectorGuard "" "" None.

Inductive guard_err := SplitBrain (rejected current : string).

(** [time.Since] of the zero time is longer than any window. *)
Definition within_window (now : Z) (at_ : option Z) : bool :=
  match at_ with
  | None => false
  | Some t => now - t <? splitBrainWindow
  end.

Definition Guard_Check (now : Z) (electorNodeID : string) (g : ElectorGuard)
    : res guard_err unit * ElectorGuard :=
  if bool_decide (currentElector g = "") || bool_decide (currentElector g = electorNodeID) then
    (Ok tt, mkElectorGuard electorNodeID (previousElector g) (handoffAt g))
  else if bool_decide (electorNodeID = previousElector g) && within_window now (handoffAt g) then
    (Err (SplitBrain electorNodeID (currentElector g)), g)
  else (Ok tt, mkElectorGuard electorNodeID (currentElector g) (Some now)).

(** ** The service *)

Record NodeServer := mkNodeServer {
  nd_nodeID : string;
  nd_startTime : Z;
  nd_state : State;
  nd_peers : PeerManager;
  nd_guard : ElectorGuard;
}.

Definition NewNodeServer (nodeID : string) (startTime : Z) (st : State) (peers : PeerManager)
    : NodeServer :=
  mkNodeServer nodeID startTime st peers NewElectorGuard.

Inductive node_err :=
| LatestRevisionFailed
| ElectorRequired
| ElectorNodeIDRequired
| SplitBrainDetected (e : guard_err).

(** [latest] is what the database answers. *)
Definition GetNodeState (latest : option Z) (s : NodeServer) : res node_err pb_NodeState :=
  match latest with
  | None => Err LatestRevisionFailed
  | Some latestRevision =>
      Ok (mk_pb_NodeState (nd_nodeID s) (HealthToProto (health (nd_state s)))
            (ElectorToProto (elector (nd_state s))) (PrimaryToProto (primary (nd_state s)))
            latestRevision (nd_startTime s))
  end.

(** The role callback's argument comes with the new state, as in
    [ApplyClusterState]. *)
Definition PushClusterState (now : Z) (dial : string → bool) (req : pb_ClusterState) (s : NodeServer)
    : res node_err unit * NodeServer * option bool :=
  match pb_Elector req with
  | None => (Err ElectorRequired, s, None)
  | Some e =>
      let electorNodeID := NodeID e in
      if bool_decide (electorNodeID = "") then (Err ElectorNodeIDRequired, s, None)
      else
        match Guard_Check now electorNodeID (nd_guard s) with
        | (Err err, g) =>
            (Err (SplitBrainDetected err),
             mkNodeServer (nd_nodeID s) (nd_startTime s) (nd_state s) (nd_peers s) g, None)
        | (Ok _, g) =>
            let cs := ClusterStateFromProto req in
            let '(m, st, callback) := ApplyClusterState dial cs (nd_peers s) (nd_state s) in
            (Ok tt, mkNodeServer (nd_nodeID s) (nd_startTime s) st m g, callback)
        end
  end.
