(* ===== verification/PeerTheorems.v ===== *)
(** * Theorems on role changes, connections and the split-brain guard *)

From S2P Require Import Prelude NodeState PeerClient NodeServer.

#[local] Open Scope Z_scope.

(** ** The guard *)

(** One push against the guard; the log keeps the pushes that made another
    Elector the current one. *)
Definition guard_step (gl : ElectorGuard * list (Z * string)) (p : Z * string)
    : ElectorGuard * list (Z * string) :=
  match Guard_Check p.1 p.2 gl.1 with
  | (Ok _, g') => (g', if decide (p.2 = currentElector gl.1) then gl.2 else gl.2 ++ [p])
  | (Err _, g') => (g', gl.2)
  end.

Definition guard_run (pushes : list (Z * string)) : ElectorGuard * list (Z * string) :=
  foldl guard_step (NewElectorGuard, []) pushes.

(** The guard remembers the last two Electors of the log, and in the log nobody
    returns right after being superseded within the window. *)
Definition guard_log_ok (log : list (Z * string)) : Prop :=
  ∀ l1 l2 t1 t2 t3 a b, log = l1 ++ (t1, a) :: (t2, b) :: (t3, a) :: l2 → splitBrainWindow ≤ t3 - t2.

Definition guard_inv (gl : ElectorGuard * list (Z * string)) : Prop :=
  (gl.2 = [] → currentElector gl.1 = "") ∧
  (∀ l t b, gl.2 = l ++ [(t, b)] → currentElector gl.1 = b ∧ b ≠ "") ∧
  (∀ l t a t' b, gl.2 = l ++ [(t, a); (t', b)] →
     previousElector gl.1 = a ∧ handoffAt gl.1 = Some t') ∧
  guard_log_ok gl.2.

Lemma guard_log_snoc log p :
  guard_log_ok log →
  (∀ l t1 a t2 b, log = l ++ [(t1, a); (t2, b)] → p.2 = a → splitBrainWindow ≤ p.1 - t2) →
  guard_log_ok (log ++ [p]).
Proof.
  intros Hok Hp l1 l2 t1 t2 t3 a b Heq.
  destruct l2 as [|x l2 _] using rev_ind.
  - rewrite (app_assoc l1 [(t1, a); (t2, b)] [(t3, a)]) in Heq.
    apply app_inj_tail in Heq as [Hl ->]. by eapply (Hp l1 t1 a t2 b).
  - replace (l1 ++ (t1, a) :: (t2, b) :: (t3, a) :: l2 ++ [x])
      with ((l1 ++ (t1, a) :: (t2, b) :: (t3, a) :: l2) ++ [x]) in Heq
      by (by rewrite -app_assoc).
    apply app_inj_tail in Heq as [Hl _]. by eapply Hok.
Qed.

Lemma snoc2_inv {A} (l l' : list A) x y z :
  l ++ [x] = l' ++ [y; z] → x = z ∧ l = l' ++ [y].
Proof.
  rewrite (app_assoc l' [y] [z]). intros [-> ->]%app_inj_tail. done.
Qed.

Lemma guard_step_inv gl p : p.2 ≠ "" → guard_inv gl → guard_inv (guard_step gl p).
Proof.
  destruct gl as [g log], p as [t e]. intros He (Hnil & Hcur & Hprev & Hok). simpl in *.
  rewrite /guard_step /Guard_Check /=.
  destruct (bool_decide (currentElector g = "") || bool_decide (currentElector g = e)) eqn:Hsame; simpl.
  - destruct (decide (e = currentElector g)) as [Hd|Hd]; simpl.
    + subst e. destruct g; by split_and!.
    + apply orb_true_iff in Hsame as [E|E]; bool_to_prop; [|congruence].
      assert (log = []) as ->.
      { destruct log as [|x l _] using rev_ind; [done|]. destruct x as [t0 b].
        destruct (Hcur l t0 b eq_refl). congruence. }
      split_and!; simpl; [done| | |].
      * intros l t0 b [= Heq]. by apply (app_inj_tail []) in Heq as [_ [= <- <-]].
      * intros l t0 a t' b Heq. by apply (snoc2_inv [] l) in Heq as [_ ?%app_cons_not_nil].
      * intros l1 l2 t1 t2 t3 a b Heq. destruct l1 as [|x [|? ?]]; simplify_eq/=.
  - bool_to_prop.
    destruct (bool_decide (e = previousElector g) && within_window t (handoffAt g)) eqn:Hrej; simpl; [done|].
    rewrite decide_False; [done|].
    destruct log as [|[t0 b] l _] using rev_ind; [by rewrite Hnil in H|].
    destruct (Hcur l t0 b eq_refl) as [Hb Hb']. split_and!; simpl.
    + by intros ?%app_eq_nil%proj2.
    + intros l' t' b' Heq. by apply app_inj_tail in Heq as [_ [= <- <-]].
    + intros l' t1 a t' b' Heq. apply snoc2_inv in Heq as [[= <- <-] Heq].
      apply app_inj_tail in Heq as [_ [= <- <-]]. done.
    + apply guard_log_snoc; [done|]. intros l' t1 a t2 b' Heq Ha. simpl in Ha |- *. subst a.
      destruct (Hprev _ _ _ _ _ Heq) as [Hp Hh]. rewrite Hp Hh bool_decide_eq_true_2 // in Hrej.
      simpl in Hrej. bool_to_prop. done.
Qed.

Lemma guard_run_inv pushes :
  Forall (λ p, p.2 ≠ "") pushes → guard_inv (guard_run pushes).
Proof.
  rewrite /guard_run. intros Hne. induction pushes as [|p pushes IH] using rev_ind; simpl.
  - split_and!; simpl; try done.
    + by intros l ? ? ?%app_cons_not_nil.
    + by intros l ? ? ? ? ?%app_cons_not_nil.
    + by intros l ? ? ? ? ? ? ?%app_cons_not_nil.
  - apply Forall_app in Hne as [H1 H2]. apply Forall_cons_1 in H2 as [H2 _].
    rewrite foldl_snoc. apply guard_step_inv; [exact H2|exact (IH H1)].
Qed.

(** The split-brain guard, over any sequence of pushes: an Elector that was
    superseded becomes the accepted Elector again right after its successor
    only once thirty seconds have passed since the handover; and a push is
    refused for no other reason, so a node never locks out the current Elector
    or a new one. *)
Theorem guard_no_flapping pushes :
  Forall (λ p, p.2 ≠ "") pushes →
  (∀ l1 l2 t1 t2 t3 a b,
     (guard_run pushes).2 = l1 ++ (t1, a) :: (t2, b) :: (t3, a) :: l2 → splitBrainWindow ≤ t3 - t2) ∧
  (∀ now e, (∃ err, (Guard_Check now e (guard_run pushes).1).1 = Err err) ↔
     currentElector (guard_run pushes).1 ≠ "" ∧ currentElector (guard_run pushes).1 ≠ e ∧
     previousElector (guard_run pushes).1 = e ∧
     within_window now (handoffAt (guard_run pushes).1) = true).
Proof.
  intros Hne. split; [apply (guard_run_inv pushes Hne)|].
  intros now e. destruct (guard_run pushes) as [g log]. simpl. rewrite /Guard_Check.
  destruct (decide (currentElector g = "")) as [E1|E1];
    [rewrite (bool_decide_eq_true_2 (_ = "")) //=; split; [by intros [? ?]|by intros (? & _)]|].
  destruct (decide (currentElector g = e)) as [E2|E2];
    [rewrite (bool_decide_eq_true_2 (_ = e)) // orb_true_r /=; split; [by intros [? ?]|by intros (_ & ? & _)]|].
  rewrite !(bool_decide_eq_false_2 (currentElector g = _)) //=.
  destruct (decide (e = previousElector g)) as [E3|E3].
  - rewrite bool_decide_eq_true_2 //=. destruct (within_window now (handoffAt g)); simpl.
    + split; [done|]. by eauto.
    + split; [by intros [? ?]|by intros (_ & _ & _ & ?)].
  - rewrite bool_decide_eq_false_2 //=. split; [by intros [? ?]|]. by intros (_ & _ & <- & _).
Qed.

Lemma guard_no_flapping_witness :
  (guard_run [(0, "a"); (5, "b"); (6, "a"); (30000000005, "a")]).2
    = [(0, "a"); (5, "b"); (30000000005, "a")] ∧
  splitBrainWindow ≤ 30000000005 - 5.
Proof.
  assert (Forall (λ p : Z * string, p.2 ≠ "") [(0, "a"); (5, "b"); (6, "a"); (30000000005, "a")]) as Hne
    by (repeat constructor; discriminate).
  split; [reflexivity|].
  exact (proj1 (guard_no_flapping _ Hne) [] [] 0 5 30000000005 "a" "b" eq_refl).
Defined.

(** The guard remembers one previous Elector: with a third Elector in between,
    the first one is back after two nanoseconds. *)
Lemma guard_third_elector :
  (guard_run [(0, "a"); (1, "b"); (2, "c"); (3, "a")]).2 = [(0, "a"); (1, "b"); (2, "c"); (3, "a")].
Proof. done. Qed.

(** ** Roles *)

(** What [ApplyClusterState] does to the node state and to the role callback. *)
Lemma ApplyClusterState_state dial cs m st :
  let '(m', st', callback) := ApplyClusterState dial cs m st in
  let isPrimary := bool_decide (NodeID (cs_Primary cs) = pm_nodeID m) in
  st' = mkState (health st) (elector st)
          (match isPrimary, primary st with
           | true, PrimaryReplica => PrimaryStarting
           | false, PrimaryStarting => PrimaryReplica
           | _, p => p
           end) cs (committed st) (compaction st) (memberID st).
Proof.
  rewrite /ApplyClusterState. case_bool_decide; destruct st as [h e p c co cm mid], p; reflexivity.
Qed.

Lemma updateElector_id dial e m :
  pm_nodeID (updateElector dial e m) = pm_nodeID m ∧
  pm_onPrimaryChange (updateElector dial e m) = pm_onPrimaryChange m ∧
  pm_primaryAddr (updateElector dial e m) = pm_primaryAddr m ∧
  pm_primaryConn (updateElector dial e m) = pm_primaryConn m.
Proof. rewrite /updateElector. repeat case_match; done. Qed.

Lemma updatePrimary_id dial p m :
  pm_nodeID (updatePrimary dial p m) = pm_nodeID m ∧
  pm_onPrimaryChange (updatePrimary dial p m) = pm_onPrimaryChange m.
Proof. rewrite /updatePrimary. repeat case_match; done. Qed.

(** The Manager after a push, as far as the connection to the Primary goes. *)
Lemma ApplyClusterState_manager dial cs m st :
  ∃ m1, pm_nodeID m1 = pm_nodeID m ∧ pm_onPrimaryChange m1 = pm_onPrimaryChange m ∧
    pm_primaryAddr m1 = pm_primaryAddr m ∧ pm_primaryConn m1 = pm_primaryConn m ∧
    (ApplyClusterState dial cs m st).1.1
    = if decide (PeerAdvertiseAddr (cs_Primary cs) = PeerAdvertiseAddr (cs_Primary (cluster st)) ∧
                 NodeID (cs_Primary cs) = NodeID (cs_Primary (cluster st)))
      then m1 else updatePrimary dial (cs_Primary cs) m1.
Proof.
  rewrite /ApplyClusterState /=.
  exists (if bool_decide (PeerAdvertiseAddr (cs_Elector cs) ≠ PeerAdvertiseAddr (cs_Elector (cluster st)))
          then updateElector dial (cs_Elector cs) m else m).
  destruct (updateElector_id dial (cs_Elector cs) m) as (? & ? & ? & ?).
  split_and!; [case_bool_decide; done..|].
  destruct (decide _) as [[-> ->]|Hne].
  - assert (∀ a : string, bool_decide (a ≠ a) = false) as Hsame
      by (intros a; apply bool_decide_eq_false_2; naive_solver).
    by rewrite !Hsame.
  - rewrite (_ : bool_decide (PeerAdvertiseAddr (cs_Primary cs) ≠ _) ||
                 bool_decide (NodeID (cs_Primary cs) ≠ _) = true) //.
    repeat case_bool_decide; naive_solver.
Qed.

(** ** The connection to the Primary *)

(** What a node goes through: pushes of cluster state, and the Primary entry
    being cleared when it stops being the Elector. *)
Inductive role_event := EvPush (cs : ClusterState) | EvLoseLeadership.

Definition role_step (dial : string → bool) (ms : PeerManager * State) (ev : role_event)
    : PeerManager * State :=
  match ev with
  | EvPush cs => (ApplyClusterState dial cs ms.1 ms.2).1
  | EvLoseLeadership => (ms.1, SetClusterPrimary NodeInfo_zero ms.2)
  end.

Section connection.
  Context (addr_of : string → string).
  Context (Hinj : ∀ a b, addr_of a = addr_of b → a = b) (Haddr : ∀ a, addr_of a ≠ "").

Definition primary_ok (p : NodeInfo) : Prop :=
  (NodeID p = "" ∧ PeerAdvertiseAddr p = "") ∨
  (NodeID p ≠ "" ∧ PeerAdvertiseAddr p = addr_of (NodeID p)).

Definition event_ok (ev : role_event) : Prop :=
  match ev with EvPush cs => primary_ok (cs_Primary cs) | EvLoseLeadership => True end.

(** The Manager is connected to [p], unless that is nobody or the node itself. *)
Definition connected_to (m : PeerManager) (p : NodeInfo) : Prop :=
  pm_primaryAddr m = PeerAdvertiseAddr p ∧
  pm_primaryConn m = if decide (NodeID p = "" ∨ NodeID p = pm_nodeID m) then None
                     else Some (PeerAdvertiseAddr p).

Definition connection_inv (ms : PeerManager * State) : Prop :=
  primary_ok (cs_Primary (cluster ms.2)) ∧
  ∃ p, primary_ok p ∧ connected_to ms.1 p ∧
    (NodeID (cs_Primary (cluster ms.2)) = NodeID p ∨ NodeID (cs_Primary (cluster ms.2)) = "").

Lemma updatePrimary_connects dial m p p' :
  pm_nodeID m ≠ "" → primary_ok p → connected_to m p → primary_ok p' → (∀ a, dial a = true) →
  connected_to (updatePrimary dial p' m) p'.
Proof using Hinj Haddr.
  intros Hid Hp [Ha Hc] Hp' Hdial. rewrite /updatePrimary /connected_to.
  destruct Hp' as [[En Ea]|[En Ea]].
  - rewrite (bool_decide_eq_false_2 (NodeID p' ≠ "")); [naive_solver|]. rewrite andb_false_r En Ea.
    rewrite (bool_decide_eq_false_2 ("" = _)) //=.
  - rewrite (bool_decide_eq_true_2 (NodeID p' ≠ "")) // andb_true_r.
    rewrite (bool_decide_eq_false_2 (NodeID p' = "")) // orb_false_r.
    rewrite (bool_decide_eq_false_2 (PeerAdvertiseAddr p' = "")); [by rewrite Ea|].
    case_bool_decide as Esame; simpl.
    + destruct Hp as [[Ep Eap]|[Ep Eap]]; [destruct (Haddr (NodeID p')); congruence|].
      assert (NodeID p' = NodeID p) as Eid by (apply Hinj; congruence).
      split; [congruence|]. rewrite Hc Eid. case_decide; [done|]. congruence.
    + case_bool_decide; simpl; [by rewrite decide_True; [right|]|].
      rewrite Hdial /= decide_False; [naive_solver|done].
Qed.

Lemma role_step_inv dial ms ev :
  pm_nodeID ms.1 ≠ "" → (∀ a, dial a = true) → event_ok ev → connection_inv ms →
  pm_nodeID (role_step dial ms ev).1 = pm_nodeID ms.1 ∧ connection_inv (role_step dial ms ev).
Proof using Hinj Haddr.
  destruct ms as [m st], ev as [cs|]; cbn [fst snd role_step].
  - intros Hid Hdial Hok (Hold & p & Hp & Hc & Hrel). cbn [fst snd] in *.
    destruct (ApplyClusterState_manager dial cs m st) as (m1 & E1 & E2 & E3 & E4 & Em).
    pose proof (ApplyClusterState_state dial cs m st) as Est.
    destruct (ApplyClusterState dial cs m st) as [[m' st'] cb]. cbn [fst snd] in *.
    assert (connected_to m1 p) as Hc1 by (rewrite /connected_to E1 E3 E4; exact Hc).
    assert (cs_Primary (cluster st') = cs_Primary cs) as Ecs by (by rewrite Est).
    case_decide as Hd; subst m'.
    + simpl. split; [exact E1|]. split; simpl; [by rewrite Ecs|]. exists p. rewrite Ecs.
      split_and!; [done|done|]. by rewrite (proj2 Hd).
    + destruct (updatePrimary_id dial (cs_Primary cs) m1) as [-> _]. split; [done|].
      split; simpl; [by rewrite Ecs|]. exists (cs_Primary cs). rewrite Ecs.
      split_and!; [done| |by left]. apply (updatePrimary_connects dial m1 p); [congruence|done..].
  - intros _ _ _ (Hold & p & Hp & Hc & Hrel). simpl in *. split; [done|]. split; [by left|].
    exists p. by split_and!; [| |right].
Qed.

Lemma role_run_inv dial evs ms :
  pm_nodeID ms.1 ≠ "" → (∀ a, dial a = true) → Forall event_ok evs → connection_inv ms →
  pm_nodeID (foldl (role_step dial) ms evs).1 = pm_nodeID ms.1 ∧
  connection_inv (foldl (role_step dial) ms evs).
Proof using Hinj Haddr.
  intros Hid Hdial Hok. revert ms Hid. induction Hok as [|ev evs Hev Hok IH]; intros ms Hid Hinv; [done|].
  destruct (role_step_inv dial ms ev Hid Hdial Hev Hinv) as [Eid Hinv']. simpl.
  rewrite -Eid. apply IH; [by rewrite Eid|done].
Qed.

(** The connection follows the Primary: after any sequence of cluster-state
    pushes and losses of Elector leadership, a node whose cluster state names a
    Primary has a connection to exactly that node, and none when it is the
    Primary itself, as long as addresses identify nodes and dialling succeeds. *)
Theorem primary_connection_follows dial evs nodeID tls :
  nodeID ≠ "" → (∀ a, dial a = true) → Forall event_ok evs →
  let ms := foldl (role_step dial) (NewPeerManager nodeID tls, State_New) evs in
  let p := cs_Primary (cluster ms.2) in
  NodeID p ≠ "" →
  PrimaryClient ms.1 = if decide (NodeID p = nodeID) then None else Some (addr_of (NodeID p)).
Proof using Hinj Haddr.
  intros Hid Hdial Hok.
  destruct (role_run_inv dial evs (NewPeerManager nodeID tls, State_New) Hid Hdial Hok) as
    [Eid (Hok' & p & Hp & [_ Hc] & Hrel)].
  { split; [by left|]. exists NodeInfo_zero. split_and!; [by left|done|by left]. }
  simpl. intros Hne. destruct Hrel as [Hrel|Hrel]; [|done].
  rewrite /PrimaryClient Hc -Hrel Eid /=. clear Hc. destruct Hp as [[? _]|[_ Ea]]; [congruence|].
  destruct (decide (_ = nodeID)) as [Hd|Hd].
  - by rewrite decide_True; [right|].
  - rewrite decide_False; [by intros []|]. by rewrite Ea Hrel.
Qed.
End connection.

Definition example_addr (n : string) : string := ("p" ++ n)%string.

Definition example_pushes : list role_event :=
  let n1 := mkNodeInfo "n1" 1 "pn1" in
  let n2 := mkNodeInfo "n2" 2 "pn2" in
  [EvPush (mkClusterState n1 n2 3); EvLoseLeadership; EvPush (mkClusterState n1 n2 3);
   EvPush (mkClusterState n1 NodeInfo_zero 2); EvPush (mkClusterState n1 n1 2)].

Lemma primary_connection_follows_witness :
  PrimaryClient (foldl (role_step (λ _, true)) (NewPeerManager "n3" true, State_New) example_pushes).1
  = Some "pn1".
Proof.
  refine (primary_connection_follows example_addr _ _ (λ _, true) example_pushes "n3" true _ _ _ _).
  - intros a b E. injection E. done.
  - intros a. discriminate.
  - discriminate.
  - reflexivity.
  - rewrite /example_pushes. repeat apply Forall_cons_2; first [done | by left | by right].
  - vm_compute. discriminate.
Defined.

(** ** Where the code departs from its comments *)

(** A failed dial keeps the old address with no connection: when the old Primary
    is named again, the node stays without one. *)
Lemma failed_dial_never_reconnects :
  let n1 := mkNodeInfo "n1" 1 "pn1" in
  let n2 := mkNodeInfo "n2" 2 "pn2" in
  let cs p := mkClusterState n1 p 3 in
  let dial a := bool_decide (a ≠ "pn2") in
  let ms := foldl (role_step dial) (NewPeerManager "n3" true, State_New)
              [EvPush (cs n1); EvPush (cs n2); EvPush (cs n1)] in
  NodeID (cs_Primary (cluster ms.2)) = "n1" ∧ dial "pn1" = true ∧ PrimaryClient ms.1 = None.
Proof. done. Qed.

(** A node that becomes the Elector writes its own address into the cluster
    state before [ApplyClusterState] compares addresses, so its heartbeats keep
    going to the previous Elector. *)
Lemma new_elector_keeps_old_client :
  let n1 := mkNodeInfo "n1" 1 "pn1" in
  let n2 := mkNodeInfo "n2" 2 "pn2" in
  let m := (ConnectElector (λ _, true) "n1" "pn1" (NewPeerManager "n2" true)).2 in
  let '(m, st, _) := ApplyClusterState (λ _, true) (mkClusterState n1 n1 2) m State_New in
  let st := SetClusterElector (mkNodeInfo "n2" 0 "pn2") st in
  let '(m, st, _) := ApplyClusterState (λ _, true)
                       (mkClusterState (cs_Elector (cluster st)) NodeInfo_zero 2) m st in
  NodeID (cs_Elector (cluster st)) = "n2" ∧ ElectorClient m = Some (RemoteElectorClient "pn1").
Proof. done. Qed.

(** An Active Primary that a push replaces by another node stays Active. *)
Lemma deposed_primary_stays_active :
  let n1 := mkNodeInfo "n1" 1 "pn1" in
  let n2 := mkNodeInfo "n2" 2 "pn2" in
  let st := mkState HealthHealthy ElectorFollower PrimaryActive (mkClusterState n1 n1 2) 5 0 1 in
  let '(_, st, callback) :=
    ApplyClusterState (λ _, true) (mkClusterState n2 n2 2)
      (SetPrimaryChangeFunc (NewPeerManager "n1" true)) st in
  primary st = PrimaryActive ∧ callback = Some false.
Proof. done. Qed.

(** A push that arrives before the role hook is set names the Primary without
    telling the follower, and the same push later does not tell it either. *)
Lemma push_before_hook_is_silent :
  let n1 := mkNodeInfo "n1" 1 "pn1" in
  let cs := mkClusterState n1 n1 2 in
  let '(m, st, cb1) := ApplyClusterState (λ _, true) cs (NewPeerManager "n2" true) State_New in
  let '(m, st, cb2) := ApplyClusterState (λ _, true) cs (SetPrimaryChangeFunc m) st in
  cb1 = None ∧ cb2 = None ∧ PrimaryClient m = Some "pn1".
Proof. done. Qed.

(** Deregistration through the local client is refused, so a node that is the
    Elector cannot deregister itself on shutdown. *)
Lemma local_client_cannot_deregister (reply : string → option unit) m addr :
  ∃ c, ElectorClient (ConnectElector (λ _, true) (pm_nodeID m) addr m).2 = Some c ∧
    Client_DeregisterNode reply c = Err (NotSupported "DeregisterNode").
Proof. rewrite /ConnectElector bool_decide_eq_true_2 //. by exists LocalElectorClient. Qed.
