(* ===== verification/NodeMap.v ===== *)
(** * internal/elector/nodemap.go: the Elector's map of registered nodes

    Every method runs under the map's lock.  Go iterates over a map in any
    order: the operations that iterate take the order as a function on lists,
    and the theorems ask of it only that it permutes. *)

From S2P Require Import Prelude NodeState.

#[local] Open Scope Z_scope.

(** [DegradedAt] is [None] for the zero time. *)
Record NodeEntry := mkNodeEntry {
  ne_NodeID : string;
  ne_MemberID : Z;
  ne_ClientAdvertiseAddress : string;
  ne_PeerAdvertiseAddress : string;
  ne_LastHeartbeat : Z;
  ne_DegradedAt : option Z;
  ne_HealthState : HealthState;
  ne_PrimaryState : PrimaryState;
  ne_LatestRevision : Z;
  ne_StartTime : Z;
}.

#[export] Instance NodeEntry_eq_dec : EqDecision NodeEntry.
Proof. solve_decision. Defined.

Record NodeMap := mkNodeMap {
  nm_nodes : gmap string NodeEntry;
  nm_ready : bool;
  nm_deregistered : gset string;
}.

Definition NewNodeMap : NodeMap := mkNodeMap ∅ false ∅.

Definition NodeMap_Add (entry : NodeEntry) (m : NodeMap) : NodeMap :=
  mkNodeMap (<[ne_NodeID entry := entry]> (nm_nodes m)) (nm_ready m) (nm_deregistered m).

Definition NodeMap_Remove (nodeID : string) (m : NodeMap) : NodeMap :=
  mkNodeMap (delete nodeID (nm_nodes m)) (nm_ready m) (nm_deregistered m).

Definition NodeMap_Get (nodeID : string) (m : NodeMap) : option NodeEntry := nm_nodes m !! nodeID.

(** [order] is the iteration order, for [ForEach] as well. *)
Definition NodeMap_All (order : list NodeEntry → list NodeEntry) (m : NodeMap) : list NodeEntry :=
  order (map_to_list (nm_nodes m)).*2.

Definition NodeMap_SetReady (m : NodeMap) : NodeMap :=
  mkNodeMap (nm_nodes m) true (nm_deregistered m).

Definition NodeMap_Reset (m : NodeMap) : NodeMap := mkNodeMap ∅ false ∅.

Definition MarkDeregistered (nodeID : string) (m : NodeMap) : NodeMap :=
  mkNodeMap (nm_nodes m) (nm_ready m) ({[nodeID]} ∪ nm_deregistered m).

Definition IsDeregistered (nodeID : string) (m : NodeMap) : bool :=
  bool_decide (nodeID ∈ nm_deregistered m).

Definition ClearDeregistered (m : NodeMap) : NodeMap :=
  mkNodeMap (nm_nodes m) (nm_ready m) ∅.

Definition NodeMap_UpdateHeartbeat (nodeID : string) (t : Z) (health : HealthState) (primary : PrimaryState)
    (latestRevision startTime : Z) (m : NodeMap) : bool * NodeMap :=
  match nm_nodes m !! nodeID with
  | None => (false, m)
  | Some e =>
      (true, mkNodeMap
               (<[nodeID := mkNodeEntry (ne_NodeID e) (ne_MemberID e) (ne_ClientAdvertiseAddress e)
                              (ne_PeerAdvertiseAddress e) t (ne_DegradedAt e) health primary
                              latestRevision startTime]> (nm_nodes m))
               (nm_ready m) (nm_deregistered m))
  end.

Definition NodeMap_Count (m : NodeMap) : Z := Z.of_nat (size (nm_nodes m)).

Definition SetHealthState (now : Z) (nodeID : string) (health : HealthState) (m : NodeMap)
    : bool * NodeMap :=
  match nm_nodes m !! nodeID with
  | None => (false, m)
  | Some e =>
      (true, mkNodeMap
               (<[nodeID := mkNodeEntry (ne_NodeID e) (ne_MemberID e) (ne_ClientAdvertiseAddress e)
                              (ne_PeerAdvertiseAddress e) (ne_LastHeartbeat e)
                              (if decide (health = HealthDegraded) then Some now else None)
                              health (ne_PrimaryState e) (ne_LatestRevision e) (ne_StartTime e)]>
                  (nm_nodes m))
               (nm_ready m) (nm_deregistered m))
  end.

(** ** Invariant *)

(** Every entry is kept under its own node id. *)
Definition nodemap_wf (m : NodeMap) : Prop :=
  map_Forall (λ id e, ne_NodeID e = id) (nm_nodes m).

Lemma NodeMap_Add_wf e m : nodemap_wf m → nodemap_wf (NodeMap_Add e m).
Proof. intros Hm. by apply map_Forall_insert_2. Qed.

Lemma NodeMap_Remove_wf id m : nodemap_wf m → nodemap_wf (NodeMap_Remove id m).
Proof. intros Hm. by apply map_Forall_delete. Qed.

Lemma NodeMap_UpdateHeartbeat_wf id t h p r st m :
  nodemap_wf m → nodemap_wf (NodeMap_UpdateHeartbeat id t h p r st m).2.
Proof.
  intros Hm. rewrite /NodeMap_UpdateHeartbeat. destruct (nm_nodes m !! id) eqn:E; [|done].
  apply map_Forall_insert_2; [by apply Hm in E|done].
Qed.

Lemma SetHealthState_wf now id h m : nodemap_wf m → nodemap_wf (SetHealthState now id h m).2.
Proof.
  intros Hm. rewrite /SetHealthState. destruct (nm_nodes m !! id) eqn:E; [|done].
  apply map_Forall_insert_2; [by apply Hm in E|done].
Qed.

#[export] Hint Resolve NodeMap_Add_wf NodeMap_Remove_wf NodeMap_UpdateHeartbeat_wf SetHealthState_wf : netsy.

Lemma NodeMap_All_elem order m e :
  (∀ l, order l ≡ₚ l) → nodemap_wf m →
  e ∈ NodeMap_All order m ↔ nm_nodes m !! ne_NodeID e = Some e.
Proof.
  intros Ho Hm. rewrite /NodeMap_All Ho list_elem_of_fmap. split.
  - intros ([id e'] & -> & Hin%elem_of_map_to_list). simpl. by rewrite (Hm id e').
  - intros He. exists (ne_NodeID e, e). split; [done|]. by apply elem_of_map_to_list.
Qed.

Lemma NodeMap_All_length order m :
  (∀ l, order l ≡ₚ l) → length (NodeMap_All order m) = size (nm_nodes m).
Proof.
  intros Ho. by rewrite /NodeMap_All Ho length_fmap length_map_to_list.
Qed.

(** Node ids are not repeated in the list of all entries. *)
Lemma NodeMap_All_NoDup order m :
  (∀ l, order l ≡ₚ l) → nodemap_wf m → NoDup (ne_NodeID <$> NodeMap_All order m).
Proof.
  intros Ho Hm. rewrite /NodeMap_All (Ho _).
  rewrite (_ : ne_NodeID <$> (map_to_list (nm_nodes m)).*2 = (map_to_list (nm_nodes m)).*1).
  - rewrite -list_fmap_compose. apply list_fmap_ext. intros i [id e] Hi.
    apply list_elem_of_lookup_2, elem_of_map_to_list in Hi. simpl. by apply Hm.
  - apply NoDup_fst_map_to_list.
Qed.
