(* ===== verification/Elector.v ===== *)
(** * internal/elector: the Elector's service, bootstrap and health checks

    [Elector] is the Server's state; the node state and the peer manager it
    shares with the rest of the node are fields of it.  Other goroutines may
    change object storage between the calls of one operation: the arguments
    named [meanwhile] are what they do.  Pushes to other nodes are returned as
    the list of calls, in order; their failures are only logged.  A role
    callback is returned as in PeerClient. *)

From S2P Require Import Prelude NodeState Records LocalDB Storage DataFile ExampleCodec DataStore.
From S2P Require Import Discovery PeerClient NodeMap.

#[local] Open Scope Z_scope.

(** ** State *)

Record ElectorConfig := mkElectorConfig {
  ec_clusterID : string;
  ec_heartbeatInterval : Z;
  ec_deregTimeout : Z;
  ec_degradationCount : Z;
  ec_localNodeID : string;
  ec_localStartTime : Z;
  ec_quorum : Z;
  ec_primaryPriorTimeout : Z;
}.

(** [el_previousPrimary] is [None] for the nil pointer; [el_forwarder] says
    whether heartbeats are forwarded to the Primary of this node. *)
Record Elector (OS : Type) := mkElector {
  el_cfg : ElectorConfig;
  el_store : OS;
  el_state : State;
  el_nodeMap : NodeMap;
  el_peers : PeerManager;
  el_previousPrimary : option NodeInfo;
  el_forwarder : bool;
}.
Arguments mkElector {OS} _ _ _ _ _ _ _.
Arguments el_cfg {OS} _.
Arguments el_store {OS} _.
Arguments el_state {OS} _.
Arguments el_nodeMap {OS} _.
Arguments el_peers {OS} _.
Arguments el_previousPrimary {OS} _.
Arguments el_forwarder {OS} _.

Record RegisterNodeRequest := mkRegisterNodeRequest {
  rq_NodeId : string;
  rq_ClientAdvertiseAddress : string;
  rq_PeerAdvertiseAddress : string;
}.

Record RegisterNodeResponse := mkRegisterNodeResponse {
  rs_MemberId : Z;
  rs_ClusterState : pb_ClusterState;
}.

Record MemberEntry := mkMemberEntry {
  me_NodeId : string;
  me_MemberId : Z;
  me_ClientAdvertiseAddress : string;
  me_PeerAdvertiseAddress : string;
}.

Inductive alloc_err :=
| AllocReadErr (e : discovery_err)
| AllocNilMap
| AllocWriteErr (e : discovery_err)
| AllocRetriesExhausted.

Inductive elector_err :=
| NotElector
| MissingFields
| StillBootstrapping
| AllocateFailed (e : alloc_err)
| NodeNotRegistered (nodeID : string).

Inductive elector_bootstrap_err :=
| BootReadMembers (e : discovery_err)
| BootListRegistrations (e : discovery_err)
| BootPromote (e : bootstrap_err)
| BootNilMap
| BootWriteMembers (e : discovery_err).

(** A call of PushClusterState on a node. *)
Record push_call := mkPush { pc_nodeID : string; pc_addr : string; pc_cs : pb_ClusterState }.

Section elector.
  Context {OS : Type} `{ObjectStorage OS} `{JSON} `{Codec}.
  Implicit Types s : Elector OS.

Definition with_store (o : OS) s : Elector OS :=
  mkElector (el_cfg s) o (el_state s) (el_nodeMap s) (el_peers s) (el_previousPrimary s)
    (el_forwarder s).
Definition with_state (st : State) s : Elector OS :=
  mkElector (el_cfg s) (el_store s) st (el_nodeMap s) (el_peers s) (el_previousPrimary s)
    (el_forwarder s).
Definition with_nodeMap (m : NodeMap) s : Elector OS :=
  mkElector (el_cfg s) (el_store s) (el_state s) m (el_peers s) (el_previousPrimary s)
    (el_forwarder s).
Definition with_peers (p : PeerManager) s : Elector OS :=
  mkElector (el_cfg s) (el_store s) (el_state s) (el_nodeMap s) p (el_previousPrimary s)
    (el_forwarder s).

Definition NewElector (cfg : ElectorConfig) (store : OS) (st : State) (peers : PeerManager)
    : Elector OS :=
  mkElector cfg store st NewNodeMap peers None false.

Definition loadPreviousPrimary s : NodeInfo := default NodeInfo_zero (el_previousPrimary s).

Definition storePreviousPrimary (prev : NodeInfo) s : Elector OS :=
  mkElector (el_cfg s) (el_store s) (el_state s) (el_nodeMap s) (el_peers s) (Some prev)
    (el_forwarder s).

Definition SetHeartbeatForwarder (f : bool) s : Elector OS :=
  mkElector (el_cfg s) (el_store s) (el_state s) (el_nodeMap s) (el_peers s)
    (el_previousPrimary s) f.

Definition requireLeader s : bool := bool_decide (elector (el_state s) = ElectorLeader).

(** ** Member ids *)

Record alloc_env := mkAllocEnv {
  ae_read : bool;
  ae_meanwhile : OS → OS;
  ae_put : put_fault;
}.

Fixpoint alloc_loop (retries : nat) (env : nat → alloc_env) (nodeID : string) (store : OS)
    : res alloc_err Z * OS :=
  match retries with
  | O => (Err AllocRetriesExhausted, store)
  | S n =>
      match ReadMembersFile (ae_read (env n)) store with
      | Err e => (Err (AllocReadErr e), store)
      | Ok mf =>
          match FindMemberID mf nodeID, mf_Members mf with
          | Some id, _ => (Ok id, store)
          | None, None => (Err AllocNilMap, store)
          | None, Some m =>
              let newID := AllocateMemberID mf in
              match WriteMembersFile (ae_put (env n)) (ae_meanwhile (env n) store)
                      (mkMembersFile (mf_ClusterID mf) (Some (<[nodeID := newID]> m)) (mf_ETag mf)) with
              | (Err (WriteMembers ErrPrecondition), store') => alloc_loop n env nodeID store'
              | (Err e, store') => (Err (AllocWriteErr e), store')
              | (Ok _, store') => (Ok newID, store')
              end
          end
      end
  end.

Definition maxRetries : nat := 5.

Definition allocateOrReuseMemberID (env : nat → alloc_env) (nodeID : string) (store : OS)
    : res alloc_err Z * OS :=
  alloc_loop maxRetries env nodeID store.

(** ** The service *)

Definition new_entry (nodeID : string) (memberID : Z) (client peer : string) (now : Z) : NodeEntry :=
  mkNodeEntry nodeID memberID client peer now None HealthLoading PrimaryReplica 0 0.

(** [meanwhile] is what other calls do to the Elector during the allocation. *)
Definition RegisterNode (now : Z) (env : nat → alloc_env) (meanwhile : Elector OS → Elector OS)
    (req : RegisterNodeRequest) s : res elector_err RegisterNodeResponse * Elector OS :=
  if negb (requireLeader s) then (Err NotElector, s)
  else if bool_decide (rq_NodeId req = "") || bool_decide (rq_ClientAdvertiseAddress req = "")
          || bool_decide (rq_PeerAdvertiseAddress req = "") then (Err MissingFields, s)
  else if negb (nm_ready (el_nodeMap s)) then (Err StillBootstrapping, s)
  else
    let '(r, store) := allocateOrReuseMemberID env (rq_NodeId req) (el_store s) in
    let s := meanwhile (with_store store s) in
    match r with
    | Err e => (Err (AllocateFailed e), s)
    | Ok memberID =>
        let s := with_nodeMap
                   (NodeMap_Add (new_entry (rq_NodeId req) memberID (rq_ClientAdvertiseAddress req)
                                   (rq_PeerAdvertiseAddress req) now) (el_nodeMap s)) s in
        let cs := cluster (el_state s) in
        (Ok (mkRegisterNodeResponse memberID
               (ClusterStateToProto (mkClusterState (cs_Elector cs) (cs_Primary cs)
                                       (NodeMap_Count (el_nodeMap s))))), s)
    end.

Definition GetClusterState s : res elector_err pb_ClusterState :=
  if negb (requireLeader s) then Err NotElector
  else if negb (nm_ready (el_nodeMap s)) then Err StillBootstrapping
  else
    let cs := cluster (el_state s) in
    Ok (ClusterStateToProto (mkClusterState (cs_Elector cs) (cs_Primary cs)
                               (NodeMap_Count (el_nodeMap s)))).

(** The heartbeat forwarded to the Primary, if any, is returned. *)
Definition Elector_SendHeartbeat (now : Z) (req : pb_NodeState) s
    : res elector_err unit * Elector OS * option pb_NodeState :=
  if negb (requireLeader s) then (Err NotElector, s, None)
  else if bool_decide (ns_NodeId req = "") then (Err MissingFields, s, None)
  else
    let health := HealthFromProto (ns_HealthState req) in
    let primary := PrimaryFromProto (ns_PrimaryState req) in
    match NodeMap_UpdateHeartbeat (ns_NodeId req) now health primary (ns_LatestRevision req)
            (ns_StartTime req) (el_nodeMap s) with
    | (false, _) => (Err (NodeNotRegistered (ns_NodeId req)), s, None)
    | (true, m) =>
        (Ok tt, with_nodeMap m s,
         if el_forwarder s && bool_decide (ns_NodeId req ≠ ec_localNodeID (el_cfg s))
         then Some req else None)
    end.

Definition GetMemberList (order : list NodeEntry → list NodeEntry) s
    : res elector_err (list MemberEntry) :=
  if negb (requireLeader s) then Err NotElector
  else if negb (nm_ready (el_nodeMap s)) then Err StillBootstrapping
  else
    Ok ((λ e, mkMemberEntry (ne_NodeID e) (ne_MemberID e) (ne_ClientAdvertiseAddress e)
                (ne_PeerAdvertiseAddress e)) <$> NodeMap_All order (el_nodeMap s)).

(** ** Pushing the cluster state *)

Definition pushClusterState (dial : string → bool) (order : list NodeEntry → list NodeEntry)
    (primary : NodeInfo) s : Elector OS * option bool * list push_call :=
  let cs := mkClusterState (cs_Elector (cluster (el_state s))) primary
              (NodeMap_Count (el_nodeMap s)) in
  let '(m, st, callback) := ApplyClusterState dial cs (el_peers s) (el_state s) in
  let s := with_peers m (with_state st s) in
  let entries := NodeMap_All order (el_nodeMap s) in
  if (length entries <=? 1)%nat then (s, callback, [])
  else
    let remote := filter (λ e, ne_NodeID e ≠ ec_localNodeID (el_cfg s)) entries in
    let protoCS := ClusterStateToProto cs in
    let push e := mkPush (ne_NodeID e) (ne_PeerAdvertiseAddress e) protoCS in
    let first := option_map push (List.find (λ e, bool_decide (ne_NodeID e = NodeID primary)) remote) in
    let rest := push <$> filter (λ e, ne_NodeID e ≠ NodeID primary) remote in
    (s, callback, option_list first ++ rest).

Definition clearPrimary (dial : string → bool) (order : list NodeEntry → list NodeEntry) s
    : Elector OS * option bool * list push_call :=
  pushClusterState dial order NodeInfo_zero
    (storePreviousPrimary (cs_Primary (cluster (el_state s))) s).

Definition DeregisterNode (dial : string → bool) (order : list NodeEntry → list NodeEntry)
    (nodeID : string) s : res elector_err unit * Elector OS * option bool * list push_call :=
  if negb (requireLeader s) then (Err NotElector, s, None, [])
  else if bool_decide (nodeID = "") then (Err MissingFields, s, None, [])
  else
    let s := with_nodeMap (NodeMap_Remove nodeID (MarkDeregistered nodeID (el_nodeMap s))) s in
    if bool_decide (NodeID (cs_Primary (cluster (el_state s))) = nodeID) then
      let '(s, callback, pushes) := clearPrimary dial order s in (Ok tt, s, callback, pushes)
    else (Ok tt, s, None, []).

(** ** Health checks *)

(** [now.Sub(t)] and the deadline, both [int64] durations. *)
Definition degradationDeadline s : Z :=
  wrap64 (ec_degradationCount (el_cfg s) * ec_heartbeatInterval (el_cfg s)).

Definition missed_heartbeats (now : Z) s (e : NodeEntry) : bool :=
  bool_decide (ne_HealthState e ≠ HealthDegraded)
  && (degradationDeadline s <=? now - ne_LastHeartbeat e).

Definition degraded_too_long (now : Z) s (e : NodeEntry) : bool :=
  bool_decide (ne_HealthState e = HealthDegraded)
  && (0 <? ec_deregTimeout (el_cfg s))
  && match ne_DegradedAt e with
     | None => false
     | Some t => ec_deregTimeout (el_cfg s) <=? now - t
     end.

Record health_env := mkHealthEnv {
  he_now : Z;
  he_order : list NodeEntry → list NodeEntry;
  he_meanwhile : NodeMap → NodeMap;
  he_clock : string → Z;
  he_delete : string → put_fault;
  he_dial : string → bool;
}.

(** The registration of a timed-out node is removed; a failed delete is logged. *)
Definition auto_deregister (env : health_env) s (nodeID : string) : Elector OS :=
  let s := with_nodeMap (NodeMap_Remove nodeID (el_nodeMap s)) s in
  with_store (DeleteNodeRegistration (he_delete env nodeID) (el_store s) nodeID).2 s.

Definition mark_degraded (env : health_env) s (nodeID : string) : Elector OS :=
  with_nodeMap (SetHealthState (he_clock env nodeID) nodeID HealthDegraded (el_nodeMap s)).2 s.

(** The read lock is released after the scan; heartbeats and registrations may
    come in ([he_meanwhile]) before the decisions are applied. *)
Definition checkNodeHealth (env : health_env) s : Elector OS * option bool * list push_call :=
  if negb (nm_ready (el_nodeMap s)) then (s, None, [])
  else
    let entries := NodeMap_All (he_order env) (el_nodeMap s) in
    let toDegraded := ne_NodeID <$> filter (λ e, missed_heartbeats (he_now env) s e = true) entries in
    let toDeregistered := ne_NodeID <$> filter (λ e, degraded_too_long (he_now env) s e = true) entries in
    let s := with_nodeMap (he_meanwhile env (el_nodeMap s)) s in
    let s := foldl (mark_degraded env) s toDegraded in
    let s := foldl (auto_deregister env) s toDeregistered in
    let primaryNodeID := NodeID (cs_Primary (cluster (el_state s))) in
    if bool_decide (primaryNodeID = "") then (s, None, [])
    else if bool_decide (primaryNodeID ∈ toDegraded) || bool_decide (primaryNodeID ∈ toDeregistered)
    then clearPrimary (he_dial env) (he_order env) s
    else (s, None, []).

(** ** Bootstrap *)

Record elector_boot_env := mkElectorBootEnv {
  eb_read : bool;
  eb_list : bool;
  eb_get : string → bool;
  eb_after_read : OS → OS;
  eb_after_list : OS → OS;
  eb_sha256 : bytes → bytes;
  eb_put : put_fault;
  eb_clock : string → Z;
}.

(** One registration of the first Elector's loop. *)
Definition boot_first (env : elector_boot_env) (acc : gmap string Z * NodeMap) (reg : NodeRegistration)
    : gmap string Z * NodeMap :=
  let '(m, nm) := acc in
  if IsDeregistered (nr_NodeID reg) nm then acc
  else
    let id := AllocateMemberID (mkMembersFile "" (Some m) "") in
    (<[nr_NodeID reg := id]> m,
     NodeMap_Add (new_entry (nr_NodeID reg) id (nr_ClientAdvertiseAddress reg)
                    (nr_PeerAdvertiseAddress reg) (eb_clock env (nr_NodeID reg))) nm).

Definition bootstrapFirstElector (env : elector_boot_env) (regs : list NodeRegistration) s
    : res elector_bootstrap_err unit * Elector OS :=
  match PromoteBootstrapSnapshot (eb_sha256 env) (el_store s) with
  | Err e => (Err (BootPromote e), s)
  | Ok (_, store) =>
      let '(m, nm) := foldl (boot_first env) (∅, el_nodeMap s) regs in
      let s := with_nodeMap nm (with_store (eb_after_list env store) s) in
      match WriteMembersFile (eb_put env) (el_store s)
              (mkMembersFile (ec_clusterID (el_cfg s)) (Some m) "") with
      | (Err e, store) => (Err (BootWriteMembers e), with_store store s)
      | (Ok _, store) => (Ok tt, with_store store s)
      end
  end.

(** One registration of the existing Elector's loop; [None] is the panic of a
    write to a nil map. *)
Definition boot_existing (env : elector_boot_env) (etag cid : string)
    (acc : option (option (gmap string Z) * bool * NodeMap)) (reg : NodeRegistration)
    : option (option (gmap string Z) * bool * NodeMap) :=
  '(m, needsWrite, nm) ← acc;
  if IsDeregistered (nr_NodeID reg) nm then acc
  else if bool_decide (is_Some (NodeMap_Get (nr_NodeID reg) nm)) then acc
  else
    let add id := NodeMap_Add (new_entry (nr_NodeID reg) id (nr_ClientAdvertiseAddress reg)
                    (nr_PeerAdvertiseAddress reg) (eb_clock env (nr_NodeID reg))) nm in
    match FindMemberID (mkMembersFile cid m etag) (nr_NodeID reg), m with
    | Some id, _ => Some (m, needsWrite, add id)
    | None, None => None
    | None, Some mm =>
        let id := AllocateMemberID (mkMembersFile cid m etag) in
        Some (Some (<[nr_NodeID reg := id]> mm), true, add id)
    end.

Definition bootstrapExisting (env : elector_boot_env) (mf : MembersFile) (regs : list NodeRegistration) s
    : res elector_bootstrap_err unit * Elector OS :=
  match foldl (boot_existing env (mf_ETag mf) (mf_ClusterID mf))
          (Some (mf_Members mf, false, el_nodeMap s)) regs with
  | None => (Err BootNilMap, s)
  | Some (m, needsWrite, nm) =>
      let s := with_nodeMap nm (with_store (eb_after_list env (el_store s)) s) in
      if needsWrite then
        match WriteMembersFile (eb_put env) (el_store s)
                (mkMembersFile (mf_ClusterID mf) m (mf_ETag mf)) with
        | (Err e, store) => (Err (BootWriteMembers e), with_store store s)
        | (Ok _, store) => (Ok tt, with_store store s)
        end
      else (Ok tt, s)
  end.

Definition Elector_Bootstrap (env : elector_boot_env) s
    : res elector_bootstrap_err unit * Elector OS :=
  let read := ReadMembersFile (eb_read env) (el_store s) in
  let s := with_store (eb_after_read env (el_store s)) s in
  let continue first :=
    match ListNodeRegistrations (eb_list env) (eb_get env) (el_store s) with
    | Err e => (Err (BootListRegistrations e), s)
    | Ok regs =>
        match (match first with
               | None => bootstrapFirstElector env regs s
               | Some mf => bootstrapExisting env mf regs s
               end) with
        | (Err e, s) => (Err e, s)
        | (Ok _, s) =>
            (Ok tt, with_nodeMap (NodeMap_SetReady (ClearDeregistered (el_nodeMap s))) s)
        end
    end in
  match read with
  | Err (StorageErr ErrNotFound) => continue None
  | Err e => (Err (BootReadMembers e), s)
  | Ok mf => continue (Some mf)
  end.
End elector.

Arguments mkAllocEnv {OS} _ _ _.
Arguments ae_read {OS} _.
Arguments ae_meanwhile {OS} _ _.
Arguments ae_put {OS} _.
Arguments mkElectorBootEnv {OS} _ _ _ _ _ _ _ _.
Arguments eb_after_read {OS} _ _.
