(* ===== verification/MembersTheorems.v ===== *)
(** * Member ids: unique, stable, durable

    Any number of Electors may read and write members.json at the same time.
    [members_step] is what one of them can do to the store in one call; the
    operations of Elector are shown to be sequences of such steps, whatever
    other Electors do in between. *)

From S2P Require Import Prelude NodeState Records LocalDB Storage DataFile ExampleCodec DataStore.
From S2P Require Import Discovery PeerClient NodeMap Elector.

#[local] Open Scope Z_scope.

Section members.
  Context {OS : Type} `{HS : ObjectStorage OS} `{L : !ObjectStorageLaws OS} `{LE : !ETagLaws OS}.
  Context `{HJ : JSON} `{LJ : !JSONLaws}.
  (** The node ids in use: ASCII, and fewer than a member id can count. *)
  Context (nodes : gset string).
  Context (Hascii : ∀ n, n ∈ nodes → ascii_text n = true).
  Context (Hfew : Z.of_nat (size nodes) < 2 ^ 64).

(** ** The members file in the store *)

Definition stored_file (s : OS) : option (string * option (gmap string Z)) :=
  d ← os_objects s membersFilePath; members_of_json d.

(** Known nodes only; ids from 1 to the number of members, none used twice. *)
Definition members_ok (m : gmap string Z) : Prop :=
  dom m ⊆ nodes ∧ map_Forall (λ _ id, 0 < id ≤ Z.of_nat (size m)) m ∧
  (∀ a b id, m !! a = Some id → m !! b = Some id → a = b).

Definition store_ok (s : OS) (m : gmap string Z) : Prop :=
  ∃ c, stored_file s = Some (c, Some m) ∧ ascii_text c = true ∧ members_ok m.

(** Add the nodes that have no id yet, as both the registration and the
    bootstrap do. *)
Definition alloc_one (mf : MembersFile) (nodeID : string) : MembersFile :=
  match members mf !! nodeID with
  | Some _ => mf
  | None => mkMembersFile (mf_ClusterID mf)
              (Some (<[nodeID := AllocateMemberID mf]> (members mf))) (mf_ETag mf)
  end.

Definition alloc_all (mf : MembersFile) (ids : list string) : MembersFile := foldl alloc_one mf ids.

(** One write: unrelated to members.json, a conditional update of what some
    Elector read at some time, or the creation of the file. *)
Inductive members_step : OS → OS → Prop :=
| step_other s s' :
    os_objects s' membersFilePath = os_objects s membersFilePath → members_step s s'
| step_update s s0 mf m ids f :
    ReadMembersFile true s0 = Ok mf → mf_Members mf = Some m → (∀ n, n ∈ ids → n ∈ nodes) →
    members_step s (WriteMembersFile f s (alloc_all mf ids)).2
| step_create s c ids f :
    ascii_text c = true → (∀ n, n ∈ ids → n ∈ nodes) →
    members_step s (WriteMembersFile f s (alloc_all (mkMembersFile c (Some ∅) "") ids)).2.

(** ** Allocation keeps ids unique *)

Lemma members_ok_size m : members_ok m → Z.of_nat (size m) < 2 ^ 64.
Proof using Hfew.
  intros (Hd & _). apply subseteq_size in Hd. rewrite size_dom in Hd. lia.
Qed.

Lemma max_member_bound m mx :
  members_ok m → (mx = 0 ∨ ∃ a, m !! a = Some mx) → 0 ≤ mx ≤ Z.of_nat (size m).
Proof using. intros (_ & Hb & _) [->|[a Ha]]; [lia|]. apply Hb in Ha. lia. Qed.

Lemma alloc_fresh mf nodeID :
  members_ok (members mf) → members mf !! nodeID = None → nodeID ∈ nodes →
  members_ok (<[nodeID := AllocateMemberID mf]> (members mf)).
Proof using Hfew.
  intros Hok Hn Hin. destruct (max_member_spec (members mf)) as (H0 & Hall & Hex).
  rewrite /AllocateMemberID. set (mx := map_fold _ _ _) in *.
  pose proof (max_member_bound _ _ Hok Hex) as Hmx.
  destruct Hok as (Hd & Hb & Hinj).
  assert (Z.of_nat (S (size (members mf))) < 2 ^ 64) as Hsz.
  { assert (dom (<[nodeID := 0]> (members mf)) ⊆ nodes) as Hd' by
      (rewrite dom_insert; apply union_least; [by apply singleton_subseteq_l|done]).
    apply subseteq_size in Hd'. rewrite size_dom map_size_insert_None // in Hd'. lia. }
  rewrite /wrapu64 Z.mod_small; [lia|]. split_and!.
  - rewrite dom_insert. apply union_least; [by apply singleton_subseteq_l|done].
  - rewrite map_size_insert_None //. apply map_Forall_insert_2; [lia|].
    intros a x Ha. apply Hb in Ha. lia.
  - intros a b id. rewrite !lookup_insert_Some.
    intros [[<- <-]|[? Ha]] [[<- E]|[? Hb']]; try done.
    + apply Hall in Hb'. lia.
    + apply Hall in Ha. lia.
    + by eapply Hinj.
Qed.

Lemma alloc_all_ok ids mf m :
  mf_Members mf = Some m → members_ok m → (∀ n, n ∈ ids → n ∈ nodes) →
  ∃ m', mf_Members (alloc_all mf ids) = Some m' ∧ members_ok m' ∧ m ⊆ m' ∧
    mf_ClusterID (alloc_all mf ids) = mf_ClusterID mf ∧ mf_ETag (alloc_all mf ids) = mf_ETag mf.
Proof using Hfew.
  revert mf m. induction ids as [|n ids IH]; intros mf m Hm Hok Hin; simpl.
  { exists m. by split_and!. }
  assert (members mf = m) as Emf by (by rewrite /members Hm).
  rewrite /alloc_one Emf. destruct (m !! n) as [id|] eqn:En.
  - apply IH; [done|done|]. intros x Hx. apply Hin. by right.
  - destruct (IH (mkMembersFile (mf_ClusterID mf) (Some (<[n := AllocateMemberID mf]> m)) (mf_ETag mf))
                (<[n := AllocateMemberID mf]> m)) as (m' & ? & ? & Hsub & ? & ?);
      [done| |intros x Hx; apply Hin; by right|].
    { rewrite -Emf. apply alloc_fresh; [by rewrite Emf|by rewrite Emf|apply Hin; by left]. }
    exists m'. split_and!; try done. etrans; [by apply insert_subseteq|done].
Qed.

Lemma members_ok_ascii m : members_ok m → ascii_members m.
Proof using Hascii Hfew.
  intros Hok. pose proof (members_ok_size m Hok). destruct Hok as (Hd & Hb & _).
  intros k id Hk. split; [apply Hascii, Hd; by eapply elem_of_dom_2|]. apply Hb in Hk. rewrite /uint64. lia.
Qed.

(** ** Reads and writes *)

Lemma ReadMembersFile_stored s mf :
  ReadMembersFile true s = Ok mf →
  stored_file s = Some (mf_ClusterID mf, mf_Members mf) ∧ mf_ETag mf ≠ "" ∧
  ∃ d, os_Get s membersFilePath = Ok (d, mf_ETag mf) ∧
    members_of_json d = Some (mf_ClusterID mf, mf_Members mf).
Proof using L.
  rewrite /ReadMembersFile /faulty_get /stored_file.
  pose proof (os_Get_spec s membersFilePath) as Hg.
  destruct (os_objects s membersFilePath) as [d|] eqn:E; [|by rewrite Hg].
  destruct Hg as (etag & -> & Hne). simpl. destruct (members_of_json d) as [[c m]|] eqn:Ej; [|done].
  intros [= <-]. simpl. split; [done|]. split; [done|]. by exists d.
Qed.

(** What a write leaves in the store: nothing new, or the whole new file. *)
Lemma WriteMembersFile_cases f s mf :
  os_objects (WriteMembersFile f s mf).2 membersFilePath = os_objects s membersFilePath ∧
    (WriteMembersFile f s mf).1 ≠ Ok tt
  ∨
  os_objects (WriteMembersFile f s mf).2 membersFilePath
    = Some (json_of_members (mf_ClusterID mf) (mf_Members mf)) ∧
  match mf_ETag mf with
  | "" => os_objects s membersFilePath = None
  | etag => ∃ d, os_Get s membersFilePath = Ok (d, etag)
  end.
Proof using L LE.
  rewrite /WriteMembersFile /faulty_put_match. set (d := json_of_members _ _).
  destruct (decide (mf_ETag mf = "")) as [E|E].
  - rewrite E. pose proof (os_PutIfMatch_create s membersFilePath d) as Hp.
    destruct (os_PutIfMatch s membersFilePath d "") as [s'|e].
    + destruct Hp as [Hn Hp]. destruct f; simpl; [right|left|right]; rewrite ?Hp ?decide_True //.
    + by destruct f; left.
  - pose proof (os_PutIfMatch_cas s membersFilePath d (mf_ETag mf) E) as Hp.
    destruct (os_PutIfMatch s membersFilePath d (mf_ETag mf)) as [s'|e].
    + destruct Hp as [Hn Hp]. destruct (mf_ETag mf); [done|].
      destruct f; simpl; [right|left|right]; rewrite ?Hp ?decide_True //.
    + by destruct f; left.
Qed.

Lemma WriteMembersFile_ok f s mf :
  (WriteMembersFile f s mf).1 = Ok tt →
  os_objects (WriteMembersFile f s mf).2 membersFilePath
    = Some (json_of_members (mf_ClusterID mf) (mf_Members mf)).
Proof using L LE.
  intros Hok. destruct (WriteMembersFile_cases f s mf) as [[_ Hne]|[Hw _]]; [by rewrite Hok in Hne|done].
Qed.

(** ** The file only grows *)

Lemma members_step_grows s s' m :
  members_step s s' → store_ok s m → ∃ m', store_ok s' m' ∧ m ⊆ m'.
Proof using L LE LJ Hascii Hfew.
  intros Hstep (c & Hf & Hc & Hok). rewrite /stored_file in Hf.
  destruct (os_objects s membersFilePath) as [d|] eqn:Ed; [|done]. simpl in Hf.
  assert (∀ s'', os_objects s'' membersFilePath = Some d → store_ok s'' m) as Hsame.
  { intros s'' E. exists c. rewrite /stored_file E. done. }
  destruct Hstep as [s s' E|s s0 mf m0 ids f Hr Hm Hin|s c' ids f Hc' Hin].
  - exists m. split; [|done]. apply Hsame. by rewrite E.
  - destruct (WriteMembersFile_cases f s (alloc_all mf ids)) as [[E _]|[E Hcas]].
    { exists m. split; [|done]. apply Hsame. by rewrite E. }
    destruct (ReadMembersFile_stored s0 mf Hr) as (_ & Hne & d0 & Hg0 & Hj0).
    assert (mf_ETag (alloc_all mf ids) = mf_ETag mf) as Etag.
    { clear -Hne. revert mf Hne. induction ids as [|n ids IH]; intros mf Hne; [done|]. simpl.
      rewrite /alloc_one. case_match; [by apply IH|]. by rewrite IH. }
    rewrite Etag in Hcas. destruct (mf_ETag mf) as [|a e] eqn:Ee; [done|].
    destruct Hcas as [d1 Hg1].
    pose proof (os_Get_spec s membersFilePath) as Hg. rewrite Ed in Hg. destruct Hg as (e' & Hg & _).
    rewrite Hg1 in Hg. injection Hg as Hd1 _. subst d1.
    assert (d0 = d) as -> by (by eapply os_etag_content).
    rewrite Hf in Hj0. injection Hj0 as Ec Em. rewrite Hm in Em. injection Em as <-.
    destruct (alloc_all_ok ids mf m Hm Hok Hin) as (m' & Em' & Hok' & Hsub & Ec' & _).
    exists m'. split; [|done]. exists c. rewrite /stored_file E Em' Ec' -Ec /=.
    rewrite json_members_roundtrip //. by apply members_ok_ascii.
  - destruct (WriteMembersFile_cases f s (alloc_all (mkMembersFile c' (Some ∅) "") ids)) as [[E _]|[E Hcas]].
    { exists m. split; [|done]. apply Hsame. by rewrite E. }
    destruct (alloc_all_ok ids (mkMembersFile c' (Some ∅) "") ∅ eq_refl) as (m' & _ & _ & _ & _ & Et);
      [|done|].
    { split_and!; [set_solver|apply map_Forall_empty|]. intros ??? H0. by rewrite lookup_empty in H0. }
    rewrite Et /= in Hcas. congruence.
Qed.

Lemma members_steps_grow s s' m :
  rtc members_step s s' → store_ok s m → ∃ m', store_ok s' m' ∧ m ⊆ m'.
Proof using L LE LJ Hascii Hfew.
  intros Hrtc. revert m. induction Hrtc as [s|s s1 s2 Hs Hrtc IH]; intros m Hok; [by exists m|].
  destruct (members_step_grows s s1 m Hs Hok) as (m1 & Hok1 & Hsub1).
  destruct (IH m1 Hok1) as (m2 & Hok2 & Hsub2). exists m2. split; [done|]. by etrans.
Qed.

(** ** The Elector's operations are such steps *)

Lemma alloc_loop_steps n env nodeID s m :
  (∀ k s, rtc members_step s (ae_meanwhile (env k) s)) → nodeID ∈ nodes → store_ok s m →
  rtc members_step s (alloc_loop n env nodeID s).2 ∧
  ∀ id, (alloc_loop n env nodeID s).1 = Ok id →
    ∃ m', store_ok (alloc_loop n env nodeID s).2 m' ∧ m' !! nodeID = Some id.
Proof using L LE LJ Hascii Hfew.
  intros Henv Hin. revert s m. induction n as [|n IH]; intros s m Hok; simpl.
  { split; [done|by intros]. }
  destruct (ReadMembersFile (ae_read (env n)) s) as [mf|e] eqn:Hr; [|by split].
  assert (ReadMembersFile true s = Ok mf) as Hr' by (destruct (ae_read (env n)); [done|by rewrite /ReadMembersFile /= in Hr]).
  destruct (ReadMembersFile_stored s mf Hr') as (Hst & _).
  pose proof Hok as (c & Hst' & Hc & Hmok). rewrite Hst in Hst'. injection Hst' as Ec Em.
  rewrite /FindMemberID /members Em /=. destruct (m !! nodeID) as [id|] eqn:Ef.
  { split; [done|]. intros id' [= <-]. by exists m. }
  set (mf' := mkMembersFile _ _ _). set (s1 := ae_meanwhile (env n) s).
  assert (mf' = alloc_all mf [nodeID]) as Emf'.
  { rewrite /alloc_all /= /alloc_one /members Em /= Ef. done. }
  assert (rtc members_step s s1) as H1 by apply Henv.
  assert (members_step s1 (WriteMembersFile (ae_put (env n)) s1 mf').2) as H2.
  { rewrite Emf'. apply (step_update s1 s mf m); [done|done|]. intros x ->%list_elem_of_singleton. done. }
  assert (rtc members_step s (WriteMembersFile (ae_put (env n)) s1 mf').2) as H3 by (by eapply rtc_r).
  destruct (WriteMembersFile (ae_put (env n)) s1 mf') as [[[]|e] s2] eqn:Ew; simpl in *.
  - split; [done|]. intros id [= <-].
    destruct (members_steps_grow s s2 m H3 Hok) as (m2 & Hok2 & _).
    exists (<[nodeID := AllocateMemberID mf]> m). split; [|by rewrite lookup_insert_eq].
    pose proof (WriteMembersFile_ok (ae_put (env n)) s1 mf') as Hw. rewrite Ew in Hw.
    specialize (Hw eq_refl). simpl in Hw. exists c. rewrite /stored_file Hw /= Ec.
    assert (members_ok (<[nodeID := AllocateMemberID mf]> m)) as Hnew.
    { pose proof (alloc_fresh mf nodeID) as Ha. rewrite /members Em /= in Ha. by apply Ha. }
    rewrite json_members_roundtrip //. by apply members_ok_ascii.
  - destruct (members_steps_grow s s2 m H3 Hok) as (m2 & Hok2 & _).
    destruct (IH s2 m2 Hok2) as [IH1 IH2].
    repeat case_match; try (by split; [|intros]). split; [by etrans|done].
Qed.

Lemma RegisterNode_steps now env meanwhile req (e : Elector OS) m :
  (∀ k s, rtc members_step s (ae_meanwhile (env k) s)) →
  (∀ e, rtc members_step (el_store e) (el_store (meanwhile e))) →
  rq_NodeId req ∈ nodes → store_ok (el_store e) m →
  rtc members_step (el_store e) (el_store (RegisterNode now env meanwhile req e).2) ∧
  ∀ resp, (RegisterNode now env meanwhile req e).1 = Ok resp →
    ∃ m', store_ok (el_store (RegisterNode now env meanwhile req e).2) m' ∧
      m' !! rq_NodeId req = Some (rs_MemberId resp).
Proof using L LE LJ Hascii Hfew.
  intros Henv Hmw Hin Hok. rewrite /RegisterNode.
  destruct (negb (requireLeader e)); [by split|].
  destruct (_ || _); [by split|].
  destruct (negb (nm_ready _)); [by split|].
  rewrite /allocateOrReuseMemberID.
  destruct (alloc_loop_steps maxRetries env (rq_NodeId req) (el_store e) m Henv Hin Hok) as [Hs Hid].
  destruct (alloc_loop maxRetries env (rq_NodeId req) (el_store e)) as [[id|err] store]; cbn [fst snd] in *.
  - destruct (Hid id eq_refl) as (m1 & Hok1 & Hm1).
    pose proof (Hmw (with_store store e)) as Hs2. split; [by etrans|]. intros resp [= <-]. cbn [rs_MemberId].
    destruct (members_steps_grow _ _ m1 Hs2 Hok1) as (m2 & Hok2 & Hsub).
    exists m2. split; [done|]. by eapply lookup_weaken.
  - pose proof (Hmw (with_store store e)) as Hs2. split; [by etrans|done].
Qed.

(** ** Bootstrap *)

Lemma PromoteBootstrapSnapshot_other `{Codec} sha (s : OS) fi s' :
  PromoteBootstrapSnapshot sha s = Ok (fi, s') →
  os_objects s' membersFilePath = os_objects s membersFilePath.
Proof using L.
  rewrite /PromoteBootstrapSnapshot. destruct (os_Get s BootstrapSnapshotKey) as [[d e]|[]]; try done.
  - destruct (validateBootstrapSnapshot d) as [rev|]; [|done].
    case_bool_decide; [done|]. case_match; [done|].
    rewrite /PutStreamIfAbsent. set (k := SnapshotKey rev).
    pose proof (os_PutIfMatch_create s k d) as Hp.
    destruct (os_PutIfMatch s k d "") as [s1|err].
    + intros [= <- <-]. destruct Hp as [_ Hp]. by rewrite Hp.
    + destruct Hp as [-> _]. destruct (os_Get s k) as [[d' e']|]; [|done].
      by destruct (negb _); [|intros [= _ <-]].
  - by intros [= _ <-].
Qed.

(** Every entry the loop added to the map carries the id of its node. *)
Definition entries_in (m : gmap string Z) (nm0 nm : NodeMap) : Prop :=
  ∀ id e, nm_nodes nm !! id = Some e → nm_nodes nm0 !! id = Some e ∨ m !! id = Some (ne_MemberID e).

Lemma entries_in_add m m' nm0 nm e :
  entries_in m nm0 nm → m ⊆ m' → m' !! ne_NodeID e = Some (ne_MemberID e) →
  entries_in m' nm0 (NodeMap_Add e nm).
Proof using.
  intros He Hsub Hm id e'. simpl. rewrite lookup_insert_Some.
  intros [[<- <-]|[_ Hl]]; [by right|]. destruct (He id e' Hl) as [?|?]; [by left|right].
  by eapply lookup_weaken.
Qed.

(** The loop's state: the members read plus fresh ones, and the map so far. *)
Definition boot_inv (mf : MembersFile) (m0 : gmap string Z) (nm0 : NodeMap)
    (acc : option (gmap string Z) * bool * NodeMap) : Prop :=
  ∃ ids m, acc.1.1 = Some m ∧ mf_Members (alloc_all mf ids) = Some m ∧ (∀ n, n ∈ ids → n ∈ nodes) ∧
    members_ok m ∧ m0 ⊆ m ∧ (acc.1.2 = false → m = m0) ∧ entries_in m nm0 acc.2 ∧
    nm_deregistered acc.2 = nm_deregistered nm0.

Definition boot_covered (nm0 : NodeMap) (nodeID : string) (nm : NodeMap) : Prop :=
  nodeID ∈ nm_deregistered nm0 ∨ nodeID ∈ dom (nm_nodes nm).

Lemma boot_existing_step env mf m0 nm0 acc r :
  mf_Members mf = Some m0 → members_ok m0 → boot_inv mf m0 nm0 acc → nr_NodeID r ∈ nodes →
  ∃ acc', boot_existing (OS := OS) env (mf_ETag mf) (mf_ClusterID mf) (Some acc) r = Some acc' ∧
    boot_inv mf m0 nm0 acc' ∧ boot_covered nm0 (nr_NodeID r) acc'.2 ∧
    dom (nm_nodes acc.2) ⊆ dom (nm_nodes acc'.2).
Proof using Hfew.
  intros Hmf Hok0 Hinv Hr. destruct acc as [[m1 w] nm].
  pose proof Hinv as (ids & m & Em & Ha & Hids & Hok & Hsub & Hw & He & Hd). simpl in *. subst m1.
  rewrite /IsDeregistered. case_bool_decide as Hdr.
  { eexists. split; [done|]. split; [done|]. split; [left; by rewrite -Hd|done]. }
  case_bool_decide as Hg.
  { eexists. split; [done|]. split; [done|]. split; [right; by apply elem_of_dom|done]. }
  assert (∀ e, dom (nm_nodes nm) ⊆ dom (nm_nodes (NodeMap_Add e nm))) as Hdom
    by (intros e; simpl; rewrite dom_insert; apply union_subseteq_r).
  assert (∀ e, ne_NodeID e = nr_NodeID r → boot_covered nm0 (nr_NodeID r) (NodeMap_Add e nm)) as Hcov
    by (intros e E; right; simpl; rewrite dom_insert E; apply elem_of_union_l; by apply elem_of_singleton).
  rewrite /FindMemberID /members /=. destruct (m !! nr_NodeID r) as [id|] eqn:Ef.
  { eexists. split; [done|]. split; [|by split; [apply Hcov|apply Hdom]].
    exists ids, m. split_and!; try done. by eapply entries_in_add. }
  destruct (alloc_all_ok ids mf m0 Hmf Hok0 Hids) as (m2 & Em2 & _ & _ & Ec & Et).
  assert (members (alloc_all mf ids) = m) as Emm by (by rewrite /members Ha).
  assert (AllocateMemberID (mkMembersFile (mf_ClusterID mf) (Some m) (mf_ETag mf))
          = AllocateMemberID (alloc_all mf ids)) as Eid by (by rewrite /AllocateMemberID Emm).
  assert (m ⊆ <[nr_NodeID r := AllocateMemberID (alloc_all mf ids)]> m) as Hs' by (by apply insert_subseteq).
  rewrite Eid. eexists. split; [done|]. split; [|by split; [apply Hcov|apply Hdom]].
  exists (ids ++ [nr_NodeID r]), (<[nr_NodeID r := AllocateMemberID (alloc_all mf ids)]> m).
  split_and!; try done.
  - rewrite /alloc_all foldl_snoc -/(alloc_all mf ids) /alloc_one Emm Ef. done.
  - intros n [?| ->%list_elem_of_singleton]%elem_of_app; [by apply Hids|done].
  - pose proof (alloc_fresh (alloc_all mf ids) (nr_NodeID r)) as Hf. rewrite Emm in Hf. by apply Hf.
  - by etrans.
  - eapply entries_in_add; [done|done|]. by rewrite /= lookup_insert_eq.
Qed.

Lemma boot_existing_fold env mf m0 nm0 regs acc :
  mf_Members mf = Some m0 → members_ok m0 → boot_inv mf m0 nm0 acc →
  (∀ r, r ∈ regs → nr_NodeID r ∈ nodes) →
  ∃ acc', foldl (boot_existing (OS := OS) env (mf_ETag mf) (mf_ClusterID mf)) (Some acc) regs = Some acc' ∧
    boot_inv mf m0 nm0 acc' ∧ dom (nm_nodes acc.2) ⊆ dom (nm_nodes acc'.2) ∧
    (∀ r, r ∈ regs → boot_covered nm0 (nr_NodeID r) acc'.2).
Proof using Hfew.
  intros Hmf Hok0. revert acc. induction regs as [|r regs IH]; intros acc Hinv Hin.
  { exists acc. split_and!; try done. by intros r ?%not_elem_of_nil. }
  destruct (boot_existing_step env mf m0 nm0 acc r Hmf Hok0 Hinv) as (acc1 & E1 & Hinv1 & Hc1 & Hd1);
    [apply Hin; by left|].
  destruct (IH acc1 Hinv1) as (acc2 & E2 & Hinv2 & Hd2 & Hc2); [intros x Hx; apply Hin; by right|].
  exists acc2. cbn [foldl]. rewrite E1. split_and!; [done|done|by etrans|].
  intros x [->|Hx]%elem_of_cons; [|by apply Hc2].
  destruct Hc1 as [?|?]; [by left|right; by apply Hd2].
Qed.

(** A new Elector's bootstrap, with members.json in place: whatever other
    Electors write meanwhile, if it succeeds the map is ready, every
    registration that was listed and not deregistered is in it, and every node
    it added has exactly the member id members.json assigns to it. *)
Theorem bootstrap_ready `{Codec} env (e e' : Elector OS) m mf regs :
  rtc members_step (el_store e) (eb_after_read env (el_store e)) →
  (∀ s, rtc members_step s (eb_after_list env s)) →
  store_ok (el_store e) m → ReadMembersFile true (el_store e) = Ok mf →
  ListNodeRegistrations (eb_list env) (eb_get env) (eb_after_read env (el_store e)) = Ok regs →
  (∀ r, r ∈ regs → nr_NodeID r ∈ nodes) →
  eb_read env = true → Elector_Bootstrap env e = (Ok tt, e') →
  rtc members_step (el_store e) (el_store e') ∧
  nm_ready (el_nodeMap e') = true ∧
  (∀ r, r ∈ regs → boot_covered (el_nodeMap e) (nr_NodeID r) (el_nodeMap e')) ∧
  ∃ m', store_ok (el_store e') m' ∧ m ⊆ m' ∧ entries_in m' (el_nodeMap e) (el_nodeMap e').
Proof using L LE LJ Hascii Hfew.
  intros Hrd Hls Hok Hr Hl Hin Herd. rewrite /Elector_Bootstrap Herd Hr. cbn [el_store with_store]. rewrite Hl.
  destruct (ReadMembersFile_stored _ mf Hr) as (Hst & _).
  pose proof Hok as (c & Hst' & Hc & Hmok). rewrite Hst in Hst'. injection Hst' as Ec Em.
  destruct (boot_existing_fold env mf m (el_nodeMap e) regs (Some m, false, el_nodeMap e) Em Hmok)
    as ([[mm w] nm] & Hf & (ids & m1 & Emm & Ha & Hids & Hok1 & Hsub & Hw & He & Hd) & Hdom & Hcov); [|done|].
  { exists [], m. split_and!; try done; [by intros n ?%not_elem_of_nil|]. intros id x Hx. by left. }
  simpl in *. subst mm.
  rewrite /bootstrapExisting Em /= Hf.
  assert (rtc members_step (el_store e) (eb_after_list env (eb_after_read env (el_store e)))) as Hs2
    by (etrans; [exact Hrd|apply Hls]).
  destruct w; cbn [el_store with_store with_nodeMap].
  - set (s2 := eb_after_list env _) in *. set (mf' := mkMembersFile _ _ _).
    destruct (alloc_all_ok ids mf m Em Hmok Hids) as (m2 & Em2 & _ & _ & Ecid & Et).
    assert (mf' = alloc_all mf ids) as Emf'.
    { destruct (alloc_all mf ids) as [c1 mm1 e1]. simpl in *. by subst. }
    pose proof (step_update s2 (el_store e) mf m ids (eb_put env) Hr Em Hids) as Hstep.
    rewrite -Emf' in Hstep. pose proof (WriteMembersFile_ok (eb_put env) s2 mf') as Hwr.
    destruct (WriteMembersFile (eb_put env) s2 mf') as [[[]|err] s3]; [|done]. simpl in *.
    intros [= <-]. cbn. split; [by eapply rtc_r|]. split; [done|]. split; [done|].
    exists m1. split; [|done]. exists c. rewrite /stored_file Hwr //= Ec json_members_roundtrip //.
    by apply members_ok_ascii.
  - intros [= <-]. cbn. split; [done|]. split; [done|]. split; [done|]. rewrite Hw // in He.
    destruct (members_steps_grow _ _ _ Hs2 Hok) as (m2 & Hok2 & Hsub2).
    exists m2. split_and!; [done|done|]. intros id en Hl'. destruct (He id en Hl') as [?|?]; [by left|right].
    by eapply lookup_weaken.
Qed.

(** C8: member ids are unique and stable.  Whatever other Electors do to object
    storage before, during and after, two registrations answered anywhere in
    the cluster get the same member id exactly when they are of the same node;
    and the assignment is then in members.json. *)
Theorem member_ids_unique now1 env1 meanwhile1 req1 e1 e1' resp1 now2 env2 meanwhile2 req2 e2 e2' resp2 m :
  (∀ k s, rtc members_step s (ae_meanwhile (env1 k) s)) →
  (∀ e, rtc members_step (el_store e) (el_store (meanwhile1 e))) →
  (∀ k s, rtc members_step s (ae_meanwhile (env2 k) s)) →
  (∀ e, rtc members_step (el_store e) (el_store (meanwhile2 e))) →
  rq_NodeId req1 ∈ nodes → rq_NodeId req2 ∈ nodes → store_ok (el_store e1) m →
  RegisterNode now1 env1 meanwhile1 req1 e1 = (Ok resp1, e1') →
  rtc members_step (el_store e1') (el_store e2) →
  RegisterNode now2 env2 meanwhile2 req2 e2 = (Ok resp2, e2') →
  (rs_MemberId resp1 = rs_MemberId resp2 ↔ rq_NodeId req1 = rq_NodeId req2) ∧
  ∃ m', store_ok (el_store e2') m' ∧ m ⊆ m' ∧
    m' !! rq_NodeId req1 = Some (rs_MemberId resp1) ∧
    m' !! rq_NodeId req2 = Some (rs_MemberId resp2).
Proof using L LE LJ Hascii Hfew.
  intros Henv1 Hmw1 Henv2 Hmw2 Hin1 Hin2 Hok Hr1 Hs Hr2.
  destruct (RegisterNode_steps now1 env1 meanwhile1 req1 e1 m Henv1 Hmw1 Hin1 Hok) as [Hs1 Hid1].
  rewrite Hr1 in Hs1, Hid1. destruct (Hid1 resp1 eq_refl) as (m1 & Hok1 & Hm1). cbn [snd] in *.
  destruct (members_steps_grow _ _ _ Hs1 Hok) as (m1' & Hok1' & Hsub1).
  assert (m1' = m1) as -> by (destruct Hok1 as (? & E & _), Hok1' as (? & E' & _); congruence).
  destruct (members_steps_grow _ _ _ Hs Hok1) as (m2 & Hok2 & Hsub2).
  destruct (RegisterNode_steps now2 env2 meanwhile2 req2 e2 m2 Henv2 Hmw2 Hin2 Hok2) as [Hs2 Hid2].
  rewrite Hr2 in Hs2, Hid2. destruct (Hid2 resp2 eq_refl) as (m3 & Hok3 & Hm3). cbn [snd] in *.
  destruct (members_steps_grow _ _ _ Hs2 Hok2) as (m3' & Hok3' & Hsub3).
  assert (m3' = m3) as -> by (destruct Hok3 as (? & E & _), Hok3' as (? & E' & _); congruence).
  assert (m3 !! rq_NodeId req1 = Some (rs_MemberId resp1)) as Hm1'
    by (eapply lookup_weaken; [exact Hm1|by etrans]).
  split.
  - split; [|intros E; rewrite E in Hm1'; congruence]. intros E. rewrite E in Hm1'.
    destruct Hok3 as (_ & _ & _ & _ & _ & Hinj). by eapply Hinj.
  - exists m3. split_and!; [done| |done|done]. by do 2 (etrans; [done|]).
Qed.
End members.

(** ** A concrete cluster *)

#[local] Existing Instance example_json.
#[local] Existing Instance example_json_laws.
#[local] Existing Instance example_codec.
#[local] Hint Extern 0 (ObjectStorage MemoryStore) =>
  exact (MemoryStore_ObjectStorage content_etag) : typeclass_instances.
#[local] Hint Extern 0 (ObjectStorageLaws MemoryStore) =>
  exact content_store_laws : typeclass_instances.
#[local] Hint Extern 0 (ETagLaws MemoryStore) => exact content_store_etags : typeclass_instances.

Definition example_nodes : gset string := {["n1"; "n2"]}.

Definition example_members_store : MemoryStore :=
  (WriteMembersFile PutOk (∅ : MemoryStore) (mkMembersFile "c" (Some {["n1" := 1]}) "")).2.

Definition example_elector_cfg : ElectorConfig := mkElectorConfig "c" 1 10 3 "n1" 0 (-1) 5.

Definition example_elector (store : MemoryStore) : Elector MemoryStore :=
  mkElector example_elector_cfg store
    (mkState HealthHealthy ElectorLeader PrimaryReplica
       (mkClusterState (mkNodeInfo "n1" 1 "pn1") NodeInfo_zero 1) 0 0 1)
    (mkNodeMap ∅ true ∅) (NewPeerManager "n1" true) None false.

Definition quiet_alloc (_ : nat) : alloc_env (OS := MemoryStore) := mkAllocEnv true id PutOk.

Definition example_register (n : string) (store : MemoryStore) :=
  RegisterNode 5 quiet_alloc id (mkRegisterNodeRequest n "c" "p") (example_elector store).

Lemma example_nodes_ascii n : n ∈ example_nodes → ascii_text n = true.
Proof. rewrite /example_nodes. intros [->%elem_of_singleton| ->%elem_of_singleton]%elem_of_union; done. Qed.

Lemma example_few : Z.of_nat (size example_nodes) < 2 ^ 64.
Proof. by vm_compute. Qed.

Lemma example_store_ok : store_ok example_nodes example_members_store {["n1" := 1]}.
Proof.
  exists "c". split; [by vm_compute|]. split; [done|]. split_and!.
  - rewrite dom_singleton_L /example_nodes. set_solver.
  - apply map_Forall_singleton. rewrite map_size_singleton. lia.
  - intros a b id [<- _]%lookup_singleton_Some [<- _]%lookup_singleton_Some. done.
Qed.

Lemma member_ids_unique_witness :
  ∃ r1 r2 e1 e2, example_register "n2" example_members_store = (Ok r1, e1) ∧
    example_register "n1" (el_store e1) = (Ok r2, e2) ∧
    (rs_MemberId r1 = rs_MemberId r2 ↔ "n2" = "n1").
Proof.
  pose (x1 := example_register "n2" example_members_store).
  pose (x2 := example_register "n1" (el_store x1.2)).
  pose (cs n := mk_pb_ClusterState (Some (mkNodeInfo "n1" 1 "pn1")) None n).
  assert (x1 = (Ok (mkRegisterNodeResponse 2 (cs 1)), x1.2)) as E1 by (apply pair_of_fst; by vm_compute).
  assert (x2 = (Ok (mkRegisterNodeResponse 1 (cs 1)), x2.2)) as E2 by (apply pair_of_fst; by vm_compute).
  exists (mkRegisterNodeResponse 2 (cs 1)), (mkRegisterNodeResponse 1 (cs 1)), x1.2, x2.2.
  split; [exact E1|]. split; [exact E2|].
  refine (proj1 (member_ids_unique example_nodes example_nodes_ascii example_few
    5 quiet_alloc id (mkRegisterNodeRequest "n2" "c" "p") (example_elector example_members_store) x1.2 _
    5 quiet_alloc id (mkRegisterNodeRequest "n1" "c" "p") (example_elector (el_store x1.2)) x2.2 _
    {["n1" := 1]} _ _ _ _ _ _ example_store_ok E1 _ E2)).
  - intros k s. exact (rtc_refl _ s).
  - intros e. exact (rtc_refl _ _).
  - intros k s. exact (rtc_refl _ s).
  - intros e. exact (rtc_refl _ _).
  - by vm_compute.
  - by vm_compute.
  - exact (rtc_refl _ _).
Defined.

Definition quiet_boot : elector_boot_env (OS := MemoryStore) :=
  mkElectorBootEnv true true (λ _, true) id id id PutOk (λ _, 7).

Definition example_reg2 : NodeRegistration := mkNodeRegistration "n2" "cn2" "pn2".

Definition example_boot_store : MemoryStore :=
  (WriteNodeRegistration true PutOk example_members_store example_reg2).2.

Lemma example_boot_store_ok : store_ok example_nodes example_boot_store {["n1" := 1]}.
Proof.
  destruct example_store_ok as (c & _ & _ & Hok). exists "c". split; [by vm_compute|]. done.
Qed.

Lemma bootstrap_ready_witness :
  ∃ e' m', Elector_Bootstrap quiet_boot (example_elector example_boot_store) = (Ok tt, e') ∧
    store_ok example_nodes (el_store e') m' ∧ m' !! "n1" = Some 1.
Proof.
  pose (x := Elector_Bootstrap quiet_boot (example_elector example_boot_store)).
  assert (x = (Ok tt, x.2)) as E by (apply pair_of_fst; by vm_compute).
  pose (mf := mkMembersFile "c" (Some {["n1" := 1]})
                (content_etag (default [] (example_boot_store !! membersFilePath)))).
  assert (ReadMembersFile true example_boot_store = Ok mf) as Hr by (by vm_compute).
  assert (ListNodeRegistrations true (λ _, true) example_boot_store = Ok [example_reg2]) as Hl by (by vm_compute).
  assert (∀ r, r ∈ [example_reg2] → nr_NodeID r ∈ example_nodes) as Hin
    by (intros r ->%list_elem_of_singleton; by vm_compute).
  destruct (bootstrap_ready example_nodes example_nodes_ascii example_few quiet_boot
    (example_elector example_boot_store) x.2 {["n1" := 1]} mf [example_reg2]
    (rtc_refl _ _) (λ s, rtc_refl _ s) example_boot_store_ok Hr Hl Hin eq_refl E)
    as (_ & _ & _ & m' & Hok & Hsub & _).
  exists x.2, m'. split; [exact E|]. split; [exact Hok|].
  exact (lookup_weaken _ m' "n1" 1 eq_refl Hsub).
Defined.
