(* ===== verification/Election.v ===== *)
(** * internal/elector: Primary election and Elector leadership

    primary_election.go and the leadership callbacks of election.go.  The
    previous Primary is polled in a loop bounded by a deadline: the polls are a
    list with the clock reading of each, and [None] means that the list ended
    before the code returned.  s3lect, which elects the Elector, is a library:
    its callbacks and its status are the inputs of [Runner]. *)

From S2P Require Import Prelude NodeState Records LocalDB Storage DataFile DataStore.
From S2P Require Import Discovery PeerClient NodeMap Elector.

#[local] Open Scope Z_scope.

Record electionCandidate := mkCandidate {
  ca_info : NodeInfo;
  ca_healthState : HealthState;
  ca_primaryState : PrimaryState;
  ca_latestRevision : Z;
  ca_startTime : Z;
}.

Inductive elect_err :=
| PreviousStillActive (nodeID : string)
| PreviousCheckCancelled
| LocalStillActive
| LocalDraining
| LocalStarting
| NoRegisteredNodes
| StaticQuorumUnreachable (total contacted : Z)
| MajorityUnreachable (majority total contacted : Z)
| NonReplicaState (nodeID : string) (p : PrimaryState)
| NoHealthyCandidates.

(** One poll of the previous Primary: the clock when the loop condition is
    tested, the reply if any, and whether the context was cancelled during the
    wait that follows. *)
Record poll := mkPoll {
  po_now : Z;
  po_reply : option pb_NodeState;
  po_cancelled : bool;
}.

Record election_env := mkElectionEnv {
  ee_start : Z;
  ee_polls : list poll;
  ee_dial : string → bool;
  ee_reply : string → option pb_NodeState;
  ee_order : list NodeEntry → list NodeEntry;
  ee_localRevision : option Z;
}.

Definition poll_interval : Z := 500 * 10 ^ 6.
Definition default_prior_timeout : Z := 5 * 10 ^ 9.

Definition node_info (e : NodeEntry) : NodeInfo :=
  mkNodeInfo (ne_NodeID e) (ne_MemberID e) (ne_PeerAdvertiseAddress e).

(** The order of [sort.Slice]: [b] is not less than [a]. *)
Definition tie_break (a b : electionCandidate) : Prop :=
  ca_latestRevision b < ca_latestRevision a ∨
  (ca_latestRevision a = ca_latestRevision b ∧ ca_startTime b ≤ ca_startTime a).

#[export] Instance tie_break_dec : RelDecision tie_break.
Proof. intros a b. rewrite /tie_break. apply _. Defined.

Section election.
  Context {OS : Type}.
  Implicit Types s : Elector OS.

(** ** The previous Primary *)

Definition checkLocalPreviousPrimary s : res elect_err unit * Elector OS :=
  match primary (el_state s) with
  | PrimaryReplica => (Ok tt, storePreviousPrimary NodeInfo_zero s)
  | PrimaryActive => (Err LocalStillActive, s)
  | PrimaryDraining => (Err LocalDraining, s)
  | PrimaryStarting => (Err LocalStarting, s)
  end.

Fixpoint poll_previous (dial : string → bool) (prev : NodeInfo) (deadline : Z) (polls : list poll) s
    : option (res elect_err unit * Elector OS) :=
  match polls with
  | [] => None
  | p :: polls' =>
      if negb (po_now p <? deadline) then Some (Ok tt, storePreviousPrimary NodeInfo_zero s)
      else
        match Peer_GetNodeState dial (λ _, po_reply p) (PeerAdvertiseAddr prev) (el_peers s) with
        | Err _ =>
            if po_cancelled p then Some (Err PreviousCheckCancelled, s)
            else poll_previous dial prev deadline polls' s
        | Ok state =>
            match PrimaryFromProto (ns_PrimaryState state) with
            | PrimaryReplica => Some (Ok tt, storePreviousPrimary NodeInfo_zero s)
            | PrimaryActive => Some (Err (PreviousStillActive (NodeID prev)), s)
            | PrimaryDraining | PrimaryStarting =>
                if po_cancelled p then Some (Err PreviousCheckCancelled, s)
                else poll_previous dial prev deadline polls' s
            end
        end
  end.

Definition prior_timeout s : Z :=
  if ec_primaryPriorTimeout (el_cfg s) =? 0 then default_prior_timeout
  else ec_primaryPriorTimeout (el_cfg s).

Definition checkPreviousPrimary (env : election_env) s : option (res elect_err unit * Elector OS) :=
  let prevPrimary := loadPreviousPrimary s in
  if bool_decide (NodeID prevPrimary = "") then Some (Ok tt, s)
  else if bool_decide (NodeID prevPrimary = ec_localNodeID (el_cfg s)) then
    Some (checkLocalPreviousPrimary s)
  else
    poll_previous (ee_dial env) prevPrimary (ee_start env + prior_timeout s) (ee_polls env) s.

(** ** Candidates *)

Definition candidatesFromNodeMap (entries : list NodeEntry) : list electionCandidate :=
  (λ e, mkCandidate (node_info e) (ne_HealthState e) (ne_PrimaryState e) (ne_LatestRevision e)
          (ne_StartTime e)) <$> entries.

Definition localCandidate (env : election_env) s (e : NodeEntry) : electionCandidate :=
  mkCandidate (node_info e) (health (el_state s)) (primary (el_state s))
    (default (ne_LatestRevision e) (ee_localRevision env)) (ec_localStartTime (el_cfg s)).

Definition contact (env : election_env) s (e : NodeEntry) : option electionCandidate :=
  if bool_decide (ne_NodeID e = ec_localNodeID (el_cfg s)) then Some (localCandidate env s e)
  else
    match Peer_GetNodeState (ee_dial env) (ee_reply env) (ne_PeerAdvertiseAddress e) (el_peers s) with
    | Err _ => None
    | Ok state =>
        Some (mkCandidate (node_info e) (HealthFromProto (ns_HealthState state))
                (PrimaryFromProto (ns_PrimaryState state)) (ns_LatestRevision state)
                (ns_StartTime state))
    end.

Definition collectNodeStates (env : election_env) s : res elect_err (list electionCandidate) :=
  let entries := NodeMap_All (ee_order env) (el_nodeMap s) in
  if bool_decide (entries = []) then Err NoRegisteredNodes
  else
    let quorum := ec_quorum (el_cfg s) in
    if quorum =? 0 then Ok (candidatesFromNodeMap entries)
    else
      let candidates := omap (contact env s) entries in
      let contacted := Z.of_nat (length candidates) in
      let totalNodes := Z.of_nat (length entries) in
      if 0 <? quorum then
        if contacted <? totalNodes then Err (StaticQuorumUnreachable totalNodes contacted)
        else Ok candidates
      else if quorum =? -1 then
        let majority := totalNodes `quot` 2 + 1 in
        if contacted <? majority then Err (MajorityUnreachable majority totalNodes contacted)
        else Ok candidates
      else Ok candidates.

Definition findActivePrimary (candidates : list electionCandidate) : option NodeInfo :=
  match filter (λ c, ca_primaryState c = PrimaryActive) candidates with
  | [c] => Some (ca_info c)
  | _ => None
  end.

Fixpoint checkNonReplicaStates (candidates : list electionCandidate) : res elect_err unit :=
  match candidates with
  | [] => Ok tt
  | c :: rest =>
      if bool_decide (ca_healthState c = HealthDegraded) then checkNonReplicaStates rest
      else if bool_decide (ca_primaryState c ≠ PrimaryReplica)
      then Err (NonReplicaState (NodeID (ca_info c)) (ca_primaryState c))
      else checkNonReplicaStates rest
  end.

Definition filterHealthy (candidates : list electionCandidate) : list electionCandidate :=
  filter (λ c, ca_healthState c = HealthHealthy) candidates.

(** ** One election *)

Definition choose (candidates : list electionCandidate) : res elect_err NodeInfo :=
  match findActivePrimary candidates with
  | Some elected => Ok elected
  | None =>
      match checkNonReplicaStates candidates with
      | Err e => Err e
      | Ok _ =>
          match merge_sort tie_break (filterHealthy candidates) with
          | [] => Err NoHealthyCandidates
          | winner :: _ => Ok (ca_info winner)
          end
      end
  end.

Definition electPrimaryOnce (env : election_env) s : option (res elect_err NodeInfo * Elector OS) :=
  match checkPreviousPrimary env s with
  | None => None
  | Some (Err e, s) => Some (Err e, s)
  | Some (Ok _, s) =>
      match collectNodeStates env s with
      | Err e => Some (Err e, s)
      | Ok states => Some (choose states, s)
      end
  end.

Definition needsPrimaryElection s : bool :=
  bool_decide (NodeID (cs_Primary (cluster (el_state s))) = "").

(** One pass of [runPrimaryElectionLoop]. *)
Definition election_round (env : election_env) s : option (Elector OS * option bool * list push_call) :=
  if negb (needsPrimaryElection s) then Some (s, None, [])
  else
    match electPrimaryOnce env s with
    | None => None
    | Some (Err _, s) => Some (s, None, [])
    | Some (Ok elected, s) =>
        Some (pushClusterState (ee_dial env) (ee_order env) elected
                (storePreviousPrimary NodeInfo_zero s))
    end.

(** ** Elector leadership *)

Record LeadershipStatus := mkLeadershipStatus {
  ls_IsLeader : bool;
  ls_LeaderID : string;
  ls_LeaderAddr : string;
}.

(** [rn_leading] says that a leader context is running. *)
Record Runner := mkRunner {
  rn_nodeID : string;
  rn_peerAddr : string;
  rn_server : Elector OS;
  rn_leading : bool;
}.

(** The bootstrap, the election loop and the health checks start in the
    background; [true] says that they do. *)
Definition onAcquireLeadership (r : Runner) : res state_err unit * Runner * bool :=
  let s := rn_server r in
  if bool_decide (elector (el_state s) = ElectorLeader) then (Ok tt, r, false)
  else
    match SetElector ElectorLeader (el_state s) with
    | (Err e, _) => (Err e, r, false)
    | (Ok _, st) =>
        let st := SetClusterElector (mkNodeInfo (rn_nodeID r) 0 (rn_peerAddr r)) st in
        (Ok tt, mkRunner (rn_nodeID r) (rn_peerAddr r) (with_state st s) true, true)
    end.

Definition onLoseLeadership (r : Runner) : Runner :=
  let s := rn_server r in
  let s := with_nodeMap (NodeMap_Reset (el_nodeMap s)) s in
  let s := with_state (SetClusterPrimary NodeInfo_zero (el_state s)) s in
  let s := storePreviousPrimary NodeInfo_zero s in
  let s := with_state (SetElector ElectorFollower (el_state s)).2 s in
  mkRunner (rn_nodeID r) (rn_peerAddr r) s false.

Definition updateClusterElector (status : option LeadershipStatus) (r : Runner) : Runner :=
  match status with
  | None => r
  | Some st =>
      mkRunner (rn_nodeID r) (rn_peerAddr r)
        (with_state (SetClusterElector (mkNodeInfo (ls_LeaderID st) 0 (ls_LeaderAddr st))
                       (el_state (rn_server r))) (rn_server r))
        (rn_leading r)
  end.

Definition WaitForFirstElection (status : LeadershipStatus) (r : Runner)
    : res state_err LeadershipStatus * Runner * bool :=
  let r := updateClusterElector (Some status) r in
  if ls_IsLeader status && negb (bool_decide (elector (el_state (rn_server r)) = ElectorLeader)) then
    match onAcquireLeadership r with
    | (Err e, r, started) => (Err e, r, started)
    | (Ok _, r, started) => (Ok status, r, started)
    end
  else (Ok status, r, false).
End election.

Arguments Runner : clear implicits.
