(* ===== verification/ElectionTheorems.v ===== *)
(** * Theorems on Primary election *)

From S2P Require Import Prelude NodeState Records LocalDB Storage DataFile ExampleCodec DataStore.
From S2P Require Import Discovery PeerClient NodeServer NodeMap Elector Election Quorum.

#[local] Open Scope Z_scope.

(** ** The choice among the candidates *)

#[export] Instance tie_break_total : Total tie_break.
Proof. intros a b. rewrite /tie_break. lia. Qed.

#[export] Instance tie_break_trans : Transitive tie_break.
Proof. intros a b c. rewrite /tie_break. lia. Qed.

Lemma merge_sort_head {A} (R : relation A) `{!RelDecision R, !Total R, !Transitive R} l x l' :
  merge_sort R l = x :: l' → x ∈ l ∧ ∀ y, y ∈ l → y = x ∨ R x y.
Proof.
  intros E. pose proof (merge_sort_Permutation R l) as Hp. rewrite E in Hp.
  pose proof (StronglySorted_merge_sort R l) as Hs. rewrite E in Hs.
  apply StronglySorted_inv in Hs as [_ Hall]. rewrite Forall_forall in Hall.
  split; [rewrite -Hp; by left|]. intros y. rewrite -Hp. intros [->|Hy]%elem_of_cons; [by left|right; by apply Hall].
Qed.

Lemma checkNonReplicaStates_ok cands :
  checkNonReplicaStates cands = Ok tt ↔
  ∀ c, c ∈ cands → ca_healthState c ≠ HealthDegraded → ca_primaryState c = PrimaryReplica.
Proof.
  induction cands as [|c cands IH]; simpl.
  { split; [by intros _ c ?%not_elem_of_nil|done]. }
  case_bool_decide as Hd; [|case_bool_decide as Hr].
  - rewrite IH. split; intros H x; [intros [->|Hx]%elem_of_cons; [done|by apply H]|intros Hx; apply H; by right].
  - split; [done|]. intros H. destruct Hr. apply H; [by left|done].
  - rewrite IH. split; intros H x.
    + intros [->|Hx]%elem_of_cons; [done|by apply H].
    + intros Hx. apply H. by right.
Qed.

(** The winner is the preserved Active Primary, or the best Healthy candidate
    among nodes that have all stepped down. *)
Definition preserved (cands : list electionCandidate) (w : electionCandidate) : Prop :=
  filter (λ c, ca_primaryState c = PrimaryActive) cands = [w].

Definition best (cands : list electionCandidate) (w : electionCandidate) : Prop :=
  (∀ c, c ∈ cands → ca_healthState c ≠ HealthDegraded → ca_primaryState c = PrimaryReplica) ∧
  w ∈ cands ∧ ca_healthState w = HealthHealthy ∧
  (∀ c, c ∈ cands → ca_healthState c = HealthHealthy →
     ca_latestRevision c ≤ ca_latestRevision w ∧
     (ca_latestRevision c = ca_latestRevision w → ca_startTime c ≤ ca_startTime w)).

Lemma choose_winner cands w :
  choose cands = Ok w → ∃ c, ca_info c = w ∧ c ∈ cands ∧ (preserved cands c ∨ best cands c).
Proof.
  rewrite /choose /findActivePrimary.
  destruct (filter (λ c, ca_primaryState c = PrimaryActive) cands) as [|c [|c' l]] eqn:Ef.
  2: { intros [= <-]. exists c. split_and!; [done| |by left].
       assert (c ∈ [c]) as Hc by (by left). rewrite -Ef in Hc. by apply list_elem_of_filter in Hc as [_ ?]. }
  all: destruct (checkNonReplicaStates cands) as [[]|] eqn:Ec; [|done];
    destruct (merge_sort tie_break (filterHealthy cands)) as [|x xs] eqn:Es; [done|]; intros [= <-];
    destruct (merge_sort_head tie_break _ _ _ Es) as [[Hh Hx]%list_elem_of_filter Hmax];
    exists x; (split_and!; [done|done|]); right; (split_and!; [by apply checkNonReplicaStates_ok|done|done|]);
    intros c0 Hc0 Hh0; destruct (Hmax c0) as [->|Ht]; [by apply list_elem_of_filter|lia|rewrite /tie_break in Ht; lia].
Qed.

Lemma choose_succeeds cands :
  is_ok (choose cands) = true ↔
  (∃ c, preserved cands c) ∨
  ((∀ c, c ∈ cands → ca_healthState c ≠ HealthDegraded → ca_primaryState c = PrimaryReplica) ∧
   ∃ c, c ∈ cands ∧ ca_healthState c = HealthHealthy).
Proof.
  split.
  - destruct (choose cands) as [w|] eqn:E; [|done]. intros _.
    apply choose_winner in E as (c & _ & Hin & [?|(H1 & H2 & H3 & _)]); [left|right]; eauto.
  - rewrite /preserved. intros H. rewrite /choose /findActivePrimary.
    destruct H as [[c ->]|[Hrep (c & Hin & Hh)]]; [done|].
    case_match eqn:Efind; [done|]. apply checkNonReplicaStates_ok in Hrep. rewrite Hrep.
    destruct (merge_sort tie_break (filterHealthy cands)) as [|x xs] eqn:Es; [|done].
    pose proof (merge_sort_Permutation tie_break (filterHealthy cands)) as Hp. rewrite Es in Hp.
    assert (c ∈ filterHealthy cands) as Hc by (by apply list_elem_of_filter).
    rewrite -Hp in Hc. by apply not_elem_of_nil in Hc.
Qed.

(** ** The previous Primary *)

Section election.
  Context {OS : Type}.
  Implicit Types s : Elector OS.

(** The clock of the polls: the first reading is after the deadline was set, and
    every retry waits for [poll_interval]. *)
Fixpoint spaced (t : Z) (polls : list poll) : Prop :=
  match polls with
  | [] => True
  | p :: polls' => t ≤ po_now p ∧ spaced (po_now p + poll_interval) polls'
  end.

Lemma poll_previous_returns dial prev deadline polls s t :
  spaced t polls → deadline - t < poll_interval * (Z.of_nat (length polls) - 1) →
  (0 < length polls)%nat → is_Some (poll_previous dial prev deadline polls s).
Proof.
  revert t. induction polls as [|p polls IH]; intros t Hsp Hlen Hne; [simpl in Hne; lia|].
  destruct Hsp as [Ht Hsp]. cbn [poll_previous]. destruct (Z.ltb_spec (po_now p) deadline); simpl; [|done].
  assert (is_Some (poll_previous dial prev deadline polls s)) as Hrec.
  { rewrite /poll_interval in Hlen Hsp. destruct polls as [|p' polls']; [simpl in Hlen; lia|].
    apply (IH (po_now p + poll_interval)); [done| |simpl; lia].
    rewrite /poll_interval. simpl length in *. lia. }
  repeat case_match; done.
Qed.

(** While the previous Primary can be reached it was never Active, and the
    check only ends well when it answered Replica or the deadline passed. *)
Definition answers (dial : string → bool) (prev : NodeInfo) s (p : poll) : option PrimaryState :=
  match Peer_GetNodeState dial (λ _, po_reply p) (PeerAdvertiseAddr prev) (el_peers s) with
  | Ok state => Some (PrimaryFromProto (ns_PrimaryState state))
  | Err _ => None
  end.

Lemma poll_previous_ok dial prev deadline polls s s' :
  poll_previous dial prev deadline polls s = Some (Ok tt, s') →
  s' = storePreviousPrimary NodeInfo_zero s ∧
  ∃ before p after, polls = before ++ p :: after ∧
    Forall (λ q, po_now q < deadline ∧ answers dial prev s q ≠ Some PrimaryActive ∧
                 answers dial prev s q ≠ Some PrimaryReplica) before ∧
    (deadline ≤ po_now p ∨ answers dial prev s p = Some PrimaryReplica).
Proof.
  induction polls as [|p polls IH]; [done|]. cbn [poll_previous].
  destruct (Z.ltb_spec (po_now p) deadline) as [Hlt|Hge]; simpl.
  2: { intros [= <-]. split; [done|]. exists [], p, polls. split_and!; [done|constructor|by left]. }
  assert (poll_previous dial prev deadline polls s = Some (Ok tt, s') →
    answers dial prev s p ≠ Some PrimaryActive → answers dial prev s p ≠ Some PrimaryReplica →
    s' = storePreviousPrimary NodeInfo_zero s ∧
    ∃ before q after, p :: polls = before ++ q :: after ∧
      Forall (λ q, po_now q < deadline ∧ answers dial prev s q ≠ Some PrimaryActive ∧
                   answers dial prev s q ≠ Some PrimaryReplica) before ∧
      (deadline ≤ po_now q ∨ answers dial prev s q = Some PrimaryReplica)) as Hrec.
  { intros Hp Ha Hr. destruct (IH Hp) as (-> & before & q & after & -> & Hb & Hq). split; [done|].
    exists (p :: before), q, after. split_and!; [done|by constructor|done]. }
  assert (answers dial prev s p = match Peer_GetNodeState dial (λ _, po_reply p) (PeerAdvertiseAddr prev) (el_peers s) with
    | Ok state => Some (PrimaryFromProto (ns_PrimaryState state)) | Err _ => None end) as Ea by done.
  destruct (Peer_GetNodeState dial _ _ _) as [state|e].
  - destruct (PrimaryFromProto (ns_PrimaryState state)) eqn:Eps.
    + intros [= <-]. split; [done|]. exists [], p, polls. split_and!; [done|constructor|right; done].
    + destruct (po_cancelled p); [done|]. intros Hp. apply Hrec; [done|by rewrite Ea|by rewrite Ea].
    + done.
    + destruct (po_cancelled p); [done|]. intros Hp. apply Hrec; [done|by rewrite Ea|by rewrite Ea].
  - destruct (po_cancelled p); [done|]. intros Hp. apply Hrec; [done|by rewrite Ea|by rewrite Ea].
Qed.

(** C27: an election round always ends: however the previous Primary behaves, the
    round returns after at most one poll per half second of the configured
    grace period, plus two. *)
Theorem electPrimaryOnce_terminates env s :
  spaced (ee_start env) (ee_polls env) →
  prior_timeout s < poll_interval * (Z.of_nat (length (ee_polls env)) - 1) →
  (0 < length (ee_polls env))%nat →
  ∃ r s', electPrimaryOnce env s = Some (r, s').
Proof.
  intros Hsp Hlen Hne. rewrite /electPrimaryOnce /checkPreviousPrimary.
  assert (is_Some (poll_previous (ee_dial env) (loadPreviousPrimary s)
            (ee_start env + prior_timeout s) (ee_polls env) s)) as [[r s1] Hp].
  { apply (poll_previous_returns _ _ _ _ _ (ee_start env)); [done|lia|done]. }
  rewrite Hp. case_bool_decide; [|case_bool_decide]; repeat case_match; by eauto.
Qed.

(** ** Who can win *)

(** The states the election is decided on. *)
Definition collected (env : election_env) s (cands : list electionCandidate) : Prop :=
  collectNodeStates env s = Ok cands.

(** What the check of the previous Primary leaves unchanged. *)
Lemma checkPreviousPrimary_same env s r s' :
  checkPreviousPrimary env s = Some (r, s') →
  el_cfg s' = el_cfg s ∧ el_state s' = el_state s ∧ el_nodeMap s' = el_nodeMap s ∧
  el_peers s' = el_peers s ∧ el_store s' = el_store s.
Proof.
  rewrite /checkPreviousPrimary /checkLocalPreviousPrimary.
  case_bool_decide; [by intros [= <- <-]|].
  case_bool_decide; [destruct (primary (el_state s)); by intros [= <- <-]|].
  induction (ee_polls env) as [|p polls IH]; [done|]. cbn [poll_previous].
  repeat case_match; try done; by intros [= <- <-].
Qed.

Lemma collectNodeStates_same env s s' :
  el_cfg s' = el_cfg s → el_state s' = el_state s → el_nodeMap s' = el_nodeMap s →
  el_peers s' = el_peers s → collectNodeStates env s' = collectNodeStates env s.
Proof.
  intros E1 E2 E3 E4. rewrite /collectNodeStates E1 E3.
  assert (∀ l, omap (contact env s') l = omap (contact env s) l) as ->; [|done].
  intros l. apply list_omap_ext, Forall_Forall2_diag, Forall_forall. intros e _.
  by rewrite /contact /localCandidate E1 E2 E4.
Qed.

Lemma electPrimaryOnce_elected env s w s' :
  electPrimaryOnce env s = Some (Ok w, s') →
  (∃ s1, checkPreviousPrimary env s = Some (Ok tt, s1)) ∧
  ∃ cands, collected env s cands ∧ choose cands = Ok w.
Proof.
  rewrite /electPrimaryOnce /collected.
  destruct (checkPreviousPrimary env s) as [[[[]|e] s1]|] eqn:Ec; try done.
  destruct (checkPreviousPrimary_same env s _ s1 Ec) as (E1 & E2 & E3 & E4 & _).
  rewrite (collectNodeStates_same env s s1 E1 E2 E3 E4).
  destruct (collectNodeStates env s) as [cands|] eqn:Es; [|done].
  intros [= Hw <-]. split; [by eauto|]. by exists cands.
Qed.

End election.
