(* ===== verification/ElectionSafety.v ===== *)
(** * An election keeps what a quorum has committed

    Elector, Node service, record store and quorum arithmetic together: when a
    Primary that committed a record through Receipts disappears, the Primary
    elected in its place has the record. *)

From S2P Require Import Prelude NodeState Records LocalDB History Storage DataFile ExampleCodec.
From S2P Require Import DataStore Discovery PeerClient NodeServer NodeMap Elector Election Quorum.
From S2P Require Import Examples ElectionTheorems LocalDBTheorems FollowerTheorems.

#[local] Open Scope Z_scope.

(** ** Quorums intersect *)

Lemma quorum_intersect (A B U : gset string) :
  A ⊆ U → B ⊆ U → (size U < size A + size B)%nat → ∃ n, n ∈ A ∧ n ∈ B.
Proof.
  intros HA HB Hsz. destruct (decide (A ## B)) as [Hd|Hd].
  - exfalso. assert (A ∪ B ⊆ U) as HU by set_solver. apply subseteq_size in HU.
    rewrite size_union // in HU. lia.
  - assert (A ∩ B ≢ ∅) as Hne by set_solver.
    apply set_choose in Hne as [n Hn]. exists n. set_solver.
Qed.

Lemma requiredReceipts_majority quorum n :
  0 ≤ n → quorum < 0 → n < 2 * (requiredReceipts quorum n + 1).
Proof.
  intros Hn Hq. rewrite /requiredReceipts.
  pose proof (Z.quot_rem' n 2). pose proof (Z.rem_bound_pos n 2 Hn ltac:(lia)).
  destruct (Z.eqb_spec quorum 0); [lia|]. destruct (Z.ltb_spec 0 quorum); [lia|].
  destruct (Z.leb_spec n 1); lia.
Qed.

(** ** Prefixes of one log *)

Lemma contiguous_prefix t log : t `prefix_of` log → contiguous log → contiguous t.
Proof.
  intros [k ->]. rewrite /contiguous fmap_app length_app seq_app fmap_app.
  intros E. apply app_inj_1 in E as [E _]; [done|]. by rewrite !length_fmap length_seq.
Qed.

Lemma contiguous_lookup t i r : contiguous t → t !! i = Some r → Revision r = Z.of_nat i + 1.
Proof.
  intros Hc Hi. assert ((Revision <$> t) !! i = Some (Revision r)) as Hr by (by rewrite list_lookup_fmap Hi).
  rewrite Hc list_lookup_fmap in Hr. apply lookup_lt_Some in Hi.
  rewrite lookup_seq_lt // in Hr. injection Hr as <-. lia.
Qed.

Lemma contiguous_latest t : contiguous t → latest_revision_for_table t = Z.of_nat (length t).
Proof.
  intros Hc. rewrite /latest_revision_for_table last_lookup.
  destruct (t !! pred (length t)) as [r|] eqn:E; simpl.
  - rewrite (contiguous_lookup _ _ _ Hc E). apply lookup_lt_Some in E. lia.
  - apply lookup_ge_None in E. lia.
Qed.

(** A table that holds the rows of a prefix of the log, each as the Primary
    wrote it or as a Replica stores it. *)
Definition copies (log t : table) : Prop := ∃ p, p `prefix_of` log ∧ Forall2 replica_row p t.

Definition has_copy (r : record) (t : table) : Prop := Exists (replica_row r) t.

#[export] Instance replica_row_dec r x : Decision (replica_row r x).
Proof. rewrite /replica_row. apply _. Defined.
#[export] Instance has_copy_dec r t : Decision (has_copy r t).
Proof. rewrite /has_copy. apply _. Defined.

Lemma replica_row_revision r x : replica_row r x → Revision x = Revision r.
Proof. by intros (? & _)%replica_row_links. Qed.

Lemma replica_row_refl r : replica_row r r.
Proof. apply recordsEqual_refl. Qed.

Lemma has_copy_elem r t : r ∈ t → has_copy r t.
Proof. intros Hr. apply Exists_exists. exists r. split; [done|apply replica_row_refl]. Qed.

Lemma copies_prefix log t : t `prefix_of` log → copies log t.
Proof. intros Hp. exists t. split; [done|]. apply Forall_Forall2_diag, Forall_true, replica_row_refl. Qed.

Lemma copies_contiguous log t : contiguous log → copies log t → contiguous t.
Proof.
  intros Hc (p & Hp & HF). apply (contiguous_prefix _ _ Hp) in Hc. rewrite /contiguous in Hc |- *.
  rewrite -(Forall2_length _ _ _ HF) -Hc. symmetry. clear Hc Hp.
  induction HF as [|r x p t Hrx _ IH]; [done|]. rewrite !fmap_cons (replica_row_revision _ _ Hrx). by f_equal.
Qed.

(** A copy holds exactly the records up to its latest revision. *)
Lemma copies_has log d r :
  contiguous log → copies log (rows d) → r ∈ log →
  has_copy r (rows d) ↔ Revision r ≤ LatestRevision d.
Proof.
  intros Hc Hcop [i Hi]%list_elem_of_lookup.
  pose proof (copies_contiguous _ _ Hc Hcop) as Ht. rewrite /LatestRevision contiguous_latest //.
  pose proof (contiguous_lookup _ _ _ Hc Hi) as Hri. destruct Hcop as (p & Hp & HF). split.
  - intros (x & [j Hj]%list_elem_of_lookup & Hx)%Exists_exists.
    apply replica_row_revision in Hx. rewrite (contiguous_lookup _ _ _ Ht Hj) in Hx.
    apply lookup_lt_Some in Hj. lia.
  - intros Hle. assert (i < length p)%nat as Hlt by (rewrite (Forall2_length _ _ _ HF); lia).
    apply lookup_lt_is_Some in Hlt as [r' Hr'].
    assert (r' = r) as -> by (pose proof (prefix_lookup_Some _ _ _ _ Hr' Hp); congruence).
    destruct (Forall2_lookup_l _ _ _ _ _ HF Hr') as (x & Hx & Hrx).
    apply Exists_exists. exists x. split; [by eapply list_elem_of_lookup_2|done].
Qed.

(** ** What the election sees *)

Section safety.
  Context {OS : Type}.
  Context (env : election_env) (s : Elector OS) (node_db : string → database).
  Context (Horder : ∀ l, ee_order env l ≡ₚ l) (Hwf : nodemap_wf (el_nodeMap s)).

(** A reply from a node's address is what its Node service answers from its
    database; the Elector reads its own database. *)
Definition honest : Prop :=
  (∀ id e r, nm_nodes (el_nodeMap s) !! id = Some e → ee_reply env (ne_PeerAdvertiseAddress e) = Some r →
     ∃ srv, GetNodeState (Some (LatestRevision (node_db id))) srv = Ok r) ∧
  ee_localRevision env = Some (LatestRevision (node_db (ec_localNodeID (el_cfg s)))).

Lemma contact_revision e c :
  honest → nm_nodes (el_nodeMap s) !! ne_NodeID e = Some e → contact env s e = Some c →
  ca_info c = node_info e ∧ ca_latestRevision c = LatestRevision (node_db (ne_NodeID e)).
Proof using.
  intros [Hr Hl] He. rewrite /contact. case_bool_decide as Hloc.
  - intros [= <-]. rewrite /localCandidate /= Hl /= Hloc. done.
  - rewrite /Peer_GetNodeState /peer_call. destruct (dialNode _ _ _) as [conn|] eqn:Ed; [|done].
    assert (conn = ne_PeerAdvertiseAddress e) as ->.
    { rewrite /dialNode in Ed. by repeat case_match; simplify_eq. }
    destruct (ee_reply env (ne_PeerAdvertiseAddress e)) as [r|] eqn:Er; [|done]. intros [= <-].
    destruct (Hr _ e r He Er) as [srv Hsrv]. simpl in Hsrv. injection Hsrv as <-. done.
Qed.

Definition candidate_ids (cands : list electionCandidate) : list string :=
  (λ c, NodeID (ca_info c)) <$> cands.

Lemma contact_id e c : contact env s e = Some c → NodeID (ca_info c) = ne_NodeID e.
Proof using. rewrite /contact /localCandidate. repeat case_match; intros ?; simplify_eq/=; done. Qed.

Lemma omap_contact_ids l :
  candidate_ids (omap (contact env s) l) `sublist_of` (ne_NodeID <$> l).
Proof using.
  induction l as [|e l IH]; [done|]. simpl. destruct (contact env s e) as [c|] eqn:E; simpl.
  - rewrite (contact_id _ _ E). by apply sublist_skip.
  - by apply sublist_cons.
Qed.

(** With Receipts enabled, the contacted nodes meet every commit quorum. *)
Lemma collected_meets_quorum cands (H : gset string) :
  ec_quorum (el_cfg s) ≠ 0 → -1 ≤ ec_quorum (el_cfg s) → collected env s cands →
  H ⊆ dom (nm_nodes (el_nodeMap s)) → (0 < size H)%nat →
  requiredReceipts (ec_quorum (el_cfg s)) (NodeMap_Count (el_nodeMap s)) < Z.of_nat (size H) →
  ∃ n c, n ∈ H ∧ c ∈ cands ∧ NodeID (ca_info c) = n.
Proof using Horder Hwf.
  intros Hq0 Hq Hcol HH Hne Hreq. rewrite /collected /collectNodeStates in Hcol.
  case_bool_decide; [done|]. destruct (Z.eqb_spec (ec_quorum (el_cfg s)) 0) as [|_]; [done|].
  set (entries := NodeMap_All (ee_order env) (el_nodeMap s)) in *.
  set (cs := omap (contact env s) entries) in *.
  assert (NoDup (candidate_ids cs)) as Hnd.
  { eapply sublist_NoDup; [apply NodeMap_All_NoDup; [exact Horder|exact Hwf]|apply omap_contact_ids]. }
  assert (list_to_set (candidate_ids cs) ⊆ dom (nm_nodes (el_nodeMap s))) as Hsub.
  { intros n. rewrite elem_of_list_to_set. intros Hn.
    apply (sublist_subseteq _ _ (omap_contact_ids entries)) in Hn.
    apply list_elem_of_fmap in Hn as (e & -> & He).
    apply (NodeMap_All_elem _ _ _ Horder Hwf) in He. by eapply elem_of_dom_2. }
  assert (length entries = size (nm_nodes (el_nodeMap s))) as Hlen by (by apply NodeMap_All_length).
  assert (size (list_to_set (candidate_ids cs) : gset string) = length cs) as Hsz
    by (rewrite size_list_to_set // length_fmap //).
  assert (cands = cs ∧ (size (nm_nodes (el_nodeMap s)) < size H + length cs)%nat) as [-> Hover].
  { rewrite /NodeMap_Count in Hreq. destruct (Z.ltb_spec 0 (ec_quorum (el_cfg s))).
    - case_match eqn:Ec; [done|]. bool_to_prop. simplify_eq. split; [done|]. lia.
    - rewrite (_ : ec_quorum (el_cfg s) = -1) in Hreq Hcol; [lia|]. simpl in Hcol.
      case_match eqn:Ec; [done|]. bool_to_prop. simplify_eq. split; [done|].
      rewrite -Hlen in Hreq |- *.
      pose proof (requiredReceipts_majority (-1) (Z.of_nat (length entries)) ltac:(lia) ltac:(lia)).
      pose proof (Z.quot_rem' (Z.of_nat (length entries)) 2).
      pose proof (Z.rem_bound_pos (Z.of_nat (length entries)) 2 ltac:(lia) ltac:(lia)). lia. }
  destruct (quorum_intersect H (list_to_set (candidate_ids cs)) (dom (nm_nodes (el_nodeMap s))) HH Hsub)
    as (n & HnH & Hn); [rewrite size_dom Hsz; lia|].
  apply elem_of_list_to_set, list_elem_of_fmap in Hn as (c & -> & Hc). by exists (NodeID (ca_info c)), c.
Qed.

Lemma collected_revision cands c :
  honest → ec_quorum (el_cfg s) ≠ 0 → collected env s cands → c ∈ cands →
  ca_latestRevision c = LatestRevision (node_db (NodeID (ca_info c))) ∧
  NodeID (ca_info c) ∈ dom (nm_nodes (el_nodeMap s)).
Proof using Horder Hwf.
  intros Hh Hq Hcol Hc.
  assert (c ∈ omap (contact env s) (NodeMap_All (ee_order env) (el_nodeMap s))) as Hin.
  { rewrite /collected /collectNodeStates in Hcol. case_bool_decide; [done|].
    destruct (Z.eqb_spec (ec_quorum (el_cfg s)) 0); [done|]. by repeat case_match; simplify_eq. }
  apply list_elem_of_omap in Hin as (e & He & Hce).
  apply (NodeMap_All_elem _ _ _ Horder Hwf) in He.
  destruct (contact_revision e c Hh He Hce) as [-> ->]. split; [done|]. by eapply elem_of_dom_2.
Qed.

(** The elected node has a copy of every record a quorum holds. *)
Lemma election_keeps_quorum log r writer acked healthy w s' :
  honest → contiguous log → r ∈ log →
  (∀ n, n ∈ dom (nm_nodes (el_nodeMap s)) → copies log (rows (node_db n))) →
  -1 ≤ ec_quorum (el_cfg s) →
  useQuorum (selectTxnStrategy (ec_quorum (el_cfg s)) (NodeMap_Count (el_nodeMap s)) healthy) = true →
  required (selectTxnStrategy (ec_quorum (el_cfg s)) (NodeMap_Count (el_nodeMap s)) healthy)
    ≤ Z.of_nat (size acked) →
  writer ∉ acked → {[writer]} ∪ acked ⊆ dom (nm_nodes (el_nodeMap s)) →
  (∀ n, n ∈ {[writer]} ∪ acked → has_copy r (rows (node_db n))) →
  (∀ cands c, collected env s cands → c ∈ cands → NodeID (ca_info c) ∈ {[writer]} ∪ acked →
     ca_healthState c = HealthHealthy) →
  (∀ cands c, collected env s cands → ¬ preserved cands c) →
  electPrimaryOnce env s = Some (Ok w, s') →
  has_copy r (rows (node_db (NodeID w))).
Proof using Horder Hwf.
  intros Hh Hlog Hr Hpre Hq Huse Hreq Hwr Hdom Hhold Hhealthy Hnp He.
  destruct (electPrimaryOnce_elected env s w s' He) as (_ & cands & Hcol & Hch).
  destruct (choose_winner cands w Hch) as (c & <- & Hc & [Hp|(_ & _ & _ & Hmax)]); [by destruct (Hnp _ _ Hcol Hp)|].
  rewrite /selectTxnStrategy in Huse Hreq. set (req := requiredReceipts _ _) in *.
  destruct ((req <=? 0) || (healthy <? req)) eqn:Er; [done|]. simpl in *. bool_to_prop.
  assert (ec_quorum (el_cfg s) ≠ 0) as Hq0.
  { intros E. rewrite /req /requiredReceipts E /= in H. lia. }
  destruct (collected_meets_quorum cands ({[writer]} ∪ acked) Hq0 Hq Hcol Hdom) as (n & h & Hn & Hhin & Hid).
  { rewrite size_union; [set_solver|]. rewrite size_singleton. lia. }
  { rewrite size_union; [set_solver|]. rewrite size_singleton. fold req. lia. }
  destruct (collected_revision cands h Hh Hq0 Hcol Hhin) as [Ehr Hhd].
  destruct (collected_revision cands c Hh Hq0 Hcol Hc) as [Ecr Hcd].
  assert (ca_latestRevision h ≤ ca_latestRevision c) as Hle.
  { apply Hmax; [done|]. apply (Hhealthy cands h Hcol Hhin). by rewrite Hid. }
  rewrite Ehr Ecr Hid in Hle, Hhd.
  apply (copies_has log); [done|by apply Hpre|done|]. etrans; [|exact Hle].
  apply (copies_has log); [done|by apply Hpre|done|by apply Hhold].
Qed.


(** Whoever is elected is registered. *)
Lemma elected_registered w s' :
  electPrimaryOnce env s = Some (Ok w, s') → NodeID w ∈ dom (nm_nodes (el_nodeMap s)).
Proof using Horder Hwf.
  intros He. destruct (electPrimaryOnce_elected env s w s' He) as (_ & cands & Hcol & Hch).
  destruct (choose_winner cands w Hch) as (c & <- & Hc & _).
  assert (∃ e, e ∈ NodeMap_All (ee_order env) (el_nodeMap s) ∧ NodeID (ca_info c) = ne_NodeID e) as (e & Hin & ->).
  { rewrite /collected /collectNodeStates in Hcol. case_bool_decide; [done|]. case_match.
    - simplify_eq. apply list_elem_of_fmap in Hc as (e & -> & He'). by exists e.
    - assert (c ∈ omap (contact env s) (NodeMap_All (ee_order env) (el_nodeMap s))) as Hin
        by (by repeat case_match; simplify_eq).
      apply list_elem_of_omap in Hin as (e & He' & Hce). exists e. split; [done|]. by apply contact_id. }
  apply (NodeMap_All_elem _ _ _ Horder Hwf) in Hin. by eapply elem_of_dom_2.
Qed.
End safety.

(** ** A concrete failover

    Three nodes; the Elector runs on n2; n1, the Primary, is gone. *)

Definition sample_entry (n : string) (h : HealthState) (p : PrimaryState) (rev : Z) : NodeEntry :=
  mkNodeEntry n 1 ("c" ++ n)%string ("p" ++ n)%string 0 None h p rev 0.

Definition sample_nodes : gmap string NodeEntry :=
  list_to_map [("n1", sample_entry "n1" HealthDegraded PrimaryActive 4);
               ("n2", sample_entry "n2" HealthHealthy PrimaryReplica 3);
               ("n3", sample_entry "n3" HealthHealthy PrimaryReplica 3)].

Definition sample_elector (quorum : Z) (prev : option NodeInfo) : Elector unit :=
  mkElector (mkElectorConfig "c" (10 ^ 9) (60 * 10 ^ 9) 3 "n2" 0 quorum (2 * 10 ^ 9)) tt
    (mkState HealthHealthy ElectorLeader PrimaryReplica
       (mkClusterState (mkNodeInfo "n2" 2 "pn2") NodeInfo_zero 3) 3 0 2)
    (mkNodeMap sample_nodes true ∅) (NewPeerManager "n2" true) prev false.

(** n1 wrote four rows; n3 has a copy of them all, n2 of the first three. *)
Definition sample_db (n : string) : database :=
  if decide (n = "n1") then example_db
  else let t := stored_row 99 <$> rows example_db in
       mkDB (if decide (n = "n2") then take 3 t else t) [].

Definition sample_server (n : string) (h : HealthState) : NodeServer :=
  NewNodeServer n 0 (mkState h ElectorFollower PrimaryReplica
    (mkClusterState NodeInfo_zero NodeInfo_zero 3) 3 0 3) (NewPeerManager n true).

Definition sample_reply (h3 : HealthState) (addr : string) : option pb_NodeState :=
  if decide (addr = "pn3") then
    match GetNodeState (Some (LatestRevision (sample_db "n3"))) (sample_server "n3" h3) with
    | Ok r => Some r
    | Err _ => None
    end
  else None.

Definition sample_env (h3 : HealthState) (polls : list poll) : election_env :=
  mkElectionEnv 0 polls (λ _, true) (sample_reply h3) id (Some (LatestRevision (sample_db "n2"))).

Definition sample_row : record := default record_zero (rows example_db !! 3%nat).

Lemma sample_wf q prev : nodemap_wf (el_nodeMap (sample_elector q prev)).
Proof.
  apply (bool_decide_unpack (map_Forall (λ id e, ne_NodeID e = id) sample_nodes)). by vm_compute.
Qed.

Lemma sample_honest q prev h3 : honest (sample_env h3 []) (sample_elector q prev) sample_db.
Proof.
  split; [|done]. intros i e r He Hr. rewrite /= /sample_reply in Hr. case_decide as Ha; [|done].
  cbn in He. repeat (apply lookup_insert_Some in He as [[<- <-]|[_ He]]; [simpl in Ha|]); try done.
  exists (sample_server "n3" h3). simpl in Hr |- *. by injection Hr as <-.
Qed.

Definition sample_candidates : list electionCandidate :=
  match collectNodeStates (sample_env HealthHealthy []) (sample_elector (-1) None) with
  | Ok cands => cands
  | Err _ => []
  end.

Lemma sample_copies n : copies (rows example_db) (rows (sample_db n)).
Proof.
  assert (Forall2 replica_row (rows example_db) (stored_row 99 <$> rows example_db)) as HF.
  { apply Forall2_fmap_r, Forall_Forall2_diag, Forall_true. intros r. apply stored_replica_row. }
  rewrite /sample_db. case_decide; [by apply copies_prefix|]. case_decide.
  - exists (take 3 (rows example_db)). split; [apply prefix_take|]. by apply Forall2_take.
  - by exists (rows example_db).
Qed.


(** ** Where committed data can still be lost or failover does not happen *)

Definition elected_id {OS} (r : option (res elect_err NodeInfo * Elector OS)) : option string :=
  match r with Some (Ok w, _) => Some (NodeID w) | _ => None end.

(** The contacted majority counts Degraded nodes, which cannot win: when the
    only other holder of a committed record is Degraded, a node without the
    record is elected. *)
Lemma degraded_holder_loses_commit :
  elected_id (electPrimaryOnce (sample_env HealthDegraded []) (sample_elector (-1) None)) = Some "n2" ∧
  ¬ has_copy sample_row (rows (sample_db "n2")) ∧ has_copy sample_row (rows (sample_db "n3")).
Proof.
  split_and!; [by vm_compute|apply (bool_decide_unpack (¬ has_copy _ _)); by vm_compute|].
  apply (bool_decide_unpack (has_copy _ _)); by vm_compute.
Qed.

(** Without a quorum the election trusts the last heartbeats: a dead Primary's
    entry still says Active, and it is elected again. *)
Lemma quorum_disabled_reelects_dead_primary :
  elected_id (electPrimaryOnce (sample_env HealthHealthy [mkPoll 0 None false; mkPoll (3 * 10 ^ 9) None false])
                (sample_elector 0 (Some (mkNodeInfo "n1" 1 "pn1")))) = Some "n1" ∧
  ne_HealthState <$> (nm_nodes (el_nodeMap (sample_elector 0 None)) !! "n1") = Some HealthDegraded.
Proof. by vm_compute. Qed.

(** A quorum below -1 commits by majority but elects without contacting one. *)
Lemma quorum_below_minus_one :
  requiredReceipts (-2) 3 = 1 ∧
  elected_id (electPrimaryOnce
    (mkElectionEnv 0 [] (λ _, true) (λ _, None) id (Some (LatestRevision (sample_db "n2"))))
    (sample_elector (-2) None)) = Some "n2".
Proof. by vm_compute. Qed.

(** A previous Primary that still answers Draining at the deadline is passed
    over, although it was reachable all the time. *)
Lemma draining_primary_passed_over :
  let draining := Some (mk_pb_NodeState "n1" HEALTH_HEALTHY ELECTOR_FOLLOWER PRIMARY_DRAINING 4 0) in
  elected_id (electPrimaryOnce
    (sample_env HealthHealthy [mkPoll 0 draining false; mkPoll (10 ^ 9) draining false;
                               mkPoll (2 * 10 ^ 9) draining false])
    (sample_elector (-1) (Some (mkNodeInfo "n1" 1 "pn1")))) = Some "n3".
Proof. by vm_compute. Qed.

(** Two Degraded nodes that both report Active do not stop a third election. *)
Lemma two_active_elect_third :
  let active n := mkCandidate (mkNodeInfo n 1 ("p" ++ n)%string) HealthDegraded PrimaryActive 9 0 in
  choose [active "n1"; active "n2";
          mkCandidate (mkNodeInfo "n3" 1 "pn3") HealthHealthy PrimaryReplica 3 0]
  = Ok (mkNodeInfo "n3" 1 "pn3").
Proof. by vm_compute. Qed.
