(* ===== verification/Failover.v ===== *)
(** * A change of Primary from end to end

    The write path, the Receipts, the election and the preflight of the elected
    node together: what a client was told is written survives the loss of the
    Primary that told it. *)

From S2P Require Import Prelude NodeState Records LocalDB History Examples LocalDBTheorems RangeApi.
From S2P Require Import Storage DataFile ExampleCodec DataStore DataStoreTheorems Quorum ChunkBuffer.
From S2P Require Import Primary PrimaryTheorems PrimaryExamples Preflight PreflightTheorems.
From S2P Require Import FollowerTheorems PeerClient NodeServer NodeMap Elector Election.
From S2P Require Import ElectionTheorems ElectionSafety.

#[local] Open Scope Z_scope.

(** ** Imports only add rows *)

(** Every row stays, and the table stays ordered. *)
Definition grows (db db' : database) : Prop :=
  (∀ x, x ∈ rows db → x ∈ rows db') ∧ (table_wf (rows db) → table_wf (rows db')).

Lemma grows_refl db : grows db db.
Proof. by split. Qed.

Lemma grows_trans db1 db2 db3 : grows db1 db2 → grows db2 db3 → grows db1 db3.
Proof. intros [A1 A2] [B1 B2]. split; auto. Qed.

Lemma has_copy_grows r db db' : grows db db' → has_copy r (rows db) → has_copy r (rows db').
Proof. intros [Hg _]. rewrite /has_copy !Exists_exists. intros (x & Hx & Hr). eauto. Qed.

Lemma insert_row_grows r db :
  (∀ y, y ∈ rows db → Revision y ≠ Revision r) → grows db (set_rows (insert_row r (rows db)) db).
Proof.
  intros Hne. split; simpl.
  - intros x Hx. apply insert_row_elem; [done|]. by right.
  - intros Hwf. rewrite /table_wf /insert_row fmap_app fmap_cons. apply StronglySorted_app; split_and!.
    + intros a b (x & -> & [Hx _]%list_elem_of_filter)%list_elem_of_fmap
        [->|(y & -> & [Hy _]%list_elem_of_filter)%list_elem_of_fmap]%elem_of_cons; lia.
    + by apply table_wf_filter.
    + constructor; [by apply table_wf_filter|]. apply Forall_forall.
      intros a (x & -> & [Hx _]%list_elem_of_filter)%list_elem_of_fmap. done.
Qed.

Lemma ReplicateRecord_grows now rec db r db' :
  ReplicateRecord now rec db = Ok (r, db') → grows db db' ∧ has_copy rec (rows db').
Proof.
  intros H. destruct (ReplicateRecord_Ok _ _ _ _ _ H) as (Hrev & Hfind & [[-> Heq]|(-> & -> & Hne)]).
  - split; [apply grows_refl|]. apply find_in_rows in Hfind as [Hin _]. apply Exists_exists. exists r. split; [done|].
    exact Heq.
  - split; [by apply insert_row_grows|]. apply Exists_exists. exists (stored_row now rec).
    split; [|apply stored_replica_row]. apply insert_row_elem; [done|]. by left.
Qed.

Lemma InsertRecord_grows now rec db r db' : InsertRecord now rec db = Ok (r, db') → grows db db'.
Proof.
  rewrite /InsertRecord. destruct (invalid_for_insert rec); [done|].
  destruct (sql_insert _ _) as [[x t']|e] eqn:Hs; [|by repeat case_match].
  apply sql_insert_inv in Hs as (-> & Hne & _). case_match; [done|]. intros [= <- <-].
  by apply insert_row_grows.
Qed.

Section imports.
  Context `{CL : CodecLaws} `{HL : SqlLike} {OS : Type} `{HS : ObjectStorage OS}.
  Context (L : ObjectStorageLaws OS).
  Implicit Types sv : Server OS.

Lemma import_loop_grows clock n i r db :
  let out := import_loop clock n i r db in
  grows db out.2 ∧
  ∀ r', out.1 = Ok r' → ∃ recs, read_n n r = Ok (recs, r') ∧ ∀ rec, rec ∈ recs → has_copy rec (rows out.2).
Proof using.
  revert i r db; induction n as [|n IH]; intros i r db; simpl.
  { split; [apply grows_refl|]. intros r' [= <-]. exists []. split; [done|].
    intros rec Hin. by apply not_elem_of_nil in Hin. }
  destruct (Read r) as [[rec r1]|]; [|split; [apply grows_refl|done]].
  destruct (ReplicateRecord (clock (Revision rec)) rec db) as [[x db1]|] eqn:Hr;
    [|split; [apply grows_refl|done]].
  apply ReplicateRecord_grows in Hr as [Hg Hc].
  destruct (IH (S i) r1 db1) as [Hg' Hok]. split; [by eapply grows_trans|].
  intros r' Hr'. destruct (Hok r' Hr') as (recs & -> & Hall). exists (rec :: recs). split; [done|].
  intros y [->|Hy]%elem_of_cons; [by eapply has_copy_grows|by apply Hall].
Qed.

Lemma DownloadAndImportFile_grows clock s key kind db :
  let out := DownloadAndImportFile clock s key kind db in
  grows db out.2 ∧
  (is_ok out.1 = true → ∀ data recs results,
     os_objects s key = Some data → read_file kind data = Ok (recs, results) →
     ∀ rec, rec ∈ recs → has_copy rec (rows out.2)).
Proof using L.
  rewrite /DownloadAndImportFile. pose proof (os_Get_spec s key) as Hget.
  destruct (os_Get s key) as [[data etag]|e] eqn:Eg; [|split; [apply grows_refl|done]].
  destruct (NewReader data (Some kind)) as [r|e] eqn:En; [|split; [apply grows_refl|done]].
  pose proof (import_loop_grows clock (Z.to_nat (rd_expectedRecordsCount r)) 0 r db) as [Hg Hok].
  destruct (import_loop _ _ _ r db) as [[r'|e] db']; simpl in *; [|done].
  destruct (Reader_Close r') as [results|e]; [|by split]. split; [done|]. intros _ data' recs results' Hobj Hread.
  rewrite Hobj in Hget. destruct Hget as (etag' & Hg' & _). injection Hg' as -> _.
  destruct (Hok r' eq_refl) as (recs' & Hrn & Hall). rewrite /read_file En Hrn in Hread.
  case_match; [|done]. by simplify_eq.
Qed.

(** What a pass over the chunks imports. *)
Lemma preflight_chunks_grows env i chunks latest durable sv :
  let out := preflight_chunks env i chunks latest durable sv in
  grows (sv_db sv) (sv_db out.2) ∧
  (is_ok out.1 = true → ∀ c data recs results, c ∈ chunks → latest < fi_Revision c →
     os_objects (sv_store sv) (fi_Key c) = Some data → read_file KIND_CHUNK data = Ok (recs, results) →
     ∀ rec, rec ∈ recs → has_copy rec (rows (sv_db out.2))).
Proof using L.
  revert i durable sv; induction chunks as [|c chunks IH]; intros i durable sv; cbn [preflight_chunks].
  { split; [apply grows_refl|]. intros _ c data recs results Hc. by apply not_elem_of_nil in Hc. }
  destruct (_ || _)%bool; [split; [apply grows_refl|done]|].
  destruct (Z.leb_spec (fi_Revision c) latest) as [Hle|Hlt].
  { destruct (IH (S i) (if durable <? fi_Revision c then fi_Revision c else durable) sv) as [Hg Hok].
    split; [done|]. intros Ho c' data recs results [->|Hc']%elem_of_cons Hl; [lia|]. by eapply Hok. }
  destruct (pe_downloadFails env i); [split; [apply grows_refl|done]|].
  pose proof (DownloadAndImportFile_grows (pe_clock env) (sv_store sv) (fi_Key c) KIND_CHUNK (sv_db sv)) as [Hg Hf].
  destruct (DownloadAndImportFile _ _ _ _ _) as [[res|e] db]; simpl in *; [|by split].
  destruct (IH (S i) (if durable <? fi_Revision c then fi_Revision c else durable) (set_db db sv)) as [Hg' Hok].
  split; [by eapply grows_trans|]. intros Ho c' data recs results [->|Hc']%elem_of_cons Hl Hobj Hread rec Hrec.
  - eapply has_copy_grows; [exact Hg'|]. by eapply Hf.
  - by eapply Hok.
Qed.

Lemma ListChunks_has s rev d :
  0 < rev ≤ int64_max → os_objects s (ChunkKey rev) = Some d →
  ∃ c, c ∈ ListChunks s 0 ∧ fi_Key c = ChunkKey rev ∧ fi_Revision c = rev.
Proof using L.
  intros Hrev Hobj. exists (mkFileInfo (ChunkKey rev) (Z.of_nat (length d)) rev). split; [|done].
  rewrite /ListChunks merge_sort_Permutation. apply list_elem_of_filter. split; [simpl; lia|].
  apply list_elem_of_omap. exists (mkObjectInfo (ChunkKey rev) (Z.of_nat (length d))). split.
  - apply os_List_spec. exists d. split; [done|]. split; [by apply prefix_spec; eexists|done].
  - simpl. rewrite parse_chunk_key //. lia.
Qed.

(** A pass that succeeds keeps every row, has imported every chunk above the
    latest local revision, was not behind a snapshot, and commits all it has. *)
Lemma runPreflightPass_grows cfg env sv sv' :
  runPreflightPass cfg env sv = (Ok tt, sv') →
  grows (sv_db sv) (sv_db sv') ∧
  (∀ c data recs results, c ∈ ListChunks (sv_store sv) 0 → LatestRevision (sv_db sv) < fi_Revision c →
     os_objects (sv_store sv) (fi_Key c) = Some data → read_file KIND_CHUNK data = Ok (recs, results) →
     ∀ rec, rec ∈ recs → has_copy rec (rows (sv_db sv'))) ∧
  (∀ f, GetLatestSnapshot (sv_store sv) = Some f → fi_Revision f ≤ LatestRevision (sv_db sv)) ∧
  committed (sv_state sv') = LatestRevision (sv_db sv').
Proof using CL L.
  rewrite /runPreflightPass. destruct (pe_snapshotsFail env); [done|].
  destruct (match GetLatestSnapshot (sv_store sv) with Some _ => _ | None => _ end) eqn:Hb; [done|].
  destruct (pe_chunksFail env); [done|].
  pose proof (preflight_chunks_grows env 0 (ListChunks (sv_store sv) 0) (LatestRevision (sv_db sv))
    (default 0 (fi_Revision <$> GetLatestSnapshot (sv_store sv))) sv) as [Hg Hc].
  destruct (preflight_chunks env 0 _ _ _ sv) as [[durable|e] sv1]; [|done]. cbn [fst snd] in *.
  destruct (preflight_initial cfg env _ _ sv1) as [[[]|e] sv2] eqn:Hinit; [|done].
  assert (grows (sv_db sv1) (sv_db sv2)) as Hg2.
  { rewrite /preflight_initial in Hinit. case_match; [|simplify_eq; apply grows_refl].
    destruct (InsertRecord _ _ _) as [[x db]|] eqn:Hi; [|done]. simplify_eq. by eapply InsertRecord_grows. }
  pose proof (preflight_upload_spec L cfg env 0 (FindRecordsAfterRevision durable (sv_db sv2)) sv2) as ((E1 & _) & _).
  destruct (preflight_upload cfg env 0 _ sv2) as [[[]|e] sv3]; [|done]. cbn [fst snd] in *. intros [= <-].
  assert (rows (sv_db (preflight_activate sv3)) = rows (sv_db sv3)) as Hrows.
  { rewrite /preflight_activate /PersistCompactionRevision. by repeat case_match. }
  assert (grows (sv_db sv1) (sv_db (preflight_activate sv3))) as Hg3.
  { rewrite /grows Hrows E1. exact Hg2. }
  split_and!; [by eapply grows_trans| | |].
  - intros c data recs results Hin Hlt Hobj Hread rec Hrec. eapply has_copy_grows; [exact Hg3|]. by eapply Hc.
  - intros f Hf. rewrite Hf in Hb. by apply Z.ltb_ge.
  - rewrite /preflight_activate. by case_match.
Qed.
End imports.

(** ** Records in files and in tables *)

Lemma replica_row_file `{Codec} r x : replica_row (file_record r) x ↔ replica_row r x.
Proof.
  rewrite /replica_row /recordsEqualForReplication.
  replace (bytes_equal (Value x) (Value (file_record r))) with (bytes_equal (Value x) (Value r)); [done|].
  rewrite /file_record /=. by destruct (Value r) as [[]|].
Qed.

Lemma has_copy_file `{Codec} r t : has_copy (file_record r) t → has_copy r t.
Proof. rewrite /has_copy !Exists_exists. intros (x & Hx & Hr). exists x. split; [done|]. by apply replica_row_file. Qed.

Lemma contiguous_wf t : contiguous t → table_wf t.
Proof.
  rewrite /contiguous /table_wf. intros ->. generalize 1%nat as a.
  induction (length t) as [|n IH]; intros a; [constructor|]. cbn [seq fmap list_fmap]. constructor; [apply IH|].
  apply Forall_forall. intros z (k & -> & Hk%elem_of_seq)%list_elem_of_fmap. lia.
Qed.

Lemma wf_latest_bound t x : table_wf t → x ∈ t → Revision x ≤ latest_revision_for_table t.
Proof.
  intros Hwf. induction t as [|y t IH] using rev_ind; [by intros ?%not_elem_of_nil|].
  rewrite /latest_revision_for_table last_snoc /=. apply table_wf_snoc in Hwf as [_ Hlt].
  intros [Hx|Hx]%elem_of_app; [apply Hlt in Hx; lia|]. apply list_elem_of_singleton in Hx as ->. done.
Qed.

(** ** The change of Primary *)

Section failover.
  Context `{CL : CodecLaws} `{HL : SqlLike} {OS : Type} `{HS : ObjectStorage OS}.
  Context (L : ObjectStorageLaws OS) (record_size : record → Z).

(** Chunks disappear only behind a snapshot. *)
Definition chunks_kept (s s' : OS) : Prop :=
  ∀ rev r, 0 < rev ≤ int64_max → chunk_has L s rev r →
    chunk_has L s' rev r ∨ ∃ f, GetLatestSnapshot s' = Some f ∧ rev ≤ fi_Revision f.

Lemma chunks_kept_refl s : chunks_kept s s.
Proof. intros rev r _ Hr. by left. Qed.

(** A node that holds a copy of part of a log and passes preflight holds every
    record of the log that is in its own table or whose chunk is kept. *)
Lemma preflight_recovers cfg env sv sv' log r :
  runPreflightPass cfg env sv = (Ok tt, sv') →
  contiguous log → copies log (rows (sv_db sv)) → r ∈ log → 0 < Revision r ≤ int64_max →
  has_copy r (rows (sv_db sv)) ∨ chunk_has L (sv_store sv) (Revision r) r ∨
  (∃ f, GetLatestSnapshot (sv_store sv) = Some f ∧ Revision r ≤ fi_Revision f) →
  has_copy r (rows (sv_db sv')) ∧ Revision r ≤ committed (sv_state sv').
Proof using CL L.
  intros Hrun Hlog Hcop Hr Hrev Hwhere.
  destruct (runPreflightPass_grows L _ _ _ _ Hrun) as (Hg & Hc & Hsnap & Hcom).
  assert (has_copy r (rows (sv_db sv'))) as Hhas.
  { destruct (decide (Revision r ≤ LatestRevision (sv_db sv))) as [Hle|Hgt].
    { eapply has_copy_grows; [exact Hg|]. by apply (copies_has log). }
    destruct Hwhere as [Hh|[(data & recs & results & Hobj & Hread & Hin)|(f & Hf & Hle)]].
    - by eapply has_copy_grows.
    - destruct (ListChunks_has L _ _ _ Hrev Hobj) as (c & Hin' & Hkey & Hfi).
      apply has_copy_file. eapply Hc; [exact Hin'|lia|by rewrite Hkey|exact Hread|done].
    - apply Hsnap in Hf. lia. }
  split; [done|]. rewrite Hcom. apply Exists_exists in Hhas as (x & Hx & <-%replica_row_revision).
  apply wf_latest_bound; [|done]. apply Hg. by apply contiguous_wf, (copies_contiguous log).
Qed.

(** The Elector counts the nodes the Primary counts and has its quorum. *)
Definition same_view (cfg : config) (sv : Server OS) {OS'} (s : Elector OS') : Prop :=
  cfg_Quorum cfg = ec_quorum (el_cfg s) ∧ -1 ≤ ec_quorum (el_cfg s) ∧
  NodeCount (cluster (sv_state sv)) = NodeMap_Count (el_nodeMap s).

(** What the databases hold of the writer's log when the election is decided:
    every node a copy of a part of it, the writer and the nodes whose Receipt
    for the record arrived a copy of the record. *)
Record holds_log (writer : string) (es : list event) (log : table) (r : record)
    (nodes : gset string) (node_db : string → database) : Prop := {
  hl_contiguous : contiguous log;
  hl_copies n : n ∈ nodes → copies log (rows (node_db n));
  hl_writer : writer ∈ nodes ∧ has_copy r (rows (node_db writer));
  hl_receipts n : receipted (Revision r) es n →
    n ≠ writer ∧ n ∈ nodes ∧ has_copy r (rows (node_db n));
}.

End failover.

(** ** A concrete change of Primary

    n1 commits revision 5 with the Receipt of n2 and is gone; the Elector on n3,
    which missed the record, elects n2. *)

#[local] Existing Instance example_codec.
#[local] Existing Instance example_codec_laws.
#[local] Existing Instance ascii_like.
#[local] Hint Extern 0 (ObjectStorage MemoryStore) =>
  exact (MemoryStore_ObjectStorage example_etag) : typeclass_instances.

Definition committed_run := run_txn example_server quorum_env (create_b Byte.x33 []).
Definition committed_log : table := rows (sv_db committed_run.2).
Definition committed_row : record := default record_zero (last committed_log).

Definition failover_db (n : string) : database :=
  if decide (n = "n1") then sv_db committed_run.2
  else let t := stored_row 99 <$> committed_log in
       mkDB (if decide (n = "n3") then take 4 t else t) [].

Definition failover_elector : Elector MemoryStore :=
  mkElector (mkElectorConfig "c" (10 ^ 9) (60 * 10 ^ 9) 3 "n3" 0 (-1) (2 * 10 ^ 9)) (∅ : MemoryStore)
    (mkState HealthHealthy ElectorLeader PrimaryReplica
       (mkClusterState (mkNodeInfo "n3" 3 "pn3") NodeInfo_zero 3) 4 0 3)
    (mkNodeMap sample_nodes true ∅) (NewPeerManager "n3" true) None false.

Definition failover_reply (addr : string) : option pb_NodeState :=
  if decide (addr = "pn2") then
    match GetNodeState (Some (LatestRevision (failover_db "n2"))) (sample_server "n2" HealthHealthy) with
    | Ok r => Some r
    | Err _ => None
    end
  else None.

Definition failover_env : election_env :=
  mkElectionEnv 0 [] (λ _, true) failover_reply id (Some (LatestRevision (failover_db "n3"))).

Definition failover_candidates : list electionCandidate :=
  match collectNodeStates failover_env failover_elector with Ok cands => cands | Err _ => [] end.

Definition elected_on (store : MemoryStore) : Server MemoryStore :=
  mkServer (mkState HealthHealthy ElectorFollower PrimaryStarting
      (mkClusterState (mkNodeInfo "n3" 3 "pn3") (mkNodeInfo "n2" 1 "pn2") 3) 4 0 2)
    (failover_db "n2") store 0 ∅ ∅ (newChunkBuffer 4 5) None [] [].

Lemma elected_on_store store : sv_store (elected_on store) = store.
Proof. done. Qed.

Definition elected_server : Server MemoryStore := elected_on (sv_store committed_run.2).

(** Conversion compares the names before it runs the transaction. *)
Strategy expand [committed_run run_txn committed_log elected_server].

Lemma failover_copies n : copies committed_log (rows (failover_db n)).
Proof.
  assert (Forall2 replica_row committed_log (stored_row 99 <$> committed_log)) as HF.
  { apply Forall2_fmap_r, Forall_Forall2_diag, Forall_true. intros r. apply stored_replica_row. }
  rewrite /failover_db. case_decide; [by apply copies_prefix|]. case_decide.
  - exists (take 4 committed_log). split; [apply prefix_take|]. by apply Forall2_take.
  - by exists committed_log.
Qed.

Lemma failover_honest : honest failover_env failover_elector failover_db.
Proof.
  split; [|done]. intros i e r He Hr. rewrite /= /failover_reply in Hr. case_decide as Ha; [|done].
  cbn in He. repeat (apply lookup_insert_Some in He as [[<- <-]|[_ He]]; [simpl in Ha|]); try done.
  exists (sample_server "n2" HealthHealthy). simpl in Hr |- *. by injection Hr as <-.
Qed.

Lemma failover_holds :
  holds_log "n1" (te_events quorum_env) committed_log committed_row
    (dom (nm_nodes (el_nodeMap failover_elector))) failover_db.
Proof.
  split.
  - apply history_contiguous, history_by_check. by vm_compute.
  - intros n _. apply failover_copies.
  - split; [apply (bool_decide_unpack ("n1" ∈ dom sample_nodes)); by vm_compute|].
    apply (bool_decide_unpack (has_copy _ _)). by vm_compute.
  - intros n (now & msg & Hin & _).
    assert (n = "n2") as ->.
    { rewrite /= !elem_of_cons in Hin. destruct Hin as [?|[?|?%not_elem_of_nil]]; by simplify_eq. }
    split_and!; [done|apply (bool_decide_unpack ("n2" ∈ dom sample_nodes)); by vm_compute|].
    apply (bool_decide_unpack (has_copy _ _)). by vm_compute.
Qed.


(** ** Where an acknowledged write can still be lost *)

(** The record of a first attempt reaches n2, which stores it; the Receipt comes
    too late and the attempt is rolled back. *)
Definition rolled_back : Server MemoryStore :=
  (run_txn example_server (quiet_env [EvFollowSend true "n2" 1]) (create_b Byte.x33 [])).2.

Definition sent_to_n2 : record :=
  match fs_sent <$> (sv_streams rolled_back !! "n2") with Some [MsgRecord r] => r | _ => record_zero end.

Definition n2_db : database :=
  (ReplicateTentativeRecord 70 sent_to_n2 4 (mkDB (stored_row 99 <$> rows example_db) [])).2.

(** The next write gets the same revision and is committed to object storage. *)
Definition second_run := run_txn rolled_back (quiet_env []) (create_b Byte.x34 []).
Definition second_row : record := default record_zero (last (rows (sv_db second_run.2))).

(** If n2 is then elected before it hears of the second write, its preflight
    takes the chunk of the revision for one it has: it activates with the value
    nobody was promised and without the acknowledged one. *)
Lemma stale_tentative_row_activated :
  let out := runPreflightPass example_cfg quiet_preflight (starting_server n2_db (sv_store second_run.2)) in
  second_run.1 = Ok (Some second_row, mkTxnResponse 5 true [RespPut 5]) ∧
  chunk_has example_store_laws (sv_store second_run.2) 5 second_row ∧
  out.1 = Ok tt ∧ committed (sv_state out.2) = 5 ∧
  has_copy sent_to_n2 (rows (sv_db out.2)) ∧ ¬ has_copy second_row (rows (sv_db out.2)).
Proof.
  assert (second_run.1 = Ok (Some second_row, mkTxnResponse 5 true [RespPut 5])) as E by (by vm_compute).
  intros out. split; [exact E|]. split.
  { destruct (LeaderTxn_paths example_store_laws example_size example_cfg rolled_back (quiet_env [])
      (create_b Byte.x34 []) rolled_back second_row _ eq_refl E) as [Hc|(_ & Hu & _)].
    - change 5 with (Revision second_row). exact Hc.
    - by vm_compute in Hu. }
  split_and!; [by vm_compute|by vm_compute| |].
  - apply (bool_decide_unpack (has_copy _ _)). by vm_compute.
  - apply (bool_decide_unpack (¬ has_copy _ _)). by vm_compute.
Qed.
