(* ===== verification/ElectorTheorems.v ===== *)
(** * Theorems on the Elector's health checks and cluster-state changes *)

From S2P Require Import Prelude NodeState Records LocalDB Storage DataFile ExampleCodec DataStore.
From S2P Require Import Discovery PeerClient NodeMap Elector Election.

#[local] Open Scope Z_scope.

Section elector.
  Context {OS : Type} `{HS : ObjectStorage OS} `{HJ : JSON} `{HC : Codec}.
  Implicit Types s : Elector OS.

(** ** Pushes *)

Lemma pushClusterState_effect dial order p s :
  let s' := (pushClusterState dial order p s).1.1 in
  el_store s' = el_store s ∧ el_nodeMap s' = el_nodeMap s ∧ el_cfg s' = el_cfg s ∧
  el_previousPrimary s' = el_previousPrimary s ∧
  cs_Primary (cluster (el_state s')) = p ∧
  cs_Elector (cluster (el_state s')) = cs_Elector (cluster (el_state s)) ∧
  elector (el_state s') = elector (el_state s).
Proof.
  rewrite /pushClusterState. set (cs := mkClusterState _ _ _).
  assert (cluster (ApplyClusterState dial cs (el_peers s) (el_state s)).1.2 = cs ∧
    elector (ApplyClusterState dial cs (el_peers s) (el_state s)).1.2 = elector (el_state s)) as [Ec Ee].
  { rewrite /ApplyClusterState /=. case_bool_decide; destruct (el_state s) as [h e p' c co cm mid], p'; done. }
  destruct (ApplyClusterState dial cs (el_peers s) (el_state s)) as [[m st] cb]. cbn [fst snd] in *.
  case_match; cbn [fst snd el_store el_nodeMap el_cfg el_previousPrimary el_state with_peers with_state];
    rewrite Ec Ee; done.
Qed.

Lemma clearPrimary_effect dial order s :
  let s' := (clearPrimary dial order s).1.1 in
  el_store s' = el_store s ∧ el_nodeMap s' = el_nodeMap s ∧
  el_previousPrimary s' = Some (cs_Primary (cluster (el_state s))) ∧
  cs_Primary (cluster (el_state s')) = NodeInfo_zero.
Proof.
  rewrite /clearPrimary.
  destruct (pushClusterState_effect dial order NodeInfo_zero
    (storePreviousPrimary (cs_Primary (cluster (el_state s))) s)) as (E1 & E2 & _ & E3 & E4 & _).
  by rewrite E1 E2 E3 E4.
Qed.

(** ** Health checks *)

Lemma mark_degraded_fold env l s :
  let s' := foldl (mark_degraded env) s l in
  el_store s' = el_store s ∧ el_state s' = el_state s ∧ el_cfg s' = el_cfg s ∧
  el_previousPrimary s' = el_previousPrimary s ∧ el_peers s' = el_peers s ∧
  nm_ready (el_nodeMap s') = nm_ready (el_nodeMap s) ∧
  (nodemap_wf (el_nodeMap s) → nodemap_wf (el_nodeMap s')) ∧
  ∀ id, nm_nodes (el_nodeMap s') !! id
        = (if decide (id ∈ l)
           then (λ e, mkNodeEntry (ne_NodeID e) (ne_MemberID e) (ne_ClientAdvertiseAddress e)
                        (ne_PeerAdvertiseAddress e) (ne_LastHeartbeat e) (Some (he_clock env id))
                        HealthDegraded (ne_PrimaryState e) (ne_LatestRevision e) (ne_StartTime e))
                <$> nm_nodes (el_nodeMap s) !! id
           else nm_nodes (el_nodeMap s) !! id).
Proof.
  induction l as [|n l IH] using rev_ind; [simpl; split_and!; done|].
  rewrite foldl_snoc. set (s1 := foldl (mark_degraded env) s l) in *. simpl in IH.
  destruct IH as (E1 & E2 & E3 & E4 & E5 & E6 & Hwf & Hl). rewrite /mark_degraded /SetHealthState.
  destruct (nm_nodes (el_nodeMap s1) !! n) as [en|] eqn:En; cbn -[decide]; split_and!; try done.
  - intros Hs. apply Hwf in Hs. apply map_Forall_insert_2; [by apply Hs in En|done].
  - intros id. rewrite Hl in En. destruct (decide (id = n)) as [->|Hne].
    + rewrite lookup_insert_eq (decide_True (P := n ∈ l ++ [n])); [set_solver|].
      destruct (nm_nodes (el_nodeMap s) !! n) as [e0|]; [|by case_decide].
      simpl in *. case_decide; by simplify_eq/=.
    + rewrite lookup_insert_ne // Hl. repeat case_decide; set_solver.
  - intros id. rewrite Hl. destruct (decide (id = n)) as [->|Hne].
    + rewrite Hl in En. destruct (nm_nodes (el_nodeMap s) !! n); [by case_decide|]. by repeat case_decide.
    + repeat case_decide; set_solver.
Qed.

Lemma auto_deregister_fold env l s :
  let s' := foldl (auto_deregister env) s l in
  el_state s' = el_state s ∧ el_cfg s' = el_cfg s ∧ el_previousPrimary s' = el_previousPrimary s ∧
  nm_ready (el_nodeMap s') = nm_ready (el_nodeMap s) ∧
  (nodemap_wf (el_nodeMap s) → nodemap_wf (el_nodeMap s')) ∧
  ∀ id, nm_nodes (el_nodeMap s') !! id
        = if decide (id ∈ l) then None else nm_nodes (el_nodeMap s) !! id.
Proof.
  induction l as [|n l IH] using rev_ind; [simpl; split_and!; done|].
  rewrite foldl_snoc. set (s1 := foldl (auto_deregister env) s l) in *. simpl in IH.
  destruct IH as (E1 & E2 & E3 & E4 & Hwf & Hl). cbn -[decide]. split_and!; try done.
  - intros Hs. by apply map_Forall_delete, Hwf.
  - intros id. destruct (decide (id = n)) as [->|Hne].
    + rewrite lookup_delete_eq decide_True //. set_solver.
    + rewrite lookup_delete_ne // Hl. repeat case_decide; set_solver.
Qed.

(** The registration files of the timed-out nodes are gone, where the delete
    reached the store. *)
Lemma auto_deregister_files `{L : !ObjectStorageLaws OS} env l s k d :
  os_objects (el_store (foldl (auto_deregister env) s l)) k = Some d →
  os_objects (el_store s) k = Some d ∧ ∀ id, id ∈ l → he_delete env id ≠ PutFailBefore → k ≠ NodePath id.
Proof.
  induction l as [|n l IH] using rev_ind; [by intros ?; split; [|intros ? ?%not_elem_of_nil]|].
  rewrite foldl_snoc. set (s1 := foldl (auto_deregister env) s l) in *.
  rewrite /auto_deregister /DeleteNodeRegistration /faulty_delete. cbn [el_store with_store with_nodeMap].
  intros Hk.
  assert (os_objects (el_store s1) k = Some d ∧ (he_delete env n ≠ PutFailBefore → k ≠ NodePath n)) as [Hk1 Hn].
  { destruct (he_delete env n); cbn [snd fst el_store] in Hk; [|done|];
      rewrite os_Delete_spec in Hk; case_decide; done. }
  destruct (IH Hk1) as [Hs Hall]. split; [done|].
  intros id [?| ->%list_elem_of_singleton]%elem_of_app; [by apply Hall|done].
Qed.

(** What a health check makes of one entry. *)
Definition checked_entry (env : health_env) s (id : string) (e : NodeEntry) : option NodeEntry :=
  if missed_heartbeats (he_now env) s e then
    Some (mkNodeEntry (ne_NodeID e) (ne_MemberID e) (ne_ClientAdvertiseAddress e)
            (ne_PeerAdvertiseAddress e) (ne_LastHeartbeat e) (Some (he_clock env id))
            HealthDegraded (ne_PrimaryState e) (ne_LatestRevision e) (ne_StartTime e))
  else if degraded_too_long (he_now env) s e then None else Some e.

(** The check acts on the node. *)
Definition flagged (env : health_env) s (id : string) : bool :=
  match nm_nodes (el_nodeMap s) !! id with
  | Some e => missed_heartbeats (he_now env) s e || degraded_too_long (he_now env) s e
  | None => false
  end.

Lemma flagged_ids order s (f : NodeEntry → bool) id :
  (∀ l, order l ≡ₚ l) → nodemap_wf (el_nodeMap s) →
  id ∈ ne_NodeID <$> filter (λ e, f e = true) (NodeMap_All order (el_nodeMap s)) ↔
  ∃ e, nm_nodes (el_nodeMap s) !! id = Some e ∧ f e = true.
Proof.
  intros Ho Hwf. rewrite list_elem_of_fmap. split.
  - intros (e & -> & [Hf He]%list_elem_of_filter). apply (NodeMap_All_elem _ _ _ Ho Hwf) in He. by exists e.
  - intros (e & He & Hf). pose proof (Hwf id e He) as Hid. exists e. split; [done|].
    apply list_elem_of_filter. split; [done|]. apply (NodeMap_All_elem _ _ _ Ho Hwf). by rewrite Hid.
Qed.

Lemma missed_not_too_long now s e :
  missed_heartbeats now s e = true → degraded_too_long now s e = false.
Proof.
  rewrite /missed_heartbeats /degraded_too_long. intros [H _]%andb_true_iff. bool_to_prop.
  by rewrite bool_decide_eq_false_2.
Qed.

Lemma check_lookup env s (toDeg toDereg : list string) id :
  (id ∈ toDeg ↔ ∃ e, nm_nodes (el_nodeMap s) !! id = Some e ∧ missed_heartbeats (he_now env) s e = true) →
  (id ∈ toDereg ↔ ∃ e, nm_nodes (el_nodeMap s) !! id = Some e ∧ degraded_too_long (he_now env) s e = true) →
  (if decide (id ∈ toDereg) then None
   else if decide (id ∈ toDeg)
        then (λ e, mkNodeEntry (ne_NodeID e) (ne_MemberID e) (ne_ClientAdvertiseAddress e)
                     (ne_PeerAdvertiseAddress e) (ne_LastHeartbeat e) (Some (he_clock env id))
                     HealthDegraded (ne_PrimaryState e) (ne_LatestRevision e) (ne_StartTime e))
             <$> nm_nodes (el_nodeMap s) !! id
        else nm_nodes (el_nodeMap s) !! id)
  = nm_nodes (el_nodeMap s) !! id ≫= checked_entry env s id.
Proof.
  intros Hdeg Hdereg. destruct (nm_nodes (el_nodeMap s) !! id) as [e|]; simpl.
  - rewrite /checked_entry. destruct (missed_heartbeats (he_now env) s e) eqn:Em.
    + rewrite decide_False; [|by rewrite decide_True; [apply Hdeg; eauto|]].
      rewrite Hdereg. intros (e' & [= <-] & Hl). by rewrite (missed_not_too_long _ _ _ Em) in Hl.
    + rewrite (decide_False (P := id ∈ toDeg)); [rewrite Hdeg; intros (e' & [= <-] & Hl); congruence|].
      destruct (degraded_too_long (he_now env) s e) eqn:El.
      * rewrite decide_True //. apply Hdereg. eauto.
      * rewrite decide_False //. rewrite Hdereg. intros (e' & [= <-] & Hl). congruence.
  - by repeat case_decide.
Qed.

Lemma flagged_primary env s (toDeg toDereg : list string) id :
  (id ∈ toDeg ↔ ∃ e, nm_nodes (el_nodeMap s) !! id = Some e ∧ missed_heartbeats (he_now env) s e = true) →
  (id ∈ toDereg ↔ ∃ e, nm_nodes (el_nodeMap s) !! id = Some e ∧ degraded_too_long (he_now env) s e = true) →
  flagged env s id = bool_decide (id ∈ toDeg) || bool_decide (id ∈ toDereg).
Proof.
  intros Hdeg Hdereg. rewrite /flagged. destruct (nm_nodes (el_nodeMap s) !! id) as [e|].
  - f_equal; apply eq_true_iff_eq; rewrite bool_decide_eq_true; naive_solver.
  - rewrite !bool_decide_eq_false_2 //; naive_solver.
Qed.

(** The health check is exact.  A node is marked Degraded precisely when it
    was not yet and its last heartbeat is at least [degradation_count] intervals
    old; it is deregistered precisely when it has been marked Degraded for the
    configured time, and then its registration file is deleted; every other
    entry stays as it is.  The cluster's Primary is cleared precisely when it
    is one of the nodes marked or removed, and is then remembered for the drain
    check of the next election. *)
Theorem checkNodeHealth_exact `{L : !ObjectStorageLaws OS} env s :
  (∀ l, he_order env l ≡ₚ l) → (∀ m, he_meanwhile env m = m) →
  nodemap_wf (el_nodeMap s) → nm_ready (el_nodeMap s) = true →
  let s' := (checkNodeHealth env s).1.1 in
  let p := cs_Primary (cluster (el_state s)) in
  (∀ id, nm_nodes (el_nodeMap s') !! id = nm_nodes (el_nodeMap s) !! id ≫= checked_entry env s id) ∧
  (∀ id e, nm_nodes (el_nodeMap s) !! id = Some e → degraded_too_long (he_now env) s e = true →
     he_delete env id ≠ PutFailBefore → os_objects (el_store s') (NodePath id) = None) ∧
  (if bool_decide (NodeID p ≠ "") && flagged env s (NodeID p)
   then cs_Primary (cluster (el_state s')) = NodeInfo_zero ∧ loadPreviousPrimary s' = p
   else el_state s' = el_state s ∧ el_previousPrimary s' = el_previousPrimary s).
Proof.
  intros Ho Hmw Hwf Hready. cbn zeta. rewrite /checkNodeHealth Hready Hmw. cbn [negb].
  set (toDeg := ne_NodeID <$> filter _ _). set (toDereg := ne_NodeID <$> filter _ _).
  assert (∀ id, id ∈ toDeg ↔ ∃ e, nm_nodes (el_nodeMap s) !! id = Some e ∧
            missed_heartbeats (he_now env) s e = true) as Hdeg by (intros id; by apply flagged_ids).
  assert (∀ id, id ∈ toDereg ↔ ∃ e, nm_nodes (el_nodeMap s) !! id = Some e ∧
            degraded_too_long (he_now env) s e = true) as Hdereg by (intros id; by apply flagged_ids).
  set (s0 := with_nodeMap (el_nodeMap s) s).
  destruct (mark_degraded_fold env toDeg s0) as (A1 & A2 & A3 & A4 & _ & _ & _ & A5).
  set (s1 := foldl (mark_degraded env) s0 toDeg) in *.
  destruct (auto_deregister_fold env toDereg s1) as (B1 & _ & B3 & _ & _ & B5).
  pose proof (auto_deregister_files env toDereg s1) as B6.
  set (s2 := foldl (auto_deregister env) s1 toDereg) in *.
  assert (∀ id, nm_nodes (el_nodeMap s2) !! id = nm_nodes (el_nodeMap s) !! id ≫= checked_entry env s id) as Hmap.
  { intros id. rewrite B5 A5. exact (check_lookup env s toDeg toDereg id (Hdeg id) (Hdereg id)). }
  assert (∀ id e, nm_nodes (el_nodeMap s) !! id = Some e → degraded_too_long (he_now env) s e = true →
     he_delete env id ≠ PutFailBefore → os_objects (el_store s2) (NodePath id) = None) as Hfiles.
  { intros id e He Hl Hd. destruct (os_objects (el_store s2) (NodePath id)) eqn:E; [|done].
    destruct (B6 _ _ E) as [_ Hne]. exfalso. apply (Hne id); [apply Hdereg; by exists e|done|done]. }
  assert (el_state s2 = el_state s) as B1' by (by rewrite B1 A2).
  assert (el_previousPrimary s2 = el_previousPrimary s) as B3' by (by rewrite B3 A4).
  rewrite B1'.
  set (p := cs_Primary (cluster (el_state s))) in *.
  assert (flagged env s (NodeID p) = bool_decide (NodeID p ∈ toDeg) || bool_decide (NodeID p ∈ toDereg)) as ->
    by (by apply flagged_primary).
  destruct (decide (NodeID p = "")) as [E|E].
  { rewrite (bool_decide_eq_true_2 (NodeID p = "")) // (bool_decide_eq_false_2 (NodeID p ≠ "")); [naive_solver|].
    cbn [fst andb]. split_and!; done. }
  rewrite (bool_decide_eq_false_2 (NodeID p = "")) // (bool_decide_eq_true_2 (NodeID p ≠ "")) // andb_true_l.
  destruct (_ || _); cbn [fst]; [|split_and!; done].
  destruct (clearPrimary_effect (he_dial env) (he_order env) s2) as (C1 & C2 & C3 & C4).
  rewrite C1 C2 C4 /loadPreviousPrimary C3 B1'. done.
Qed.

(** What a health check leaves alone. *)
Lemma checkNodeHealth_frame env s :
  (∀ m, he_meanwhile env m = m) →
  let s' := (checkNodeHealth env s).1.1 in
  el_cfg s' = el_cfg s ∧ nm_ready (el_nodeMap s') = nm_ready (el_nodeMap s) ∧
  elector (el_state s') = elector (el_state s).
Proof.
  intros Hmw. cbn zeta. rewrite /checkNodeHealth Hmw. case_match; [done|].
  set (l1 := ne_NodeID <$> _). set (l2 := ne_NodeID <$> _). set (s0 := with_nodeMap _ s).
  destruct (mark_degraded_fold env l1 s0) as (_ & A2 & A3 & _ & _ & A6 & _).
  set (s1 := foldl (mark_degraded env) s0 l1) in *.
  destruct (auto_deregister_fold env l2 s1) as (B1 & B2 & _ & B4 & _).
  set (s2 := foldl (auto_deregister env) s1 l2) in *.
  assert (el_cfg s2 = el_cfg s ∧ nm_ready (el_nodeMap s2) = nm_ready (el_nodeMap s) ∧ el_state s2 = el_state s)
    as (E1 & E2 & E3) by (by rewrite B2 B4 B1 A3 A6 A2).
  case_match; [by rewrite E1 E2 E3|]. case_match; [|by rewrite E1 E2 E3].
  rewrite /clearPrimary.
  destruct (pushClusterState_effect (he_dial env) (he_order env) NodeInfo_zero
    (storePreviousPrimary (cs_Primary (cluster (el_state s2))) s2)) as (_ & C2 & C3 & _ & _ & _ & C7).
  by rewrite C2 C3 C7 /= E1 E2 E3.
Qed.

(** ** Reachable states *)

(** Everything that happens to an Elector: calls of its service, health checks,
    elections, bootstrap, cluster states pushed to its node, and s3lect's
    leadership callbacks. *)
Inductive elector_step : Elector OS → Elector OS → Prop :=
| es_register now env req s : elector_step s (RegisterNode now env id req s).2
| es_heartbeat now req s : elector_step s (Elector_SendHeartbeat now req s).1.2
| es_deregister dial order nodeID s :
    elector_step s (DeregisterNode dial order nodeID s).1.1.2
| es_health env s :
    (∀ m, nodemap_wf m → nodemap_wf (he_meanwhile env m)) → elector_step s (checkNodeHealth env s).1.1
| es_election env s s' callback pushes :
    election_round env s = Some (s', callback, pushes) → elector_step s s'
| es_bootstrap env s : elector_step s (Elector_Bootstrap env s).2
| es_push dial cs s m st callback :
    ApplyClusterState dial cs (el_peers s) (el_state s) = (m, st, callback) →
    elector_step s (with_peers m (with_state st s))
| es_acquire r : elector_step (rn_server r) (rn_server (onAcquireLeadership r).1.2)
| es_lose r : elector_step (rn_server r) (rn_server (onLoseLeadership r)).

Lemma boot_existing_wf env etag cid regs acc :
  (∀ x, acc = Some x → nodemap_wf x.2) →
  ∀ x, foldl (boot_existing (OS := OS) env etag cid) acc regs = Some x → nodemap_wf x.2.
Proof.
  revert acc. induction regs as [|r regs IH]; intros acc Hacc; [done|]. cbn [foldl]. apply IH.
  destruct acc as [[[m w] nm]|]; [|done]. specialize (Hacc _ eq_refl). cbn in Hacc |- *.
  intros x. repeat case_match; intros; simplify_eq; cbn; auto with netsy.
Qed.

Lemma boot_first_wf env regs acc :
  nodemap_wf acc.2 → nodemap_wf (foldl (boot_first (OS := OS) env) acc regs).2.
Proof.
  revert acc. induction regs as [|r regs IH]; intros [m nm] Hacc; [done|]. cbn [foldl]. apply IH.
  rewrite /boot_first. case_match; cbn in *; auto with netsy.
Qed.

Lemma bootstrapFirstElector_wf env regs s :
  nodemap_wf (el_nodeMap s) → nodemap_wf (el_nodeMap (bootstrapFirstElector env regs s).2).
Proof.
  intros Hs. rewrite /bootstrapFirstElector. destruct (PromoteBootstrapSnapshot _ _) as [[o store]|]; [|done].
  pose proof (boot_first_wf env regs (∅, el_nodeMap s) Hs) as Hnm.
  destruct (foldl (boot_first env) (∅, el_nodeMap s) regs) as [m nm].
  destruct (WriteMembersFile _ _ _) as [[|] ?]; done.
Qed.

Lemma bootstrapExisting_wf env mf regs s :
  nodemap_wf (el_nodeMap s) → nodemap_wf (el_nodeMap (bootstrapExisting env mf regs s).2).
Proof.
  intros Hs. rewrite /bootstrapExisting.
  pose proof (boot_existing_wf env (mf_ETag mf) (mf_ClusterID mf) regs
                (Some (mf_Members mf, false, el_nodeMap s))) as Hwf.
  destruct (foldl _ _ regs) as [[[m w] nm]|]; [|done].
  specialize (Hwf ltac:(by intros x [= <-]) _ eq_refl). cbn in Hwf.
  destruct w; [destruct (WriteMembersFile _ _ _) as [[|] ?]|]; done.
Qed.

Lemma Elector_Bootstrap_wf env s :
  nodemap_wf (el_nodeMap s) → nodemap_wf (el_nodeMap (Elector_Bootstrap env s).2).
Proof.
  intros Hs. rewrite /Elector_Bootstrap. set (s1 := with_store _ s).
  destruct (ListNodeRegistrations _ _ _) as [regs|]; [|by repeat case_match].
  pose proof (bootstrapFirstElector_wf env regs s1 Hs) as H1.
  destruct (ReadMembersFile _ _) as [mf|[[]| | | | | | | |]]; try done.
  - pose proof (bootstrapExisting_wf env mf regs s1 Hs) as H2.
    by destruct (bootstrapExisting env mf regs s1) as [[|] s2].
  - by destruct (bootstrapFirstElector env regs s1) as [[|] s2].
Qed.

Lemma checkNodeHealth_wf env s :
  (∀ m, nodemap_wf m → nodemap_wf (he_meanwhile env m)) →
  nodemap_wf (el_nodeMap s) → nodemap_wf (el_nodeMap (checkNodeHealth env s).1.1).
Proof.
  intros Hmw Hs. rewrite /checkNodeHealth. case_match; [done|].
  set (l1 := ne_NodeID <$> _). set (l2 := ne_NodeID <$> _).
  set (s0 := with_nodeMap _ s).
  assert (nodemap_wf (el_nodeMap (foldl (auto_deregister env) (foldl (mark_degraded env) s0 l1) l2))) as Hwf.
  { apply auto_deregister_fold, mark_degraded_fold. by apply Hmw. }
  case_match; [done|]. case_match; [|done]. cbn zeta.
  by rewrite (proj1 (proj2 (clearPrimary_effect (he_dial env) (he_order env) _))).
Qed.

Lemma election_round_nodeMap env s s' callback pushes :
  election_round env s = Some (s', callback, pushes) → el_nodeMap s' = el_nodeMap s.
Proof.
  rewrite /election_round. case_match; [by intros [= <- _ _]|].
  rewrite /electPrimaryOnce. destruct (checkPreviousPrimary env s) as [[r s1]|] eqn:Ep; [|done].
  assert (el_nodeMap s1 = el_nodeMap s) as E1.
  { revert Ep. rewrite /checkPreviousPrimary /checkLocalPreviousPrimary.
    case_bool_decide; [by intros [= _ <-]|]. case_bool_decide; [case_match; by intros [= _ <-]|].
    induction (ee_polls env) as [|q polls IH]; [done|]. cbn [poll_previous].
    repeat case_match; try done; by intros [= _ <-]. }
  destruct r; [|by intros [= <- _ _]]. destruct (collectNodeStates env s1); [|by intros [= <- _ _]].
  destruct (choose _) as [elected|]; [|by intros [= <- _ _]]. intros [= Hp].
  pose proof (pushClusterState_effect (ee_dial env) (ee_order env) elected
                (storePreviousPrimary NodeInfo_zero s1)) as (_ & E2 & _).
  rewrite Hp in E2. cbn in E2. congruence.
Qed.

(** In every reachable state of an Elector, whatever is called and in
    whatever order leadership is gained and lost, each entry of the node map is
    kept under its own node id, so that no node is counted or contacted twice. *)
Theorem nodemap_invariant cfg store st peers s :
  rtc elector_step (NewElector cfg store st peers) s →
  nodemap_wf (el_nodeMap s) ∧
  ∀ order, (∀ l, order l ≡ₚ l) →
    NoDup (ne_NodeID <$> NodeMap_All order (el_nodeMap s)) ∧
    Z.of_nat (length (NodeMap_All order (el_nodeMap s))) = NodeMap_Count (el_nodeMap s).
Proof.
  intros Hr. assert (nodemap_wf (el_nodeMap s)) as Hwf.
  { refine (rtc_invariant elector_step (λ s, nodemap_wf (el_nodeMap s)) _ _ _ Hr (map_Forall_empty _)).
    intros x y Hstep Hx. destruct Hstep.
    - rewrite /RegisterNode. repeat case_match; cbn; auto with netsy.
    - rewrite /Elector_SendHeartbeat. case_match; [done|]. case_match; [done|].
      destruct (NodeMap_UpdateHeartbeat _ _ _ _ _ _ _) as [[] nm] eqn:Eu; [|done].
      change (nodemap_wf (true, nm).2). rewrite -Eu. by apply NodeMap_UpdateHeartbeat_wf.
    - rewrite /DeregisterNode. case_match; [done|]. case_match; [done|].
      assert (nodemap_wf (NodeMap_Remove nodeID (MarkDeregistered nodeID (el_nodeMap s0)))) as Hm
        by (apply NodeMap_Remove_wf; done).
      case_match; [|done]. destruct (clearPrimary dial order _) as [[s1 cb] ps] eqn:Ec. cbn.
      pose proof (clearPrimary_effect dial order (with_nodeMap (NodeMap_Remove nodeID (MarkDeregistered nodeID (el_nodeMap s0))) s0)) as (_ & E & _).
      rewrite Ec in E. cbn in E. by rewrite E.
    - by apply checkNodeHealth_wf.
    - by rewrite (election_round_nodeMap _ _ _ _ _ H).
    - by apply Elector_Bootstrap_wf.
    - done.
    - rewrite /onAcquireLeadership. repeat case_match; done.
    - apply map_Forall_empty. }
  split; [done|]. intros order Ho. split; [by apply NodeMap_All_NoDup|].
  by rewrite NodeMap_All_length.
Qed.
End elector.
