(* ===== verification/ElectorExamples.v ===== *)
(** * The Elector on concrete inputs, and where it departs from its comments *)

From S2P Require Import Prelude NodeState Records LocalDB Storage DataFile ExampleCodec DataStore.
From S2P Require Import Discovery PeerClient NodeMap Elector Election MembersTheorems.
From S2P Require Import ElectionTheorems ElectionSafety ElectorTheorems.

#[local] Open Scope Z_scope.

#[local] Existing Instance example_json.
#[local] Existing Instance example_codec.
#[local] Hint Extern 0 (ObjectStorage MemoryStore) =>
  exact (MemoryStore_ObjectStorage content_etag) : typeclass_instances.
#[local] Hint Extern 0 (ObjectStorageLaws MemoryStore) =>
  exact content_store_laws : typeclass_instances.

(** ** Witnesses *)

(** n1 is the Primary and has missed its heartbeats; n2, Degraded for long, is
    deregistered. *)
Definition unhealthy_nodes : gmap string NodeEntry :=
  list_to_map
    [("n1", mkNodeEntry "n1" 1 "cn1" "pn1" 0 None HealthHealthy PrimaryActive 4 0);
     ("n2", mkNodeEntry "n2" 2 "cn2" "pn2" 90 (Some 1) HealthDegraded PrimaryReplica 4 0);
     ("n3", mkNodeEntry "n3" 3 "cn3" "pn3" 98 None HealthHealthy PrimaryReplica 4 0)].

Definition unhealthy_elector : Elector MemoryStore :=
  mkElector (mkElectorConfig "c" 10 50 3 "n3" 0 (-1) 5)
    (WriteNodeRegistration true PutOk ∅ example_reg2).2
    (mkState HealthHealthy ElectorLeader PrimaryReplica
       (mkClusterState (mkNodeInfo "n3" 3 "pn3") (mkNodeInfo "n1" 1 "pn1") 3) 4 0 3)
    (mkNodeMap unhealthy_nodes true ∅) (NewPeerManager "n3" true) None false.

Definition check_env (now : Z) : health_env :=
  mkHealthEnv now id id (λ _, now) (λ _, PutOk) (λ _, true).

Lemma unhealthy_wf : nodemap_wf (el_nodeMap unhealthy_elector).
Proof.
  apply (bool_decide_unpack (map_Forall (λ id e, ne_NodeID e = id) unhealthy_nodes)). by vm_compute.
Qed.

Lemma checkNodeHealth_exact_witness :
  let s' := (checkNodeHealth (check_env 100) unhealthy_elector).1.1 in
  (∀ id, nm_nodes (el_nodeMap s') !! id
         = unhealthy_nodes !! id ≫= checked_entry (check_env 100) unhealthy_elector id) ∧
  loadPreviousPrimary s' = mkNodeInfo "n1" 1 "pn1".
Proof.
  destruct (checkNodeHealth_exact (check_env 100) unhealthy_elector (λ l, reflexivity l) (λ m, eq_refl)
              unhealthy_wf eq_refl) as (Hmap & _ & Hprim).
  split; [exact Hmap|]. exact (proj2 Hprim).
Defined.

Lemma nodemap_invariant_witness :
  nodemap_wf (el_nodeMap (Elector_Bootstrap quiet_boot
    (NewElector example_elector_cfg example_boot_store State_New (NewPeerManager "n1" true))).2).
Proof.
  exact (proj1 (nodemap_invariant example_elector_cfg example_boot_store State_New (NewPeerManager "n1" true) _
    (rtc_once _ _ (es_bootstrap quiet_boot _)))).
Defined.

Definition slow_polls : list poll :=
  (λ i, mkPoll (Z.of_nat i * poll_interval) None false) <$> seq 0 6.

Lemma electPrimaryOnce_terminates_witness :
  ∃ r s', electPrimaryOnce (sample_env HealthHealthy slow_polls)
            (sample_elector (-1) (Some (mkNodeInfo "n1" 1 "pn1"))) = Some (r, s').
Proof.
  apply (electPrimaryOnce_terminates (sample_env HealthHealthy slow_polls)
           (sample_elector (-1) (Some (mkNodeInfo "n1" 1 "pn1")))).
  - vm_compute. repeat split; discriminate.
  - by vm_compute.
  - simpl. lia.
Defined.


(** ** Departures *)

(** A Primary that gave up leadership after an object-storage failure reports
    Replica, but as long as its heartbeats arrive the Elector keeps it as
    Primary: no health check clears it and no election takes place. *)
Lemma resigned_primary_not_replaced {OS} `{ObjectStorage OS} env eenv (s : Elector OS) e :
  (∀ l, he_order env l ≡ₚ l) → (∀ m, he_meanwhile env m = m) → nodemap_wf (el_nodeMap s) →
  let p := NodeID (cs_Primary (cluster (el_state s))) in
  p ≠ "" → nm_nodes (el_nodeMap s) !! p = Some e →
  ne_HealthState e = HealthHealthy → ne_PrimaryState e = PrimaryReplica →
  he_now env - ne_LastHeartbeat e < degradationDeadline s →
  cluster (el_state (checkNodeHealth env s).1.1) = cluster (el_state s) ∧
  election_round eenv s = Some (s, None, []).
Proof.
  intros Ho Hmw Hwf p Hp He Hh _ Hfresh. split.
  - rewrite /checkNodeHealth. case_match; [done|]. rewrite Hmw.
    set (l1 := ne_NodeID <$> _). set (l2 := ne_NodeID <$> _). set (s0 := with_nodeMap _ s).
    destruct (mark_degraded_fold env l1 s0) as (_ & A2 & _).
    destruct (auto_deregister_fold env l2 (foldl (mark_degraded env) s0 l1)) as (B1 & _).
    rewrite !B1 !A2. cbn [el_state with_nodeMap s0]. fold p.
    rewrite (bool_decide_eq_false_2 (p = "")) //.
    rewrite (bool_decide_eq_false_2 (p ∈ l1)).
    { rewrite (flagged_ids (he_order env) s (missed_heartbeats (he_now env) s)) //.
      intros (e' & He' & Hm). rewrite He in He'. injection He' as <-.
      rewrite /missed_heartbeats in Hm. apply andb_true_iff in Hm as [_ Hm]. bool_to_prop. lia. }
    rewrite (bool_decide_eq_false_2 (p ∈ l2)).
    { rewrite (flagged_ids (he_order env) s (degraded_too_long (he_now env) s)) //.
      intros (e' & He' & Hm). rewrite He in He'. injection He' as <-.
      rewrite /degraded_too_long Hh in Hm. done. }
    cbn. by rewrite B1 A2.
  - rewrite /election_round /needsPrimaryElection. by rewrite (bool_decide_eq_false_2 (_ = "")).
Qed.

(** A node that reports itself Degraded has no [DegradedAt]: it is never
    deregistered automatically. *)
Lemma self_degraded_never_deregistered {OS} now (s : Elector OS) e :
  ne_DegradedAt e = None → degraded_too_long now s e = false.
Proof. intros E. by rewrite /degraded_too_long E andb_false_r. Qed.

(** A node marked Degraded that recovers keeps its [DegradedAt]; when it reports
    itself Degraded much later it is deregistered at the next check. *)
Lemma stale_degraded_at :
  let m0 := mkNodeMap {["n2" := mkNodeEntry "n2" 2 "c" "p" 0 None HealthHealthy PrimaryReplica 0 0]} true ∅ in
  let m1 := (SetHealthState 40 "n2" HealthDegraded m0).2 in
  let m2 := (NodeMap_UpdateHeartbeat "n2" 45 HealthHealthy PrimaryReplica 0 0 m1).2 in
  let m3 := (NodeMap_UpdateHeartbeat "n2" 1000 HealthDegraded PrimaryReplica 0 0 m2).2 in
  option_map (degraded_too_long 1001 unhealthy_elector) (nm_nodes m3 !! "n2") = Some true.
Proof. by vm_compute. Qed.

(** [DeregisterNode] leaves object storage alone: the registration file stays,
    although the comment says it is deleted. *)
Lemma DeregisterNode_keeps_file {OS} dial order nodeID (s : Elector OS) :
  el_store (DeregisterNode dial order nodeID s).1.1.2 = el_store s.
Proof.
  rewrite /DeregisterNode. case_match; [done|]. case_match; [done|]. case_match; [|done].
  set (s1 := with_nodeMap _ s). destruct (clearPrimary dial order s1) as [[s2 cb] ps] eqn:E.
  pose proof (clearPrimary_effect dial order s1) as (Hs & _). rewrite E in Hs. done.
Qed.

(** With one node in the map nothing is pushed, even when that node is not this
    one. *)
Lemma single_remote_not_pushed :
  let m := mkNodeMap {["n2" := mkNodeEntry "n2" 2 "c" "pn2" 0 None HealthHealthy PrimaryReplica 0 0]} true ∅ in
  let s := with_nodeMap m (example_elector ∅) in
  (pushClusterState (λ _, true) id (mkNodeInfo "n2" 2 "pn2") s).2 = [].
Proof. by vm_compute. Qed.

(** A bootstrap that ends after leadership was lost makes the map ready on a
    node that is no longer the Elector, with entries a later term starts from. *)
Lemma late_bootstrap_is_ready :
  let r := mkRunner "n1" "pn1" (example_elector example_boot_store) true in
  let s := (Elector_Bootstrap quiet_boot (rn_server (onLoseLeadership r))).2 in
  elector (el_state s) = ElectorFollower ∧ nm_ready (el_nodeMap s) = true ∧
  is_Some (nm_nodes (el_nodeMap s) !! "n2").
Proof. vm_compute. eauto. Qed.

(** [WaitForFirstElection] stores the election-health address as the Elector's
    peer address. *)
Lemma first_election_stores_health_addr (r : Runner MemoryStore) id addr :
  cs_Elector (cluster (el_state (rn_server (WaitForFirstElection (mkLeadershipStatus false id addr) r).1.2)))
  = mkNodeInfo id 0 addr.
Proof. done. Qed.
