(* ===== verification/Detector.v ===== *)
(** * Failure detection: heartbeats against a checking loop

    Two places decide from heartbeats whether a node is up: the Primary's
    tracker of Replicas (primary/server.go, [RunDegradationLoop]) and the
    Elector's node map (elector/healthcheck.go, [runHealthCheckLoop]).  Both
    are detectors in the sense of the class below.  What a detector promises
    over a whole run, heartbeats and checks in any order, is proved once
    against the class; for the Elector it decides when the Primary is given
    up. *)

From S2P Require Import Prelude NodeState Records LocalDB Storage DataFile ExampleCodec DataStore.
From S2P Require Import Discovery Quorum PeerClient NodeMap Elector Election MembersTheorems.
From S2P Require Import ElectionTheorems ElectionSafety ElectorTheorems ElectorExamples.

#[local] Open Scope Z_scope.

(** ** The interface *)

(** A beat carries the node, whether it says it is well, and its time of
    arrival.  [d_view] is what the detector holds of a node: whether it is up
    and when it was last heard of. *)
Class Detector (S B C : Type) := {
  d_beat : B → S → S;
  d_check : C → S → S;
  d_node : B → string;
  d_well : B → bool;
  d_time : B → Z;
  d_at : C → Z;
  d_view : string → S → option (bool * Z);
  d_ok : S → Prop;
  d_beat_ok : B → Prop;
  d_check_ok : C → Prop;
}.

Class DetectorLaws {S B C : Type} `{!Detector S B C} (deadline : Z) : Prop := {
  d_ok_beat b s : d_ok s → d_beat_ok b → d_ok (d_beat b s);
  d_ok_check c s : d_ok s → d_check_ok c → d_ok (d_check c s);
  d_view_beat id b s :
    d_ok s → d_beat_ok b →
    d_view id (d_beat b s)
      = if bool_decide (d_node b = id) then (λ _, (d_well b, d_time b)) <$> d_view id s else d_view id s;
  d_view_check id c s u t :
    d_ok s → d_check_ok c → d_view id (d_check c s) = Some (u, t) →
    ∃ u0, d_view id s = Some (u0, t) ∧ (u = true → u0 = true ∧ d_at c - t < deadline);
  d_view_fresh id c s t :
    d_ok s → d_check_ok c → d_view id s = Some (true, t) → d_at c - t < deadline →
    d_view id (d_check c s) = Some (true, t);
}.

(** ** Runs *)

Section runs.
  Context {S B C : Type} `{!Detector S B C}.

(** A round of the loop: the beats that arrive while it sleeps, then a check. *)
Definition rounds : Type := list (list B * C).

Definition run_beats (beats : list B) (s : S) : S := foldl (λ s b, d_beat b s) s beats.
Definition run_round (s : S) (r : list B * C) : S := d_check r.2 (run_beats r.1 s).
Definition run_rounds (rs : rounds) (s : S) : S := foldl run_round s rs.

Definition round_ok (r : list B * C) : Prop := Forall d_beat_ok r.1 ∧ d_check_ok r.2.

(** When the node was last heard of, and whether it was well then. *)
Definition heard_beats (id : string) (beats : list B) (h : bool * Z) : bool * Z :=
  foldl (λ h b, if bool_decide (d_node b = id) then (d_well b, d_time b) else h) h beats.
Definition heard (id : string) (rs : rounds) (h : bool * Z) : bool * Z :=
  foldl (λ h r, heard_beats id r.1 h) h rs.

(** At every check the node was well when last heard, less than [deadline] ago. *)
Fixpoint on_time (deadline : Z) (id : string) (rs : rounds) (h : bool * Z) : Prop :=
  match rs with
  | [] => True
  | r :: rs =>
      let h := heard_beats id r.1 h in
      h.1 = true ∧ d_at r.2 - h.2 < deadline ∧ on_time deadline id rs h
  end.

  Context (deadline : Z) {L : DetectorLaws (S := S) (B := B) (C := C) deadline}.

Lemma run_beats_view id beats s :
  d_ok s → Forall d_beat_ok beats →
  d_ok (run_beats beats s) ∧ d_view id (run_beats beats s) = heard_beats id beats <$> d_view id s.
Proof using L.
  revert s. induction beats as [|b beats IH]; intros s Hs Hb; [split; [done|]; cbn; by destruct (d_view id s)|].
  apply Forall_cons in Hb as [Hb1 Hb]. cbn [run_beats heard_beats foldl].
  destruct (IH (d_beat b s)) as [Ho Hv]; [by apply d_ok_beat|done|]. split; [done|].
  rewrite /run_beats in Hv. rewrite Hv d_view_beat //. rewrite /heard_beats. destruct (d_view id s) as [h|]; cbn; by case_bool_decide.
Qed.

Lemma run_round_ok s r : d_ok s → round_ok r → d_ok (run_round s r).
Proof using L. intros Hs [Hb Hc]. apply d_ok_check; [|done]. by apply (run_beats_view ""). Qed.

Lemma run_rounds_ok rs s : d_ok s → Forall round_ok rs → d_ok (run_rounds rs s).
Proof using L.
  revert s. induction rs as [|r rs IH]; intros s Hs Hr; [done|]. apply Forall_cons in Hr as [Hr1 Hr].
  apply IH; [by apply run_round_ok|done].
Qed.

(** No false suspicion: a node heard of in time stays up. *)
Lemma detector_accurate id rs s h :
  d_ok s → Forall round_ok rs → d_view id s = Some h → h.1 = true → on_time deadline id rs h →
  d_view id (run_rounds rs s) = Some (heard id rs h) ∧ (heard id rs h).1 = true.
Proof using L.
  revert s h. induction rs as [|r rs IH]; intros s h Hs Hr Hv Hu Ht; [done|].
  apply Forall_cons in Hr as [Hr1 Hr]. cbn [on_time] in Ht. destruct Ht as (Hw & Hd & Ht).
  cbn [run_rounds heard foldl]. apply IH; [by apply run_round_ok|done| |done|done].
  destruct Hr1 as [Hb Hc]. destruct (run_beats_view id r.1 s Hs Hb) as [Ho Hv']. rewrite Hv in Hv'. cbn in Hv'.
  destruct (heard_beats id r.1 h) as [u t]. cbn in *. subst u. by apply d_view_fresh.
Qed.

Lemma heard_beats_mono id beats (x y : bool * Z) :
  x.2 = y.2 → (x.1 = true → y.1 = true) →
  (heard_beats id beats x).2 = (heard_beats id beats y).2 ∧
  ((heard_beats id beats x).1 = true → (heard_beats id beats y).1 = true).
Proof using Type.
  revert x y. induction beats as [|b beats IH]; intros x y H2 H1; [done|]. cbn [heard_beats foldl].
  apply IH; by case_bool_decide.
Qed.

(** What is held of a node is what was heard last. *)
Lemma detector_heard id rs s u t :
  d_ok s → Forall round_ok rs → d_view id (run_rounds rs s) = Some (u, t) →
  ∃ h, d_view id s = Some h ∧ t = (heard id rs h).2 ∧ (u = true → (heard id rs h).1 = true).
Proof using L.
  revert u t. induction rs as [|r rs IH] using rev_ind; intros u t Hs Hr Hf; [by exists (u, t)|].
  apply Forall_app in Hr as [Hr [[Hb Hc] _]%Forall_cons].
  rewrite /run_rounds foldl_snoc in Hf. fold (run_rounds rs s) in Hf.
  destruct (run_beats_view id r.1 (run_rounds rs s) (run_rounds_ok rs s Hs Hr) Hb) as [Ho Hv].
  destruct (d_view_check _ _ _ _ _ Ho Hc Hf) as (u0 & Hu0 & Hu). rewrite Hv in Hu0.
  apply fmap_Some in Hu0 as ([u1 t1] & E & Hu0). destruct (IH u1 t1 Hs Hr E) as (h & Hh & -> & Hu1).
  exists h. split; [done|]. rewrite /heard foldl_snoc. fold (heard id rs h).
  destruct (heard_beats_mono id r.1 (u1, (heard id rs h).2) (heard id rs h) eq_refl Hu1) as [M2 M1].
  rewrite -Hu0 /= in M2 M1. split; [done|]. intros Hut. by apply M1, Hu.
Qed.

Lemma heard_silent id rs h :
  Forall (λ r, Forall (λ b, d_node b ≠ id) r.1) rs → heard id rs h = h.
Proof using Type.
  induction rs as [|r rs IH]; intros Hf; [done|]. apply Forall_cons in Hf as [Hr Hf].
  cbn [heard foldl]. rewrite (_ : heard_beats id r.1 h = h); [|by apply IH].
  induction r.1 as [|b beats IHb]; [done|]. apply Forall_cons in Hr as [Hb Hr]. cbn [heard_beats foldl].
  rewrite bool_decide_eq_false_2 //. by apply IHb.
Qed.

(** Detection: once a check comes [deadline] after the node was last heard, it
    is not up again before it is heard again. *)
Lemma detector_complete id rs1 r rs2 s h :
  d_ok s → Forall round_ok (rs1 ++ r :: rs2) → d_view id s = Some h →
  Forall (λ r, Forall (λ b, d_node b ≠ id) r.1) rs2 →
  deadline ≤ d_at r.2 - (heard id (rs1 ++ [r]) h).2 →
  ∀ t, d_view id (run_rounds (rs1 ++ r :: rs2) s) ≠ Some (true, t).
Proof using L.
  intros Hs Hr Hv Hq Hd t. rewrite cons_middle app_assoc in Hr |- *. apply Forall_app in Hr as [Hr1 Hr2].
  rewrite /run_rounds foldl_app. fold (run_rounds (rs1 ++ [r]) s). intros Hf.
  pose proof (run_rounds_ok _ s Hs Hr1) as Ho.
  destruct (detector_heard id rs2 _ _ _ Ho Hr2 Hf) as ([u t1] & E & -> & Hu).
  rewrite heard_silent // in Hu. rewrite (Hu eq_refl : u = true) in E. clear Hu Hf.
  destruct (detector_heard _ _ _ _ _ Hs Hr1 E) as (h' & Hh' & -> & _). rewrite Hv in Hh'. injection Hh' as <-.
  apply Forall_app in Hr1 as [Hr1 [[Hb Hc] _]%Forall_cons]. rewrite {1}/run_rounds foldl_snoc in E.
  destruct (run_beats_view id r.1 _ (run_rounds_ok rs1 s Hs Hr1) Hb) as [Ho1 _].
  destruct (d_view_check _ _ _ _ _ Ho1 Hc E) as (u0 & _ & Hu0). destruct (Hu0 eq_refl). lia.
Qed.
End runs.

(** ** The Primary's Replicas *)

Section replicas.
  Context (degradationCount heartbeatInterval : Z).

(** A heartbeat or a Receipt of a Replica. *)
Record replica_beat := mkReplicaBeat {
  rb_now : Z;
  rb_node : string;
  rb_health : HealthState;
  rb_primary : PrimaryState;
  rb_revision : Z;
  rb_receipt : bool;
}.

Definition replica_update (b : replica_beat) (m : Replicas) : Replicas :=
  (if rb_receipt b
   then UpdateReceipt (rb_now b) (rb_node b) (rb_health b) (rb_primary b) (rb_revision b) m
   else UpdateHeartbeat (rb_now b) (rb_node b) (rb_health b) (rb_primary b) (rb_revision b) m).2.

Definition clock_ok (t : Z) : Prop := 0 ≤ t ≤ int64_max.

#[global] Instance Replicas_Detector : Detector Replicas replica_beat Z := {|
  d_beat := replica_update;
  d_check now := checkDegradation now degradationCount heartbeatInterval;
  d_node := rb_node;
  d_well b := bool_decide (rb_health b ≠ HealthDegraded);
  d_time := rb_now;
  d_at now := now;
  d_view id m := (λ e, (bool_decide (Replica_Health e ≠ HealthDegraded), LastHeartbeat e)) <$> (m : gmap string Replica) !! id;
  d_ok m := map_Forall (λ _ e, clock_ok (LastHeartbeat e)) m;
  d_beat_ok b := clock_ok (rb_now b);
  d_check_ok := clock_ok;
|}.

(** The loop of [RunDegradationLoop] until it is cancelled; with no interval it
    returns at once and only the beats happen. *)
Definition RunDegradationLoop (rs : rounds) (m : Replicas) : Replicas :=
  if heartbeatInterval =? 0 then foldl (λ m r, run_beats r.1 m) m rs else run_rounds rs m.

Lemma replica_update_lookup id b (m : gmap string Replica) :
  (λ e, (bool_decide (Replica_Health e ≠ HealthDegraded), LastHeartbeat e))
    <$> (replica_update b m : gmap string Replica) !! id
    = if bool_decide (rb_node b = id)
      then (λ _, (bool_decide (rb_health b ≠ HealthDegraded), rb_now b)) <$> m !! id
      else (λ e, (bool_decide (Replica_Health e ≠ HealthDegraded), LastHeartbeat e)) <$> m !! id.
Proof.
  rewrite /replica_update /UpdateReceipt /UpdateHeartbeat. unfold Replicas in *. case_bool_decide as E.
  - subst. destruct (m !! rb_node b) as [e|] eqn:Em, (rb_receipt b); cbn; rewrite ?Em // lookup_insert_eq /=;
      by destruct (rb_health b), (rb_primary b).
  - by destruct (m !! rb_node b), (rb_receipt b); cbn; rewrite ?lookup_insert_ne.
Qed.

#[global] Instance Replicas_DetectorLaws :
  int64 (degradationCount * heartbeatInterval) →
  DetectorLaws (S := Replicas) (degradationCount * heartbeatInterval).
Proof.
  intros Hd.
  assert (∀ now e, clock_ok now → clock_ok (LastHeartbeat e) →
    (wrap64 (now - LastHeartbeat e) <? wrap64 (degradationCount * heartbeatInterval)) = true ↔
    now - LastHeartbeat e < degradationCount * heartbeatInterval) as Hlt.
  { intros now e Hn He. rewrite !wrap64_id //; [|apply Z.ltb_lt]. rewrite /clock_ok in Hn, He. solve_int64. }
  split; cbn.
  - intros b m Hm Hb id e He. pose proof (replica_update_lookup id b m) as Hl. rewrite He /= in Hl.
    destruct (bool_decide (rb_node b = id)); symmetry in Hl; apply fmap_Some in Hl as (e' & He' & [= _ ->]);
      [done|]. by apply (Hm id).
  - intros now m Hm Hn id e. rewrite lookup_fmap. intros (e' & He' & ->)%fmap_Some.
    pose proof (Hm _ _ He'). destruct (decide _); [done|]. by destruct (_ <? _).
  - intros id b m Hm Hb. rewrite replica_update_lookup. unfold Replicas in *.
    case_bool_decide; [|done]. by destruct (m !! id).
  - intros id now m u t Hm Hn. rewrite lookup_fmap. unfold Replicas in *.
    destruct (m !! id) as [e|] eqn:E; [|done].
    specialize (Hm _ _ E). pose proof (Hlt now e Hn Hm) as Hl. cbn. destruct (decide _) as [Ed|Ed].
    + intros [= <- <-]. eexists. split; [reflexivity|]. by intros ?%bool_decide_eq_true.
    + destruct (_ <? _) eqn:Eb; intros [= <- <-]; eexists; (split; [reflexivity|]).
      * intros ?. split; [done|]. by apply Hl.
      * done.
  - intros id now m t Hm Hn. rewrite lookup_fmap. unfold Replicas in *.
    destruct (m !! id) as [e|] eqn:E; [|done].
    specialize (Hm _ _ E). pose proof (Hlt now e Hn Hm) as Hl. cbn. intros [= Hu <-] Hf.
    apply bool_decide_eq_true in Hu. rewrite decide_False // (proj2 Hl Hf). by rewrite bool_decide_eq_true_2.
Qed.
End replicas.

(** ** The Elector's nodes *)

Section elector.
  Context {OS : Type} `{HS : ObjectStorage OS} `{HJ : JSON} `{HC : Codec}.
  Implicit Types s : Elector OS.

Definition entry_up (e : NodeEntry) : bool * Z :=
  (bool_decide (ne_HealthState e ≠ HealthDegraded), ne_LastHeartbeat e).

(** An Elector in office that has loaded its node map. *)
Definition in_office (cfg : ElectorConfig) s : Prop :=
  nodemap_wf (el_nodeMap s) ∧ nm_ready (el_nodeMap s) = true ∧ elector (el_state s) = ElectorLeader ∧ el_cfg s = cfg.

Definition elector_check_ok (env : health_env) : Prop :=
  (∀ l, he_order env l ≡ₚ l) ∧ ∀ m, he_meanwhile env m = m.

Instance Elector_Detector (cfg : ElectorConfig) : Detector (Elector OS) (Z * pb_NodeState) health_env := {|
  d_beat b s := (Elector_SendHeartbeat b.1 b.2 s).1.2;
  d_check env s := (checkNodeHealth env s).1.1;
  d_node b := ns_NodeId b.2;
  d_well b := bool_decide (HealthFromProto (ns_HealthState b.2) ≠ HealthDegraded);
  d_time b := b.1;
  d_at := he_now;
  d_view id s := entry_up <$> nm_nodes (el_nodeMap s) !! id;
  d_ok := in_office cfg;
  d_beat_ok b := ns_NodeId b.2 ≠ "";
  d_check_ok := elector_check_ok;
|}.

(** The loop of [runHealthCheckLoop] until it is cancelled. *)
Definition runHealthCheckLoop (cfg : ElectorConfig) (rs : list (list (Z * pb_NodeState) * health_env)) s
    : Elector OS :=
  if ec_heartbeatInterval cfg =? 0
  then foldl (λ s r, run_beats (Detector0 := Elector_Detector cfg) r.1 s) s rs
  else run_rounds (Detector0 := Elector_Detector cfg) rs s.

(** A heartbeat changes the entry of its node and nothing else. *)
Lemma Elector_SendHeartbeat_effect now req s :
  elector (el_state s) = ElectorLeader → ns_NodeId req ≠ "" →
  let s' := (Elector_SendHeartbeat now req s).1.2 in
  el_cfg s' = el_cfg s ∧ el_state s' = el_state s ∧ el_previousPrimary s' = el_previousPrimary s ∧
  nm_ready (el_nodeMap s') = nm_ready (el_nodeMap s) ∧
  (nodemap_wf (el_nodeMap s) → nodemap_wf (el_nodeMap s')) ∧
  ∀ id, entry_up <$> nm_nodes (el_nodeMap s') !! id
        = if bool_decide (ns_NodeId req = id)
          then (λ _, (bool_decide (HealthFromProto (ns_HealthState req) ≠ HealthDegraded), now))
                 <$> nm_nodes (el_nodeMap s) !! id
          else entry_up <$> nm_nodes (el_nodeMap s) !! id.
Proof.
  intros Hl Hne. cbn zeta. rewrite /Elector_SendHeartbeat /requireLeader Hl bool_decide_eq_true_2 //.
  rewrite bool_decide_eq_false_2 //. cbn [negb].
  pose proof (NodeMap_UpdateHeartbeat_wf (ns_NodeId req) now (HealthFromProto (ns_HealthState req))
    (PrimaryFromProto (ns_PrimaryState req)) (ns_LatestRevision req) (ns_StartTime req) (el_nodeMap s)) as Hwf.
  revert Hwf. rewrite /NodeMap_UpdateHeartbeat.
  destruct (nm_nodes (el_nodeMap s) !! ns_NodeId req) as [e|] eqn:E; cbn; intros Hwf; split_and!; try done.
  - intros id. case_bool_decide; [|by rewrite lookup_insert_ne]. subst. by rewrite lookup_insert_eq E.
  - intros id. case_bool_decide; [|done]. subst. by rewrite E.
Qed.

Lemma checked_entry_up env s id e :
  entry_up <$> checked_entry env s id e =
    if missed_heartbeats (he_now env) s e then Some (false, ne_LastHeartbeat e)
    else if degraded_too_long (he_now env) s e then None else Some (entry_up e).
Proof. rewrite /checked_entry. by repeat case_match. Qed.

Lemma checkNodeHealth_in_office `{L : !ObjectStorageLaws OS} cfg env s :
  in_office cfg s → elector_check_ok env → in_office cfg (checkNodeHealth env s).1.1.
Proof.
  intros (Hwf & Hr & Hl & Hc) [Ho Hm]. destruct (checkNodeHealth_frame env s Hm) as (E1 & E2 & E3).
  split_and!; [|by rewrite E2|by rewrite E3|by rewrite E1].
  apply checkNodeHealth_wf; [|done]. intros m Hwm. by rewrite Hm.
Qed.

Instance Elector_DetectorLaws `{L : !ObjectStorageLaws OS} (cfg : ElectorConfig) :
  int64 (ec_degradationCount cfg * ec_heartbeatInterval cfg) →
  DetectorLaws (S := Elector OS) (Detector0 := Elector_Detector cfg)
    (ec_degradationCount cfg * ec_heartbeatInterval cfg).
Proof.
  intros Hd.
  assert (∀ env s id, in_office cfg s → elector_check_ok env →
    entry_up <$> nm_nodes (el_nodeMap (checkNodeHealth env s).1.1) !! id =
      nm_nodes (el_nodeMap s) !! id ≫= λ e,
        if missed_heartbeats (he_now env) s e then Some (false, ne_LastHeartbeat e)
        else if degraded_too_long (he_now env) s e then None else Some (entry_up e)) as Hview.
  { intros env s id (Hwf & Hr & _) [Ho Hm]. destruct (checkNodeHealth_exact env s Ho Hm Hwf Hr) as [-> _].
    destruct (nm_nodes (el_nodeMap s) !! id) as [e|]; [|done]. apply checked_entry_up. }
  assert (∀ s, in_office cfg s → degradationDeadline s = ec_degradationCount cfg * ec_heartbeatInterval cfg) as Hdl.
  { intros s (_ & _ & _ & Hc). by rewrite /degradationDeadline Hc wrap64_id. }
  split; cbn.
  - intros b s (Hwf & Hr & Hl & Hc) Hb.
    destruct (Elector_SendHeartbeat_effect b.1 b.2 s Hl Hb) as (E1 & E2 & _ & E3 & Hw & _).
    split_and!; [by apply Hw|by rewrite E3|by rewrite E2|by rewrite E1].
  - intros env s Hs He. by apply checkNodeHealth_in_office.
  - intros id b s (_ & _ & Hl & _) Hb.
    destruct (Elector_SendHeartbeat_effect b.1 b.2 s Hl Hb) as (_ & _ & _ & _ & _ & ->).
    case_bool_decide; [|done]. by destruct (nm_nodes (el_nodeMap s) !! id).
  - intros id env s u t Hs He. rewrite Hview //. destruct (nm_nodes (el_nodeMap s) !! id) as [e|]; [|done].
    cbn. rewrite /missed_heartbeats Hdl // /entry_up.
    destruct (bool_decide (ne_HealthState e ≠ HealthDegraded)) eqn:Eh; cbn.
    + case_match; bool_to_prop; [by intros [= <- <-]; eexists|].
      case_match; [done|]. intros [= <- <-]. eexists. split; [reflexivity|]. intros _. split; [done|lia].
    + case_match; [done|]. intros [= <- <-]. by eexists.
  - intros id env s t Hs He. rewrite Hview //. destruct (nm_nodes (el_nodeMap s) !! id) as [e|]; [|done].
    cbn. rewrite /missed_heartbeats /degraded_too_long Hdl // /entry_up. intros [= Hu <-] Hf. rewrite Hu.
    apply bool_decide_eq_true in Hu. rewrite (bool_decide_eq_false_2 (ne_HealthState e = _)) // /=.
    case_match; bool_to_prop; [lia|done].
Qed.

(** ** Giving up the Primary *)

#[local] Notation run_beats cfg := (run_beats (Detector0 := Elector_Detector cfg)).
#[local] Notation run_rounds cfg := (run_rounds (Detector0 := Elector_Detector cfg)).

Lemma run_beats_state cfg beats s :
  in_office cfg s → Forall (λ b : Z * pb_NodeState, ns_NodeId b.2 ≠ "") beats →
  el_state (run_beats cfg beats s) = el_state s ∧
  el_previousPrimary (run_beats cfg beats s) = el_previousPrimary s.
Proof.
  revert s. induction beats as [|b beats IH]; intros s Hs Hb; [done|]. apply Forall_cons in Hb as [Hb1 Hb].
  destruct Hs as (Hwf & Hr & Hl & Hc).
  destruct (Elector_SendHeartbeat_effect b.1 b.2 s Hl Hb1) as (E1 & E2 & E3 & E4 & E5 & _).
  rewrite -E2 -E3. apply (IH (d_beat (Detector := Elector_Detector cfg) b s)); [|done]. cbn.
  split_and!; [by apply E5|by rewrite E4|by rewrite E2|by rewrite E1].
Qed.

  Context `{L : !ObjectStorageLaws OS} (cfg : ElectorConfig).
  Context (Hd : int64 (ec_degradationCount cfg * ec_heartbeatInterval cfg)).

Let deadline := ec_degradationCount cfg * ec_heartbeatInterval cfg.
Let D := Elector_Detector cfg.
Let DL : DetectorLaws (Detector0 := D) deadline := Elector_DetectorLaws cfg Hd.

(** What a check does to the Primary it has heard of last as [(u, t)]. *)
Lemma check_primary env s t :
  let p := cs_Primary (cluster (el_state s)) in
  let s' := (checkNodeHealth env s).1.1 in
  in_office cfg s → elector_check_ok env → NodeID p ≠ "" →
  entry_up <$> nm_nodes (el_nodeMap s) !! NodeID p = Some (true, t) →
  if he_now env - t <? deadline
  then el_state s' = el_state s ∧ el_previousPrimary s' = el_previousPrimary s
  else cs_Primary (cluster (el_state s')) = NodeInfo_zero ∧ loadPreviousPrimary s' = p.
Proof using Hd L.
  intros p s' (Hwf & Hr & Hl & Hc) [Ho Hm] Hp Hv.
  destruct (checkNodeHealth_exact env s Ho Hm Hwf Hr) as (_ & _ & He). fold p s' in He.
  rewrite (bool_decide_eq_true_2 (NodeID p ≠ "")) // andb_true_l in He.
  apply fmap_Some in Hv as (e & Hv & [= Hu Ht]).
  rewrite /flagged Hv /missed_heartbeats /degraded_too_long /degradationDeadline Hc wrap64_id // in He.
  rewrite -Hu in He. symmetry in Hu. apply bool_decide_eq_true in Hu.
  rewrite (bool_decide_eq_false_2 (ne_HealthState e = _)) // andb_true_l andb_false_l orb_false_r -Ht in He.
  fold deadline in He. rewrite Z.ltb_antisym. by destruct (_ <=? _).
Qed.

(** No check touches the cluster state while there is no Primary. *)
Lemma check_no_primary env s :
  in_office cfg s → elector_check_ok env → cs_Primary (cluster (el_state s)) = NodeInfo_zero →
  el_state (checkNodeHealth env s).1.1 = el_state s ∧
  el_previousPrimary (checkNodeHealth env s).1.1 = el_previousPrimary s.
Proof using L.
  intros (Hwf & Hr & Hl & Hc) [Ho Hm] Hp.
  destruct (checkNodeHealth_exact env s Ho Hm Hwf Hr) as (_ & _ & He). by rewrite Hp in He.
Qed.

Lemma run_no_primary rs s :
  in_office cfg s → Forall (round_ok (Detector0 := D)) rs → cs_Primary (cluster (el_state s)) = NodeInfo_zero →
  el_state (run_rounds cfg rs s) = el_state s ∧
  el_previousPrimary (run_rounds cfg rs s) = el_previousPrimary s.
Proof using DL.
  revert s. induction rs as [|r rs IH]; intros s Hs Hr Hp; [done|].
  apply Forall_cons in Hr as [[Hb Hc] Hr].
  destruct (run_beats_state cfg r.1 s Hs Hb) as [E1 E2].
  destruct (run_beats_view deadline (L := DL) "" r.1 s Hs Hb) as [Ho _].
  destruct (check_no_primary r.2 (run_beats cfg r.1 s) Ho Hc) as [E3 E4]; [by rewrite E1|].
  destruct (IH (run_round (Detector0 := D) s r)) as [E5 E6]; [by apply (run_round_ok deadline (L := DL))|done| |].
  - by rewrite /run_round /= E3 E1.
  - change (run_rounds cfg (r :: rs) s) with (run_rounds cfg rs (run_round (Detector0 := D) s r)).
    by rewrite E5 E6 /run_round /= E3 E4 E1 E2.
Qed.

(** The Primary stays while it is heard of in time. *)
Lemma run_primary_kept rs s h :
  let p := cs_Primary (cluster (el_state s)) in
  in_office cfg s → Forall (round_ok (Detector0 := D)) rs → NodeID p ≠ "" →
  entry_up <$> nm_nodes (el_nodeMap s) !! NodeID p = Some h → h.1 = true →
  on_time (Detector0 := D) deadline (NodeID p) rs h →
  el_state (run_rounds cfg rs s) = el_state s.
Proof using DL.
  cbn zeta. revert s h. induction rs as [|r rs IH]; intros s h Hs Hr Hp Hv Hu Ht; [done|].
  apply Forall_cons in Hr as [[Hb Hc] Hr]. cbn [on_time] in Ht. destruct Ht as (Hw & Ht1 & Ht).
  destruct (run_beats_state cfg r.1 s Hs Hb) as [E1 _].
  destruct (run_beats_view deadline (L := DL) (NodeID (cs_Primary (cluster (el_state s)))) r.1 s Hs Hb) as [Ho Hv1].
  cbn in Hv1. rewrite Hv in Hv1. cbn in Hv1. destruct (heard_beats _ r.1 h) as [u t] eqn:Eh. cbn in Hw, Ht1. subst u.
  pose proof (check_primary r.2 (run_beats cfg r.1 s) t) as Hk. cbn zeta in Hk. rewrite E1 in Hk.
  specialize (Hk Ho Hc Hp Hv1). rewrite (proj2 (Z.ltb_lt _ _) Ht1) in Hk. destruct Hk as [E2 _].
  pose proof (d_view_fresh (DetectorLaws := DL) _ _ _ _ Ho Hc Hv1 Ht1) as Hv2. cbn in Hv2.
  rewrite -[RHS]E2. apply (IH (run_round (Detector0 := D) s r) (true, t)); try done.
  - by apply (run_round_ok deadline (L := DL)).
  - by rewrite /run_round /= E2.
  - by rewrite /run_round /= E2.
  - by rewrite /run_round /= E2.
Qed.

End elector.

(** The Replicas' loop promises the Primary the same of each Replica. *)
Theorem RunDegradationLoop_detects count interval rs m id t0 e :
  int64 (count * interval) → interval ≠ 0 → map_Forall (λ _ e, clock_ok (LastHeartbeat e)) m →
  Forall (round_ok (Detector0 := Replicas_Detector count interval)) rs →
  m !! id = Some e → Replica_Health e ≠ HealthDegraded → LastHeartbeat e = t0 →
  let m' := RunDegradationLoop count interval rs m in
  (on_time (Detector0 := Replicas_Detector count interval) (count * interval) id rs (true, t0) →
   ∃ e', m' !! id = Some e' ∧ Replica_Health e' ≠ HealthDegraded) ∧
  (∀ rs1 r rs2, rs = rs1 ++ r :: rs2 → Forall (λ r, Forall (λ b, rb_node b ≠ id) r.1) rs2 →
     count * interval ≤
       r.2 - (heard (Detector0 := Replicas_Detector count interval) id (rs1 ++ [r]) (true, t0)).2 →
     ∀ e', m' !! id = Some e' → Replica_Health e' = HealthDegraded).
Proof.
  intros Hd Hi Hm Hr He Hh Ht. cbn zeta. rewrite /RunDegradationLoop (proj2 (Z.eqb_neq _ _) Hi).
  pose proof (Replicas_DetectorLaws count interval Hd) as DL.
  assert (d_view (Detector := Replicas_Detector count interval) id m = Some (true, t0)) as Hv.
  { cbn. unfold Replicas in *. rewrite He /= Ht. by rewrite bool_decide_eq_true_2. }
  split.
  - intros Hot. destruct (detector_accurate (count * interval) (L := DL) _ _ _ _ Hm Hr Hv eq_refl Hot) as [Hf Hu].
    revert Hf. cbn [d_view Replicas_Detector]. intros (e' & He' & E)%fmap_Some. exists e'. split; [done|].
    rewrite E in Hu. by apply bool_decide_eq_true in Hu.
  - intros rs1 r rs2 -> Hq Hl e' He'.
    pose proof (detector_complete (count * interval) (L := DL) id rs1 r rs2 m _ Hm Hr Hv Hq Hl (LastHeartbeat e')) as Hn.
    destruct (decide (Replica_Health e' = HealthDegraded)) as [|Hne]; [done|]. exfalso. apply Hn.
    cbn [d_view Replicas_Detector]. unfold Replicas in *. rewrite He' /=. by rewrite bool_decide_eq_true_2.
Qed.

(** ** On a concrete Elector *)

#[local] Existing Instance example_json.
#[local] Existing Instance example_codec.
#[local] Hint Extern 0 (ObjectStorage MemoryStore) =>
  exact (MemoryStore_ObjectStorage content_etag) : typeclass_instances.
#[local] Hint Extern 0 (ObjectStorageLaws MemoryStore) =>
  exact content_store_laws : typeclass_instances.

(** n1 beats at 20 and is then silent; the check at 60 is too late for it. *)
Definition detection_run : list (list (Z * pb_NodeState) * health_env) :=
  [([(20, mk_pb_NodeState "n1" HEALTH_HEALTHY ELECTOR_FOLLOWER PRIMARY_ACTIVE 4 0)], check_env 25);
   ([(55, mk_pb_NodeState "n3" HEALTH_HEALTHY ELECTOR_LEADER PRIMARY_REPLICA 4 0)], check_env 60)].


(** The scan and the marking are two critical sections: a heartbeat that
    arrives between them is recorded, and its node is marked Degraded and given
    up as Primary all the same. *)
Lemma heartbeat_during_check_ignored :
  let beat m := (NodeMap_UpdateHeartbeat "n1" 30 HealthHealthy PrimaryActive 4 0 m).2 in
  let env := mkHealthEnv 30 id beat (λ _, 30) (λ _, PutOk) (λ _, true) in
  let s' := (checkNodeHealth env unhealthy_elector).1.1 in
  (nm_nodes (el_nodeMap s') !! "n1") = Some (mkNodeEntry "n1" 1 "cn1" "pn1" 30 (Some 30) HealthDegraded PrimaryActive 4 0)
  ∧ cs_Primary (cluster (el_state s')) = NodeInfo_zero.
Proof. by vm_compute. Qed.
