(* ===== verification/Snapshot.v ===== *)
(** * internal/snapshot: the snapshot worker

    The Primary's write path queues requests ([RequestSnapshot]); the worker
    takes them one at a time, decides by the thresholds whether to take a
    snapshot, writes it to a local file, uploads it and then deletes the chunks
    it covers.  [sn_disk] is what the local file holds after the deferred
    [Flush], whose error the code does not look at. *)

From S2P Require Import Prelude Records LocalDB Storage DataFile DataStore.

#[local] Open Scope Z_scope.

Record SnapshotRequest := mkSnapshotRequest {
  sr_Revision : Z;
  sr_Timestamp : Z;
  sr_RecordSize : Z;
}.

Record SnapshotConfig := mkSnapshotConfig {
  sc_ThresholdRecords : Z;
  sc_ThresholdAgeMinutes : Z;
  sc_ThresholdSizeMB : Z;
  sc_NodeID : string;
}.

(** [sw_lastSnapshotTime] is [None] for the zero time. *)
Record Worker := mkWorker {
  sw_requestCh : list SnapshotRequest;
  sw_lastSnapshotRevision : Z;
  sw_lastSnapshotTime : option Z;
  sw_cumulativeSize : Z;
}.

Definition requestCh_capacity : nat := 100.

Definition NewWorker : Worker := mkWorker [] 0 None 0.

Definition RequestSnapshot (req : SnapshotRequest) (w : Worker) : Worker :=
  if (length (sw_requestCh w) <? requestCh_capacity)%nat then
    mkWorker (sw_requestCh w ++ [req]) (sw_lastSnapshotRevision w) (sw_lastSnapshotTime w)
      (sw_cumulativeSize w)
  else w.

Definition minute : Z := 60 * 10 ^ 9.

Definition shouldCreateSnapshot (cfg : SnapshotConfig) (currentRevision currentTime cumulativeSize lastRevision : Z)
    (lastTime : option Z) : bool :=
  if currentRevision <=? lastRevision then false
  else if (0 <? sc_ThresholdRecords cfg)
          && (sc_ThresholdRecords cfg <=? wrap64 (currentRevision - lastRevision)) then true
  else
    let age :=
      if 0 <? sc_ThresholdAgeMinutes cfg then
        match lastTime with
        | None => true
        | Some t => wrap64 (sc_ThresholdAgeMinutes cfg * minute) <=? currentTime - t
        end
      else false in
    if age then true
    else
      (0 <? sc_ThresholdSizeMB cfg) && (sc_ThresholdSizeMB cfg <=? cumulativeSize `quot` (1024 * 1024)).

(** The revision to snapshot, if any, comes with the new state. *)
Definition processRequest (cfg : SnapshotConfig) (req : SnapshotRequest) (w : Worker) : Worker * option Z :=
  let cumulative := wrap64 (sw_cumulativeSize w + sr_RecordSize req) in
  if shouldCreateSnapshot cfg (sr_Revision req) (sr_Timestamp req) cumulative
       (sw_lastSnapshotRevision w) (sw_lastSnapshotTime w)
  then (mkWorker (sw_requestCh w) (sr_Revision req) (Some (sr_Timestamp req)) 0, Some (sr_Revision req))
  else (mkWorker (sw_requestCh w) (sw_lastSnapshotRevision w) (sw_lastSnapshotTime w) cumulative, None).

Definition InitializeWithSnapshot (now : Z) (info : option FileInfo) (w : Worker) : Worker :=
  match info with
  | None => mkWorker (sw_requestCh w) 0 None 0
  | Some f => mkWorker (sw_requestCh w) (fi_Revision f) (Some now) 0
  end.

Record snapshot_env := mkSnapshotEnv {
  sn_now : Z;
  sn_tempFile : bool;
  sn_disk : bytes → bytes;
  sn_upload : put_fault;
  sn_list : bool;
  sn_delete : string → put_fault;
}.

Section snapshot.
  Context `{Codec} {OS : Type} `{ObjectStorage OS}.

Definition writeSnapshotFile (cfg : SnapshotConfig) (env : snapshot_env) (records : list record)
    : res df_err bytes :=
  Writer_Close (write_all records
    (NewWriter (sn_now env) KIND_SNAPSHOT (Z.of_nat (length records)) (sc_NodeID cfg))).

(** [datastore.Upload]: the file as it is on disk. *)
Definition Upload (f : put_fault) (store : OS) (key : string) (file : bytes) : res storage_err unit * OS :=
  faulty_put f store key file.

Definition delete_chunks (env : snapshot_env) (chunks : list FileInfo) (store : OS) : OS :=
  foldl (λ store c, (faulty_delete (sn_delete env (fi_Key c)) store (fi_Key c)).2) store chunks.

(** Whether the snapshot was uploaded, and the store. *)
Definition createSnapshot (cfg : SnapshotConfig) (env : snapshot_env) (upToRevision : Z) (db : database)
    (store : OS) : bool * OS :=
  let records := FindAllRecordsForSnapshot upToRevision db in
  if bool_decide (records = []) then (false, store)
  else if negb (sn_tempFile env) then (false, store)
  else
    match writeSnapshotFile cfg env records with
    | Err _ => (false, store)
    | Ok data =>
        match Upload (sn_upload env) store (SnapshotKey upToRevision) (sn_disk env data) with
        | (Err _, store) => (false, store)
        | (Ok _, store) =>
            if negb (sn_list env) then (true, store)
            else (true, delete_chunks env (ListChunksForCleanup store upToRevision) store)
        end
    end.

(** One round of [run]: take a request and process it. *)
Definition worker_round (cfg : SnapshotConfig) (env : snapshot_env) (db : database) (w : Worker) (store : OS)
    : Worker * OS :=
  match sw_requestCh w with
  | [] => (w, store)
  | req :: rest =>
      let w := mkWorker rest (sw_lastSnapshotRevision w) (sw_lastSnapshotTime w) (sw_cumulativeSize w) in
      match processRequest cfg req w with
      | (w, None) => (w, store)
      | (w, Some rev) => (w, (createSnapshot cfg env rev db store).2)
      end
  end.
End snapshot.
