(* ===== verification/SnapshotTheorems.v ===== *)
(** * Theorems on snapshots: nothing durable is lost, and a snapshot restores *)

From S2P Require Import Prelude Records LocalDB History Examples LocalDBTheorems Storage DataFile.
From S2P Require Import ExampleCodec DataStore DataStoreTheorems Snapshot.

#[local] Open Scope Z_scope.

(** ** Thresholds *)

(** The thresholds decide: a snapshot is requested only for a revision above
    the last one, and then exactly when one of the enabled thresholds (records
    since, minutes since, or the first snapshot at all, mebibytes since) is met;
    the counters restart with it. *)
Theorem processRequest_thresholds cfg req w :
  let cumulative := wrap64 (sw_cumulativeSize w + sr_RecordSize req) in
  let since := wrap64 (sr_Revision req - sw_lastSnapshotRevision w) in
  let due :=
    (0 < sc_ThresholdRecords cfg ≤ since) ∨
    (0 < sc_ThresholdAgeMinutes cfg ∧
     match sw_lastSnapshotTime w with
     | None => True
     | Some t => wrap64 (sc_ThresholdAgeMinutes cfg * minute) ≤ sr_Timestamp req - t
     end) ∨
    (0 < sc_ThresholdSizeMB cfg ≤ cumulative `quot` (1024 * 1024)) in
  let out := processRequest cfg req w in
  (out.2 = Some (sr_Revision req) ↔ sw_lastSnapshotRevision w < sr_Revision req ∧ due) ∧
  (out.2 = None ∨ out.2 = Some (sr_Revision req)) ∧
  out.1 = match out.2 with
          | Some rev => mkWorker (sw_requestCh w) rev (Some (sr_Timestamp req)) 0
          | None => mkWorker (sw_requestCh w) (sw_lastSnapshotRevision w) (sw_lastSnapshotTime w) cumulative
          end.
Proof.
  intros cumulative since due out. rewrite /out /processRequest. fold cumulative.
  assert (shouldCreateSnapshot cfg (sr_Revision req) (sr_Timestamp req) cumulative
            (sw_lastSnapshotRevision w) (sw_lastSnapshotTime w) = true ↔
          sw_lastSnapshotRevision w < sr_Revision req ∧ due) as Hs.
  { rewrite /shouldCreateSnapshot /due. fold since.
    destruct (Z.leb_spec (sr_Revision req) (sw_lastSnapshotRevision w)); [split; [done|lia]|].
    destruct (Z.ltb_spec 0 (sc_ThresholdRecords cfg)), (Z.leb_spec (sc_ThresholdRecords cfg) since); simpl;
      (split; [|try done]); try (intros _; split; [done|lia]);
      destruct (Z.ltb_spec 0 (sc_ThresholdAgeMinutes cfg)); try destruct (sw_lastSnapshotTime w) as [t|];
      try destruct (Z.leb_spec (wrap64 (sc_ThresholdAgeMinutes cfg * minute)) (sr_Timestamp req - t));
      try destruct (Z.ltb_spec 0 (sc_ThresholdSizeMB cfg)); try destruct (Z.leb_spec (sc_ThresholdSizeMB cfg) (cumulative `quot` (1024 * 1024)));
      simpl; try done; intros; first [split; [done|lia] | lia]. }
  destruct (shouldCreateSnapshot _ _ _ _ _ _) eqn:E; simpl.
  - split; [|split; [by right|done]]. rewrite -Hs. done.
  - split; [|split; [by left|done]]. rewrite -Hs. done.
Qed.

(** ** What stays durable *)

Section durable.
  Context `{CL : CodecLaws} {OS : Type} `{HS : ObjectStorage OS} (L : ObjectStorageLaws OS).

(** The file under [key] reads back a record with the revision, key and links
    of [r]; its value may have been compacted away since. *)
Definition file_has (s : OS) (kind : FileKind) (key : string) (r : record) : Prop :=
  ∃ data recs results x, os_objects s key = Some data ∧ read_file kind data = Ok (recs, results) ∧
    x ∈ recs ∧ same_links r x.

(** The record can be restored from a snapshot or from a chunk. *)
Definition restorable (s : OS) (r : record) : Prop :=
  (∃ key, string_has_prefix key "snapshots/" = true ∧ file_has s KIND_SNAPSHOT key r) ∨
  (∃ key, string_has_prefix key "chunks/" = true ∧ file_has s KIND_CHUNK key r).

(** The files this snapshot may replace hold nothing but rows of the database:
    chunks named by a revision up to [upTo], and a snapshot at [upTo]. *)
Definition covered (s : OS) (db : database) (upTo : Z) : Prop :=
  (∀ key rev r, string_has_prefix key "chunks/" = true → parseRevisionFromKey key = Some rev →
     rev ≤ upTo → file_has s KIND_CHUNK key r →
     ∃ x, x ∈ FindAllRecordsForSnapshot upTo db ∧ same_links r x) ∧
  (∀ r, file_has s KIND_SNAPSHOT (SnapshotKey upTo) r →
     ∃ x, x ∈ FindAllRecordsForSnapshot upTo db ∧ same_links r x).

Lemma file_has_other s s' kind key r :
  os_objects s' key = os_objects s key → file_has s kind key r → file_has s' kind key r.
Proof. intros E (d & recs & res & x & Hd & Hr). exists d, recs, res, x. by rewrite E. Qed.

(** The snapshot file reads back exactly the rows up to the revision. *)
Lemma writeSnapshotFile_reads cfg env records data :
  Z.of_nat (length records) ≤ int64_max → writeSnapshotFile cfg env records = Ok data →
  ∃ results, read_file KIND_SNAPSHOT data = Ok (file_record <$> records, results).
Proof using CL.
  intros Hlen. rewrite /writeSnapshotFile.
  destruct (datafile_reads_back (sn_now env) KIND_SNAPSHOT (sc_NodeID cfg) COMPRESSION_ZSTD records)
    as (d & Hw & Hr); [done|done|].
  change (NewWriter (sn_now env) KIND_SNAPSHOT (Z.of_nat (length records)) (sc_NodeID cfg))
    with (NewWriterWithCompression (sn_now env) KIND_SNAPSHOT (Z.of_nat (length records)) (sc_NodeID cfg)
            (Some COMPRESSION_ZSTD)).
  rewrite Hw. intros [= <-]. by eexists.
Qed.

Lemma delete_chunks_objects env chunks s k d :
  os_objects s k = Some d → (∀ c, c ∈ chunks → fi_Key c ≠ k) →
  os_objects (delete_chunks env chunks s) k = Some d.
Proof.
  rewrite /delete_chunks. revert s. induction chunks as [|c chunks IH]; intros s Hk Hne; [done|]. simpl.
  apply IH; [|intros c' Hc'; apply Hne; by right].
  assert (fi_Key c ≠ k) as Hc by (apply Hne; by left).
  rewrite /faulty_delete. destruct (sn_delete env (fi_Key c)); simpl; [|done|];
    rewrite os_Delete_spec decide_False //.
Qed.

Lemma ListChunksForCleanup_elem s upTo c :
  c ∈ ListChunksForCleanup s upTo →
  string_has_prefix (fi_Key c) "chunks/" = true ∧
  parseRevisionFromKey (fi_Key c) = Some (fi_Revision c) ∧ fi_Revision c ≤ upTo.
Proof using L.
  rewrite /ListChunksForCleanup merge_sort_Permutation list_elem_of_filter. intros [Hle Hin].
  rewrite /parse_objects list_elem_of_omap in Hin. destruct Hin as (oi & Hoi & Hp).
  apply os_List_spec in Hoi as (d & _ & Hpre & _).
  destruct (parseRevisionFromKey (oi_Key oi)) as [rev|] eqn:E; [|done]. injection Hp as <-. done.
Qed.

Lemma snapshots_not_chunks key :
  string_has_prefix key "snapshots/" = true → string_has_prefix key "chunks/" = true → False.
Proof. rewrite /string_has_prefix. by intros [t ->]%prefix_spec [t' Ht]%prefix_spec. Qed.

Lemma SnapshotKey_prefix rev : string_has_prefix (SnapshotKey rev) "snapshots/" = true.
Proof. by apply prefix_spec; eexists. Qed.

(** After a successful upload the snapshot has every row up to the revision. *)
Lemma snapshot_has cfg env upTo db s data r :
  Z.of_nat (length (rows db)) ≤ int64_max →
  writeSnapshotFile cfg env (FindAllRecordsForSnapshot upTo db) = Ok data →
  os_objects s (SnapshotKey upTo) = Some data →
  (∃ x, x ∈ FindAllRecordsForSnapshot upTo db ∧ same_links r x) →
  file_has s KIND_SNAPSHOT (SnapshotKey upTo) r.
Proof using CL.
  intros Hlen Hw Hobj (x & Hx & Hl).
  destruct (writeSnapshotFile_reads cfg env (FindAllRecordsForSnapshot upTo db) data) as [results Hr]; [|done|].
  { rewrite /FindAllRecordsForSnapshot. pose proof (length_filter (λ r, Revision r ≤ upTo) (rows db)). lia. }
  exists data, (file_record <$> FindAllRecordsForSnapshot upTo db), results, (file_record x).
  split_and!; [done|done|by apply list_elem_of_fmap_2|].
  eapply same_links_trans; [exact Hl|apply same_links_file_record].
Qed.


(** A snapshot of a history restores it into an empty database. *)
Lemma import_snapshot cfg env upTo db s data clock comp :
  Z.of_nat (length (rows db)) ≤ int64_max →
  writeSnapshotFile cfg env (FindAllRecordsForSnapshot upTo db) = Ok data →
  os_objects s (SnapshotKey upTo) = Some data →
  history (FindAllRecordsForSnapshot upTo db) →
  ∃ results, DownloadAndImportFile clock s (SnapshotKey upTo) KIND_SNAPSHOT (mkDB [] comp)
    = (Ok results, mkDB (stored_at clock <$> (file_record <$> FindAllRecordsForSnapshot upTo db)) comp).
Proof using CL L.
  intros Hlen Hw Hobj Hh. set (l := FindAllRecordsForSnapshot upTo db) in *.
  destruct (writeSnapshotFile_reads cfg env l data) as [results Hread]; [|done|].
  { rewrite /l /FindAllRecordsForSnapshot. pose proof (length_filter (λ r, Revision r ≤ upTo) (rows db)). lia. }
  exists results. rewrite (import_file L clock s (SnapshotKey upTo) KIND_SNAPSHOT data l results) //.
Qed.

(** ** Chunks the Primary writes are covered *)

Lemma StronglySorted_sublist (l l' : list Z) :
  StronglySorted Z.lt l' → l `sublist_of` l' → StronglySorted Z.lt l.
Proof.
  intros Hs Hl. induction Hl as [|x l l' Hl IH|x l l' Hl IH]; [done| |].
  - apply StronglySorted_inv in Hs as [Hs Hall]. constructor; [by apply IH|].
    rewrite Forall_forall in Hall. apply Forall_forall. intros y Hy. apply Hall. by eapply sublist_subseteq.
  - apply StronglySorted_inv in Hs as [Hs _]. by apply IH.
Qed.

Lemma same_links_file_inv r x : same_links r (file_record x) → same_links r x.
Proof. done. Qed.

(** Chunk files are named by the last revision of their batch: when the batches
    are rows of the database, in order, the snapshot covers them. *)
Lemma covered_batches s db upTo :
  table_wf (rows db) → os_objects s (SnapshotKey upTo) = None →
  (∀ key data, string_has_prefix key "chunks/" = true → os_objects s key = Some data →
     ∃ now l nodeID, MarshalChunkBatch now l nodeID = Some (Ok (key, data)) ∧
       l `sublist_of` rows db ∧ Forall (λ r, 0 ≤ Revision r ≤ int64_max) l ∧
       Z.of_nat (length l) ≤ int64_max) →
  covered s db upTo.
Proof using CL L.
  intros Hwf Hn Hchunks. split.
  - intros key rev r Hp Hrev Hle (data & recs & res & x & Hobj & Hread & Hx & Hl).
    destruct (Hchunks key data Hp Hobj) as (now & l & nodeID & Hm & Hsub & Hb & Hlen).
    destruct (MarshalChunkBatch_reads _ _ _ _ _ Hlen Hm) as [results Hread'].
    rewrite Hread in Hread'. injection Hread' as -> _.
    apply list_elem_of_fmap in Hx as (y & -> & Hy). exists y. split; [|by apply same_links_file_inv].
    apply list_elem_of_filter. split; [|by eapply sublist_subseteq].
    rewrite /MarshalChunkBatch in Hm. destruct (last l) as [z|] eqn:Elast; [|done].
    destruct (Writer_Close _) as [d|]; [|done]. injection Hm as <- _.
    apply last_Some in Elast as [l' ->]. rewrite Forall_app Forall_cons in Hb. destruct Hb as (_ & Hz & _).
    rewrite parse_chunk_key // in Hrev. injection Hrev as <-.
    enough (Revision y ≤ Revision z) by lia.
    apply elem_of_app in Hy as [Hy| ->%list_elem_of_singleton]; [|done].
    assert (StronglySorted Z.lt (Revision <$> l' ++ [z])) as Hs.
    { eapply StronglySorted_sublist; [exact Hwf|by apply fmap_sublist]. }
    rewrite fmap_app in Hs. apply StronglySorted_app in Hs as (Hlt & _).
    apply Z.lt_le_incl, Hlt; [by apply list_elem_of_fmap_2|by left].
  - intros r (data & _ & _ & _ & Hobj & _). congruence.
Qed.
End durable.

(** ** On concrete runs *)

#[local] Existing Instance example_codec.
#[local] Existing Instance example_codec_laws.
#[local] Hint Extern 0 (ObjectStorage MemoryStore) =>
  exact (MemoryStore_ObjectStorage example_etag) : typeclass_instances.

Definition snapshot_cfg : SnapshotConfig := mkSnapshotConfig 4 0 0 "n1".

Definition quiet_snapshot : snapshot_env :=
  mkSnapshotEnv 7 true id PutOk true (λ _, PutOk).

(** One chunk with the four rows of the example table. *)
Definition example_chunk : string * bytes :=
  match MarshalChunkBatch 50 (rows example_db) "n1" with Some (Ok kd) => kd | _ => ("", []) end.
Definition chunked_store : MemoryStore := {[example_chunk.1 := example_chunk.2]}.

Lemma example_chunk_marshal :
  MarshalChunkBatch 50 (rows example_db) "n1" = Some (Ok (example_chunk.1, example_chunk.2)).
Proof. vm_compute. reflexivity. Qed.

Lemma chunked_store_covered : covered example_store_laws chunked_store example_db 4.
Proof.
  apply covered_batches; [apply history_wf, example_db_history|by vm_compute|].
  intros key data _ Hobj.
  change (({[example_chunk.1 := example_chunk.2]} : gmap string bytes) !! key = Some data) in Hobj.
  apply lookup_singleton_Some in Hobj as [<- <-].
  exists 50, (rows example_db), "n1". split_and!; [apply example_chunk_marshal|done| |by vm_compute].
  repeat constructor; by vm_compute.
Qed.

Lemma chunked_store_has r : r ∈ rows example_db → restorable example_store_laws chunked_store r.
Proof.
  intros Hr. right. exists example_chunk.1. split; [by vm_compute|].
  destruct (MarshalChunkBatch_reads 50 (rows example_db) "n1" example_chunk.1 example_chunk.2) as [res Hread];
    [by vm_compute|apply example_chunk_marshal|].
  exists example_chunk.2, (file_record <$> rows example_db), res, (file_record r).
  split_and!; [apply lookup_singleton_eq|done|by apply list_elem_of_fmap_2|apply same_links_file_record].
Qed.


(** When the local disk drops the last bytes at the unchecked [Flush], the
    truncated snapshot is uploaded all the same and the chunks are deleted. *)
Lemma lost_flush_loses_records :
  let env := mkSnapshotEnv 7 true (λ d, take (length d - 1) d) PutOk true (λ _, PutOk) in
  let out := createSnapshot snapshot_cfg env 4 example_db chunked_store in
  out.1 = true ∧ @os_objects _ _ example_store_laws out.2 example_chunk.1 = None ∧
  match @os_objects _ _ example_store_laws out.2 (SnapshotKey 4) with
  | Some data => is_ok (read_file KIND_SNAPSHOT data) = false
  | None => False
  end.
Proof. vm_compute. done. Qed.

(** A snapshot that fails is not tried again for the next requests: the worker
    has already moved its counters. *)
Lemma failed_snapshot_not_retried :
  let env := mkSnapshotEnv 7 true id PutFailBefore true (λ _, PutOk) in
  let w := RequestSnapshot (mkSnapshotRequest 5 1 10) (RequestSnapshot (mkSnapshotRequest 4 0 10) NewWorker) in
  let '(w, s) := worker_round snapshot_cfg env example_db w chunked_store in
  let '(w, s) := worker_round snapshot_cfg quiet_snapshot example_db w s in
  sw_lastSnapshotRevision w = 4 ∧ @os_List MemoryStore _ s "snapshots/" = [].
Proof. vm_compute. done. Qed.
