(* ===== verification/Bootstrap.v ===== *)
(** * internal/bootstrap: loading a node

    [Run] registers the node, learns the cluster state, brings the local
    database up to date from object storage (and from the Primary's stream,
    when another node is Primary) and declares the node Healthy.

    What the node loads into is a [LoadingNode]: object storage, node state,
    database, peer connections and whether the follower runs.  The follower is
    the [Follower] interface of the package: [be_start] is what it has done to
    database and state when [Start] returns (or [None] for its error), and
    [be_stream] what the running stream does before each chunk is replayed.
    [be_meanwhile] is what the Elector in the same process has done to the
    node state by the end of the backfill. *)

From S2P Require Import Prelude NodeState Records LocalDB Storage DataFile Discovery DataStore.
From S2P Require Import PeerClient.

#[local] Open Scope string_scope.
#[local] Open Scope Z_scope.

Record LoadingNode (OS : Type) := mkLoadingNode {
  ln_store : OS;
  ln_state : State;
  ln_db : database;
  ln_peers : PeerManager;
  ln_following : bool;
}.
Arguments mkLoadingNode {_} _ _ _ _ _.
Arguments ln_store {_} _.
Arguments ln_state {_} _.
Arguments ln_db {_} _.
Arguments ln_peers {_} _.
Arguments ln_following {_} _.

(** A registration reply: member id and, unless the field is unset, the
    cluster state. *)
Definition register_reply : Type := Z * option pb_ClusterState.

Record boot_config := mkBootConfig {
  bc_NodeID : string;
  bc_AdvertiseClient : string;
  bc_AdvertisePeer : string;
}.

(** Outcomes met by one run. *)
Record boot_env := mkBootEnv {
  be_regRead : bool;
  be_regPut : put_fault;
  be_leader : bool;
  be_local : option register_reply;
  be_reply : nat → string → option register_reply;
  be_cancelled : nat → bool;
  be_backoff : nat → PeerManager → PeerManager;
  be_localCluster : option pb_ClusterState;
  be_clusterReply : string → option pb_ClusterState;
  be_dial : string → bool;
  be_snapshots : bool;
  be_clock : Z → Z;
  be_download : string → bool;
  be_list : nat → bool;
  be_start : nat → database → State → option (database * State);
  be_stream : nat → nat → database → State → database * State;
  be_meanwhile : State → State;
}.

Inductive boot_err :=
| BootRegistration (e : discovery_err)
| BootLocalRegister
| BootNoElectorClient
| BootRegister (e : peer_err)
| BootCancelled
| BootMemberID (e : state_err)
| BootClusterState
| BootGetSnapshot
| BootImportSnapshot
| BootFollow
| BootListChunks
| BootImportChunk (key : string)
| BootIntegrity (e : db_err)
| BootHealthy (e : state_err).

Definition with_ln_store {OS} (s : OS) (n : LoadingNode OS) : LoadingNode OS :=
  mkLoadingNode s (ln_state n) (ln_db n) (ln_peers n) (ln_following n).
Definition with_ln_state {OS} (st : State) (n : LoadingNode OS) : LoadingNode OS :=
  mkLoadingNode (ln_store n) st (ln_db n) (ln_peers n) (ln_following n).
Definition with_ln_db {OS} (db : database) (n : LoadingNode OS) : LoadingNode OS :=
  mkLoadingNode (ln_store n) (ln_state n) db (ln_peers n) (ln_following n).
Definition with_ln_peers {OS} (m : PeerManager) (n : LoadingNode OS) : LoadingNode OS :=
  mkLoadingNode (ln_store n) (ln_state n) (ln_db n) m (ln_following n).
Definition with_ln_following {OS} (b : bool) (n : LoadingNode OS) : LoadingNode OS :=
  mkLoadingNode (ln_store n) (ln_state n) (ln_db n) (ln_peers n) b.

(** ** Registration *)

Definition maxRegistrationAttempts : nat := 3.

(** The attempts left, and the number of the next one. *)
Fixpoint register_loop (env : boot_env) (left attempt : nat) (m : PeerManager)
    : res boot_err register_reply * PeerManager :=
  let failure e :=
    match left with
    | O | S O => (Err e, m)
    | S left' =>
        if be_cancelled env attempt then (Err BootCancelled, m)
        else register_loop env left' (S attempt) (be_backoff env attempt m)
    end in
  match ElectorClient m with
  | None => failure BootNoElectorClient
  | Some client =>
      match Client_RegisterNode (be_reply env attempt) client with
      | Ok r => (Ok r, m)
      | Err e => failure (BootRegister e)
      end
  end.

(** The reply's cluster state; when it names no Elector, the Elector is asked. *)
Definition learn_cluster_state (env : boot_env) (reply : option pb_ClusterState) (m : PeerManager)
    : res boot_err pb_ClusterState :=
  let ask :=
    if be_leader env then
      match be_localCluster env with Some cs => Ok cs | None => Err BootClusterState end
    else
      match ElectorClient m with
      | None => Err BootNoElectorClient
      | Some client =>
          match Client_GetClusterState (be_clusterReply env) client with
          | Ok cs => Ok cs
          | Err _ => Err BootClusterState
          end
      end in
  match reply with
  | None => ask
  | Some cs => match pb_Elector cs with None => ask | Some _ => Ok cs end
  end.

(** ** Local state *)

Definition needsFollowStream (st : State) (nodeID : string) : bool :=
  bool_decide (NodeID (cs_Primary (cluster st)) ≠ "")
  && bool_decide (NodeID (cs_Primary (cluster st)) ≠ nodeID).

Definition seedCompactionFromLocalDB (db : database) (st : State) : database * State :=
  let current := LatestCompactionRevision db in
  if 0 <? current then (db, SetCompaction current st)
  else
    let derived := DeriveCompactionRevision db in
    (PersistCompactionRevision derived db, SetCompaction derived st).

Definition seedCompactionFromPrimary (db : database) (st : State) : database :=
  if (0 <? LatestCompactionRevision db) || (compaction st =? 0) then db
  else PersistCompactionRevision (compaction st) db.

Section bootstrap.
  Context {OS : Type} `{ObjectStorage OS} `{JSON} `{Codec}.
  Implicit Types n : LoadingNode OS.

Definition importLatestSnapshot (env : boot_env) (info : option FileInfo) (store : OS) (db : database)
    : bool * database :=
  match info with
  | None => (true, db)
  | Some f =>
      if negb (be_download env (fi_Key f)) then (false, db)
      else
        let '(r, db) := DownloadAndImportFile (be_clock env) store (fi_Key f) KIND_SNAPSHOT db in
        (is_ok r, db)
  end.

Definition prepareLocalState (env : boot_env) (info : option FileInfo) n
    : res boot_err Z * LoadingNode OS :=
  let '(db, st) := seedCompactionFromLocalDB (ln_db n) (ln_state n) in
  if 0 <? RecordCount db then (Ok (LatestRevision db), with_ln_db db (with_ln_state st n))
  else
    match importLatestSnapshot env info (ln_store n) db with
    | (false, db) => (Err BootImportSnapshot, with_ln_db db (with_ln_state st n))
    | (true, db) =>
        let '(db, st) := seedCompactionFromLocalDB db st in
        (Ok (default 0 (fi_Revision <$> info)), with_ln_db db (with_ln_state st n))
    end.

(** The stream runs beside the replay when the follower was started. *)
Fixpoint replay_chunks (env : boot_env) (attempt i : nat) (chunks : list FileInfo) n
    : res boot_err unit * LoadingNode OS :=
  match chunks with
  | [] => (Ok tt, n)
  | c :: chunks' =>
      let '(db, st) := if ln_following n then be_stream env attempt i (ln_db n) (ln_state n)
                       else (ln_db n, ln_state n) in
      let n := with_ln_db db (with_ln_state st n) in
      if negb (be_download env (fi_Key c)) then (Err (BootImportChunk (fi_Key c)), n)
      else
        match DownloadAndImportFile (be_clock env) (ln_store n) (fi_Key c) KIND_CHUNK (ln_db n) with
        | (Err _, db) => (Err (BootImportChunk (fi_Key c)), with_ln_db db n)
        | (Ok _, db) => replay_chunks env attempt (S i) chunks' (with_ln_db db n)
        end
  end.

Definition backfillChunksFromRevision (env : boot_env) (attempt : nat) (fromRevision : Z) n
    : res boot_err unit * LoadingNode OS :=
  if negb (be_list env attempt) then (Err BootListChunks, n)
  else replay_chunks env attempt 0 (ListChunks (ln_store n) fromRevision) n.

(** From the follow stream to the integrity check of one attempt; the inner
    result is the check's. *)
Definition backfill_attempt (env : boot_env) (cfg : boot_config) (info : option FileInfo)
    (attempt : nat) n : res boot_err (res db_err unit) * LoadingNode OS :=
  match prepareLocalState env info n with
  | (Err e, n) => (Err e, n)
  | (Ok backfillFrom, n) =>
      let following :=
        if needsFollowStream (ln_state n) (bc_NodeID cfg) then
          match be_start env attempt (ln_db n) (ln_state n) with
          | None => None
          | Some (db, st) =>
              Some (with_ln_following true
                      (with_ln_db (seedCompactionFromPrimary db st) (with_ln_state st n)))
          end
        else Some (with_ln_following false n) in
      match following with
      | None => (Err BootFollow, n)
      | Some n =>
          match backfillChunksFromRevision env attempt backfillFrom n with
          | (Err e, n) => (Err e, n)
          | (Ok _, n) => (Ok (VerifyIntegrity (ln_db n)), n)
          end
      end
  end.

Definition rebuild n : LoadingNode OS :=
  with_ln_db (Truncate (ln_db n))
    (with_ln_state (SetCompaction 0 (SetCommitted 0 (ln_state n))) (with_ln_following false n)).

Definition maxIntegrityAttempts : nat := 2.

(** The attempts left, and the number of the next one. *)
Fixpoint backfill_loop (env : boot_env) (cfg : boot_config) (info : option FileInfo)
    (left attempt : nat) n : res boot_err unit * LoadingNode OS :=
  let n := if (1 <? attempt)%nat then rebuild n else n in
  match backfill_attempt env cfg info attempt n with
  | (Err e, n) => (Err e, n)
  | (Ok (Ok _), n) => (Ok tt, n)
  | (Ok (Err e), n) =>
      match left with
      | O | S O => (Err (BootIntegrity e), n)
      | S left' => backfill_loop env cfg info left' (S attempt) n
      end
  end.

(** Registration up to the applied cluster state. *)
Definition join_cluster (env : boot_env) (cfg : boot_config) n : res boot_err unit * LoadingNode OS :=
  match WriteNodeRegistration (be_regRead env) (be_regPut env) (ln_store n)
          (mkNodeRegistration (bc_NodeID cfg) (bc_AdvertiseClient cfg) (bc_AdvertisePeer cfg)) with
  | (Err e, store) => (Err (BootRegistration e), with_ln_store store n)
  | (Ok _, store) =>
      let n := with_ln_store store n in
      let '(r, m) :=
        if be_leader env then
          (match be_local env with Some r => Ok r | None => Err BootLocalRegister end, ln_peers n)
        else register_loop env maxRegistrationAttempts 1 (ln_peers n) in
      let n := with_ln_peers m n in
      match r with
      | Err e => (Err e, n)
      | Ok (memberID, reply) =>
          match SetMemberID memberID (ln_state n) with
          | (Err e, _) => (Err (BootMemberID e), n)
          | (Ok _, st) =>
              match learn_cluster_state env reply (ln_peers n) with
              | Err e => (Err e, with_ln_state st n)
              | Ok cs =>
                  let '(m, st, _) :=
                    ApplyClusterState (be_dial env) (ClusterStateFromProto cs) (ln_peers n) st in
                  (Ok tt, with_ln_peers m (with_ln_state st n))
              end
          end
      end
  end.

(** The newest snapshot is the result. *)
Definition Run (env : boot_env) (cfg : boot_config) n
    : res boot_err (option FileInfo) * LoadingNode OS :=
  match join_cluster env cfg n with
  | (Err e, n) => (Err e, n)
  | (Ok _, n) =>
      if negb (be_snapshots env) then (Err BootGetSnapshot, n)
      else
        let info := GetLatestSnapshot (ln_store n) in
        match backfill_loop env cfg info maxIntegrityAttempts 1 n with
        | (Err e, n) => (Err e, n)
        | (Ok _, n) =>
            let n := with_ln_state (be_meanwhile env (ln_state n)) n in
            let n := if needsFollowStream (ln_state n) (bc_NodeID cfg) then n
                     else with_ln_state (SetCommitted (LatestRevision (ln_db n)) (ln_state n)) n in
            match SetHealth HealthHealthy (ln_state n) with
            | (Err e, _) => (Err (BootHealthy e), n)
            | (Ok _, st) => (Ok info, with_ln_state st n)
            end
        end
  end.
End bootstrap.
