(* ===== verification/BootstrapTheorems.v ===== *)
(** * Theorems on loading a node: only a complete log makes it Healthy *)

From S2P Require Import Prelude NodeState Records LocalDB History Examples LocalDBTheorems Storage.
From S2P Require Import DataFile ExampleCodec Discovery DataStore DataStoreTheorems Preflight.
From S2P Require Import PreflightTheorems PeerClient MembersTheorems Snapshot SnapshotTheorems Bootstrap.

#[local] Open Scope Z_scope.

(** The background work of a node never makes it Healthy. *)
Definition background_ok (env : boot_env) : Prop :=
  (∀ i db st db' st', be_start env i db st = Some (db', st') →
     health st ≠ HealthHealthy → health st' ≠ HealthHealthy) ∧
  (∀ i j db st, health st ≠ HealthHealthy → health (be_stream env i j db st).2 ≠ HealthHealthy) ∧
  (∀ st, health st ≠ HealthHealthy → health (be_meanwhile env st) ≠ HealthHealthy).

Lemma history_integrity db : history (rows db) → VerifyIntegrity db = Ok tt.
Proof.
  intros Hh. rewrite /VerifyIntegrity /RecordCount (history_latest_table _ Hh) Z.eqb_refl. done.
Qed.

Lemma seedCompaction_rows db st : rows (seedCompactionFromLocalDB db st).1 = rows db.
Proof. rewrite /seedCompactionFromLocalDB /PersistCompactionRevision. by repeat case_match. Qed.

Lemma seedCompaction_state db st :
  ∃ rev, (seedCompactionFromLocalDB db st).2 = SetCompaction rev st.
Proof. rewrite /seedCompactionFromLocalDB. case_match; by eexists. Qed.

Section bootstrap.
  Context `{CL : CodecLaws} {OS : Type} `{HS : ObjectStorage OS} (L : ObjectStorageLaws OS) `{HJ : JSON}.
  Implicit Types n : LoadingNode OS.

(** ** Health *)

Definition not_healthy n : Prop := health (ln_state n) ≠ HealthHealthy.

Lemma seed_not_healthy db st :
  health st ≠ HealthHealthy → health (seedCompactionFromLocalDB db st).2 ≠ HealthHealthy.
Proof. destruct (seedCompaction_state db st) as [rev ->]. done. Qed.

Lemma prepareLocalState_not_healthy env info n :
  not_healthy n → not_healthy (prepareLocalState env info n).2.
Proof.
  rewrite /not_healthy /prepareLocalState. intros Hn.
  pose proof (seed_not_healthy (ln_db n) (ln_state n) Hn) as H1.
  destruct (seedCompactionFromLocalDB _ _) as [db st]. cbn [snd] in H1. case_match; [done|].
  destruct (importLatestSnapshot _ _ _ _) as [[] db']; [|done].
  pose proof (seed_not_healthy db' st H1) as H2.
  by destruct (seedCompactionFromLocalDB db' st) as [db2 st2].
Qed.

Lemma replay_chunks_not_healthy env attempt i chunks n :
  background_ok env → not_healthy n → not_healthy (replay_chunks env attempt i chunks n).2.
Proof.
  intros (_ & Hs & _). revert i n. induction chunks as [|c chunks IH]; intros i n Hn; [done|]. cbn [replay_chunks].
  destruct (if ln_following n then _ else _) as [db st] eqn:E.
  assert (health st ≠ HealthHealthy) as Hst.
  { destruct (ln_following n); [|by injection E as <- <-].
    specialize (Hs attempt i (ln_db n) (ln_state n) Hn). by rewrite E in Hs. }
  destruct (negb _); [done|]. destruct (DownloadAndImportFile _ _ _ _ _) as [[]]; [by apply IH|done].
Qed.

Lemma backfill_attempt_not_healthy env cfg info attempt n :
  background_ok env → not_healthy n → not_healthy (backfill_attempt env cfg info attempt n).2.
Proof.
  intros Hb Hn. rewrite /backfill_attempt. pose proof (prepareLocalState_not_healthy env info n Hn) as Hp.
  destruct (prepareLocalState env info n) as [[from|e] n1]; [|done]. cbn [snd] in Hp.
  assert (∀ n2, not_healthy n2 →
    not_healthy (match backfillChunksFromRevision env attempt from n2 with
                 | (Err e, n) => (Err e, n) | (Ok _, n) => (Ok (VerifyIntegrity (ln_db n)), n) end).2) as Hback.
  { intros n2 H2. rewrite /backfillChunksFromRevision. destruct (negb _); [done|].
    pose proof (replay_chunks_not_healthy env attempt 0 (ListChunks (ln_store n2) from) n2 Hb H2) as H3.
    by destruct (replay_chunks _ _ _ _ _) as [[] ?]. }
  destruct (needsFollowStream _ _); [|by apply Hback].
  destruct (be_start env attempt _ _) as [[db st]|] eqn:Es; [|done].
  apply Hback. destruct Hb as (Hst & _). by apply (Hst _ _ _ _ _ Es).
Qed.

Lemma backfill_loop_spec env cfg info left attempt n :
  background_ok env → not_healthy n →
  let out := backfill_loop env cfg info left attempt n in
  not_healthy out.2 ∧ (out.1 = Ok tt → VerifyIntegrity (ln_db out.2) = Ok tt).
Proof.
  intros Hb. revert attempt n. induction left as [|left IH]; intros attempt n Hn; cbn [backfill_loop].
  all: set (n1 := if (1 <? attempt)%nat then rebuild n else n).
  all: assert (not_healthy n1) as H1 by (rewrite /n1; by case_match).
  all: pose proof (backfill_attempt_not_healthy env cfg info attempt n1 Hb H1) as H2.
  all: assert (∀ u n2, backfill_attempt env cfg info attempt n1 = (Ok u, n2) → VerifyIntegrity (ln_db n2) = u) as Hv
    by (intros u n2; rewrite /backfill_attempt; repeat case_match; naive_solver).
  all: destruct (backfill_attempt env cfg info attempt n1) as [[[[]|e]|e] n2] eqn:E; cbn [fst snd] in *; try done.
  all: try (split; [done|]; intros _; by apply Hv).
  destruct left as [|left']; [done|]. by apply IH.
Qed.

Lemma join_cluster_state env cfg n :
  health (ln_state (join_cluster env cfg n).2) = health (ln_state n) ∧
  ln_db (join_cluster env cfg n).2 = ln_db n.
Proof.
  rewrite /join_cluster. destruct (WriteNodeRegistration _ _ _ _) as [[] s]; [|done].
  destruct (if be_leader env then _ else _) as [[[id reply]|e] m]; [|done].
  rewrite /SetMemberID. cbn [ln_state with_ln_store with_ln_peers ln_peers].
  assert (∀ st cs m0, health (ApplyClusterState (be_dial env) cs m0 st).1.2 = health st) as Hap.
  { intros st cs m0. rewrite /ApplyClusterState /SetPrimary. by repeat case_match. }
  destruct (memberID (ln_state n) =? 0); [|destruct (negb _); [done|]].
  all: destruct (learn_cluster_state _ _ _) as [cs|]; [|done].
  all: match goal with |- context [ApplyClusterState ?d ?c ?p ?s] => specialize (Hap s c p); destruct (ApplyClusterState d c p s) as [[m1 st] cb] end.
  all: done.
Qed.

Lemma join_cluster_store env cfg n :
  ln_store (join_cluster env cfg n).2 =
  (WriteNodeRegistration (be_regRead env) (be_regPut env) (ln_store n)
     (mkNodeRegistration (bc_NodeID cfg) (bc_AdvertiseClient cfg) (bc_AdvertisePeer cfg))).2.
Proof.
  rewrite /join_cluster. destruct (WriteNodeRegistration _ _ _ _) as [[] s]; [|done].
  destruct (if be_leader env then _ else _) as [[[id reply]|e] m]; [|done].
  destruct (SetMemberID _ _) as [[] st]; [|done]. destruct (learn_cluster_state _ _ _) as [cs|]; [|done].
  by destruct (ApplyClusterState _ _ _ _) as [[m1 st1] cb].
Qed.

(** A node becomes Healthy exactly when its bootstrap succeeds, and then its
    database has passed the integrity check and, unless another node is Primary,
    its committed revision is the latest it holds; every error leaves the node
    out of service. *)
Theorem Run_healthy env cfg n :
  background_ok env → health (ln_state n) ≠ HealthHealthy →
  let out := Run env cfg n in
  (is_ok out.1 = true ↔ health (ln_state out.2) = HealthHealthy) ∧
  (is_ok out.1 = true →
     VerifyIntegrity (ln_db out.2) = Ok tt ∧
     (needsFollowStream (ln_state out.2) (bc_NodeID cfg) = false →
        committed (ln_state out.2) = LatestRevision (ln_db out.2))).
Proof.
  intros Hb Hn. rewrite /Run. destruct (join_cluster_state env cfg n) as [Hh _].
  destruct (join_cluster env cfg n) as [[[]|e] n1]; cbn [fst snd] in *.
  2:{ rewrite /= Hh. split; [|done]. split; [done|]. by intros ?. }
  assert (not_healthy n1) as H1 by (by rewrite /not_healthy Hh).
  destruct (be_snapshots env); cbn [negb]; [|split; [split; [done|by intros ?%H1]|done]].
  pose proof (backfill_loop_spec env cfg (GetLatestSnapshot (ln_store n1)) maxIntegrityAttempts 1 n1 Hb H1) as [H2 Hv].
  destruct (backfill_loop _ _ _ _ _ _) as [[[]|e] n2]; cbn [fst snd] in *.
  2:{ split; [|done]. split; [done|by intros ?%H2]. }
  specialize (Hv eq_refl). pose proof (proj2 (proj2 Hb) _ H2) as H3.
  set (n3 := with_ln_state (be_meanwhile env (ln_state n2)) n2).
  set (n4 := if needsFollowStream (ln_state n3) (bc_NodeID cfg) then n3 else _).
  assert (ln_db n4 = ln_db n2 ∧ health (ln_state n4) ≠ HealthHealthy ∧
    (needsFollowStream (ln_state n4) (bc_NodeID cfg) = false →
       committed (ln_state n4) = LatestRevision (ln_db n2))) as (Hdb & H4 & Hc).
  { rewrite /n4. destruct (needsFollowStream (ln_state n3) (bc_NodeID cfg)) eqn:E; [|done].
    split; [done|]. split; [done|]. by rewrite E. }
  rewrite /SetHealth. destruct (health (ln_state n4)) eqn:E4; [|done|]; cbn; rewrite Hdb; split; try done;
    intros _; (split; [done|exact Hc]).
Qed.

(** ** Loading from object storage *)

(** The object at the snapshot's key reads back [l]. *)
Definition snapshot_holds (s : OS) (f : FileInfo) (l : list record) : Prop :=
  ∃ data results, os_objects s (fi_Key f) = Some data ∧
    read_file KIND_SNAPSHOT data = Ok (file_record <$> l, results).

(** What a node starts from: its own rows, else the newest snapshot, else
    nothing; with the revision the backfill continues at. *)
Inductive loads (clock : Z → Z) (s : OS) (db : database) : option FileInfo → list record → Z → Prop :=
| loads_local info : rows db ≠ [] → loads clock s db info (rows db) (LatestRevision db)
| loads_snapshot f l :
    rows db = [] → snapshot_holds s f l → history l →
    loads clock s db (Some f) (imported clock <$> l) (fi_Revision f)
| loads_nothing : rows db = [] → loads clock s db None [] 0.

Definition quiet_load (env : boot_env) : Prop :=
  (∀ key, be_download env key = true) ∧ (∀ i, be_list env i = true).

Lemma prepareLocalState_loads env n info base from :
  quiet_load env → loads (be_clock env) (ln_store n) (ln_db n) info base from →
  ∃ comp rev, prepareLocalState env info n =
    (Ok from, with_ln_db (mkDB base comp) (with_ln_state (SetCompaction rev (ln_state n)) n)).
Proof using CL L.
  intros [Hd _] Hl. rewrite /prepareLocalState.
  pose proof (seedCompaction_rows (ln_db n) (ln_state n)) as Hr.
  destruct (seedCompaction_state (ln_db n) (ln_state n)) as [rev Hs].
  destruct (seedCompactionFromLocalDB (ln_db n) (ln_state n)) as [db st]. cbn [fst snd] in Hr, Hs. subst st.
  destruct Hl as [info Hne|f l He (data & results & Hobj & Hread) Hh|He].
  - destruct (Z.ltb_spec 0 (RecordCount db)) as [_|Hle].
    2:{ rewrite /RecordCount Hr in Hle. destruct (rows (ln_db n)); [done|simpl in Hle; lia]. }
    exists (compactions db), rev. rewrite /LatestRevision -Hr. by destruct db.
  - rewrite /RecordCount Hr He /= Hd /=.
    rewrite (import_file L (be_clock env) (ln_store n) (fi_Key f) KIND_SNAPSHOT data l results db);
      [done|done|by rewrite Hr He|].
    rewrite Hr He /= -list_fmap_compose. change (stored_at (be_clock env) ∘ file_record) with (imported (be_clock env)).
    set (db1 := set_rows _ db). pose proof (seedCompaction_rows db1 (SetCompaction rev (ln_state n))) as Hr1.
    destruct (seedCompaction_state db1 (SetCompaction rev (ln_state n))) as [rev1 Hs1].
    destruct (seedCompactionFromLocalDB db1 _) as [db2 st2]. cbn [fst snd] in *. subst st2.
    exists (compactions db2), rev1. destruct db2; cbn in Hr1 |- *. by rewrite Hr1.
  - rewrite /RecordCount Hr He /=. pose proof (seedCompaction_rows db (SetCompaction rev (ln_state n))) as Hr1.
    destruct (seedCompaction_state db (SetCompaction rev (ln_state n))) as [rev1 Hs1].
    destruct (seedCompactionFromLocalDB db _) as [db2 st2]. cbn [fst snd] in *. subst st2.
    exists (compactions db2), rev1. destruct db2; cbn in Hr1 |- *. by rewrite Hr1 Hr He.
Qed.

Lemma replay_chunks_loads env attempt i chunks n ls :
  quiet_load env → ln_following n = false →
  Forall2 (chunk_holds L (ln_store n)) chunks ls →
  history (rows (ln_db n) ++ concat ls) → Z.of_nat (length (concat ls)) ≤ int64_max →
  replay_chunks env attempt i chunks n
  = (Ok tt, with_ln_db (set_rows (rows (ln_db n) ++ (imported (be_clock env) <$> concat ls)) (ln_db n)) n).
Proof using CL L.
  intros [Hq _]. revert i n ls.
  induction chunks as [|c chunks IH]; intros i n ls Hf HF Hh Hlen; cbn [replay_chunks].
  { apply Forall2_nil_inv_l in HF as ->. rewrite /= app_nil_r. by destruct n as [? ? []]. }
  apply Forall2_cons_inv_l in HF as (l & ls' & (now & node & data & Hm & Hobj) & HF & ->).
  cbn [concat] in *. rewrite length_app in Hlen. rewrite Hf Hq. cbn [negb ln_store ln_db with_ln_db with_ln_state].
  destruct (import_chunk L (be_clock env) now l node _ data (ln_store n) (ln_db n) Hm Hobj)
    as [results ->]; [|lia|].
  { rewrite app_assoc in Hh. by apply history_app_inv in Hh. }
  rewrite (IH _ _ ls') //.
  - rewrite /= -app_assoc -list_fmap_compose. by apply history_map_middle.
  - lia.
  - rewrite /= fmap_app app_assoc -list_fmap_compose. by destruct n as [? ? []].
Qed.

(** One attempt of a node that needs no stream. *)
Lemma backfill_attempt_loads env cfg info attempt n base from ls :
  quiet_load env → needsFollowStream (ln_state n) (bc_NodeID cfg) = false →
  loads (be_clock env) (ln_store n) (ln_db n) info base from →
  Forall2 (chunk_holds L (ln_store n)) (ListChunks (ln_store n) from) ls →
  history (base ++ concat ls) → Z.of_nat (length (concat ls)) ≤ int64_max →
  ∃ comp rev, backfill_attempt env cfg info attempt n =
    (Ok (Ok tt), with_ln_following false
       (with_ln_db (mkDB (base ++ (imported (be_clock env) <$> concat ls)) comp)
          (with_ln_state (SetCompaction rev (ln_state n)) n))).
Proof using CL L.
  intros Hq Hf Hl HF Hh Hlen. rewrite /backfill_attempt.
  destruct (prepareLocalState_loads env n info base from Hq Hl) as (comp & rev & ->).
  rewrite /needsFollowStream in Hf |- *. cbn [ln_state with_ln_db with_ln_state SetCompaction cluster].
  rewrite Hf /backfillChunksFromRevision (proj2 Hq). cbn [negb ln_store with_ln_following with_ln_db with_ln_state].
  rewrite (replay_chunks_loads env attempt 0 _ _ ls) //. cbn [ln_db with_ln_db rows].
  rewrite history_integrity; [by apply history_app_map|]. by exists comp, rev.
Qed.

(** The cluster state of a loading node without a stream is left alone. *)
Lemma backfill_attempt_still env cfg info attempt n u n' :
  needsFollowStream (ln_state n) (bc_NodeID cfg) = false →
  backfill_attempt env cfg info attempt n = (Ok u, n') →
  ln_store n' = ln_store n ∧ cluster (ln_state n') = cluster (ln_state n) ∧
  health (ln_state n') = health (ln_state n).
Proof.
  intros Hf. rewrite /backfill_attempt.
  assert (∀ x n1, prepareLocalState env info n = (Ok x, n1) →
    ln_store n1 = ln_store n ∧ cluster (ln_state n1) = cluster (ln_state n) ∧
    health (ln_state n1) = health (ln_state n)) as Hp.
  { intros x n1. rewrite /prepareLocalState.
    destruct (seedCompaction_state (ln_db n) (ln_state n)) as [rev Hs].
    destruct (seedCompactionFromLocalDB _ _) as [db st]. cbn [snd] in Hs. subst st.
    case_match; [by intros [= _ <-]|].
    destruct (importLatestSnapshot _ _ _ _) as [[] db']; [|done].
    destruct (seedCompaction_state db' (SetCompaction rev (ln_state n))) as [rev' Hs].
    destruct (seedCompactionFromLocalDB db' _) as [db2 st]. cbn [snd] in Hs. subst st. by intros [= _ <-]. }
  destruct (prepareLocalState env info n) as [[from|e] n1]; [|done].
  destruct (Hp from n1 eq_refl) as (H1 & H2 & H3).
  assert (needsFollowStream (ln_state n1) (bc_NodeID cfg) = false) as -> by (by rewrite /needsFollowStream H2).
  assert (∀ chunks i m, ln_following m = false →
    ln_store (replay_chunks env attempt i chunks m).2 = ln_store m ∧
    ln_state (replay_chunks env attempt i chunks m).2 = ln_state m) as Hr.
  { induction chunks as [|c chunks IH]; intros i m Hm; [done|]. cbn [replay_chunks]. rewrite Hm.
    destruct (negb _); [done|]. destruct (DownloadAndImportFile _ _ _ _ _) as [[] db]; [|done].
    apply (IH (S i) (with_ln_db db (with_ln_db (ln_db m) (with_ln_state (ln_state m) m))) Hm). }
  rewrite /backfillChunksFromRevision. destruct (negb _); [done|].
  specialize (Hr (ListChunks (ln_store (with_ln_following false n1)) from) 0%nat (with_ln_following false n1) eq_refl).
  destruct (replay_chunks _ _ _ _ _) as [[] n2]; [|done]. cbn [fst snd] in Hr. destruct Hr as [E1 E2].
  intros [= _ <-]. by rewrite E1 E2.
Qed.

(** What [Run] ends with once the backfill has loaded [t]. *)
Definition loaded (t : list record) (out : res boot_err (option FileInfo) * LoadingNode OS) : Prop :=
  is_ok out.1 = true ∧ rows (ln_db out.2) = t ∧
  committed (ln_state out.2) = Z.of_nat (length t) ∧ health (ln_state out.2) = HealthHealthy.

Lemma Run_finish env cfg n n1 n2 t :
  join_cluster env cfg n = (Ok tt, n1) → be_snapshots env = true →
  backfill_loop env cfg (GetLatestSnapshot (ln_store n1)) maxIntegrityAttempts 1 n1 = (Ok tt, n2) →
  (∀ st, be_meanwhile env st = st) → needsFollowStream (ln_state n2) (bc_NodeID cfg) = false →
  rows (ln_db n2) = t → history t → health (ln_state n2) ≠ HealthHealthy →
  loaded t (Run env cfg n).
Proof.
  intros Hj Hs Hb Hm Hf Hr Hh Hhl. rewrite /loaded /Run Hj Hs. cbn [negb]. rewrite Hb Hm. cbn [ln_state with_ln_state]. rewrite Hf /SetHealth.
  cbn [ln_state with_ln_state ln_db]. assert (LatestRevision (ln_db n2) = Z.of_nat (length t)) as ->
    by (rewrite /LatestRevision Hr; by apply history_latest_table).
  cbn [health SetCommitted]. by destruct (health (ln_state n2)).
Qed.

(** A node that is Primary itself, or that finds no Primary, loads the whole
    durable log: when the chunks above its rows (above the newest snapshot, if
    it has none) continue them, a bootstrap that meets no failure ends with
    exactly these records, committed up to the last, and the node Healthy. *)
Theorem Run_loads env cfg n n1 base from ls :
  join_cluster env cfg n = (Ok tt, n1) → health (ln_state n) ≠ HealthHealthy →
  quiet_load env → be_snapshots env = true → (∀ st, be_meanwhile env st = st) →
  needsFollowStream (ln_state n1) (bc_NodeID cfg) = false →
  loads (be_clock env) (ln_store n1) (ln_db n) (GetLatestSnapshot (ln_store n1)) base from →
  Forall2 (chunk_holds L (ln_store n1)) (ListChunks (ln_store n1) from) ls →
  history (base ++ concat ls) → Z.of_nat (length (concat ls)) ≤ int64_max →
  loaded (base ++ (imported (be_clock env) <$> concat ls)) (Run env cfg n).
Proof using CL L.
  intros Hj Hhl Hq Hs Hm Hf Hl HF Hh Hlen. pose proof (join_cluster_state env cfg n) as [Eh Edb].
  rewrite Hj in Eh, Edb. cbn [snd] in Eh, Edb. rewrite -Edb in Hl.
  destruct (backfill_attempt_loads env cfg _ 1 n1 base from ls Hq Hf Hl HF Hh Hlen) as (comp & rev & Hb).
  eapply (Run_finish _ _ _ _ _ _ Hj Hs); [cbn; rewrite Hb; reflexivity|done|done|done| |by cbn; rewrite Eh].
  by apply history_app_map.
Qed.

End bootstrap.

(** ** On concrete runs *)

#[local] Existing Instance example_codec.
#[local] Existing Instance example_codec_laws.
#[local] Existing Instance example_json.
#[local] Hint Extern 0 (ObjectStorage MemoryStore) =>
  exact (MemoryStore_ObjectStorage example_etag) : typeclass_instances.

(** Object storage with a snapshot of revisions 1 and 2 and a chunk with 3 and
    4, and a node that is the Elector and has an empty database. *)
Definition snapshot_file : bytes :=
  match writeSnapshotFile snapshot_cfg quiet_snapshot (take 2 (rows example_db)) with Ok d => d | Err _ => [] end.
Definition durable_store : MemoryStore := <[SnapshotKey 2 := snapshot_file]> {[old_chunk.1 := old_chunk.2]}.

Definition boot_cluster : pb_ClusterState :=
  mk_pb_ClusterState (Some (mkNodeInfo "n1" 1 "peer1")) None 1.
Definition example_boot_env : boot_env :=
  mkBootEnv true PutOk true (Some (1, Some boot_cluster)) (λ _ _, None) (λ _, false) (λ _ m, m)
    None (λ _, None) (λ _, true) true (λ n, 100 + n) (λ _, true) (λ _, true)
    (λ _ _ _, None) (λ _ _ db st, (db, st)) id.
Definition example_boot_cfg : boot_config := mkBootConfig "n1" "client1" "peer1".
Definition loading_node (db : database) (s : MemoryStore) : LoadingNode MemoryStore :=
  mkLoadingNode s State_New db (NewPeerManager "n1" true) false.

Lemma example_background : background_ok example_boot_env.
Proof. split_and!; done. Qed.

Lemma Run_healthy_witness :
  let out := Run example_boot_env example_boot_cfg (loading_node (mkDB [] []) durable_store) in
  health (ln_state out.2) = HealthHealthy ∧ VerifyIntegrity (ln_db out.2) = Ok tt.
Proof.
  intros out. assert (is_ok out.1 = true) as Hok by (vm_compute; reflexivity).
  destruct (Run_healthy example_boot_env example_boot_cfg (loading_node (mkDB [] []) durable_store)
    example_background ltac:(discriminate)) as [H1 H2].
  exact (conj (proj1 H1 Hok) (proj1 (H2 Hok))).
Defined.

Definition joined (n : LoadingNode MemoryStore) : LoadingNode MemoryStore :=
  (join_cluster example_boot_env example_boot_cfg n).2.

Definition joined_store : MemoryStore := ln_store (joined (loading_node (mkDB [] []) durable_store)).
Definition snapshot_info : FileInfo := mkFileInfo (SnapshotKey 2) (Z.of_nat (length snapshot_file)) 2.

Lemma joined_store_any db : ln_store (joined (loading_node db durable_store)) = joined_store.
Proof. by rewrite /joined_store /joined !join_cluster_store. Qed.

Lemma joined_snapshot : GetLatestSnapshot joined_store = Some snapshot_info.
Proof. vm_compute. reflexivity. Qed.

Lemma joined_snapshot_holds :
  snapshot_holds example_store_laws joined_store snapshot_info (take 2 (rows example_db)).
Proof.
  destruct (writeSnapshotFile_reads snapshot_cfg quiet_snapshot (take 2 (rows example_db)) snapshot_file)
    as [results Hr]; [by vm_compute|by vm_compute|].
  exists snapshot_file, results. split; [vm_compute; reflexivity|exact Hr].
Qed.

Lemma joined_chunks :
  Forall2 (chunk_holds example_store_laws joined_store) (ListChunks joined_store 2) [drop 2 (rows example_db)].
Proof.
  assert (ListChunks joined_store 2 = [mkFileInfo old_chunk.1 (Z.of_nat (length old_chunk.2)) 4]) as ->
    by (vm_compute; reflexivity).
  constructor; [|constructor]. exists 50, "n9", old_chunk.2. split; vm_compute; reflexivity.
Qed.

(** What the node should end with. *)
Definition durable_log : list record :=
  (imported (λ n, 100 + n) <$> take 2 (rows example_db))
  ++ (imported (λ n, 100 + n) <$> concat [drop 2 (rows example_db)]).

Lemma durable_history :
  history ((imported (λ n, 100 + n) <$> take 2 (rows example_db)) ++ concat [drop 2 (rows example_db)]).
Proof. apply history_by_check. vm_compute. reflexivity. Qed.

Lemma durable_loads db :
  rows db = [] →
  loads example_store_laws (λ n, 100 + n) joined_store db (Some snapshot_info)
    (imported (λ n, 100 + n) <$> take 2 (rows example_db)) 2.
Proof.
  intros Hd. apply (loads_snapshot example_store_laws _ _ _ snapshot_info); [done|apply joined_snapshot_holds|].
  apply history_by_check. vm_compute. reflexivity.
Qed.

Lemma joined_ok db :
  join_cluster example_boot_env example_boot_cfg (loading_node db durable_store)
  = (Ok tt, joined (loading_node db durable_store)).
Proof. apply pair_of_fst. vm_compute. reflexivity. Qed.

Lemma Run_loads_witness :
  loaded durable_log (Run example_boot_env example_boot_cfg (loading_node (mkDB [] []) durable_store)).
Proof.
  refine (Run_loads example_store_laws example_boot_env example_boot_cfg (loading_node (mkDB [] []) durable_store)
    (joined (loading_node (mkDB [] []) durable_store)) (imported (λ n, 100 + n) <$> take 2 (rows example_db)) 2
    [drop 2 (rows example_db)] (joined_ok _) _ _ _ _ _ _ _ durable_history _).
  - discriminate.
  - split; done.
  - reflexivity.
  - reflexivity.
  - vm_compute. reflexivity.
  - fold joined_store. rewrite joined_snapshot. exact (durable_loads (mkDB [] []) eq_refl).
  - exact joined_chunks.
  - vm_compute. discriminate.
Defined.

(** The local database has lost revision 1. *)
Definition damaged_db : database := mkDB (drop 1 (take 2 (rows example_db))) [].


(** A node whose own rows end before the newest snapshot, all older chunks
    being gone, is declared Healthy without the records of the snapshot: a
    snapshot is imported only into an empty database. *)
Lemma stale_node_passes_bootstrap :
  let stale := loading_node (mkDB (take 1 (rows example_db)) []) {[SnapshotKey 2 := snapshot_file]} in
  let out := Run example_boot_env example_boot_cfg stale in
  is_ok out.1 = true ∧ health (ln_state out.2) = HealthHealthy ∧
  length (rows (ln_db out.2)) = 1%nat ∧ committed (ln_state out.2) = 1 ∧
  (GetLatestSnapshot (ln_store out.2) = Some snapshot_info).
Proof. vm_compute. done. Qed.

(** An Elector that names another node Primary while it loads: bootstrap ends
    Healthy with the follower stopped and nothing committed. *)
Lemma primary_elected_during_backfill :
  let elect st := SetClusterPrimary (mkNodeInfo "n2" 2 "peer2") st in
  let env := mkBootEnv true PutOk true (Some (1, Some boot_cluster)) (λ _ _, None) (λ _, false) (λ _ m, m)
    None (λ _, None) (λ _, true) true (λ n, 100 + n) (λ _, true) (λ _, true)
    (λ _ _ _, None) (λ _ _ db st, (db, st)) elect in
  let out := Run env example_boot_cfg (loading_node (mkDB [] []) durable_store) in
  is_ok out.1 = true ∧ health (ln_state out.2) = HealthHealthy ∧ ln_following out.2 = false ∧
  needsFollowStream (ln_state out.2) "n1" = true ∧ committed (ln_state out.2) = 0.
Proof. vm_compute. done. Qed.
