(* ===== verification/Recovery.v ===== *)
(** * Recovery: what a snapshot leaves behind is what a bootstrap loads

    The snapshot worker ([internal/snapshot]) and the bootstrap
    ([internal/bootstrap]) meet only in object storage.  Here the two are put
    together: a node with an empty database that joins after a snapshot ends
    with a copy of the table of the node that took it. *)

From S2P Require Import Prelude NodeState Records LocalDB History Examples LocalDBTheorems Storage DataFile.
From S2P Require Import ExampleCodec Discovery DataStore DataStoreTheorems ChunkBuffer Primary Preflight PreflightTheorems.
From S2P Require Import PeerClient Elector Failover Snapshot SnapshotTheorems Bootstrap BootstrapTheorems.

#[local] Open Scope Z_scope.

Section recovery.
  Context `{CL : CodecLaws} {OS : Type} `{HS : ObjectStorage OS} (L : ObjectStorageLaws OS).

(** ** The newest snapshot *)

(** Every object under [snapshots/] is named the way a snapshot of a revision
    up to [upTo] is. *)
Definition snapshots_upto (s : OS) (upTo : Z) : Prop :=
  ∀ key data, string_has_prefix key "snapshots/" = true → os_objects s key = Some data →
    ∃ rev, key = SnapshotKey rev ∧ 0 ≤ rev ≤ upTo.

Lemma ListSnapshots_elem s f :
  f ∈ ListSnapshots s →
  ∃ data, os_objects s (fi_Key f) = Some data ∧ string_has_prefix (fi_Key f) "snapshots/" = true ∧
    parseRevisionFromKey (fi_Key f) = Some (fi_Revision f).
Proof using L.
  rewrite /ListSnapshots merge_sort_Permutation /parse_objects list_elem_of_omap.
  intros (oi & (d & Hd & Hp & _)%os_List_spec & Hf).
  destruct (parseRevisionFromKey (oi_Key oi)) as [rev|] eqn:E; [|done]. injection Hf as <-. by exists d.
Qed.

Lemma ListSnapshots_has s rev data :
  0 ≤ rev ≤ int64_max → os_objects s (SnapshotKey rev) = Some data →
  ∃ f, f ∈ ListSnapshots s ∧ fi_Key f = SnapshotKey rev ∧ fi_Revision f = rev.
Proof using L.
  intros Hr Hd. exists (mkFileInfo (SnapshotKey rev) (Z.of_nat (length data)) rev). split; [|done].
  rewrite /ListSnapshots merge_sort_Permutation /parse_objects list_elem_of_omap.
  exists (mkObjectInfo (SnapshotKey rev) (Z.of_nat (length data))).
  split; [|by rewrite /= parse_snapshot_key].
  apply os_List_spec. exists data. split_and!; [done|apply SnapshotKey_prefix|done].
Qed.

(** A snapshot that no other one is newer than is the one a node starts from. *)
Lemma GetLatestSnapshot_newest s upTo data :
  0 ≤ upTo ≤ int64_max → snapshots_upto s upTo → os_objects s (SnapshotKey upTo) = Some data →
  ∃ f, GetLatestSnapshot s = Some f ∧ fi_Key f = SnapshotKey upTo ∧ fi_Revision f = upTo.
Proof using L.
  intros Hr Hup Hd. destruct (ListSnapshots_has s upTo data Hr Hd) as (f0 & Hf0 & _ & E0).
  rewrite /GetLatestSnapshot. destruct (ListSnapshots s) as [|f l] eqn:El; [by apply not_elem_of_nil in Hf0|].
  exists f. split; [done|].
  assert (f ∈ ListSnapshots s) as Hf by (rewrite El; by left).
  apply ListSnapshots_elem in Hf as (d & Hk & Hp & Hparse).
  destruct (Hup _ _ Hp Hk) as (rev & Ek & Hrev). rewrite Ek parse_snapshot_key in Hparse; [lia|].
  injection Hparse as Hparse.
  assert (upTo ≤ fi_Revision f).
  { assert (StronglySorted rev_ge (ListSnapshots s)) as Hs by apply (StronglySorted_merge_sort rev_ge).
    rewrite El in Hs. apply StronglySorted_inv in Hs as [_ Hall].
    apply elem_of_cons in Hf0 as [->|Hin]; [lia|]. rewrite Forall_forall in Hall.
    specialize (Hall f0 Hin). rewrite /rev_ge in Hall. lia. }
  assert (rev = upTo) as -> by lia. by split.
Qed.

(** ** What a successful snapshot leaves *)

Lemma delete_chunks_only env chunks s key :
  (∀ c, c ∈ chunks → fi_Key c ≠ key) → os_objects (delete_chunks env chunks s) key = os_objects s key.
Proof.
  rewrite /delete_chunks. revert s. induction chunks as [|c chunks IH]; intros s Hne; [done|]. simpl.
  rewrite IH; [intros c' Hc'; apply Hne; by right|].
  assert (fi_Key c ≠ key) as Hc by (apply Hne; by left).
  rewrite /faulty_delete. destruct (sn_delete env (fi_Key c)); simpl; [|done|]; rewrite os_Delete_spec decide_False //.
Qed.

Lemma delete_chunks_cases env chunks s key :
  os_objects (delete_chunks env chunks s) key = os_objects s key ∨
  os_objects (delete_chunks env chunks s) key = None.
Proof.
  rewrite /delete_chunks. revert s. induction chunks as [|c chunks IH]; intros s; [by left|]. simpl.
  destruct (IH (faulty_delete (sn_delete env (fi_Key c)) s (fi_Key c)).2) as [->|]; [|by right].
  rewrite /faulty_delete. destruct (sn_delete env (fi_Key c)); simpl; [|by left|];
    rewrite os_Delete_spec; case_decide; auto.
Qed.

(** The snapshot is there; of all other objects only chunks up to its revision
    may be gone. *)
Lemma createSnapshot_store cfg env upTo db s s' :
  (∀ d, sn_disk env d = d) → createSnapshot cfg env upTo db s = (true, s') →
  ∃ data, writeSnapshotFile cfg env (FindAllRecordsForSnapshot upTo db) = Ok data ∧
    os_objects s' (SnapshotKey upTo) = Some data ∧
    ∀ key, key ≠ SnapshotKey upTo → os_objects s' key = os_objects s key ∨
      os_objects s' key = None ∧ string_has_prefix key "chunks/" = true ∧
      ∃ rev, parseRevisionFromKey key = Some rev ∧ rev ≤ upTo.
Proof using L.
  intros Hdisk. rewrite /createSnapshot. case_bool_decide; [done|].
  destruct (negb (sn_tempFile env)); [done|].
  destruct (writeSnapshotFile cfg env _) as [data|]; [|done].
  rewrite /Upload /faulty_put Hdisk. destruct (sn_upload env); [|done|done].
  set (s1 := os_Put s (SnapshotKey upTo) data).
  assert (∀ key, os_objects s1 key = if decide (key = SnapshotKey upTo) then Some data else os_objects s key) as H1
    by (intros; apply os_Put_spec).
  intros Hs'. exists data. split; [done|].
  destruct (negb (sn_list env)).
  { injection Hs' as <-. rewrite H1 decide_True //. split; [done|]. intros key Hk. left. by rewrite H1 decide_False. }
  injection Hs' as <-. set (chunks := ListChunksForCleanup s1 upTo).
  assert (∀ c, c ∈ chunks → string_has_prefix (fi_Key c) "chunks/" = true ∧
    parseRevisionFromKey (fi_Key c) = Some (fi_Revision c) ∧ fi_Revision c ≤ upTo) as Hc
    by (intros c; apply ListChunksForCleanup_elem, L).
  split.
  { rewrite delete_chunks_only; [|by rewrite H1 decide_True].
    intros c (Hp & _)%Hc E. rewrite E in Hp. by eapply snapshots_not_chunks; [apply SnapshotKey_prefix|]. }
  intros key Hk. destruct (decide (Exists (λ c, fi_Key c = key) chunks)) as [Hex|Hex].
  - apply Exists_exists in Hex as (c & Hin & <-). destruct (Hc c Hin) as (Hp & Hr & Hle).
    destruct (delete_chunks_cases env chunks s1 (fi_Key c)) as [E|E].
    + left. rewrite E H1 decide_False //.
    + right. split_and!; [done|done|by exists (fi_Revision c)].
  - left. rewrite delete_chunks_only; [|by rewrite H1 decide_False].
    intros c Hin E. apply Hex, Exists_exists. by exists c.
Qed.

(** A chunk that is gone is behind the snapshot. *)
Lemma createSnapshot_keeps_chunks cfg env upTo db s s' :
  (∀ d, sn_disk env d = d) → 0 ≤ upTo ≤ int64_max → snapshots_upto s upTo →
  createSnapshot cfg env upTo db s = (true, s') → chunks_kept L s s'.
Proof using CL.
  intros Hdisk Hr Hup Hc. destruct (createSnapshot_store _ _ _ _ _ _ Hdisk Hc) as (data & _ & Hdata & Hother).
  assert (snapshots_upto s' upTo) as Hup'.
  { intros key d Hp Hd. destruct (decide (key = SnapshotKey upTo)) as [->|Hne]; [exists upTo; split; [done|lia]|].
    destruct (Hother key Hne) as [E|[E _]]; [|congruence]. rewrite E in Hd. by eapply Hup. }
  intros rev r Hrev Hhas. assert (ChunkKey rev ≠ SnapshotKey upTo) as Hne by done.
  destruct (Hother _ Hne) as [E|(_ & Hp & rev' & Hparse & Hle)].
  - left. by rewrite /chunk_has E.
  - right. destruct (GetLatestSnapshot_newest s' upTo data Hr Hup' Hdata) as (f & Hf & _ & <-).
    exists f. split; [done|]. rewrite parse_chunk_key in Hparse; [lia|]. by injection Hparse as <-.
Qed.

(** ** The chunks above it *)

(** The stores hold the same chunks above a revision. *)
Definition same_chunks (s s' : OS) (from : Z) : Prop :=
  ∀ key rev, string_has_prefix key "chunks/" = true → parseRevisionFromKey key = Some rev → from < rev →
    os_objects s' key = os_objects s key.

Lemma parse_objects_NoDup l : NoDup l → NoDup (parse_objects l).
Proof.
  intros Hl. rewrite /parse_objects. induction Hl as [|oi l Hni Hl IH]; [constructor|]. cbn.
  destruct (parseRevisionFromKey (oi_Key oi)) as [rev|] eqn:E; [|done]. cbn. constructor; [|done].
  rewrite list_elem_of_omap. intros (oi' & Hin & Hf).
  destruct (parseRevisionFromKey (oi_Key oi')) as [rev'|]; [|done]. injection Hf as Hk Hs _.
  destruct oi, oi'. simpl in *. by subst.
Qed.

Lemma ListChunks_elem s from c :
  c ∈ ListChunks s from ↔
  ∃ d, os_objects s (fi_Key c) = Some d ∧ string_has_prefix (fi_Key c) "chunks/" = true ∧
    parseRevisionFromKey (fi_Key c) = Some (fi_Revision c) ∧ from < fi_Revision c ∧
    fi_Size c = Z.of_nat (length d).
Proof using L.
  rewrite /ListChunks merge_sort_Permutation list_elem_of_filter /parse_objects list_elem_of_omap. split.
  - intros (Hlt & oi & (d & Hd & Hp & Hs)%os_List_spec & Hf).
    destruct (parseRevisionFromKey (oi_Key oi)) as [rev|] eqn:E; [|done]. injection Hf as <-. by exists d.
  - intros (d & Hd & Hp & Hr & Hlt & Hs). split; [done|]. exists (mkObjectInfo (fi_Key c) (fi_Size c)).
    cbn [oi_Key oi_Size]. rewrite Hr. split; [|by destruct c]. apply os_List_spec. by exists d.
Qed.

(** Chunks named by their revisions are listed in one order. *)
Lemma ListChunks_same s s' from :
  same_chunks s s' from →
  (∀ c, c ∈ ListChunks s from → fi_Key c = ChunkKey (fi_Revision c)) →
  ListChunks s' from = ListChunks s from.
Proof using L.
  intros Hsame Hnames.
  assert (∀ c, c ∈ ListChunks s' from ↔ c ∈ ListChunks s from) as Heq.
  { intros c. rewrite !ListChunks_elem. split; intros (d & Hd & Hp & Hr & Hlt & Hs); exists d;
      rewrite ?(Hsame _ _ Hp Hr Hlt) in Hd |- *; by rewrite ?(Hsame _ _ Hp Hr Hlt). }
  assert (∀ s, NoDup (ListChunks s from)) as Hnd.
  { intros s0. rewrite /ListChunks merge_sort_Permutation. apply NoDup_filter, parse_objects_NoDup, os_List_NoDup. }
  apply (StronglySorted_unique_strong rev_le).
  - intros c1 c2 H1%Heq H2 Hle Hge. rewrite /rev_le in Hle, Hge.
    assert (fi_Revision c1 = fi_Revision c2) as Er by lia.
    assert (fi_Key c1 = fi_Key c2) as Ek by (by rewrite (Hnames _ H1) (Hnames _ H2) Er).
    apply ListChunks_elem in H1 as (d1 & Hd1 & _ & _ & _ & E1). apply ListChunks_elem in H2 as (d2 & Hd2 & _ & _ & _ & E2).
    destruct c1, c2. simpl in *. by simplify_eq.
  - apply (StronglySorted_merge_sort rev_le).
  - apply (StronglySorted_merge_sort rev_le).
  - by apply NoDup_Permutation.
Qed.

Lemma elem_of_concat {A} (x : A) l ls : x ∈ l → l ∈ ls → x ∈ concat ls.
Proof. intros Hx Hl. induction Hl; cbn; apply elem_of_app; [by left|right; auto]. Qed.

(** Chunks that hold rows of a log are named by their revisions. *)
Lemma chunk_holds_named s from ls :
  Forall2 (chunk_holds L s) (ListChunks s from) ls →
  (∀ r, r ∈ concat ls → 0 ≤ Revision r ≤ int64_max) →
  ∀ c, c ∈ ListChunks s from → fi_Key c = ChunkKey (fi_Revision c).
Proof.
  intros HF Hb c Hc. pose proof Hc as (d & _ & _ & Hparse & _)%ListChunks_elem.
  apply list_elem_of_lookup in Hc as [i Hi].
  destruct (Forall2_lookup_l _ _ _ _ _ HF Hi) as (l & Hl & now & node & data & Hm & _).
  destruct (MarshalChunkBatch_key _ _ _ _ _ Hm) as (r & Hr & Ek). rewrite Ek in Hparse |- *.
  rewrite parse_chunk_key in Hparse; [|by injection Hparse as <-].
  apply Hb, (elem_of_concat _ l); [by apply last_Some_elem_of|by eapply list_elem_of_lookup_2].
Qed.

(** ** Bootstrap after a snapshot *)

Section bootstrap.
  Context `{HJ : JSON}.
  Implicit Types n : LoadingNode OS.

Lemma not_registration key :
  string_has_prefix key "chunks/" = true ∨ string_has_prefix key "snapshots/" = true →
  string_has_prefix key "nodes/" = false.
Proof.
  rewrite /string_has_prefix. intros Hp. apply not_true_is_false. intros [t Ht]%prefix_spec.
  destruct Hp as [[t' ->]%prefix_spec|[t' ->]%prefix_spec]; done.
Qed.

Lemma faulty_put_other f (s : OS) key d k : k ≠ key → os_objects (faulty_put f s key d).2 k = os_objects s k.
Proof. intros Hk. rewrite /faulty_put. destruct f; [| |]; rewrite /= ?os_Put_spec ?decide_False //. Qed.

(** A node that registers changes nothing but its registration. *)
Lemma join_cluster_objects env cfg n n1 key :
  join_cluster env cfg n = (Ok tt, n1) → string_has_prefix key "nodes/" = false →
  os_objects (ln_store n1) key = os_objects (ln_store n) key.
Proof.
  intros Hj Hk. pose proof (join_cluster_store env cfg n) as E. rewrite Hj in E. cbn [snd] in E. rewrite E.
  assert (key ≠ NodePath (bc_NodeID cfg)) as Hne.
  { intros ->. rewrite /NodePath /string_has_prefix in Hk. by rewrite (proj2 (prefix_spec "nodes/" _)) in Hk; eauto. }
  rewrite /WriteNodeRegistration. destruct (faulty_get _ _ _) as [[existing etag]|e].
  { destruct (registration_of_json existing) as [prev|]; [|done]. by case_decide. }
  destruct (negb _); [done|].
  match goal with |- context [faulty_put ?f ?s ?k ?d] => pose proof (faulty_put_other f s k d key Hne) as Ho;
    destruct (faulty_put f s k d) as [[] s'] end; exact Ho.
Qed.

(** C12: a bootstrap after a snapshot restores the whole table.  When a node has
    taken a snapshot of its table up to [upTo] and the chunks above it hold the
    rest, a node with an empty database that joins and meets no failure ends
    Healthy with a copy of every row and nothing else, committed up to the
    last; whichever deletes of older chunks failed. *)
Theorem snapshot_bootstrap scfg senv upTo db s s' ls env cfg n n1 :
  history (rows db) → Z.of_nat (length (rows db)) ≤ int64_max → 0 ≤ upTo ≤ int64_max →
  rows db = FindAllRecordsForSnapshot upTo db ++ concat ls →
  snapshots_upto s upTo → Forall2 (chunk_holds L s) (ListChunks s upTo) ls →
  (∀ d, sn_disk senv d = d) → createSnapshot scfg senv upTo db s = (true, s') →
  ln_store n = s' → rows (ln_db n) = [] → health (ln_state n) ≠ HealthHealthy →
  join_cluster env cfg n = (Ok tt, n1) → needsFollowStream (ln_state n1) (bc_NodeID cfg) = false →
  quiet_load env → be_snapshots env = true → (∀ st, be_meanwhile env st = st) →
  loaded (imported (be_clock env) <$> rows db) (Run env cfg n).
Proof using CL L.
  intros Hh Hlen Hup Hrows Hsnaps HF Hdisk Hc Hs Hdb Hhl Hj Hf Hq Hbs Hm.
  destruct (createSnapshot_store _ _ _ _ _ _ Hdisk Hc) as (data & Hw & Hdata & Hother).
  assert (∀ key, string_has_prefix key "nodes/" = false →
    os_objects (ln_store n1) key = os_objects s' key) as Hjoin.
  { intros key Hk. rewrite -Hs. by eapply join_cluster_objects. }
  assert (same_chunks s (ln_store n1) upTo) as Hsame.
  { intros key rev Hp Hr Hlt. rewrite Hjoin; [by apply not_registration; left|].
    destruct (Hother key) as [->|(_ & _ & rev' & Hr' & Hle)]; [|done|rewrite Hr in Hr'; simplify_eq; lia].
    intros ->. by eapply snapshots_not_chunks; [apply SnapshotKey_prefix|]. }
  assert (snapshots_upto (ln_store n1) upTo) as Hsnaps1.
  { intros key d Hp. rewrite Hjoin; [by apply not_registration; right|]. intros Hd.
    destruct (decide (key = SnapshotKey upTo)) as [->|Hne]; [exists upTo; split; [done|lia]|].
    destruct (Hother key Hne) as [E|(E & _)]; [|congruence]. rewrite E in Hd. by eapply Hsnaps. }
  assert (os_objects (ln_store n1) (SnapshotKey upTo) = Some data) as Hdata1
    by (rewrite Hjoin //; apply not_registration; right; apply SnapshotKey_prefix).
  destruct (GetLatestSnapshot_newest _ _ _ Hup Hsnaps1 Hdata1) as (f & Hgf & Ek & Er).
  assert (∀ r, r ∈ concat ls → 0 ≤ Revision r ≤ int64_max) as Hb.
  { intros r Hr. assert (r ∈ rows db) as Hin by (rewrite Hrows; apply elem_of_app; by right).
    pose proof (history_row_bound _ _ Hh Hin). lia. }
  assert (ListChunks (ln_store n1) upTo = ListChunks s upTo) as El
    by (apply ListChunks_same; [done|by eapply chunk_holds_named]).
  set (l := FindAllRecordsForSnapshot upTo db) in *. rewrite Hrows fmap_app.
  assert (history l) as Hl by (rewrite Hrows in Hh; by apply history_app_inv in Hh).
  rewrite Hrows length_app in Hlen.
  eapply (Run_loads L env cfg n n1 _ upTo ls); try done; [| | |lia].
  - rewrite Hgf -Er. apply loads_snapshot; [done| |done].
    destruct (writeSnapshotFile_reads scfg senv l data) as [results Hread]; [lia|done|].
    exists data, results. by rewrite Ek.
  - rewrite El. apply Forall2_same_length_lookup. split; [by eapply Forall2_length|]. intros i c l' Hc' Hl'.
    destruct (Forall2_lookup_lr _ _ _ _ _ _ HF Hc' Hl') as (now & node & d & Hmb & Hd). exists now, node, d.
    split; [done|]. apply list_elem_of_lookup_2, ListChunks_elem in Hc' as (_ & _ & Hp & Hr & Hlt & _).
    by rewrite (Hsame _ _ Hp Hr Hlt).
  - rewrite Hrows in Hh. apply (history_map_middle (imported (be_clock env)) [] l (concat ls)); [|done].
    done.
Qed.
End bootstrap.
End recovery.

(** ** On a concrete run *)

#[local] Existing Instance example_codec.
#[local] Existing Instance example_codec_laws.
#[local] Existing Instance example_json.
#[local] Hint Extern 0 (ObjectStorage MemoryStore) =>
  exact (MemoryStore_ObjectStorage example_etag) : typeclass_instances.

(** Two chunks with two rows each, and the store after a snapshot at 2, which
    replaces the first of them. *)
Definition first_chunk : string * bytes :=
  match MarshalChunkBatch 50 (take 2 (rows example_db)) "n9" with Some (Ok kd) => kd | _ => ("", []) end.
Definition chunks_store : MemoryStore := <[first_chunk.1 := first_chunk.2]> {[old_chunk.1 := old_chunk.2]}.
Definition snapshotted : MemoryStore := (createSnapshot snapshot_cfg quiet_snapshot 2 example_db chunks_store).2.

Lemma chunks_store_holds :
  Forall2 (chunk_holds example_store_laws chunks_store) (ListChunks chunks_store 2) [drop 2 (rows example_db)].
Proof.
  assert (ListChunks chunks_store 2 = [mkFileInfo old_chunk.1 (Z.of_nat (length old_chunk.2)) 4]) as ->
    by (vm_compute; reflexivity).
  constructor; [|constructor]. exists 50, "n9", old_chunk.2. split; vm_compute; reflexivity.
Qed.

Lemma two_objects k1 (d1 : bytes) k2 d2 key data :
  (<[k1 := d1]> {[k2 := d2]} : gmap string bytes) !! key = Some data → key = k1 ∨ key = k2.
Proof. intros [[<- _]|[_ [<- _]%lookup_singleton_Some]]%lookup_insert_Some; auto. Qed.

Lemma chunks_store_snapshots : snapshots_upto example_store_laws chunks_store 2.
Proof.
  intros key data Hp Hd. exfalso.
  destruct (two_objects _ _ _ _ _ _ Hd) as [->| ->]; vm_compute in Hp; discriminate.
Qed.

Lemma snapshot_bootstrap_witness :
  @os_objects _ _ example_store_laws snapshotted first_chunk.1 = None ∧
  loaded (imported (λ n, 100 + n) <$> rows example_db)
    (Run example_boot_env example_boot_cfg (loading_node (mkDB [] []) snapshotted)).
Proof.
  split; [vm_compute; reflexivity|].
  refine (snapshot_bootstrap example_store_laws snapshot_cfg quiet_snapshot 2 example_db chunks_store snapshotted
    [drop 2 (rows example_db)] example_boot_env example_boot_cfg (loading_node (mkDB [] []) snapshotted)
    (joined (loading_node (mkDB [] []) snapshotted))
    example_db_history _ _ _ chunks_store_snapshots chunks_store_holds (λ d, eq_refl) _ eq_refl eq_refl _ _ _ _ _ _).
  - vm_compute. discriminate.
  - split; vm_compute; discriminate.
  - vm_compute. reflexivity.
  - apply pair_of_fst. vm_compute. reflexivity.
  - discriminate.
  - apply pair_of_fst. vm_compute. reflexivity.
  - vm_compute. reflexivity.
  - split; done.
  - reflexivity.
  - reflexivity.
Defined.
