(* ===== verification/Heartbeat.v ===== *)
(** * internal/heartbeat: the heartbeat sender of a node

    [Sender] holds the sender's own fields; node state, peer connections and
    database are passed beside it.  The two sends of one tick run concurrently
    and share only [lastReceiptSent]; each is one operation.  An operation
    returns the heartbeat that reached its target, if one did, and whether the
    self-degradation callback was called. *)

From S2P Require Import Prelude NodeState Records LocalDB Quorum PeerClient.

#[local] Open Scope string_scope.
#[local] Open Scope Z_scope.

Record Sender := mkSender {
  hb_nodeID : string;
  hb_startTime : Z;
  hb_interval : Z;
  hb_onPrimarySelfDegrade : bool;
  hb_lastReceiptSent : Z;
  hb_lastPrimaryNodeID : string;
}.

Definition NewSender (nodeID : string) (startTime interval : Z) : Sender :=
  mkSender nodeID startTime interval false 0 "".

Definition SetPrimarySelfDegradeFunc (s : Sender) : Sender :=
  mkSender (hb_nodeID s) (hb_startTime s) (hb_interval s) true
    (hb_lastReceiptSent s) (hb_lastPrimaryNodeID s).

Definition store_receipt (t : Z) (s : Sender) : Sender :=
  mkSender (hb_nodeID s) (hb_startTime s) (hb_interval s) (hb_onPrimarySelfDegrade s)
    t (hb_lastPrimaryNodeID s).

Definition MarkReceiptSent (now : Z) (s : Sender) : Sender := store_receipt now s.

Definition Sender_BuildNodeState (db : database) (st : State) (s : Sender) : pb_NodeState :=
  mk_pb_NodeState (hb_nodeID s) (HealthToProto (health st)) (ElectorToProto (elector st))
    (PrimaryToProto (primary st)) (LatestRevision db) (hb_startTime s).

Definition Sender_degradeSelf (st : State) (s : Sender) : State * bool :=
  if bool_decide (health st = HealthDegraded) then (st, false)
  else
    let wasPrimary := negb (bool_decide (primary st = PrimaryReplica)) in
    match SetHealth HealthDegraded st with
    | (Err _, _) => (st, false)
    | (Ok _, st') => (st', wasPrimary && hb_onPrimarySelfDegrade s)
    end.

(** The first attempt and the immediate retry. *)
Definition send_twice (send1 send2 : bool) : bool := send1 || send2.

Definition sendToElector (now : Z) (send1 send2 : bool) (db : database) (m : PeerManager)
    (st : State) (s : Sender) : Sender * State * option pb_NodeState * bool :=
  match ElectorClient m with
  | None => (s, st, None, false)
  | Some _ =>
      let ns := Sender_BuildNodeState db st s in
      if negb (send_twice send1 send2) then
        let '(st', called) := Sender_degradeSelf st s in (s, st', None, called)
      else
        let e := NodeID (cs_Elector (cluster st)) in
        let p := NodeID (cs_Primary (cluster st)) in
        let s' := if bool_decide (e ≠ "") && bool_decide (e = p) then store_receipt now s else s in
        (s', st, Some ns, false)
  end.

Definition sendToPrimaryIfNeeded (now : Z) (send1 send2 : bool) (db : database) (m : PeerManager)
    (st : State) (s : Sender) : Sender * State * option pb_NodeState * bool :=
  let e := NodeID (cs_Elector (cluster st)) in
  let p := NodeID (cs_Primary (cluster st)) in
  let s :=
    if bool_decide (p ≠ hb_lastPrimaryNodeID s)
    then mkSender (hb_nodeID s) (hb_startTime s) (hb_interval s) (hb_onPrimarySelfDegrade s) 0 p
    else s in
  let sameNode := bool_decide (e ≠ "") && bool_decide (e = p) in
  let isPrimary := bool_decide (p ≠ "") && bool_decide (p = hb_nodeID s) in
  if sameNode || isPrimary then (s, st, None, false)
  else
    match PrimaryClient m with
    | None => (s, st, None, false)
    | Some _ =>
        if (0 <? hb_lastReceiptSent s) && (wrap64 (now - hb_lastReceiptSent s) <? hb_interval s)
        then (s, st, None, false)
        else
          let ns := Sender_BuildNodeState db st s in
          if negb (send_twice send1 send2) then
            let '(st', called) := Sender_degradeSelf st s in (s, st', None, called)
          else (s, st, Some ns, false)
    end.

(** Outcomes of one tick: time and attempts of either send, and which of the
    two is done first. *)
Record tick_env := mkTickEnv {
  te_now : Z;
  te_elector1 : bool;
  te_elector2 : bool;
  te_primary1 : bool;
  te_primary2 : bool;
  te_electorFirst : bool;
}.

(** The heartbeats that reached the Elector and the Primary. *)
Definition tick (env : tick_env) (db : database) (m : PeerManager) (st : State) (s : Sender)
    : Sender * State * option pb_NodeState * option pb_NodeState * bool :=
  let elector := sendToElector (te_now env) (te_elector1 env) (te_elector2 env) db m in
  let primary := sendToPrimaryIfNeeded (te_now env) (te_primary1 env) (te_primary2 env) db m in
  if te_electorFirst env then
    let '(s, st, he, c1) := elector st s in
    let '(s, st, hp, c2) := primary st s in (s, st, he, hp, c1 || c2)
  else
    let '(s, st, hp, c1) := primary st s in
    let '(s, st, he, c2) := elector st s in (s, st, he, hp, c1 || c2).

(** The loop runs only for a positive interval. *)
Fixpoint Sender_Run (ticks : list (tick_env * database * PeerManager)) (st : State) (s : Sender)
    : Sender * State :=
  match ticks with
  | [] => (s, st)
  | (env, db, m) :: ticks' =>
      if 0 <? hb_interval s then
        let '(s', st', _, _, _) := tick env db m st s in Sender_Run ticks' st' s'
      else (s, st)
  end.

(** ** Theorems *)

(** The node follows a Primary that is neither itself nor the Elector. *)
Definition follows_remote (st : State) (s : Sender) : Prop :=
  let p := NodeID (cs_Primary (cluster st)) in
  p ≠ "" ∧ p ≠ hb_nodeID s ∧ NodeID (cs_Elector (cluster st)) ≠ p.

(** What a delivered heartbeat does at the Primary. *)
Definition deliver (now : Z) (hb : option pb_NodeState) (m : Replicas) : Replicas :=
  match hb with
  | None => m
  | Some ns =>
      (UpdateHeartbeat now (ns_NodeId ns) (HealthFromProto (ns_HealthState ns))
         (PrimaryFromProto (ns_PrimaryState ns)) (ns_LatestRevision ns) m).2
  end.

Lemma sendToElector_keeps now a b db m st s out :
  sendToElector now a b db m st s = out →
  NodeID (cs_Elector (cluster st)) ≠ NodeID (cs_Primary (cluster st)) →
  out.1.1.1 = s ∧ cluster out.1.1.2 = cluster st.
Proof.
  intros <- Hne. rewrite /sendToElector. destruct (ElectorClient m); [|done].
  destruct (send_twice a b); simpl.
  - rewrite (bool_decide_eq_false_2 (NodeID (cs_Elector (cluster st)) = _)) // andb_false_r. done.
  - rewrite /Sender_degradeSelf /SetHealth. repeat case_match; simplify_eq; done.
Qed.

(** The Primary hears from the node at the tick, or has heard from it less than
    an interval ago. *)
Lemma sendToPrimary_recent now a b db m st s :
  follows_remote st s → PrimaryClient m ≠ None → a || b = true →
  int64 (now - hb_lastReceiptSent s) →
  let hp := (sendToPrimaryIfNeeded now a b db m st s).1.2 in
  hp = Some (Sender_BuildNodeState db st s) ∨
  (hp = None ∧ hb_lastPrimaryNodeID s = NodeID (cs_Primary (cluster st)) ∧
   now - hb_lastReceiptSent s < hb_interval s).
Proof.
  intros (H1 & H2 & H3) Hc Hab Hi. rewrite /sendToPrimaryIfNeeded.
  rewrite (bool_decide_eq_false_2 (NodeID (cs_Elector (cluster st)) = _)) // andb_false_r.
  destruct (decide (NodeID (cs_Primary (cluster st)) = hb_lastPrimaryNodeID s)) as [Hp|Hp];
    [rewrite (bool_decide_eq_false_2 (_ ≠ hb_lastPrimaryNodeID s)); [by intros ?|]
    |rewrite (bool_decide_eq_true_2 (_ ≠ hb_lastPrimaryNodeID s)) //];
    cbn [hb_nodeID hb_lastReceiptSent hb_interval].
  all: rewrite (bool_decide_eq_false_2 (NodeID (cs_Primary (cluster st)) = hb_nodeID s)) // andb_false_r /=.
  all: destruct (PrimaryClient m); [|done]; cbn [Z.ltb Z.compare andb].
  2:{ rewrite /send_twice Hab /=. by left. }
  - destruct (0 <? hb_lastReceiptSent s); simpl; [|rewrite /send_twice Hab; by left].
    rewrite (wrap64_id _ Hi). destruct (Z.ltb_spec (now - hb_lastReceiptSent s) (hb_interval s)).
    + right. done.
    + rewrite /send_twice Hab. by left.
Qed.

(** One tick keeps a Replica in quorum until the next: whichever send is
    done first, if the sends to the Primary get through within the retry and the
    receipts the sender counts have reached the Primary, then for a whole
    interval after the tick a degradation check at the Primary leaves the
    Replica as it is, for every degradation count of two or more. *)
Theorem tick_keeps_healthy env db m st s replicas e count x :
  follows_remote st s → PrimaryClient m ≠ None → te_primary1 env || te_primary2 env = true →
  replicas !! hb_nodeID s = Some e →
  (hb_lastPrimaryNodeID s = NodeID (cs_Primary (cluster st)) → hb_lastReceiptSent s ≤ LastHeartbeat e) →
  int64 (te_now env - hb_lastReceiptSent s) → int64 (x - LastHeartbeat e) →
  2 ≤ count → 0 < hb_interval s → count * hb_interval s ≤ int64_max →
  te_now env ≤ x ≤ te_now env + hb_interval s →
  let hp := (tick env db m st s).1.2 in
  let replicas' := deliver (te_now env) hp replicas in
  ∃ e', replicas' !! hb_nodeID s = Some e' ∧
        checkDegradation x count (hb_interval s) replicas' !! hb_nodeID s = Some e'.
Proof.
  intros Hf Hc Hab Hl Hr Hi Hx Hcount Hint Hmax Hwin.
  assert (hb_interval s ≤ int64_max) as Hmax1 by nia.
  set (P h := ∃ e', deliver (te_now env) h replicas !! hb_nodeID s = Some e' ∧
    checkDegradation x count (hb_interval s) (deliver (te_now env) h replicas) !! hb_nodeID s = Some e').
  assert (∀ t e', deliver (te_now env) t replicas !! hb_nodeID s = Some e' →
    int64 (x - LastHeartbeat e') → x - LastHeartbeat e' < count * hb_interval s → P t) as Hfresh.
  { intros t e' Hd Hb Hlt. exists e'. split; [done|]. rewrite /checkDegradation lookup_fmap Hd /=. f_equal.
    case_decide; [done|]. rewrite (wrap64_id _ Hb) wrap64_id; [solve_int64|].
    by destruct (Z.ltb_spec (x - LastHeartbeat e') (count * hb_interval s)); [|lia]. }
  assert (∀ st1 h, cluster st1 = cluster st →
    (sendToPrimaryIfNeeded (te_now env) (te_primary1 env) (te_primary2 env) db m st1 s).1.2 = h → P h) as Hsend.
  { intros st1 h Ecl <-.
    destruct (sendToPrimary_recent (te_now env) (te_primary1 env) (te_primary2 env) db m st1 s)
      as [-> | (-> & E & Hlt)]; [by rewrite /follows_remote Ecl|done|done|done| |].
    - eapply Hfresh; [cbn [deliver]; rewrite /UpdateHeartbeat /= Hl /=; apply lookup_insert_eq| |];
        cbn [LastHeartbeat set_LatestRevision Replica_SetPrimary Replica_SetHealth set_LastHeartbeat];
        [solve_int64|nia].
    - rewrite Ecl in E. specialize (Hr E). eapply Hfresh; [exact Hl|done|nia]. }
  destruct Hf as (H1 & H2 & H3). rewrite /tick. destruct (te_electorFirst env).
  - pose proof (sendToElector_keeps _ _ _ _ _ _ _ _
      (eq_refl (sendToElector (te_now env) (te_elector1 env) (te_elector2 env) db m st s)) H3) as [E1 E2].
    destruct (sendToElector _ _ _ _ _ _ _) as [[[s1 st1] he] c1]. cbn [fst snd] in E1, E2. subst s1.
    specialize (Hsend st1 _ E2 eq_refl). by destruct (sendToPrimaryIfNeeded _ _ _ _ _ _ _) as [[[s2 st2] hp] c2].
  - specialize (Hsend st _ eq_refl eq_refl).
    destruct (sendToPrimaryIfNeeded _ _ _ _ _ _ _) as [[[s2 st2] hp] c2].
    by destruct (sendToElector _ _ _ _ _ _ _) as [[[s1 st1] he] c1].
Qed.

(** A node that has degraded itself stays Degraded while its heartbeats get
    through again: nothing but a bootstrap makes a node Healthy. *)
Lemma Sender_Run_stays_degraded ticks st s :
  health st = HealthDegraded → health (Sender_Run ticks st s).2 = HealthDegraded.
Proof.
  revert st s. induction ticks as [|[[env db] m] ticks IH]; intros st s Hd; [done|]. cbn [Sender_Run].
  destruct (0 <? hb_interval s); [|done].
  assert (∀ st0 s0, health st0 = HealthDegraded → Sender_degradeSelf st0 s0 = (st0, false)) as Hs.
  { intros st0 s0 E. by rewrite /Sender_degradeSelf E bool_decide_eq_true_2. }
  assert (∀ now a b st0 s0, health st0 = HealthDegraded → (sendToElector now a b db m st0 s0).1.1.2 = st0) as He.
  { intros now a b st0 s0 E. rewrite /sendToElector. destruct (ElectorClient m); [|done].
    destruct (negb _); [|done]. by rewrite Hs. }
  assert (∀ now a b st0 s0, health st0 = HealthDegraded → (sendToPrimaryIfNeeded now a b db m st0 s0).1.1.2 = st0) as Hp.
  { intros now a b st0 s0 E. rewrite /sendToPrimaryIfNeeded. destruct (_ || _); [done|].
    destruct (PrimaryClient m); [|done]. destruct (_ && _); [done|]. destruct (negb _); [|done]. by rewrite Hs. }
  rewrite /tick. destruct (te_electorFirst env).
  - specialize (He (te_now env) (te_elector1 env) (te_elector2 env) st s Hd).
    destruct (sendToElector _ _ _ _ _ _ _) as [[[s1 st1] h1] c1]. cbn in He. subst st1.
    specialize (Hp (te_now env) (te_primary1 env) (te_primary2 env) st s1 Hd).
    destruct (sendToPrimaryIfNeeded _ _ _ _ _ _ _) as [[[s2 st2] h2] c2]. cbn in Hp. subst st2. by apply IH.
  - specialize (Hp (te_now env) (te_primary1 env) (te_primary2 env) st s Hd).
    destruct (sendToPrimaryIfNeeded _ _ _ _ _ _ _) as [[[s2 st2] h2] c2]. cbn in Hp. subst st2.
    specialize (He (te_now env) (te_elector1 env) (te_elector2 env) st s2 Hd).
    destruct (sendToElector _ _ _ _ _ _ _) as [[[s1 st1] h1] c1]. cbn in He. subst st1. by apply IH.
Qed.

(** ** On concrete runs *)

(** A Replica with a receipt 9 time units before the tick, interval 10. *)
Definition example_sender : Sender := mkSender "n2" 7 10 true 91 "n1".
Definition following_state : State :=
  mkState HealthHealthy ElectorFollower PrimaryReplica
    (mkClusterState (mkNodeInfo "n3" 3 "peer3") (mkNodeInfo "n1" 1 "peer1") 3) 5 0 2.
Definition following_peers : PeerManager :=
  mkPeerManager "n2" true true "peer3" (Some "peer3") (Some (RemoteElectorClient "peer3")) "peer1" (Some "peer1").

Lemma tick_keeps_healthy_witness :
  let hp := (tick (mkTickEnv 100 false false false true true) (mkDB [] []) following_peers
               following_state example_sender).1.2 in
  let replicas := deliver 100 hp {["n2" := mkReplica "n2" 91 91 1 1 0 5]} in
  ∃ e, replicas !! "n2" = Some e ∧ checkDegradation 110 2 10 replicas !! "n2" = Some e.
Proof.
  apply (tick_keeps_healthy (mkTickEnv 100 false false false true true) (mkDB [] []) following_peers
    following_state example_sender {["n2" := mkReplica "n2" 91 91 1 1 0 5]} (mkReplica "n2" 91 91 1 1 0 5) 2 110);
    try (vm_compute; (discriminate || reflexivity)).
  all: try (split; vm_compute; discriminate).
  split_and!; vm_compute; discriminate.
Defined.

(** With a degradation count of one, which the configuration allows, the same
    Replica is taken out of quorum between two of its ticks: the receipt 9 units
    before the tick suppressed the heartbeat. *)
Lemma single_interval_degrades :
  let hp := (tick (mkTickEnv 100 true true true true true) (mkDB [] []) following_peers
               following_state example_sender).1.2 in
  let replicas := deliver 100 hp {["n2" := mkReplica "n2" 91 91 1 1 0 5]} in
  Replica_Health <$> checkDegradation 101 1 10 replicas !! "n2" = Some HealthDegraded.
Proof. vm_compute. reflexivity. Qed.
