(* ===== verification/FollowerControl.v ===== *)
(** * internal/replication: starting, running and stopping the follower

    [Control] holds the fields [Start] and [Stop] guard with the follower's
    mutex: whether the loop runs (its context's [cancel]), the request for an
    initial synchronization and the channel its caller waits on.  Channels are
    numbered as they are made; the loop's goroutine keeps the channel it saw
    when it started.  A [session] is what one pass of the loop meets, and the
    loop runs over a list of them. *)

From S2P Require Import Prelude NodeState Records LocalDB Quorum Primary Watch Follower PeerClient.

#[local] Open Scope Z_scope.

(** ** Starting and stopping *)

Record Control := mkControl {
  fc_cancel : bool;
  fc_requireInitialSync : bool;
  fc_waiter : option nat;
  fc_next : nat;
}.

Definition NewControl : Control := mkControl false false None 0.

Definition RequireInitialSync (c : Control) : Control :=
  mkControl (fc_cancel c) true (fc_waiter c) (fc_next c).

(** The channel the caller waits on, if any, and whether a loop is started. *)
Definition Start (c : Control) : option nat * bool * Control :=
  if fc_cancel c then (fc_waiter c, false, c)
  else if fc_requireInitialSync c
  then (Some (fc_next c), true, mkControl true false (Some (fc_next c)) (S (fc_next c)))
  else (fc_waiter c, true, mkControl true false (fc_waiter c) (fc_next c)).

(** The channel that gets [context.Canceled], if any, and whether a loop is
    cancelled. *)
Definition Stop (c : Control) : option nat * bool * Control :=
  if fc_cancel c
  then (fc_waiter c, true, mkControl false (fc_requireInitialSync c) None (fc_next c))
  else (None, false, c).

Definition finishInitialSyncWait (ch : nat) (c : Control) : Control :=
  if bool_decide (fc_waiter c = Some ch)
  then mkControl (fc_cancel c) (fc_requireInitialSync c) None (fc_next c) else c.

(** ** One session *)

(** The Primary's answers: its node state, whether a client is connected and
    the stream opens, the messages it sends, and whether the stream then ends
    with EOF or an error. *)
Record session := mkSession {
  ss_state : option pb_NodeState;
  ss_client : bool;
  ss_follow : bool;
  ss_msgs : list (follow_env * PrimaryMessage);
  ss_eof : bool;
}.

Inductive session_err :=
| SessionNodeState
| SessionNotPrimary (nodeID : string)
| SessionNoClient
| SessionFollow
| SessionEarlyEnd
| SessionRecv
| SessionHandler (e : follow_err).

(** What the waiter was told, if it was told now; whether one is still
    waiting; the error. *)
Record outcome := mkOutcome {
  oc_told : option (res follow_err unit);
  oc_pending : bool;
  oc_err : option session_err;
}.

Fixpoint process_messages (msgs : list (follow_env * PrimaryMessage)) (eof pending : bool)
    (told : option (res follow_err unit)) (f : Follower) : outcome * Follower :=
  match msgs with
  | [] =>
      (mkOutcome told pending
         (if eof then if pending then Some SessionEarlyEnd else None else Some SessionRecv), f)
  | (env, msg) :: msgs' =>
      let '(r, _, f') := handle_message env msg f in
      let initial := match msg with MsgInitial _ _ => true | _ => false end in
      let told' := if initial && pending then Some r else told in
      let pending' := if initial then false else pending in
      match r with
      | Err e => (mkOutcome told' pending' (Some (SessionHandler e)), f')
      | Ok _ => process_messages msgs' eof pending' told' f'
      end
  end.

Definition connectAndFollow (ss : session) (pending : bool) (f : Follower) : outcome * Follower :=
  let p := NodeID (cs_Primary (cluster (fl_state f))) in
  if bool_decide (p = ""%string) || bool_decide (p = fl_nodeID f) then
    (mkOutcome (if pending then Some (Ok tt) else None) false None, f)
  else
    match ss_state ss with
    | None => (mkOutcome None pending (Some SessionNodeState), f)
    | Some ns =>
        if bool_decide (PrimaryFromProto (ns_PrimaryState ns) = PrimaryReplica) then
          (mkOutcome None pending (Some (SessionNotPrimary p)), f)
        else if negb (ss_client ss) then (mkOutcome None pending (Some SessionNoClient), f)
        else if negb (ss_follow ss) then (mkOutcome None pending (Some SessionFollow), f)
        else process_messages (ss_msgs ss) (ss_eof ss) pending None
               (set_fl_watch (ResetPending (fl_watch f)) f)
    end.

(** ** The loop *)

(** Where the loop notices that its context is done: before a session or in
    the delay after one. *)
Inductive cancel_point := CancelBefore | CancelInDelay.

(** What the waiter is told, [None] when it is never told by the loop;
    [ToldCancelled] is the context's error. *)
Inductive told := ToldResult (r : res follow_err unit) | ToldCancelled.

Fixpoint run (sessions : list session) (stop : cancel_point) (pending : bool) (f : Follower)
    : option told * Follower :=
  match sessions with
  | [] => (if pending then match stop with CancelBefore => Some ToldCancelled | CancelInDelay => None end
           else None, f)
  | ss :: sessions' =>
      let '(o, f') := connectAndFollow ss pending f in
      let '(later, f'') := run sessions' stop (oc_pending o) f' in
      (match oc_told o with Some r => Some (ToldResult r) | None => later end, f'')
  end.

(** ** Theorems *)

(** The control fields after any sequence of calls: a waiting caller means a
    running loop, and channels in use have been made. *)
Definition control_inv (c : Control) : Prop :=
  (fc_waiter c ≠ None → fc_cancel c = true) ∧ (∀ ch, fc_waiter c = Some ch → (ch < fc_next c)%nat).

Lemma RequireInitialSync_inv c : control_inv c → control_inv (RequireInitialSync c).
Proof. done. Qed.

Lemma Start_inv c : control_inv c → control_inv (Start c).2.
Proof.
  intros [H1 H2]. rewrite /Start. destruct (fc_cancel c) eqn:E; [by split; rewrite ?E|].
  destruct (fc_requireInitialSync c); split; cbn; [done|intros ch [= <-]; lia| |done].
  intros Hw. specialize (H1 Hw). congruence.
Qed.

Lemma Stop_inv c : control_inv c → control_inv (Stop c).2.
Proof. intros H. rewrite /Stop. by destruct (fc_cancel c). Qed.

(** A fresh request gets a channel of its own, so that no result of an earlier
    loop can answer it. *)
Lemma Start_fresh c :
  control_inv c → fc_cancel c = false → fc_requireInitialSync c = true →
  ∃ ch, (Start c).1.1 = Some ch ∧ fc_waiter (Start c).2 = Some ch ∧ fc_waiter c = None ∧ (Start c).1.2 = true.
Proof.
  intros [H1 _] Hc Hr. exists (fc_next c). rewrite /Start Hc Hr. split_and!; [done|done| |done].
  destruct (fc_waiter c); [|done]. assert (fc_cancel c = true) by (by apply H1). congruence.
Qed.

(** A loop that is still pending when the delay after a session is cut short by
    the context never tells its waiter. *)
Lemma cancel_in_delay_tells_nobody ss f :
  NodeID (cs_Primary (cluster (fl_state f))) ≠ ""%string →
  NodeID (cs_Primary (cluster (fl_state f))) ≠ fl_nodeID f → ss_state ss = None →
  (run [ss] CancelInDelay true f).1 = None ∧ (run [] CancelBefore true f).1 = Some ToldCancelled.
Proof.
  intros H1 H2 Hs. split; [|done]. cbn [run]. rewrite /connectAndFollow Hs.
  by rewrite !bool_decide_eq_false_2.
Qed.

Lemma handle_message_cluster env msg f :
  let f' := (handle_message env msg f).2 in
  cluster (fl_state f') = cluster (fl_state f) ∧ fl_nodeID f' = fl_nodeID f.
Proof.
  assert (∀ g, cluster (fl_state (degradeSelf g)) = cluster (fl_state g) ∧ fl_nodeID (degradeSelf g) = fl_nodeID g) as Hd.
  { intros g. rewrite /degradeSelf /SetHealth. by repeat case_match. }
  assert (∀ c g, cluster (fl_state (scheduleCommittedRevisionLagCheck c g)) = cluster (fl_state g) ∧
    fl_nodeID (scheduleCommittedRevisionLagCheck c g) = fl_nodeID g) as Hs.
  { intros c g. rewrite /scheduleCommittedRevisionLagCheck. by repeat case_match. }
  destruct msg as [c k|r|c|k]; cbn [handle_message].
  - rewrite /handleInitial. destruct (_ && fe_persistFails env); [done|].
    destruct (_ && _); destruct (AdvanceCommittedRevision _ _ _); done.
  - rewrite /handleRecord. destruct (ReplicateTentativeRecord _ _ _ _) as [[x|e] db]; [|done].
    destruct (fe_send1 env || fe_send2 env); [done|].
    match goal with |- context [degradeSelf ?g] => destruct (Hd g) as [E1 E2] end. cbn [snd]. by rewrite E1 E2.
  - rewrite /handleCommit. destruct (AdvanceCommittedRevision _ _ _); [|done].
    case_bool_decide; [|done].
    match goal with |- context [scheduleCommittedRevisionLagCheck ?c ?g] => destruct (Hs c g) as [E1 E2] end.
    cbn [snd]. by rewrite E1 E2.
  - rewrite /handleCompact. by destruct (fe_persistFails env).
Qed.

(** The first Initial message of a stream, and the follower that handled it. *)
Definition synced (msgs : list (follow_env * PrimaryMessage)) (f : Follower) : Prop :=
  ∃ msgs1 env c k msgs2 f1 f2, msgs = msgs1 ++ (env, MsgInitial c k) :: msgs2 ∧
    Forall (λ em, ∀ c k, em.2 ≠ MsgInitial c k) msgs1 ∧
    (processStream msgs1 f).2 = f1 ∧ handle_message env (MsgInitial c k) f1 = (Ok tt, [], f2) ∧
    committed (fl_state f2) = c ∧ compaction (fl_state f2) = k.

Lemma handleInitial_sets p c k f f' :
  handleInitial p c k f = (Ok tt, f') → committed (fl_state f') = c ∧ compaction (fl_state f') = k.
Proof.
  rewrite /handleInitial. destruct (_ && p); [done|].
  destruct (_ && _); destruct (AdvanceCommittedRevision _ _ _); intros [= <-]; done.
Qed.

Lemma process_messages_told msgs eof pending r f :
  oc_told (process_messages msgs eof pending (Some r) f).1 = Some r ∨ pending = true.
Proof.
  destruct pending; [by right|left]. revert f. induction msgs as [|[env msg] msgs IH]; intros f; [done|].
  cbn [process_messages]. destruct (handle_message env msg f) as [[[[]|e] out] f']; rewrite andb_false_r; [|done].
  destruct msg; apply IH.
Qed.

Lemma process_messages_synced msgs eof f :
  oc_told (process_messages msgs eof true None f).1 = Some (Ok tt) → synced msgs f.
Proof.
  revert f. induction msgs as [|[env msg] msgs IH]; intros f; [done|]. cbn [process_messages].
  destruct (handle_message env msg f) as [[r out] f'] eqn:E.
  assert ((∃ c k, msg = MsgInitial c k) ∨ ∀ c k, msg ≠ MsgInitial c k) as [(c & k & ->)|Hm].
  { destruct msg; [left; by do 2 eexists|by right..]. }
  - cbn [andb]. intros Ht.
    assert (r = Ok tt) as ->.
    { destruct r as [[]|e]; [done|]. by injection Ht. }
    cbn [handle_message] in E. destruct (handleInitial (fe_persistFails env) c k f) as [r0 f0] eqn:Ei.
    injection E as -> <- <-. destruct (handleInitial_sets _ _ _ _ _ Ei).
    exists [], env, c, k, msgs, f, f0. split_and!; try done. cbn [handle_message]. by rewrite Ei.
  - assert ((match msg with MsgInitial _ _ => true | _ => false end) = false) as -> by (destruct msg; [by edestruct Hm|done..]).
    cbn [andb]. destruct r as [[]|e]; [|done]. intros Ht.
    destruct (IH f' Ht) as (m1 & env' & c & k & m2 & f1 & f2 & -> & Hall & Hp & Hh & Hc).
    exists ((env, msg) :: m1), env', c, k, m2, f1, f2. split_and!; try done; [by constructor| |apply Hc..].
    cbn [processStream]. rewrite E. by destruct (processStream m1 f') as [[r1 o1] g1].
Qed.

(** Nothing a session does moves the node's view of the cluster. *)
Lemma connectAndFollow_cluster ss pending f :
  let f' := (connectAndFollow ss pending f).2 in
  cluster (fl_state f') = cluster (fl_state f) ∧ fl_nodeID f' = fl_nodeID f.
Proof.
  assert (∀ msgs eof p t g, let g' := (process_messages msgs eof p t g).2 in
    cluster (fl_state g') = cluster (fl_state g) ∧ fl_nodeID g' = fl_nodeID g) as Hp.
  { induction msgs as [|[env msg] msgs IH]; intros eof p t g; [done|]. cbn [process_messages].
    pose proof (handle_message_cluster env msg g) as [E1 E2].
    destruct (handle_message env msg g) as [[[[]|e] out] g1]; cbn [snd] in E1, E2; [|done].
    rewrite -E1 -E2. apply IH. }
  rewrite /connectAndFollow. repeat (case_match; [try done|]); try done.
  apply (Hp _ _ _ _ (set_fl_watch (ResetPending (fl_watch f)) f)).
Qed.


(** ** On a concrete run *)

Definition quiet_follow : follow_env := mkFollowEnv 50 7 true true false.

Definition starting_follower : Follower :=
  mkFollower "n2"
    (mkState HealthLoading ElectorFollower PrimaryReplica
       (mkClusterState (mkNodeInfo "n1" 1 "peer1") (mkNodeInfo "n1" 1 "peer1") 2) 0 0 2)
    (mkDB [] []) NewManager None.

Definition primary_reply (p : pb_PrimaryState) : option pb_NodeState :=
  Some (mk_pb_NodeState "n1" HEALTH_HEALTHY ELECTOR_LEADER p 5 1).

(** The Primary does not answer, then is still a Replica, then closes the stream
    too early, then sends its Initial message. *)
Definition example_sessions : list session :=
  [mkSession None true true [] true; mkSession (primary_reply PRIMARY_REPLICA) true true [] true;
   mkSession (primary_reply PRIMARY_STARTING) true true [] true;
   mkSession (primary_reply PRIMARY_ACTIVE) true true [(quiet_follow, MsgInitial 5 2)] false].

