(* ===== verification/Duration.v ===== *)
(** * internal/config: durations in configuration files

    [Duration] with its JSON methods, over Go's [time.Duration.String] and
    [time.ParseDuration], the float64 arithmetic of fractions included.  A
    duration is an int64 number of nanoseconds. *)

From Stdlib Require Import Strings.Ascii.
From S2P Require Import Prelude Decimal Storage.

#[local] Open Scope string_scope.
#[local] Open Scope Z_scope.

Definition microsecond : Z := 10 ^ 3.
Definition millisecond : Z := 10 ^ 6.
Definition second : Z := 10 ^ 9.

(** ** Printing *)

(** The fraction of [v] over [10^prec] is put in front of [acc], without
    trailing zeros; the integer part comes back. *)
Fixpoint fmtFrac (prec : nat) (v : Z) (print : bool) (acc : string) : string * bool * Z :=
  match prec with
  | O => (acc, print, v)
  | S prec =>
      let digit := v `mod` 10 in
      let print := print || negb (digit =? 0) in
      fmtFrac prec (v `div` 10) print (if print then String (digit_char digit) acc else acc)
  end.

Definition with_fraction (prec : nat) (v : Z) (acc : string) : string * Z :=
  let '(acc, print, v) := fmtFrac prec v false acc in
  (if print then String "." acc else acc, v).

Definition micro : string := String (Ascii.ascii_of_N 194) (String (Ascii.ascii_of_N 181) "").

(** [u] is the magnitude. *)
Definition format_magnitude (u : Z) : string :=
  if u <? second then
    if u =? 0 then "0s"
    else
      let '(prec, unit) :=
        if u <? microsecond then (0%nat, "ns")
        else if u <? millisecond then (3%nat, micro ++ "s")
        else (6%nat, "ms") in
      let '(acc, u) := with_fraction prec u unit in
      dec u ++ acc
  else
    let '(acc, u) := with_fraction 9 u "s" in
    let acc := dec (u `mod` 60) ++ acc in
    let u := u `div` 60 in
    if 0 <? u then
      let acc := dec (u `mod` 60) ++ "m" ++ acc in
      let u := u `div` 60 in
      if 0 <? u then dec u ++ "h" ++ acc else acc
    else acc.

Definition Duration_String (d : Z) : string :=
  if d <? 0 then "-" ++ format_magnitude (- d) else format_magnitude d.

(** ** Float64 arithmetic

    A positive float64 is [m * 2^e]; the operations below stay far from the
    ends of the exponent range.  [round53 n d] is the float64 nearest to [n/d],
    ties to even. *)

Definition scaled (n d e : Z) : Z * Z := (n * 2 ^ Z.max 0 (- e), d * 2 ^ Z.max 0 e).

Definition nearest_even (n d : Z) : Z :=
  let q := n `div` d in
  let r := n `mod` d in
  if (d <? 2 * r) || ((2 * r =? d) && Z.odd q) then q + 1 else q.

Definition round53 (n d : Z) : Z * Z :=
  let e := Z.log2 n - Z.log2 d - 52 in
  let '(n1, d1) := scaled n d e in
  let e := if n1 `div` d1 <? 2 ^ 52 then e - 1 else e in
  let '(n2, d2) := scaled n d e in
  (nearest_even n2 d2, e).

Definition float_mul (a b : Z * Z) : Z * Z :=
  let e := a.2 + b.2 in
  round53 (a.1 * b.1 * 2 ^ Z.max 0 e) (2 ^ Z.max 0 (- e)).

(** Conversion to an integer truncates. *)
Definition float_trunc (a : Z * Z) : Z := if 0 <=? a.2 then a.1 * 2 ^ a.2 else a.1 `div` 2 ^ (- a.2).

(** [uint64(float64(f) * (float64(unit) / scale))]; [scale], a power of ten
    below [10^20], is exact. *)
Definition fraction_ns (f unit scale : Z) : Z :=
  float_trunc (float_mul (round53 f 1) (round53 unit scale)).

(** ** Parsing *)

Inductive duration_err := InvalidDuration | MissingUnit | UnknownUnit (u : string).

(** [None] is the overflow error; the rest starts at the first other byte. *)
Fixpoint leadingInt (s : string) (x : Z) : option (Z * string) :=
  match s with
  | "" => Some (x, s)
  | String c s' =>
      match char_digit c with
      | None => Some (x, s)
      | Some d =>
          if 2 ^ 63 `div` 10 <? x then None
          else if 2 ^ 63 <? x * 10 + d then None
          else leadingInt s' (x * 10 + d)
      end
  end.

(** Digits past the capacity are skipped. *)
Fixpoint leadingFraction (s : string) (x scale : Z) (overflow : bool) : Z * Z * string :=
  match s with
  | "" => (x, scale, s)
  | String c s' =>
      match char_digit c with
      | None => (x, scale, s)
      | Some d =>
          if overflow then leadingFraction s' x scale true
          else if int64_max `div` 10 <? x then leadingFraction s' x scale true
          else if 2 ^ 63 <? x * 10 + d then leadingFraction s' x scale true
          else leadingFraction s' (x * 10 + d) (scale * 10) false
      end
  end.

Definition unit_end (c : ascii) : bool := bool_decide (c = "."%char) || bool_decide (is_Some (char_digit c)).

Fixpoint take_unit (s : string) : string * string :=
  match s with
  | "" => ("", "")
  | String c s' => if unit_end c then ("", s) else let '(u, rest) := take_unit s' in (String c u, rest)
  end.

Definition mu : string := String (Ascii.ascii_of_N 206) (String (Ascii.ascii_of_N 188) "").

Definition unitMap (u : string) : option Z :=
  if bool_decide (u = "ns") then Some 1
  else if bool_decide (u = "us") || bool_decide (u = micro ++ "s") || bool_decide (u = mu ++ "s")
  then Some microsecond
  else if bool_decide (u = "ms") then Some millisecond
  else if bool_decide (u = "s") then Some second
  else if bool_decide (u = "m") then Some (60 * second)
  else if bool_decide (u = "h") then Some (3600 * second)
  else None.

(** One number with its unit: its nanoseconds and the rest. *)
Definition parse_component (s : string) : res duration_err (Z * string) :=
  let starts := match s with
                | "" => false
                | String c _ => bool_decide (c = "."%char) || bool_decide (is_Some (char_digit c))
                end in
  if negb starts then Err InvalidDuration
  else
    match leadingInt s 0 with
    | None => Err InvalidDuration
    | Some (v, s1) =>
        let pre := negb (String.length s1 =? String.length s)%nat in
        let '(f, scale, s2, post) :=
          match s1 with
          | String "."%char s2 =>
              let '(f, scale, s3) := leadingFraction s2 0 1 false in
              (f, scale, s3, negb (String.length s3 =? String.length s2)%nat)
          | _ => (0, 1, s1, false)
          end in
        if negb pre && negb post then Err InvalidDuration
        else
          let '(u, s3) := take_unit s2 in
          if bool_decide (u = "") then Err MissingUnit
          else
            match unitMap u with
            | None => Err (UnknownUnit u)
            | Some unit =>
                if 2 ^ 63 `div` unit <? v then Err InvalidDuration
                else
                  let v := v * unit in
                  if 0 <? f then
                    let v := v + fraction_ns f unit scale in
                    if 2 ^ 63 <? v then Err InvalidDuration else Ok (v, s3)
                  else Ok (v, s3)
            end
    end.

(** [None] is out of fuel. *)
Fixpoint parse_components (fuel : nat) (s : string) (d : Z) : option (res duration_err Z) :=
  match s with
  | "" => Some (Ok d)
  | _ =>
      match fuel with
      | O => None
      | S fuel =>
          match parse_component s with
          | Err e => Some (Err e)
          | Ok (v, rest) =>
              if 2 ^ 63 <? d + v then Some (Err InvalidDuration) else parse_components fuel rest (d + v)
          end
      end
  end.

Definition ParseDuration (s : string) : option (res duration_err Z) :=
  let '(neg, s) :=
    match s with
    | String "-"%char s => (true, s)
    | String "+"%char s => (false, s)
    | _ => (false, s)
    end in
  if bool_decide (s = "0") then Some (Ok 0)
  else if bool_decide (s = "") then Some (Err InvalidDuration)
  else
    match parse_components (String.length s) s 0 with
    | Some (Ok d) =>
        if neg then Some (Ok (wrap64 (- wrap64 d)))
        else if int64_max <? d then Some (Err InvalidDuration) else Some (Ok d)
    | out => out
    end.

(** ** JSON *)

(** What [json.Unmarshal] into an interface yields; a number is the float64
    [m * 2^e]. *)
Inductive json_value := JString (s : string) | JNumber (m e : Z) | JOther.

Inductive unmarshal_err := BadDuration (s : string) (e : duration_err) | BadType.

(** A number is taken as nanoseconds, truncated towards zero; outside int64 the
    conversion gives the minimum, as on amd64. *)
Definition number_ns (m e : Z) : Z :=
  let v := if 0 <=? e then m * 2 ^ e else m `quot` 2 ^ (- e) in
  if (int64_min <=? v) && (v <=? int64_max) then v else int64_min.

Definition UnmarshalJSON (v : json_value) : option (res unmarshal_err Z) :=
  match v with
  | JString s =>
      match ParseDuration s with
      | None => None
      | Some (Ok d) => Some (Ok d)
      | Some (Err e) => Some (Err (BadDuration s e))
      end
  | JNumber m e => Some (Ok (number_ns m e))
  | JOther => Some (Err BadType)
  end.

Definition MarshalJSON (d : Z) : json_value := JString (Duration_String d).

(** ** Exactness of the fractions that are printed *)

Lemma nearest_even_exact n d q : 0 < d → n = q * d → nearest_even n d = q.
Proof.
  intros Hd ->. rewrite /nearest_even Z.div_mul; [lia|]. rewrite Z.mod_mul; [lia|].
  rewrite (proj2 (Z.ltb_ge d (2 * 0))); [lia|]. by rewrite (proj2 (Z.eqb_neq (2 * 0) d)); [lia|].
Qed.

(** An integer below [2^53] is a float64. *)
Lemma round53_exact n d x :
  0 < d → 0 < x < 2 ^ 53 → n = x * d →
  ∃ e, round53 n d = (x * 2 ^ (- e), e) ∧ e ≤ 0.
Proof.
  intros Hd Hx ->. assert (0 < x * d) as Hn by lia.
  assert (0 ≤ Z.log2 x ≤ 52) as Hl.
  { split; [apply Z.log2_nonneg|]. assert (Z.log2 x < 53); [|lia]. apply Z.log2_lt_pow2; lia. }
  pose proof (Z.log2_mul_below x d ltac:(lia) ltac:(lia)) as Hlo.
  pose proof (Z.log2_mul_above x d ltac:(lia) ltac:(lia)) as Hhi.
  destruct (Z.log2_spec x ltac:(lia)) as [Hx1 Hx2]. rewrite Z.pow_succ_r in Hx2; [lia|].
  rewrite /round53. set (e0 := Z.log2 (x * d) - Z.log2 d - 52).
  assert (e0 = Z.log2 x - 52 ∨ e0 = Z.log2 x - 51) as He0 by lia.
  assert (∀ e, e ≤ 0 → scaled (x * d) d e = (x * 2 ^ (- e) * d, d)) as Hs.
  { intros e He. rewrite /scaled (Z.max_r 0 (- e)); [lia|]. rewrite (Z.max_l 0 e); [lia|]. f_equal; lia. }
  assert (2 ^ 52 = 2 ^ Z.log2 x * 2 ^ (52 - Z.log2 x)) as Hpow by (rewrite -Z.pow_add_r; [lia..|f_equal; lia]).
  pose proof (Z.pow_pos_nonneg 2 (52 - Z.log2 x) ltac:(lia) ltac:(lia)) as Hp.
  assert (let '(n1, d1) := scaled (x * d) d e0 in (n1 `div` d1 <? 2 ^ 52) = negb (e0 =? Z.log2 x - 52)) as Hq.
  { destruct He0 as [E|E]; rewrite E.
    - rewrite Hs; [lia|]. rewrite Z.div_mul; [lia|]. rewrite Z.eqb_refl. apply Z.ltb_ge.
      rewrite Hpow (_ : - (Z.log2 x - 52) = 52 - Z.log2 x); [lia|]. nia.
    - rewrite (proj2 (Z.eqb_neq _ _)); [lia|]. destruct (decide (Z.log2 x = 52)) as [E52|?].
      + rewrite E52. change (scaled (x * d) d (52 - 51)) with (x * d * 1, d * 2). apply Z.ltb_lt.
        apply Z.div_lt_upper_bound; [lia|]. pose proof (proj1 (Z.mul_lt_mono_pos_l d x (2 ^ 53) Hd)). lia.
      + rewrite Hs; [lia|]. rewrite Z.div_mul; [lia|]. apply Z.ltb_lt.
        rewrite (_ : 2 ^ 52 = 2 * 2 ^ Z.log2 x * 2 ^ (51 - Z.log2 x)).
        { rewrite -Z.pow_succ_r; [lia|]. rewrite -Z.pow_add_r; [lia..|]. f_equal. lia. }
        rewrite (_ : - (Z.log2 x - 51) = 51 - Z.log2 x); [lia|].
        apply Z.mul_lt_mono_pos_r; [apply Z.pow_pos_nonneg; lia|lia]. }
  exists (Z.log2 x - 52). split; [|lia].
  destruct (scaled (x * d) d e0) as [n1 d1]. rewrite Hq.
  assert ((if negb (e0 =? Z.log2 x - 52) then e0 - 1 else e0) = Z.log2 x - 52) as ->.
  { destruct (Z.eqb_spec e0 (Z.log2 x - 52)); cbn; lia. }
  rewrite Hs; [lia|]. by rewrite (nearest_even_exact _ d (x * 2 ^ (- (Z.log2 x - 52)))); [lia|lia|].
Qed.

(** A fraction of [k] digits of a unit of [10^p] nanoseconds is exact. *)
Lemma fraction_ns_exact f k p :
  0 < f < 10 ^ Z.of_nat k → (k ≤ p ≤ 9)%nat →
  fraction_ns f (10 ^ Z.of_nat p) (10 ^ Z.of_nat k) = f * 10 ^ Z.of_nat (p - k).
Proof.
  intros Hf Hk.
  assert (10 ^ Z.of_nat p = 10 ^ Z.of_nat (p - k) * 10 ^ Z.of_nat k) as Hpow
    by (rewrite -Z.pow_add_r; [lia..|]; f_equal; lia).
  assert (10 ^ Z.of_nat p ≤ 10 ^ 9) as Hp by (apply Z.pow_le_mono_r; lia).
  assert (0 < 10 ^ Z.of_nat (p - k)) as H1 by (apply Z.pow_pos_nonneg; lia).
  assert (0 < 10 ^ Z.of_nat k) as H2 by (apply Z.pow_pos_nonneg; lia).
  assert (f * 10 ^ Z.of_nat (p - k) < 10 ^ 9) as H3 by nia.
  rewrite /fraction_ns.
  destruct (round53_exact f 1 f) as (e1 & -> & He1); [lia|nia|lia|].
  destruct (round53_exact (10 ^ Z.of_nat p) (10 ^ Z.of_nat k) (10 ^ Z.of_nat (p - k))) as (e2 & -> & He2);
    [lia|nia|done|].
  rewrite /float_mul. cbn [fst snd]. rewrite (Z.max_l 0 (e1 + e2)); [lia|]. rewrite (Z.max_r 0 (- (e1 + e2))); [lia|].
  destruct (round53_exact (f * 2 ^ (- e1) * (10 ^ Z.of_nat (p - k) * 2 ^ (- e2)) * 2 ^ 0) (2 ^ (- (e1 + e2)))
    (f * 10 ^ Z.of_nat (p - k))) as (e3 & -> & He3); [apply Z.pow_pos_nonneg; lia|nia| |].
  { rewrite (_ : - (e1 + e2) = - e1 + - e2); [lia|]. rewrite Z.pow_add_r; [lia..|]. ring. }
  rewrite /float_trunc. cbn [fst snd]. destruct (Z.leb_spec 0 e3) as [?|?].
  - assert (e3 = 0) as -> by lia. cbn. lia.
  - apply Z.div_mul. pose proof (Z.pow_pos_nonneg 2 (- e3)). lia.
Qed.

(** ** Text *)

(** The text after a number begins with another character. *)
Definition not_digit_first (s : string) : Prop :=
  match s with "" => True | String c _ => char_digit c = None end.

Lemma parse_digits_ge s x n : 0 ≤ x → parse_digits s x = Some n → x ≤ n.
Proof.
  revert x. induction s as [|c s IH]; intros x Hx; cbn [parse_digits]; [intros [= ->]; lia|].
  destruct (char_digit c) as [d|] eqn:E; [|done]. intros Hn.
  assert (0 ≤ d) by (rewrite /char_digit in E; repeat case_match; simplify_eq; lia).
  apply IH in Hn; lia.
Qed.

Lemma parse_digits_lt s x n :
  0 ≤ x → parse_digits s x = Some n → n < (x + 1) * 10 ^ Z.of_nat (String.length s).
Proof.
  revert x. induction s as [|c s IH]; intros x Hx; cbn [parse_digits String.length].
  { intros [= ->]. lia. }
  destruct (char_digit c) as [d|] eqn:E; [|done]. intros Hn.
  assert (0 ≤ d ≤ 9) by (rewrite /char_digit in E; repeat case_match; bool_to_prop; simplify_eq; lia).
  apply IH in Hn; [|lia]. rewrite Nat2Z.inj_succ Z.pow_succ_r; [lia|].
  pose proof (Z.pow_pos_nonneg 10 (Z.of_nat (String.length s))). nia.
Qed.

Lemma leadingInt_digits s x n rest :
  all_digits s = true → parse_digits s x = Some n → 0 ≤ x → n ≤ 2 ^ 63 → not_digit_first rest →
  leadingInt (s ++ rest) x = Some (n, rest).
Proof.
  revert x. induction s as [|c s IH]; intros x Hd Hp Hx Hn Hrest.
  { injection Hp as ->. destruct rest as [|c rest]; [done|]. cbn [not_digit_first] in Hrest.
    change ("" ++ String c rest) with (String c rest). cbn [leadingInt]. by rewrite Hrest. }
  change (String c s ++ rest) with (String c (s ++ rest)). cbn [leadingInt all_digits parse_digits] in *.
  apply andb_true_iff in Hd as [Hc Hd]. destruct (char_digit c) as [d|] eqn:E; [|done].
  assert (0 ≤ d) by (rewrite /char_digit in E; repeat case_match; simplify_eq; lia).
  pose proof (parse_digits_ge s (x * 10 + d) n ltac:(lia) Hp).
  rewrite (proj2 (Z.ltb_ge _ _)); [apply Z.div_le_lower_bound; lia|].
  rewrite (proj2 (Z.ltb_ge _ _)); [lia|]. apply IH; [done|done|lia|done|done].
Qed.

Lemma leadingFraction_digits s x scale n rest :
  all_digits s = true → parse_digits s x = Some n → 0 ≤ x → n < 10 ^ 18 → not_digit_first rest →
  leadingFraction (s ++ rest) x scale false = (n, scale * 10 ^ Z.of_nat (String.length s), rest).
Proof.
  revert x scale. induction s as [|c s IH]; intros x scale Hd Hp Hx Hn Hrest.
  { injection Hp as ->. rewrite Z.mul_1_r. destruct rest as [|c rest]; [done|]. cbn [not_digit_first] in Hrest.
    change ("" ++ String c rest) with (String c rest). cbn [leadingFraction]. by rewrite Hrest. }
  change (String c s ++ rest) with (String c (s ++ rest)). cbn [leadingFraction all_digits parse_digits] in *.
  apply andb_true_iff in Hd as [Hc Hd]. destruct (char_digit c) as [d|] eqn:E; [|done].
  assert (0 ≤ d) by (rewrite /char_digit in E; repeat case_match; simplify_eq; lia).
  pose proof (parse_digits_ge s (x * 10 + d) n ltac:(lia) Hp).
  rewrite (proj2 (Z.ltb_ge _ _)); [rewrite /int64_max; apply Z.div_le_lower_bound; lia|].
  rewrite (proj2 (Z.ltb_ge _ _)); [lia|]. rewrite IH //; [lia|]. f_equal. f_equal.
  cbn [String.length]. rewrite Nat2Z.inj_succ Z.pow_succ_r; [lia|ring].
Qed.

Fixpoint unit_text (u : string) : bool :=
  match u with "" => true | String c u => negb (unit_end c) && unit_text u end.

(** The text after a unit is another number, or nothing. *)
Definition digit_first (s : string) : Prop :=
  match s with "" => True | String c _ => is_Some (char_digit c) end.

Lemma take_unit_app u rest : unit_text u = true → digit_first rest → take_unit (u ++ rest) = (u, rest).
Proof.
  intros Hu Hr. induction u as [|c u IH].
  - change ("" ++ rest) with rest. destruct rest as [|c rest]; [done|]. cbn [take_unit digit_first] in *.
    by rewrite /unit_end (bool_decide_true _ Hr) orb_true_r.
  - change (String c u ++ rest) with (String c (u ++ rest)). cbn [take_unit unit_text] in *.
    apply andb_true_iff in Hu as [->%negb_true_iff Hu]. by rewrite IH.
Qed.

Lemma unit_not_digit u rest : unit_text u = true → u ≠ "" → not_digit_first (u ++ rest).
Proof.
  destruct u as [|c u]; [done|]. intros [Hc _]%andb_true_iff _. change (char_digit c = None).
  rewrite /unit_end negb_orb in Hc. apply andb_true_iff in Hc as [_ Hc].
  destruct (char_digit c); [|done]. by rewrite bool_decide_true in Hc; [eauto|].
Qed.

(** A number, with the digits of its fraction if it has one. *)
Definition fraction_text (k : nat) (f : Z) (fr : string) : Prop :=
  (fr = "" ∧ f = 0 ∧ k = 0%nat) ∨
  (∃ s, fr = String "." s ∧ all_digits s = true ∧ String.length s = k ∧ parse_digits s 0 = Some f ∧ 0 < f).

Lemma dec_digits n : 0 ≤ n ≤ 2 ^ 63 →
  all_digits (dec n) = true ∧ parse_digits (dec n) 0 = Some n ∧ dec n ≠ "".
Proof.
  intros Hn. split_and!; [by apply dec_aux_digits; [lia|]| |apply dec_aux_nonempty].
  rewrite /dec parse_dec_aux //. change (10 ^ Z.of_nat 20) with 100000000000000000000. lia.
Qed.

Lemma string_length_lt a b : a ≠ "" → (String.length b =? String.length (a ++ b))%nat = false.
Proof. intros Ha. apply Nat.eqb_neq. rewrite string_length_app. destruct a; [done|]. cbn. lia. Qed.

Lemma no_fraction : fraction_text 0 0 "".
Proof. by left. Qed.

Lemma fraction_read k f fr u rest :
  fraction_text k f fr → (k ≤ 9)%nat → unit_text u = true → u ≠ "" →
  ∃ post, match fr ++ u ++ rest with
          | String "."%char s2 =>
              let '(f, scale, s3) := leadingFraction s2 0 1 false in
              (f, scale, s3, negb (String.length s3 =? String.length s2)%nat)
          | _ => (0, 1, fr ++ u ++ rest, false)
          end = (f, 10 ^ Z.of_nat k, u ++ rest, post).
Proof.
  intros [(-> & -> & ->)|(s & -> & Hs & Hk & Hp & Hf)] Hk9 Hu Hne.
  - destruct u as [|c u]; [done|]. exists false. cbn [unit_text] in Hu. apply andb_true_iff in Hu as [Hc _].
    change ("" ++ String c u ++ rest) with (String c (u ++ rest)).
    assert (c ≠ "."%char) as Hcd by (intros ->; done). clear Hc.
    by destruct c as [[] [] [] [] [] [] [] []].
  - change (String "." s ++ u ++ rest) with (String "." (s ++ u ++ rest)).
    pose proof (parse_digits_lt s 0 f ltac:(lia) Hp) as Hb.
    assert (10 ^ Z.of_nat (String.length s) ≤ 10 ^ 9) by (apply Z.pow_le_mono_r; lia).
    exists (negb (String.length (u ++ rest) =? String.length (s ++ u ++ rest))%nat). cbv beta iota.
    rewrite (leadingFraction_digits s 0 1 f (u ++ rest)) //; [lia|by apply unit_not_digit|].
    by rewrite Z.mul_1_l Hk.
Qed.

(** One printed component reads back. *)
Lemma parse_component_printed v fr u rest unit p k f :
  0 ≤ v → fraction_text k f fr → (k ≤ p ≤ 9)%nat → (k = 0%nat ∨ unit = 10 ^ Z.of_nat p) → 0 < unit →
  unit_text u = true → u ≠ "" → unitMap u = Some unit → digit_first rest →
  v * unit + f * 10 ^ Z.of_nat (p - k) ≤ 2 ^ 63 →
  parse_component (dec v ++ fr ++ u ++ rest) = Ok (v * unit + f * 10 ^ Z.of_nat (p - k), rest).
Proof.
  intros Hv Hf Hkp Hunit Hpos Hu Hne Hmap Hrest Hle.
  assert (0 ≤ f) as Hf0 by (destruct Hf as [(_ & -> & _)|(s & _ & _ & _ & _ & ?)]; lia).
  assert (0 ≤ f * 10 ^ Z.of_nat (p - k)) as Hfn by (apply Z.mul_nonneg_nonneg; [done|apply Z.pow_nonneg; lia]).
  assert (v ≤ 2 ^ 63) as Hvle by nia.
  destruct (dec_digits v) as (Hd & Hp & Hdne); [lia|].
  assert (not_digit_first (fr ++ u ++ rest)) as Hnd.
  { destruct Hf as [(-> & _)|(s & -> & _)]; [exact (unit_not_digit u rest Hu Hne)|done]. }
  rewrite /parse_component.
  assert (match dec v ++ fr ++ u ++ rest with
    | "" => false | String c _ => bool_decide (c = "."%char) || bool_decide (is_Some (char_digit c)) end = true) as ->.
  { destruct (dec v) as [|c s]; [done|]. change (String c s ++ fr ++ u ++ rest) with (String c (s ++ fr ++ u ++ rest)).
    cbn [all_digits] in Hd. apply andb_true_iff in Hd as [-> _]. apply orb_true_r. }
  cbn [negb]. rewrite (leadingInt_digits _ _ v) //. rewrite string_length_lt //. cbn [negb andb].
  destruct (fraction_read k f fr u rest Hf) as [post ->]; [lia|done..|].
  rewrite take_unit_app // bool_decide_false // Hmap.
  rewrite (proj2 (Z.ltb_ge _ _)); [apply Z.div_le_lower_bound; lia|].
  destruct (Z.ltb_spec 0 f) as [Hlt|?]; [|by assert (f = 0) as -> by lia; rewrite Z.mul_0_l Z.add_0_r].
  destruct Hf as [(_ & -> & _)|(s & -> & Hs & Hk & Hpf & _)]; [lia|].
  pose proof (parse_digits_lt s 0 f ltac:(lia) Hpf) as Hb. rewrite Hk in Hb.
  destruct Hunit as [->|Hunit]; [lia|]. subst unit. rewrite fraction_ns_exact; [lia|done|].
  rewrite (proj2 (Z.ltb_ge _ _)) //.
Qed.

Lemma parse_digits_app a b x : parse_digits (a ++ b) x = parse_digits a x ≫= parse_digits b.
Proof.
  revert x. induction a as [|c a IH]; intros x; [done|].
  change (String c a ++ b) with (String c (a ++ b)). cbn [parse_digits]. by destruct (char_digit c).
Qed.

Lemma all_digits_app a b : all_digits (a ++ b) = all_digits a && all_digits b.
Proof.
  induction a as [|c a IH]; [done|]. change (String c a ++ b) with (String c (a ++ b)). cbn [all_digits].
  by rewrite IH andb_assoc.
Qed.

Lemma mod_pow_succ v p :
  v `mod` 10 ^ Z.of_nat (S p) = (v `div` 10) `mod` 10 ^ Z.of_nat p * 10 + v `mod` 10.
Proof.
  rewrite Nat2Z.inj_succ Z.pow_succ_r; [lia|]. rewrite Z.rem_mul_r; [lia|apply Z.pow_pos_nonneg; lia|]. lia.
Qed.

Lemma div_pow_succ v p : v `div` 10 ^ Z.of_nat (S p) = (v `div` 10) `div` 10 ^ Z.of_nat p.
Proof. rewrite Nat2Z.inj_succ Z.pow_succ_r; [lia|]. by rewrite Z.div_div; [lia|apply Z.pow_pos_nonneg; lia|]. Qed.

(** Once a digit is printed, all further ones are. *)
Lemma fmtFrac_true prec v acc :
  ∃ a, fmtFrac prec v true acc = (a ++ acc, true, v `div` 10 ^ Z.of_nat prec) ∧ all_digits a = true ∧
    String.length a = prec ∧ parse_digits a 0 = Some (v `mod` 10 ^ Z.of_nat prec).
Proof.
  revert v acc. induction prec as [|p IH]; intros v acc.
  { exists "". rewrite Z.div_1_r Z.mod_1_r. done. }
  cbn [fmtFrac orb]. pose proof (Z.mod_pos_bound v 10 ltac:(lia)) as Hd.
  destruct (IH (v `div` 10) (String (digit_char (v `mod` 10)) acc)) as (a & -> & Ha & Hl & Hp).
  exists (a ++ String (digit_char (v `mod` 10)) ""). rewrite -string_app_assoc div_pow_succ. split; [done|].
  rewrite all_digits_app Ha string_length_app Hl parse_digits_app Hp mod_pow_succ.
  cbn [all_digits mbind option_bind parse_digits String.length]. rewrite digit_char_digit //.
  split; [by rewrite bool_decide_true|]. split; [lia|done].
Qed.

Lemma with_fraction_spec prec v acc :
  ∃ k f fr, with_fraction prec v acc = (fr ++ acc, v `div` 10 ^ Z.of_nat prec) ∧ fraction_text k f fr ∧
    (k ≤ prec)%nat ∧ f * 10 ^ Z.of_nat (prec - k) = v `mod` 10 ^ Z.of_nat prec.
Proof.
  rewrite /with_fraction. revert v. induction prec as [|p IH]; intros v.
  { exists 0%nat, 0, "". rewrite Z.div_1_r Z.mod_1_r. split; [done|]. split; [by left|]. done. }
  cbn [fmtFrac orb]. pose proof (Z.mod_pos_bound v 10 ltac:(lia)) as Hd. rewrite div_pow_succ mod_pow_succ.
  destruct (Z.eqb_spec (v `mod` 10) 0) as [E|E]; cbn [negb].
  - destruct (IH (v `div` 10)) as (k & f & fr & -> & Hf & Hk & Hv). exists k, f, fr. split; [done|].
    split; [done|]. split; [lia|]. rewrite E -Hv (_ : (S p - k)%nat = S (p - k)); [lia|].
    rewrite Nat2Z.inj_succ Z.pow_succ_r; lia.
  - destruct (fmtFrac_true p (v `div` 10) (String (digit_char (v `mod` 10)) acc)) as (a & -> & Ha & Hl & Hp).
    set (x := (v `div` 10) `mod` 10 ^ Z.of_nat p * 10 + v `mod` 10).
    exists (S p), x, (String "." (a ++ String (digit_char (v `mod` 10)) "")).
    split; [change (String "." ?s ++ acc) with (String "." (s ++ acc)); by rewrite -string_app_assoc|].
    split; [|split; [lia|rewrite Nat.sub_diag; lia]]. right. eexists. split; [done|].
    rewrite all_digits_app Ha string_length_app Hl parse_digits_app Hp.
    cbn [all_digits mbind option_bind parse_digits String.length]. rewrite digit_char_digit //.
    split; [by rewrite bool_decide_true|]. split; [lia|]. split; [done|].
    pose proof (Z.mod_pos_bound (v `div` 10) (10 ^ Z.of_nat p) ltac:(apply Z.pow_pos_nonneg; lia)). lia.
Qed.

(** ** Fuel *)

Lemma leadingInt_length s x v rest : leadingInt s x = Some (v, rest) → (String.length rest ≤ String.length s)%nat.
Proof.
  revert x. induction s as [|c s IH]; intros x; cbn [leadingInt]; [by intros [= _ <-]|].
  destruct (char_digit c); [|by intros [= _ <-]]. repeat case_match; try done. intros ?%IH. cbn. lia.
Qed.

Lemma leadingFraction_length s x scale o : (String.length (leadingFraction s x scale o).2 ≤ String.length s)%nat.
Proof.
  revert x scale o. induction s as [|c s IH]; intros x scale o; cbn [leadingFraction]; [done|].
  destruct (char_digit c); [|done]. cbn [String.length]. repeat case_match; (etrans; [apply IH|lia]).
Qed.

Lemma take_unit_length s :
  (String.length (take_unit s).1 + String.length (take_unit s).2 = String.length s)%nat.
Proof.
  induction s as [|c s IH]; [done|]. cbn [take_unit]. destruct (unit_end c); [done|].
  destruct (take_unit s) as [u rest]. cbn in *. lia.
Qed.

Lemma parse_component_shorter s v rest :
  parse_component s = Ok (v, rest) → (String.length rest < String.length s)%nat.
Proof.
  rewrite /parse_component. destruct (negb _); [done|].
  destruct (leadingInt s 0) as [[v0 s1]|] eqn:E; [|done]. apply leadingInt_length in E.
  assert (∀ f scale s2 post, (match s1 with
    | String "."%char s2 =>
        let '(f, scale, s3) := leadingFraction s2 0 1 false in
        (f, scale, s3, negb (String.length s3 =? String.length s2)%nat)
    | _ => (0, 1, s1, false) end) = (f, scale, s2, post) → (String.length s2 ≤ String.length s1)%nat) as Hf.
  { intros f scale s2 post. destruct s1 as [|c s1]; [by intros [= _ _ <- _]|].
    destruct (decide (c = "."%char)) as [->|Hc].
    - pose proof (leadingFraction_length s1 0 1 false) as Hl.
      destruct (leadingFraction s1 0 1 false) as [[f0 sc] s3]. intros [= _ _ <- _]. cbn in *. lia.
    - assert ((match String c s1 with
        | String "."%char s2 =>
            let '(f, scale, s3) := leadingFraction s2 0 1 false in
            (f, scale, s3, negb (String.length s3 =? String.length s2)%nat)
        | _ => (0, 1, String c s1, false) end) = (0, 1, String c s1, false)) as ->
        by (by destruct c as [[] [] [] [] [] [] [] []]). by intros [= _ _ <- _]. }
  destruct (match s1 with "" => _ | String _ _ => _ end) as [[[f scale] s2] post].
  specialize (Hf _ _ _ _ eq_refl).
  destruct (negb _ && negb _); [done|]. pose proof (take_unit_length s2) as Hu.
  destruct (take_unit s2) as [u s3]. cbn [fst snd] in Hu. case_bool_decide as Hue; [done|].
  assert (String.length u ≠ 0%nat) by (by destruct u).
  destruct (unitMap u); [|done]. repeat case_match; intros; simplify_eq; lia.
Qed.

(** The fuel is enough: parsing always ends. *)
Lemma parse_components_total fuel s d :
  (String.length s ≤ fuel)%nat → is_Some (parse_components fuel s d).
Proof.
  revert s d. induction fuel as [|fuel IH]; intros s d Hl.
  { destruct s; [by eexists|cbn in Hl; lia]. }
  destruct s as [|c s]; [by eexists|]. cbn [parse_components].
  destruct (parse_component (String c s)) as [[v rest]|e] eqn:E; [|by eexists].
  destruct (_ <? _); [by eexists|]. apply IH. apply parse_component_shorter in E. lia.
Qed.

Lemma parse_components_mono fuel fuel' s d r :
  (fuel ≤ fuel')%nat → parse_components fuel s d = Some r → parse_components fuel' s d = Some r.
Proof.
  revert fuel' s d. induction fuel as [|fuel IH]; intros fuel' s d Hle.
  { destruct s; [|done]. by destruct fuel'. }
  destruct fuel' as [|fuel']; [lia|]. destruct s as [|c s]; [done|]. cbn [parse_components].
  destruct (parse_component (String c s)) as [[v rest]|e]; [|done]. destruct (_ <? _); [done|]. apply IH. lia.
Qed.

(** ** Round trip *)

Lemma string_app_nil s : s ++ "" = s.
Proof. induction s as [|c s IH]; [done|]. change (String c s ++ "") with (String c (s ++ "")). by rewrite IH. Qed.

Lemma dec_digit_first v rest : 0 ≤ v ≤ 2 ^ 63 → digit_first (dec v ++ rest) ∧ dec v ++ rest ≠ "".
Proof.
  intros Hv. destruct (dec_digits v Hv) as (Hd & _ & Hne). destruct (dec v) as [|c s]; [done|].
  apply andb_true_iff in Hd as [Hc%bool_decide_eq_true _]. done.
Qed.

Lemma parse_components_step fuel v fr u rest unit p k f d :
  0 ≤ v → fraction_text k f fr → (k ≤ p ≤ 9)%nat → (k = 0%nat ∨ unit = 10 ^ Z.of_nat p) → 0 < unit →
  unit_text u = true → u ≠ "" → unitMap u = Some unit → digit_first rest →
  0 ≤ d → d + (v * unit + f * 10 ^ Z.of_nat (p - k)) ≤ 2 ^ 63 →
  parse_components (S fuel) (dec v ++ fr ++ u ++ rest) d
  = parse_components fuel rest (d + (v * unit + f * 10 ^ Z.of_nat (p - k))).
Proof.
  intros Hv Hf Hkp Hunit Hpos Hu Hne Hmap Hrest Hd Hle.
  assert (0 ≤ f) as Hf0 by (destruct Hf as [(_ & -> & _)|(s & _ & _ & _ & _ & ?)]; lia).
  assert (0 ≤ f * 10 ^ Z.of_nat (p - k)) as Hfn by (apply Z.mul_nonneg_nonneg; [done|apply Z.pow_nonneg; lia]).
  assert (v ≤ 2 ^ 63) as Hvle by nia.
  pose proof (parse_component_printed v fr u rest unit p k f Hv Hf Hkp Hunit Hpos Hu Hne Hmap Hrest ltac:(lia)) as Hc.
  destruct (dec_digit_first v (fr ++ u ++ rest)) as [_ Hs]; [lia|].
  destruct (dec v ++ fr ++ u ++ rest) as [|c s]; [done|]. cbn [parse_components]. rewrite Hc.
  by rewrite (proj2 (Z.ltb_ge _ _)).
Qed.

Lemma format_parses u : 0 ≤ u ≤ 2 ^ 63 → parse_components 3 (format_magnitude u) 0 = Some (Ok u).
Proof.
  intros Hu. rewrite /format_magnitude. destruct (Z.ltb_spec u second) as [Hs|Hs].
  - destruct (Z.eqb_spec u 0) as [->|Hn0]; [reflexivity|].
    assert (∃ p unit, (if u <? microsecond then (0%nat, "ns") else if u <? millisecond then (3%nat, micro ++ "s") else (6%nat, "ms"))
      = (p, unit) ∧ (p ≤ 9)%nat ∧ unit_text unit = true ∧ unit ≠ "" ∧ unitMap unit = Some (10 ^ Z.of_nat p))
      as (p & unit & -> & Hp & Ht & Hne & Hm).
    { destruct (u <? microsecond), (u <? millisecond); eexists _, _; split_and!; try reflexivity; try done; lia. }
    destruct (with_fraction_spec p u unit) as (k & f & fr & -> & Hf & Hk & Hv).
    pose proof (Z.div_mod u (10 ^ Z.of_nat p) ltac:(pose proof (Z.pow_pos_nonneg 10 (Z.of_nat p)); lia)) as Hdm.
    rewrite -(string_app_nil unit) (parse_components_step _ _ _ _ _ (10 ^ Z.of_nat p) p k f) //; try lia.
    + apply Z.div_pos; [lia|apply Z.pow_pos_nonneg; lia].
    + cbn [parse_components]. do 2 f_equal. lia.
  - destruct (with_fraction_spec 9 u "s") as (k & f & fr & -> & Hf & Hk & Hv).
    change second with 1000000000 in Hs. pose proof (Z.div_mod u 1000000000 ltac:(done)) as Hdm. change (10 ^ Z.of_nat 9) with 1000000000 in *.
    set (S0 := u `div` 1000000000) in *.
    assert (1 ≤ S0) as HS by (apply Z.div_le_lower_bound; [done|lia]).
    pose proof (Z.div_mod S0 60 ltac:(done)) as Hm. pose proof (Z.mod_pos_bound S0 60 ltac:(done)) as Hmb.
    pose proof (Z.mod_pos_bound u 1000000000 ltac:(done)) as Hub.
    assert (∀ fuel d, 0 ≤ d → d + (S0 `mod` 60 * 1000000000 + u `mod` 1000000000) ≤ 2 ^ 63 →
      parse_components (S fuel) (dec (S0 `mod` 60) ++ fr ++ "s") d
      = Some (Ok (d + (S0 `mod` 60 * 1000000000 + u `mod` 1000000000)))) as Hsec.
    { intros fuel d Hd Hle. rewrite -(string_app_nil "s") (parse_components_step _ _ _ _ _ 1000000000 9 k f) //; try lia.
      rewrite Hv. by destruct fuel. }
    destruct (Z.ltb_spec 0 (S0 `div` 60)) as [HM|HM].
    2:{ rewrite Hsec; [lia|lia|]. do 2 f_equal. nia. }
    set (M := S0 `div` 60) in *. pose proof (Z.div_mod M 60 ltac:(done)) as Hmm.
    pose proof (Z.mod_pos_bound M 60 ltac:(done)) as Hmmb.
    assert (∀ fuel d, 0 ≤ d → d + (M `mod` 60 * (60 * 1000000000) + (S0 `mod` 60 * 1000000000 + u `mod` 1000000000)) ≤ 2 ^ 63 →
      parse_components (S (S fuel)) (dec (M `mod` 60) ++ "m" ++ dec (S0 `mod` 60) ++ fr ++ "s") d
      = Some (Ok (d + (M `mod` 60 * (60 * 1000000000) + (S0 `mod` 60 * 1000000000 + u `mod` 1000000000))))) as Hmin.
    { intros fuel d Hd Hle.
      change (dec (M `mod` 60) ++ "m" ++ ?x) with (dec (M `mod` 60) ++ "" ++ "m" ++ x).
      rewrite (parse_components_step _ _ _ _ _ (60 * 1000000000) 0 0 0) //; try lia; try exact no_fraction.
      - apply dec_digit_first. lia.
      - rewrite Hsec; [lia|lia|]. do 2 f_equal. lia. }
    destruct (Z.ltb_spec 0 (M `div` 60)) as [HH|HH].
    2:{ rewrite Hmin; [lia|nia|]. do 2 f_equal. nia. }
    change (dec (M `div` 60) ++ "h" ++ ?x) with (dec (M `div` 60) ++ "" ++ "h" ++ x).
    rewrite (parse_components_step _ _ _ _ _ (3600 * 1000000000) 0 0 0) //; try lia; try exact no_fraction.
    + apply dec_digit_first. lia.
    + rewrite Hmin; [lia|lia|]. do 2 f_equal. lia.
Qed.

Lemma ParseDuration_magnitude u s :
  parse_components 3 s 0 = Some (Ok u) → s ≠ "" → digit_first s →
  (ParseDuration s = Some (if int64_max <? u then Err InvalidDuration else Ok u)) ∧
  ParseDuration (String "-" s) = Some (Ok (wrap64 (- wrap64 u))).
Proof.
  intros Hp Hne Hd.
  assert (parse_components (String.length s) s 0 = Some (Ok u)) as Hl.
  { destruct (parse_components_total (String.length s) s 0 (le_n _)) as [r Hr]. rewrite Hr.
    rewrite -(parse_components_mono (String.length s) (String.length s + 3) _ _ _ ltac:(lia) Hr).
    apply (parse_components_mono 3); [lia|done]. }
  assert (s ≠ "0") as H0 by (intros ->; by vm_compute in Hp).
  split.
  - assert ((match s with
      | String "-"%char s => (true, s) | String "+"%char s => (false, s) | _ => (false, s) end) = (false, s)) as Es.
    { destruct s as [|c s]; [done|]. change (is_Some (char_digit c)) in Hd.
      destruct c as [[] [] [] [] [] [] [] []]; try done; by destruct Hd. }
    rewrite /ParseDuration Es !bool_decide_false // Hl. by destruct (_ <? _).
  - rewrite /ParseDuration !bool_decide_false // Hl. done.
Qed.

Lemma format_first u : 0 ≤ u ≤ 2 ^ 63 → format_magnitude u ≠ "" ∧ digit_first (format_magnitude u).
Proof.
  intros Hu. rewrite /format_magnitude.
  assert (∀ p v acc, 0 ≤ v ≤ 2 ^ 63 → 0 ≤ (with_fraction p v acc).2 ≤ 2 ^ 63) as Hw.
  { intros p v acc Hv. destruct (with_fraction_spec p v acc) as (k & f & fr & -> & _). cbn [snd].
    assert (0 < 10 ^ Z.of_nat p) by (apply Z.pow_pos_nonneg; lia).
    split; [apply Z.div_pos; lia|]. apply Z.div_le_upper_bound; nia. }
  assert (∀ v rest, 0 ≤ v ≤ 2 ^ 63 → dec v ++ rest ≠ "" ∧ digit_first (dec v ++ rest)) as Hd
    by (intros v rest Hv; destruct (dec_digit_first v rest Hv); done).
  destruct (u <? second).
  - destruct (u =? 0); [split; [done|by eexists]|].
    destruct (if u <? microsecond then _ else _) as [p unit]. specialize (Hw p u unit Hu).
    destruct (with_fraction p u unit). by apply Hd.
  - specialize (Hw 9%nat u "s" Hu). destruct (with_fraction 9 u "s") as [acc v]. cbn [snd] in Hw.
    pose proof (Z.mod_pos_bound v 60 ltac:(done)). pose proof (Z.mod_pos_bound (v `div` 60) 60 ltac:(done)).
    pose proof (Z.div_le_upper_bound v 60 (2 ^ 63) ltac:(done) ltac:(lia)).
    destruct (Z.ltb_spec 0 (v `div` 60)); [|apply Hd; lia].
    pose proof (Z.div_le_upper_bound (v `div` 60) 60 (2 ^ 63) ltac:(done) ltac:(lia)).
    destruct (Z.ltb_spec 0 ((v `div` 60) `div` 60)); apply Hd; lia.
Qed.

(** C35: durations survive the configuration file: every int64 duration, from
    the most negative to the longest, marshals to a text that unmarshals to
    the same duration, fractions through float64 arithmetic included. *)
Theorem Duration_roundtrip d : int64 d → UnmarshalJSON (MarshalJSON d) = Some (Ok d).
Proof.
  rewrite /int64 /int64_min /int64_max /UnmarshalJSON /MarshalJSON /Duration_String. intros Hd.
  destruct (Z.ltb_spec d 0) as [Hneg|Hpos].
  - assert (0 ≤ - d ≤ 2 ^ 63) as Hu by lia. destruct (format_first _ Hu) as [Hne Hf].
    destruct (ParseDuration_magnitude (- d) _ (format_parses _ Hu) Hne Hf) as [_ Hp].
    change ("-" ++ ?s) with (String "-" s). rewrite Hp. do 2 f_equal.
    destruct (decide (d = - 2 ^ 63)) as [->|?]; [reflexivity|].
    rewrite (wrap64_id (- d)); [|rewrite wrap64_id; [|lia]]; rewrite /int64 /int64_min /int64_max; lia.
  - assert (0 ≤ d ≤ 2 ^ 63) as Hu by lia. destruct (format_first _ Hu) as [Hne Hf].
    destruct (ParseDuration_magnitude d _ (format_parses _ Hu) Hne Hf) as [-> _].
    rewrite (proj2 (Z.ltb_ge _ _)) //. rewrite /int64_max. lia.
Qed.

Lemma Duration_roundtrip_witness :
  Duration_String 5415250000000 = "1h30m15.25s" ∧ UnmarshalJSON (MarshalJSON 5415250000000) = Some (Ok 5415250000000).
Proof.
  split; [vm_compute; reflexivity|]. apply (Duration_roundtrip 5415250000000).
  rewrite /int64 /int64_min /int64_max. lia.
Defined.

(** Parsing always ends: the fuel is the length of the text. *)
Theorem ParseDuration_total s : is_Some (ParseDuration s).
Proof.
  rewrite /ParseDuration. destruct (match s with "" => _ | String _ _ => _ end) as [neg s'].
  case_bool_decide; [by eexists|]. case_bool_decide; [by eexists|].
  destruct (parse_components_total (String.length s') s' 0 (le_n _)) as [r ->].
  destruct r as [d|]; [|by eexists]. destruct neg; [by eexists|]. destruct (_ <? _); by eexists.
Qed.

(** Texts whose fractions go through float64 rounding, and refused ones. *)
Example parse_fraction : ParseDuration "0.3333333333333333333h" = Some (Ok 1200000000000).
Proof. vm_compute. reflexivity. Qed.
Example parse_long_fraction : ParseDuration "0.830103483285477580700h" = Some (Ok 2988372539827).
Proof. vm_compute. reflexivity. Qed.
Example parse_bare_number : ParseDuration "5" = Some (Err MissingUnit).
Proof. vm_compute. reflexivity. Qed.
Example parse_too_long : ParseDuration "2562047h47m16.854775808s" = Some (Err InvalidDuration).
Proof. vm_compute. reflexivity. Qed.
