(* ===== verification/Timestamp.v ===== *)
(** * internal/localdb: timestamps as text

    The record columns [created_at], [compacted_at] and [replicated_at] hold
    RFC 3339 text: [AsTime().Format(time.RFC3339Nano)] when a row is written,
    [time.Parse] when it is read.  A timestamp is a number of nanoseconds since
    1970 in UTC.  [Format] is Go's output for this layout; [parseRFC3339] is
    the strict reader [time.Parse] tries first, [None] where it declines. *)

From Stdlib Require Import Strings.Ascii.
From S2P Require Import Prelude Records LocalDB Decimal Storage Duration.

#[local] Open Scope string_scope.
#[local] Open Scope Z_scope.

(** ** The calendar *)

Definition isLeap (year : Z) : bool :=
  (year `mod` 4 =? 0) && (negb (year `mod` 100 =? 0) || (year `mod` 400 =? 0)).

Definition daysIn (month year : Z) : Z :=
  if (month =? 2) && isLeap year then 29
  else if month =? 2 then 28
  else if (month =? 4) || (month =? 6) || (month =? 9) || (month =? 11) then 30
  else 31.

Definition days_per_400 : Z := 146097.

(** Days since 1970 to year, month and day, through years that start in March
    and eras of 400 years. *)
Definition civil (days : Z) : Z * Z * Z :=
  let z := days + 719468 in
  let era := z `div` days_per_400 in
  let doe := z `mod` days_per_400 in
  let yoe := (doe - doe `div` 1460 + doe `div` 36524 - doe `div` 146096) `div` 365 in
  let doy := doe - (365 * yoe + yoe `div` 4 - yoe `div` 100) in
  let mp := (5 * doy + 2) `div` 153 in
  let d := doy - (153 * mp + 2) `div` 5 + 1 in
  let m := if mp <? 10 then mp + 3 else mp - 9 in
  (yoe + era * 400 + (if m <=? 2 then 1 else 0), m, d).

Definition days_of (year month day : Z) : Z :=
  let y := if month <=? 2 then year - 1 else year in
  let era := y `div` 400 in
  let yoe := y `mod` 400 in
  let doy := (153 * (if 2 <? month then month - 3 else month + 9) + 2) `div` 5 + day - 1 in
  let doe := yoe * 365 + yoe `div` 4 - yoe `div` 100 + doy in
  era * days_per_400 + doe - 719468.

(** ** Writing *)

(** [appendInt]: zero padding to the width, after the sign. *)
Definition appendInt (w : nat) (x : Z) : string :=
  let pad s := zeros (w - String.length s) ++ s in
  if x <? 0 then "-" ++ pad (dec (- x)) else pad (dec x).

Definition Format (ns : Z) : string :=
  let sec := ns `div` second in
  let nsec := ns `mod` second in
  let '(year, month, day) := civil (sec `div` 86400) in
  let s := sec `mod` 86400 in
  appendInt 4 year ++ "-" ++ appendInt 2 month ++ "-" ++ appendInt 2 day ++ "T"
  ++ appendInt 2 (s `div` 3600) ++ ":" ++ appendInt 2 ((s `mod` 3600) `div` 60) ++ ":"
  ++ appendInt 2 (s `mod` 60) ++ (with_fraction 9 nsec "Z").1.

(** ** Reading *)

(** The next [n] characters as a number. *)
Fixpoint digits (n : nat) (x : Z) (s : string) : option (Z * string) :=
  match n, s with
  | O, _ => Some (x, s)
  | S n, String c s => match char_digit c with Some d => digits n (x * 10 + d) s | None => None end
  | S _, "" => None
  end.

Definition parseUint (n : nat) (min max : Z) (s : string) : option (Z * string) :=
  match digits n 0 s with
  | Some (x, rest) => if (x <? min) || (max <? x) then None else Some (x, rest)
  | None => None
  end.

Definition sep (c : ascii) (s : string) : option string :=
  match s with String c' s => if bool_decide (c' = c) then Some s else None | "" => None end.

(** All digits that follow, at most nine of them counting; their value in
    nanoseconds and the rest. *)
Fixpoint nanos (room : nat) (x : Z) (s : string) : Z * string :=
  match s with
  | String c s' =>
      match char_digit c with
      | Some d => match room with O => nanos O x s' | S room => nanos room (x * 10 + d) s' end
      | None => (x * 10 ^ Z.of_nat room, s)
      end
  | "" => (x * 10 ^ Z.of_nat room, s)
  end.

Definition fraction (s : string) : Z * string :=
  match s with
  | String c (String c2 _ as rest) =>
      if bool_decide (c = "."%char) && bool_decide (is_Some (char_digit c2)) then nanos 9 0 rest else (0, s)
  | _ => (0, s)
  end.

(** The offset in seconds east of UTC. *)
Definition zone (s : string) : option Z :=
  if bool_decide (s = "Z") then Some 0
  else
    match s with
    | String c s =>
        sign ← (if bool_decide (c = "+"%char) then Some 1 else if bool_decide (c = "-"%char) then Some (-1) else None);
        '(hr, s) ← parseUint 2 0 23 s;
        s ← sep ":" s;
        '(mm, s) ← parseUint 2 0 59 s;
        if bool_decide (s = "") then Some (sign * (hr * 60 + mm) * 60) else None
    | "" => None
    end.

Definition parseRFC3339 (s : string) : option Z :=
  '(year, s) ← parseUint 4 0 9999 s;
  s ← sep "-" s;
  '(month, s) ← parseUint 2 1 12 s;
  s ← sep "-" s;
  '(day, s) ← parseUint 2 1 (daysIn month year) s;
  s ← sep "T" s;
  '(hour, s) ← parseUint 2 0 23 s;
  s ← sep ":" s;
  '(min, s) ← parseUint 2 0 59 s;
  s ← sep ":" s;
  '(sec, s) ← parseUint 2 0 59 s;
  let '(nsec, s) := fraction s in
  offset ← zone s;
  Some ((days_of year month day * 86400 + hour * 3600 + min * 60 + sec - offset) * second + nsec).

(** A column: absent timestamps are stored as NULL or as empty text, and text
    that does not parse reads as absent. *)
Definition column_text (t : option Z) : string := match t with Some ns => Format ns | None => "" end.
Definition column_time (s : string) : option Z := if bool_decide (s = "") then None else parseRFC3339 s.

(** ** Theorems *)

(** *** The calendar is the Gregorian one *)

(** The year of the era and the day of that year. *)
Lemma year_of_era doe :
  0 ≤ doe < days_per_400 →
  let yoe := (doe - doe `div` 1460 + doe `div` 36524 - doe `div` 146096) `div` 365 in
  0 ≤ yoe < 400 ∧ 0 ≤ doe - (365 * yoe + yoe `div` 4 - yoe `div` 100) ≤ 365.
Proof.
  rewrite /days_per_400. intros H. cbn zeta. Z.to_euclidean_division_equations. lia.
Qed.

(** The last day of a year that starts in March exists in leap years only. *)
Lemma last_day_leap doe :
  0 ≤ doe < days_per_400 →
  let yoe := (doe - doe `div` 1460 + doe `div` 36524 - doe `div` 146096) `div` 365 in
  doe - (365 * yoe + yoe `div` 4 - yoe `div` 100) = 365 →
  (yoe + 1) `mod` 4 = 0 ∧ ((yoe + 1) `mod` 100 ≠ 0 ∨ (yoe + 1) `mod` 400 = 0).
Proof. rewrite /days_per_400. intros H. cbn zeta. Z.to_euclidean_division_equations. lia. Qed.

Lemma month_of_year doy :
  0 ≤ doy ≤ 365 →
  let mp := (5 * doy + 2) `div` 153 in
  0 ≤ mp ≤ 11 ∧ 1 ≤ doy - (153 * mp + 2) `div` 5 + 1 ≤ 31 ∧
  (mp = 1 ∨ mp = 3 ∨ mp = 6 ∨ mp = 8 → doy - (153 * mp + 2) `div` 5 + 1 ≤ 30) ∧
  (mp = 11 → doy - (153 * mp + 2) `div` 5 + 1 ≤ 29 ∧ (doy - (153 * mp + 2) `div` 5 + 1 = 29 → doy = 365)).
Proof. intros H. cbn zeta. Z.to_euclidean_division_equations. lia. Qed.

Lemma isLeap_spec year :
  isLeap year = true ↔ year `mod` 4 = 0 ∧ (year `mod` 100 ≠ 0 ∨ year `mod` 400 = 0).
Proof. rewrite /isLeap andb_true_iff orb_true_iff negb_true_iff !Z.eqb_eq Z.eqb_neq. done. Qed.

(** Every day has a valid date that leads back to it. *)
Lemma civil_days z :
  let '(y, m, d) := civil z in days_of y m d = z ∧ 1 ≤ m ≤ 12 ∧ 1 ≤ d ≤ daysIn m y.
Proof.
  rewrite /civil. set (doe := (z + 719468) `mod` days_per_400). set (era := (z + 719468) `div` days_per_400).
  pose proof (Z.mod_pos_bound (z + 719468) days_per_400 ltac:(done)) as Hdoe. fold doe in Hdoe.
  pose proof (Z.div_mod (z + 719468) days_per_400 ltac:(done)) as Hz. fold doe era in Hz.
  pose proof (year_of_era doe Hdoe) as Hy. pose proof (last_day_leap doe Hdoe) as Hl. cbn zeta in Hy, Hl.
  set (yoe := (doe - _ + _ - _) `div` 365) in *. destruct Hy as [Hyoe Hdoy].
  set (doy := doe - (365 * yoe + yoe `div` 4 - yoe `div` 100)) in *.
  pose proof (month_of_year doy Hdoy) as Hm. cbn zeta in Hm. set (mp := (5 * doy + 2) `div` 153) in *.
  set (d := doy - (153 * mp + 2) `div` 5 + 1) in *. destruct Hm as (Hmp & Hd & H30 & H29).
  set (m := if mp <? 10 then mp + 3 else mp - 9).
  assert ((mp < 10 ∧ m = mp + 3) ∨ (10 ≤ mp ∧ m = mp - 9)) as Hmm by (rewrite /m; destruct (Z.ltb_spec mp 10); lia).
  split; [|split; [lia|split; [lia|]]].
  - rewrite /days_of. assert ((if 2 <? m then m - 3 else m + 9) = mp) as ->.
    { destruct (Z.ltb_spec 2 m); lia. }
    assert ((if m <=? 2 then yoe + era * 400 + (if m <=? 2 then 1 else 0) - 1
             else yoe + era * 400 + (if m <=? 2 then 1 else 0)) = yoe + era * 400) as ->.
    { destruct (m <=? 2); lia. }
    rewrite Z.div_add; [lia|]. rewrite Z.mod_add; [lia|]. rewrite Z.div_small; [lia|]. rewrite Z.mod_small; [lia|]. lia.
  - rewrite /daysIn. destruct (Z.eqb_spec m 2) as [E2|E2]; cbn [andb].
    + assert (mp = 11) as Emp by lia. destruct (H29 Emp) as [H29' H365].
      destruct (isLeap _) eqn:El; [lia|]. assert (d ≠ 29); [|lia]. intros E29.
      destruct (Hl (H365 E29)) as [L4 L100]. apply not_true_iff_false in El. apply El, isLeap_spec.
      rewrite (proj2 (Z.leb_le m 2)); [lia|].
      assert (∀ k, k ≠ 0 → 400 `mod` k = 0 → (yoe + era * 400 + 1) `mod` k = (yoe + 1) `mod` k) as Hk.
      { intros k Hk0 Hk. apply Z.mod_divide in Hk as [q Hq]; [|done].
        rewrite (_ : yoe + era * 400 + 1 = yoe + 1 + (era * q) * k); [rewrite Hq; lia|]. by apply Z.mod_add. }
      rewrite !Hk //.
    + destruct ((m =? 4) || (m =? 6) || (m =? 9) || (m =? 11)) eqn:E; [|lia].
      apply H30. rewrite !orb_true_iff !Z.eqb_eq in E. lia.
Qed.

Definition next_date (date : Z * Z * Z) : Z * Z * Z :=
  let '(y, m, d) := date in
  if d <? daysIn m y then (y, m, d + 1) else if m <? 12 then (y, m + 1, 1) else (y + 1, 1, 1).

(** [days_of] counts the days of the Gregorian calendar: it is 0 on
    1970-01-01 and one more on the day after any date. *)
Lemma days_of_epoch : days_of 1970 1 1 = 0.
Proof. done. Qed.

(** A year and the one before it within their eras. *)
Lemma march_year y :
  ∃ a q, 0 ≤ a < 400 ∧ y `div` 400 = q ∧ y `mod` 400 = a ∧
    ((a = 0 ∧ (y - 1) `div` 400 = q - 1 ∧ (y - 1) `mod` 400 = 399) ∨
     (0 < a ∧ (y - 1) `div` 400 = q ∧ (y - 1) `mod` 400 = a - 1)) ∧
    y `mod` 4 = a `mod` 4 ∧ y `mod` 100 = a `mod` 100.
Proof.
  exists (y `mod` 400), (y `div` 400). pose proof (Z.div_mod y 400 ltac:(lia)) as Hy.
  pose proof (Z.mod_pos_bound y 400 ltac:(lia)) as Hb. set (a := y `mod` 400) in *. set (q := y `div` 400) in *.
  split_and!; try done; try lia.
  - destruct (decide (a = 0)) as [Ea|Ea]; [left|right]; (split; [lia|]).
    + split; [symmetry; apply (Z.div_unique _ _ _ 399); lia|symmetry; apply (Z.mod_unique _ _ (q - 1)); lia].
    + split; [symmetry; apply (Z.div_unique _ _ _ (a - 1)); lia|symmetry; apply (Z.mod_unique _ _ q); lia].
  - rewrite Hy (_ : 400 * q + a = a + (100 * q) * 4); [lia|]. by apply Z.mod_add.
  - rewrite Hy (_ : 400 * q + a = a + (4 * q) * 100); [lia|]. by apply Z.mod_add.
Qed.

Lemma days_of_next y m d :
  1 ≤ m ≤ 12 → 1 ≤ d ≤ daysIn m y →
  let '(y', m', d') := next_date (y, m, d) in days_of y' m' d' = days_of y m d + 1.
Proof.
  intros Hm Hd. rewrite /next_date. destruct (Z.ltb_spec d (daysIn m y)) as [Hlt|Hge].
  { rewrite /days_of. lia. }
  assert (d = daysIn m y) as -> by lia. clear Hd Hge.
  assert (m = 1 ∨ m = 2 ∨ m = 3 ∨ m = 4 ∨ m = 5 ∨ m = 6 ∨ m = 7 ∨ m = 8 ∨ m = 9 ∨ m = 10 ∨ m = 11 ∨ m = 12)
    as Hc by lia. clear Hm.
  destruct (decide (m = 2)) as [->|H2].
  - pose proof (isLeap_spec y) as Hl. pose proof (march_year y) as (a & q & Ha & Eq & Er & Ep & E4 & E100).
    rewrite /daysIn /days_of /days_per_400. change (2 + 1) with 3.
    cbn [Z.leb Z.ltb Z.eqb Z.compare Pos.compare Pos.compare_cont Pos.eqb andb orb]. rewrite Eq Er. rewrite E4 E100 Er in Hl. destruct (isLeap y).
    + destruct (proj1 Hl eq_refl) as [L1 L2]. clear Hl.
      destruct Ep as [(-> & -> & ->)|(Hpos & -> & ->)]; Z.to_euclidean_division_equations; lia.
    + assert (¬ (a `mod` 4 = 0 ∧ (a `mod` 100 ≠ 0 ∨ a = 0))) as L by (intros ?%Hl; done). clear Hl.
      destruct Ep as [(-> & -> & ->)|(Hpos & -> & ->)]; Z.to_euclidean_division_equations; lia.
  - destruct_or! Hc; subst m; try done; rewrite /daysIn /days_of /days_per_400;
      cbn [Z.eqb Pos.eqb andb orb]; rewrite ?Z.add_simpl_r;
      repeat match goal with
             | |- context [?x <=? ?z] => destruct (Z.leb_spec x z)
             | |- context [?x <? ?z] => destruct (Z.ltb_spec x z)
             end; try lia; rewrite ?Z.add_simpl_r; Z.to_euclidean_division_equations; lia.
Qed.

(** *** Text *)

Lemma dec_aux_length fuel k n acc :
  0 ≤ n < 10 ^ Z.of_nat (S k) → (String.length (dec_aux fuel n acc) ≤ S k + String.length acc)%nat.
Proof.
  revert k n acc. induction fuel as [|fuel IH]; intros k n acc Hn; cbn [dec_aux]; [cbn; lia|].
  destruct (Z.ltb_spec n 10); [cbn; lia|]. destruct k as [|k]; [change (10 ^ Z.of_nat 1) with 10 in Hn; lia|].
  etrans; [apply (IH k)|cbn; lia]. rewrite Nat2Z.inj_succ Z.pow_succ_r in Hn; [lia|].
  split; [apply Z.div_pos; lia|apply Z.div_lt_upper_bound; lia].
Qed.

Lemma zeros_length n : String.length (zeros n) = n.
Proof. induction n as [|n IH]; [done|]. cbn. by rewrite IH. Qed.

Lemma digits_app s x n rest :
  parse_digits s x = Some n → digits (String.length s) x (s ++ rest) = Some (n, rest).
Proof.
  revert x. induction s as [|c s IH]; intros x; [by intros [= ->]|].
  change (String c s ++ rest) with (String c (s ++ rest)). cbn [parse_digits digits String.length].
  destruct (char_digit c); [|done]. apply IH.
Qed.

Lemma parseUint_printed w n lo hi rest :
  (1 ≤ w ≤ 18)%nat → 0 ≤ n < 10 ^ Z.of_nat w → lo ≤ n ≤ hi →
  parseUint w lo hi (appendInt w n ++ rest) = Some (n, rest).
Proof.
  intros Hw Hn Hr. rewrite /parseUint. destruct (dec_digits n) as (_ & Hp & _).
  { assert (10 ^ Z.of_nat w ≤ 10 ^ 18) by (apply Z.pow_le_mono_r; lia). lia. }
  assert (digits w 0 (appendInt w n ++ rest) = Some (n, rest)) as ->.
  { rewrite /appendInt. destruct (Z.ltb_spec n 0); [lia|].
    assert (String.length (zeros (w - String.length (dec n)) ++ dec n) = w) as Hl.
    { rewrite string_length_app zeros_length. destruct w as [|w]; [lia|].
      pose proof (dec_aux_length 19 w n "" Hn) as Hd. rewrite -/(dec n) in Hd. cbn [String.length] in Hd. lia. }
    rewrite -{1}Hl. apply digits_app. by rewrite parse_zeros. }
  by rewrite (proj2 (Z.ltb_ge _ _)) ?(proj2 (Z.ltb_ge _ _)); [lia|lia|].
Qed.

Lemma sep_app c s : sep c (String c s) = Some s.
Proof. by rewrite /sep bool_decide_true. Qed.

Lemma nanos_digits s x n room :
  parse_digits s x = Some n → nanos (String.length s + room) x (s ++ "Z") = (n * 10 ^ Z.of_nat room, "Z").
Proof.
  revert x. induction s as [|c s IH]; intros x; [by intros [= ->]|].
  change (String c s ++ "Z") with (String c (s ++ "Z")). cbn [parse_digits nanos String.length Nat.add].
  destruct (char_digit c); [|done]. apply IH.
Qed.

Lemma fraction_printed nsec :
  0 ≤ nsec < second → fraction (with_fraction 9 nsec "Z").1 = (nsec, "Z").
Proof.
  intros Hn. destruct (with_fraction_spec 9 nsec "Z") as (k & f & fr & -> & Hf & Hk & Hv). cbn [fst].
  change (10 ^ Z.of_nat 9) with second in Hv. rewrite Z.mod_small // in Hv.
  destruct Hf as [(-> & -> & ->)|(s & -> & Hs & Hl & Hp & Hpos)].
  { cbn in Hv. subst nsec. done. }
  change (String "." s ++ "Z") with (String "." (s ++ "Z")).
  destruct s as [|c s]; [by injection Hp as <-; lia|]. cbn [all_digits] in Hs. apply andb_true_iff in Hs as [Hc _].
  change (String c s ++ "Z") with (String c (s ++ "Z")). cbn [fraction]. rewrite Hc. cbn [bool_decide andb].
  change (String c (s ++ "Z")) with (String c s ++ "Z").
  rewrite bool_decide_true //. cbn [andb].
  replace 9%nat with (String.length (String c s) + (9 - k))%nat by lia. by rewrite (nanos_digits _ _ f) // Hv.
Qed.

Definition year_of (ns : Z) : Z := (civil ((ns `div` second) `div` 86400)).1.1.

(** A timestamp written to the database reads back: for every instant in
    the years 0 to 9999 the RFC 3339 text of a row parses to the nanosecond it
    was made from, leap years, trailing zeros and times before 1970 included. *)
Theorem timestamp_roundtrip ns :
  0 ≤ year_of ns ≤ 9999 → column_time (column_text (Some ns)) = Some ns.
Proof.
  rewrite /year_of. intros Hy. cbn [column_text]. rewrite /Format.
  pose proof (civil_days ((ns `div` second) `div` 86400)) as Hc. destruct (civil _) as [[y m] d]. cbn [fst] in Hy.
  destruct Hc as (Hdays & Hm & Hd). assert (daysIn m y ≤ 31) as H31 by (rewrite /daysIn; repeat case_match; lia).
  set (sec := ns `div` second) in *. pose proof (Z.mod_pos_bound ns second ltac:(done)) as Hnsec.
  pose proof (Z.mod_pos_bound sec 86400 ltac:(lia)) as Hs. set (s := sec `mod` 86400) in *.
  rewrite /column_time bool_decide_false.
  { intros E. apply (f_equal String.length) in E. rewrite !string_length_app in E. cbn [String.length] in E. lia. }
  rewrite /parseRFC3339.
  assert (0 ≤ s `div` 3600 ≤ 23 ∧ 0 ≤ (s `mod` 3600) `div` 60 ≤ 59 ∧ 0 ≤ s `mod` 60 ≤ 59 ∧
    s = s `div` 3600 * 3600 + (s `mod` 3600) `div` 60 * 60 + s `mod` 60) as (Hh & Hmi & Hse & Esum).
  { clear -Hs. Z.to_euclidean_division_equations. lia. }
  revert Hh Hmi Hse Esum. generalize (s `div` 3600) as hh, ((s `mod` 3600) `div` 60) as mi, (s `mod` 60) as se.
  intros hh mi se Hh Hmi Hse Esum. pose proof (eq_refl : 10 ^ Z.of_nat 2 = 100) as P2.
  pose proof (eq_refl : 10 ^ Z.of_nat 4 = 10000) as P4.
  do 5 (rewrite parseUint_printed; [lia|lia|lia|]; cbn [mbind option_bind];
        rewrite sep_app; cbn [mbind option_bind]).
  rewrite parseUint_printed; [lia|lia|lia|]. cbn [mbind option_bind].
  rewrite fraction_printed //. change (zone "Z") with (Some 0). cbn [mbind option_bind]. rewrite Hdays. f_equal.
  pose proof (Z.div_mod ns second ltac:(done)) as Ens. pose proof (Z.div_mod sec 86400 ltac:(lia)) as Esec.
  fold sec in Ens. fold s in Esec.
  match goal with |- ?x * second + _ = _ => assert (x = sec) as -> by lia end. lia.
Qed.

(** Every int64 number of nanoseconds is in that range. *)
Lemma int64_year ns : int64 ns → 0 ≤ year_of ns ≤ 9999.
Proof.
  rewrite /int64 /int64_min /int64_max /year_of /civil /second /days_per_400. intros Hns. cbn [fst].
  set (days := (ns `div` 10 ^ 9) `div` 86400).
  assert (- 106752 ≤ days ≤ 106752) as Hd by (rewrite /days; Z.to_euclidean_division_equations; lia).
  pose proof (Z.mod_pos_bound (days + 719468) 146097 ltac:(lia)) as Hdoe.
  pose proof (year_of_era _ Hdoe) as [Hy _]. cbn zeta in Hy. set (yoe := (_ - _ + _ - _) `div` 365) in *.
  assert (4 ≤ (days + 719468) `div` 146097 ≤ 5) as He by (Z.to_euclidean_division_equations; lia).
  destruct (_ <=? 2); lia.
Qed.

Lemma timestamp_roundtrip_witness :
  column_text (Some (-1)) = "1969-12-31T23:59:59.999999999Z" ∧ column_time "1969-12-31T23:59:59.999999999Z" = Some (-1).
Proof.
  assert (column_text (Some (-1)) = "1969-12-31T23:59:59.999999999Z") as E by (vm_compute; reflexivity).
  split; [exact E|]. rewrite -E. apply (timestamp_roundtrip (-1)). vm_compute. split; discriminate.
Defined.

(** The last nanosecond of 9999 is the end: the text of the next has five
    digits of year, and its row reads back without the timestamp. *)
Lemma year_10000_unreadable :
  column_text (Some 253402300800000000000) = "10000-01-01T00:00:00Z" ∧
  column_time (column_text (Some 253402300800000000000)) = None ∧
  column_time (column_text (Some 253402300799999999999)) = Some 253402300799999999999.
Proof. by vm_compute. Qed.

(** Offsets and digits beyond the ninth, which this program never writes. *)
Lemma parse_offset : column_time "2024-02-29T12:00:00.1234567891+01:30" = Some 1709202600123456789.
Proof. vm_compute. reflexivity. Qed.

Lemma parse_rejects :
  column_time "2023-02-29T12:00:00Z" = None ∧ column_time "2024-02-29T24:00:00Z" = None ∧
  column_time "2024-02-29T12:00:00" = None.
Proof. by vm_compute. Qed.
