(* ===== verification/StoredRows.v ===== *)
(** * internal/localdb/find.go: rows as SQLite stores them

    LocalDB keeps a row's timestamps as numbers.  Here a row has the columns of
    the table, with the timestamps as text ([store_row]), and is read by
    [rows.Scan] and [time.Parse] ([scan_row]).  Over every database the writes
    of the code can make, the queries on the stored text answer what the
    queries of LocalDB answer. *)

From Stdlib Require Import Strings.String.
From S2P Require Import Prelude Records LocalDB History Examples LocalDBTheorems Timestamp Failover.

#[local] Open Scope Z_scope.

(** ** The table *)

Record text_row := mkTextRow {
  tr_revision : Z;
  tr_key : bytes;
  tr_created : bool;
  tr_deleted : bool;
  tr_create_revision : Z;
  tr_prev_revision : Z;
  tr_version : Z;
  tr_lease : Z;
  tr_dek : Z;
  tr_value : option bytes;
  tr_created_at : string;
  tr_compacted_at : option string;
  tr_leader_id : string;
  tr_replicated_at : option string;
}.

(** The parameters of the INSERT: an absent creation time is the empty text, the
    other two are NULL. *)
Definition store_row (r : record) : text_row :=
  mkTextRow (Revision r) (Key r) (Created r) (Deleted r) (CreateRevision r) (PrevRevision r) (Version r)
    (Lease r) (Dek r) (Value r) (column_text (CreatedAt r)) (Format <$> CompactedAt r) (LeaderId r)
    (Format <$> ReplicatedAt r).

Definition scan_row (t : text_row) : record :=
  mkRecord (tr_revision t) (tr_key t) (tr_created t) (tr_deleted t) (tr_create_revision t) (tr_prev_revision t)
    (tr_version t) (tr_lease t) (tr_dek t) (tr_value t) (column_time (tr_created_at t))
    (tr_compacted_at t ≫= column_time) (tr_leader_id t) (tr_replicated_at t ≫= column_time) 0.

(** ** Queries *)

(** The two query ends in use, both ordered by revision. *)
Inductive query_end := UpTo (revision : Z) | After (revision : Z).

Definition in_query (q : query_end) (t : text_row) : Prop :=
  match q with UpTo rev => tr_revision t ≤ rev | After rev => rev < tr_revision t end.
#[global] Instance in_query_dec q t : Decision (in_query q t).
Proof. destruct q; rewrite /in_query; apply _. Defined.

Definition by_revision (a b : text_row) : Prop := tr_revision a ≤ tr_revision b.
#[global] Instance by_revision_dec a b : Decision (by_revision a b).
Proof. rewrite /by_revision. apply _. Defined.

(** [rn = 1]: no row of the subquery has the key at a higher revision. *)
Definition first_of_key (l : list text_row) (t : text_row) : Prop :=
  Forall (λ x, tr_key x = tr_key t → tr_revision x ≤ tr_revision t) l.

Definition selectRecord (queryEnd : query_end) (latestPerKey excludeDeleted : bool) (t : list text_row)
    : list record :=
  let sub := merge_sort by_revision (filter (in_query queryEnd) t) in
  scan_row <$> filter (λ r, (latestPerKey = true → first_of_key sub r) ∧
                            (excludeDeleted = true → tr_deleted r = false)) sub.

Definition selectByRevision (rev : Z) (t : list text_row) : res db_err record :=
  match filter (λ r, tr_revision r = rev) t with
  | r :: _ => Ok (scan_row r)
  | [] => Err ErrNoRows
  end.

(** ** What can be stored *)

(** Times in the years of the format. *)
Definition writable_time (t : Z) : Prop := 0 ≤ year_of t ≤ 9999.

Definition storable (r : record) : Prop :=
  Crc r = 0 ∧ (∀ t, CreatedAt r = Some t → writable_time t) ∧ (∀ t, CompactedAt r = Some t → writable_time t) ∧
  (∀ t, ReplicatedAt r = Some t → writable_time t).

Lemma column_time_Format t : writable_time t → column_time (Format t) = Some t.
Proof. intros Ht. change (Format t) with (column_text (Some t)). by apply timestamp_roundtrip. Qed.

Lemma scan_store r : storable r → scan_row (store_row r) = r.
Proof.
  intros (Hc & H1 & H2 & H3). destruct r as [? ? ? ? ? ? ? ? ? ? cr co l re crc]. cbn in *. subst.
  rewrite /scan_row /store_row /=. f_equal.
  - destruct cr as [t|]; [|done]. by apply column_time_Format, H1.
  - destruct co as [t|]; [|done]. cbn. by apply column_time_Format, H2.
  - destruct re as [t|]; [|done]. cbn. by apply column_time_Format, H3.
Qed.

(** ** The writes *)

(** Every statement of the package that changes the records, at a clock whose
    times can be written. *)
Inductive db_write : database → database → Prop :=
| dw_insert now rec r db db' :
    writable_time now → InsertRecord now rec db = Ok (r, db') → db_write db db'
| dw_replicate now rec r db db' :
    writable_time now → (∀ t, CreatedAt rec = Some t → writable_time t) →
    (∀ t, CompactedAt rec = Some t → writable_time t) →
    ReplicateRecord now rec db = Ok (r, db') → db_write db db'
| dw_tentative now rec c db :
    writable_time now → (∀ t, CreatedAt rec = Some t → writable_time t) →
    (∀ t, CompactedAt rec = Some t → writable_time t) →
    db_write db (ReplicateTentativeRecord now rec c db).2
| dw_compact now rev db : writable_time now → db_write db (ExecuteCompaction now rev db).2
| dw_persist rev db : db_write db (PersistCompactionRevision rev db)
| dw_truncate db : db_write db (Truncate db).

Definition stored_inv (db : database) : Prop := table_wf (rows db) ∧ Forall storable (rows db).

Lemma stored_inv_insert r db :
  (∀ x, x ∈ rows db → Revision x ≠ Revision r) → storable r → stored_inv db →
  stored_inv (set_rows (insert_row r (rows db)) db).
Proof.
  intros Hne Hr [Hwf Hs]. split; [by apply insert_row_grows|]. rewrite !Forall_forall in Hs |- *.
  intros x [->|Hx]%insert_row_elem; [done| |done]. by apply Hs.
Qed.

Lemma stored_inv_replicate now rec db r db' :
  writable_time now → (∀ t, CreatedAt rec = Some t → writable_time t) →
  (∀ t, CompactedAt rec = Some t → writable_time t) →
  ReplicateRecord now rec db = Ok (r, db') → stored_inv db → stored_inv db'.
Proof.
  intros Hn H1 H2 H Hi. destruct (ReplicateRecord_Ok _ _ _ _ _ H) as (_ & _ & [[-> _]|(-> & -> & Hne)]); [done|].
  apply stored_inv_insert; [done| |done]. split_and!; try done. by intros t [= <-].
Qed.

Lemma stored_inv_delete rev db : stored_inv db → stored_inv (delete_revision rev db).
Proof. intros [Hwf Hs]. split; [by apply table_wf_filter|]. apply Forall_forall. intros x [_ Hx]%list_elem_of_filter.
  by apply (proj1 (Forall_forall _ _) Hs). Qed.

Lemma stored_inv_write db db' : db_write db db' → stored_inv db → stored_inv db'.
Proof.
  intros Hw Hi. destruct Hw as [now rec r db db' Hn H|now rec r db db' Hn H1 H2 H|now rec c db Hn H1 H2|now rev db Hn
    |rev db|db].
  - revert H. rewrite /InsertRecord. destruct (invalid_for_insert rec); [done|].
    destruct (sql_insert _ _) as [[x t']|e] eqn:Hs; [|by repeat case_match].
    pose proof (sql_insert_inv _ _ _ _ Hs) as (-> & Hne & _). case_match; [done|]. intros [= <- <-].
    apply stored_inv_insert; [done| |done]. revert Hs. rewrite /sql_insert. repeat case_match; intros; simplify_eq.
    split_and!; cbn; try done. by intros t [= <-].
  - by eapply stored_inv_replicate.
  - rewrite /ReplicateTentativeRecord. case_match.
    + destruct (ReplicateRecord now rec db) as [[r db']|e] eqn:H'; [|done]. by eapply stored_inv_replicate.
    + destruct (ReplicateRecord now rec db) as [[r db']|e] eqn:H'; [by eapply stored_inv_replicate|].
      destruct e; try done.
      destruct (ReplicateRecord now rec (delete_revision (Revision rec) db)) as [[r db']|e] eqn:H''; cbn.
      * eapply stored_inv_replicate; [..|exact H''|]; try done. by apply stored_inv_delete.
      * by apply stored_inv_delete.
  - rewrite /ExecuteCompaction. case_match; [done|]. destruct Hi as [Hwf Hs]. cbn. split.
    + apply (table_wf_map _ (same_links_compact_update now rev (rows db))). done.
    + apply Forall_fmap. eapply Forall_impl; [exact Hs|]. intros r (Hc & T1 & T2 & T3).
      cbn. case_match; [|by split_and!]. split_and!; cbn; try done. by intros t [= <-].
  - rewrite /PersistCompactionRevision. by repeat case_match.
  - by split; constructor.
Qed.

(** ** Reading *)

#[local] Instance by_revision_total : Total by_revision.
Proof. intros a b. rewrite /by_revision. lia. Qed.
#[local] Instance by_revision_trans : Transitive by_revision.
Proof. intros a b c. rewrite /by_revision. lia. Qed.

(** Sorting rows that are in order changes nothing. *)
Lemma merge_sort_sorted l : StronglySorted Z.lt (tr_revision <$> l) → merge_sort by_revision l = l.
Proof.
  intros Hs. apply (StronglySorted_unique_strong by_revision).
  - intros x y Hx Hy H1 H2. rewrite merge_sort_Permutation in Hx. assert (tr_revision x = tr_revision y) as E.
    { rewrite /by_revision in H1, H2. lia. }
    clear H1 H2. induction l as [|z l IH]; [by apply elem_of_nil in Hx|].
    apply StronglySorted_cons in Hs as [Hall Hs]. rewrite Forall_forall in Hall.
    apply elem_of_cons in Hx as [->|Hx]; apply elem_of_cons in Hy as [->|Hy]; [done|..].
    + specialize (Hall (tr_revision y) (list_elem_of_fmap_2 _ _ _ Hy)). lia.
    + specialize (Hall (tr_revision x) (list_elem_of_fmap_2 _ _ _ Hx)). lia.
    + by apply IH.
  - apply (StronglySorted_merge_sort _).
  - induction l as [|z l IH]; [constructor|]. apply StronglySorted_cons in Hs as [Hall Hs].
    constructor; [by apply IH|]. rewrite Forall_fmap in Hall. eapply Forall_impl; [exact Hall|].
    intros x. rewrite /by_revision /=. lia.
  - apply merge_sort_Permutation.
Qed.

Lemma scan_stored_list l : Forall storable l → scan_row <$> (store_row <$> l) = l.
Proof.
  intros Hl. rewrite -list_fmap_compose -{2}(list_fmap_id l). apply list_fmap_ext. intros i r Hr. cbn.
  apply scan_store. eapply (proj1 (Forall_forall _ _) Hl). by eapply list_elem_of_lookup_2.
Qed.

Lemma selectRecord_stored q (P : record → Prop) `{∀ r, Decision (P r)} db :
  (∀ r, in_query q (store_row r) ↔ P r) → stored_inv db →
  selectRecord q false false (store_row <$> rows db) = filter P (rows db).
Proof.
  intros HP [Hwf Hs]. rewrite /selectRecord.
  assert (filter (in_query q) (store_row <$> rows db) = store_row <$> filter P (rows db)) as ->.
  { by apply filter_fmap. }
  rewrite merge_sort_sorted.
  { rewrite -list_fmap_compose. exact (table_wf_filter P (rows db) Hwf). }
  rewrite filter_all; [done|]. apply scan_stored_list. apply Forall_forall. intros x [_ Hx]%list_elem_of_filter.
  by apply (proj1 (Forall_forall _ _) Hs).
Qed.

(** C34: what is written to SQLite is what is read.  For every database the
    writes of the code can reach with clocks in the years 0 to 9999, the
    queries behind snapshots, replication and single records, run on the rows
    as stored with their timestamps as RFC 3339 text, return the very records,
    in order of revision. *)
Theorem stored_rows_read_back db rev :
  rtc db_write (mkDB [] []) db →
  selectRecord (UpTo rev) false false (store_row <$> rows db) = FindAllRecordsForSnapshot rev db ∧
  selectRecord (After rev) false false (store_row <$> rows db) = FindRecordsAfterRevision rev db ∧
  selectByRevision rev (store_row <$> rows db) = FindRecordByRev rev db.
Proof.
  intros Hr. assert (stored_inv db) as Hi.
  { apply (rtc_invariant db_write stored_inv stored_inv_write _ _ Hr). by split; constructor. }
  split_and!; [by apply selectRecord_stored|by apply selectRecord_stored|].
  rewrite /selectByRevision /FindRecordByRev (filter_fmap store_row _ (λ r, Revision r = rev)) //.
  destruct (filter _ (rows db)) as [|r l] eqn:E; [done|]. cbn. f_equal. apply scan_store.
  apply (proj1 (Forall_forall _ _) (proj2 Hi)). assert (r ∈ r :: l) as Hin by left.
  rewrite -E in Hin. by apply list_elem_of_filter in Hin as [_ ?].
Qed.

Lemma stored_rows_read_back_witness :
  ∃ r, rtc db_write (mkDB [] []) (ReplicateTentativeRecord 1700000000123456789 example_next 0 (mkDB [] [])).2 ∧
    selectByRevision 5 (store_row <$> rows (ReplicateTentativeRecord 1700000000123456789 example_next 0 (mkDB [] [])).2)
    = Ok r ∧ ReplicatedAt r = Some 1700000000123456789.
Proof.
  assert (rtc db_write (mkDB [] []) (ReplicateTentativeRecord 1700000000123456789 example_next 0 (mkDB [] [])).2) as Hr.
  { eapply rtc_l; [apply dw_tentative|apply rtc_refl]; [vm_compute; split; discriminate|done|done]. }
  destruct (stored_rows_read_back _ 5 Hr) as (_ & _ & E). rewrite E.
  exists (stored_row 1700000000123456789 example_next). split; [exact Hr|]. split; reflexivity.
Defined.
