(* ===== verification/Config.v ===== *)
(** * internal/config: loading and validation of the configuration

    Environment variables are a function from names to values; reading and
    parsing the JSONC file (os, hujson, encoding/json) is an argument of the
    operations that need it.  Durations are int64 nanoseconds. *)

From Stdlib Require Import Strings.Ascii.
From S2P Require Import Prelude.

#[local] Open Scope string_scope.
#[local] Open Scope Z_scope.

(** ** Configuration *)

Record StorageConfig := mkStorageConfig {
  sg_Provider : string;
  sg_BucketName : string;
  sg_KeyPrefix : string;
  sg_Class : string;
  sg_Encryption : string;
  sg_KMSKeyID : string;
}.

Record ElectorSettings := mkElectorSettings {
  es_DegradationCount : Z;
  es_DeregistrationTimeout : Z;
  es_PrimaryPriorTimeout : Z;
}.

(** [rs_Quorum] is [None] for the nil pointer. *)
Record ReplicationConfig := mkReplicationConfig {
  rs_Quorum : option Z;
  rs_DegradationCount : Z;
  rs_ThresholdSizeMB : Z;
  rs_ThresholdAgeMinutes : Z;
}.

Record SnapshotSettings := mkSnapshotSettings {
  ss_ThresholdRecords : Z;
  ss_ThresholdSizeMB : Z;
  ss_ThresholdAgeMinutes : Z;
}.

Record ClusterConfig := mkClusterConfig {
  cc_ClusterID : string;
  cc_Storage : StorageConfig;
  cc_HeartbeatInterval : Z;
  cc_Elector : ElectorSettings;
  cc_Replication : ReplicationConfig;
  cc_Snapshot : SnapshotSettings;
  cc_CompactionInterval : Z;
}.

Record NodeConfig := mkNodeConfig {
  nc_ConfigPath : string;
  nc_NodeID : string;
  nc_BindClient : string;
  nc_AdvertiseClient : string;
  nc_BindPeer : string;
  nc_AdvertisePeer : string;
  nc_BindElection : string;
  nc_AdvertiseElection : string;
  nc_BindHealth : string;
  nc_TLSCACert : string;
  nc_TLSServerCert : string;
  nc_TLSServerKey : string;
  nc_TLSClientCert : string;
  nc_TLSClientKey : string;
  nc_DataDir : string;
  nc_Verbose : bool;
}.

Record Config := mkConfiguration {
  c_Node : NodeConfig;
  c_Cluster : ClusterConfig;
  c_EtcdClusterID : Z;
}.

Record FlagOverrides := mkFlags { fo_ConfigPath : string; fo_Verbose : bool }.

(** ** Identifiers *)

Definition in_range (lo hi c : ascii) : bool :=
  (N_of_ascii lo <=? N_of_ascii c)%N && (N_of_ascii c <=? N_of_ascii hi)%N.

(** [a-z0-9] and [a-z0-9-]. *)
Definition alnum (c : ascii) : bool := in_range "a" "z" c || in_range "0" "9" c.
Definition hyphen : ascii := "-".
Definition alnum_hyphen (c : ascii) : bool := alnum c || bool_decide (c = hyphen).

(** [^[a-z0-9]([a-z0-9-]*[a-z0-9])?$] *)
Definition identifierRegexp (s : list ascii) : bool :=
  match s with
  | [] => false
  | c :: t =>
      alnum c
      && match last t with
         | None => true
         | Some d => forallb alnum_hyphen (removelast t) && alnum d
         end
  end.

(** [strings.Contains(value, "--")] *)
Fixpoint double_hyphen (s : list ascii) : bool :=
  match s with
  | c :: (d :: _) as t => bool_decide (c = hyphen) && bool_decide (d = hyphen) || double_hyphen t
  | _ => false
  end.

Inductive identifier_err := IdentifierRequired | IdentifierTooLong | IdentifierHyphens | IdentifierFormat.

Definition ValidateIdentifier (value : string) : res identifier_err unit :=
  let s := String.list_ascii_of_string value in
  if bool_decide (value = "") then Err IdentifierRequired
  else if (32 <? String.length value)%nat then Err IdentifierTooLong
  else if double_hyphen s then Err IdentifierHyphens
  else if negb (identifierRegexp s) then Err IdentifierFormat
  else Ok tt.

(** ** Validation *)

Inductive config_err :=
| NodeIDErr (e : identifier_err)
| ClusterIDErr (e : identifier_err)
| BucketRequired
| ProviderInvalid (p : string)
| EncryptionInvalid (e : string)
| KMSKeyRequired
| ClassInvalid (class : string)
| ElectorDegradationCountErr
| ReplicationDegradationCountErr
| HeartbeatIntervalErr
| PriorTimeoutErr (minimum : Z)
| ChunkAgeErr
| NilQuorum.

(** A nil [Quorum] is dereferenced: [NilQuorum] stands for the panic. *)
Definition Validate (c : Config) : res config_err unit :=
  let st := cc_Storage (c_Cluster c) in
  let el := cc_Elector (c_Cluster c) in
  let rp := cc_Replication (c_Cluster c) in
  let interval := cc_HeartbeatInterval (c_Cluster c) in
  match ValidateIdentifier (nc_NodeID (c_Node c)) with
  | Err e => Err (NodeIDErr e)
  | Ok _ =>
  match ValidateIdentifier (cc_ClusterID (c_Cluster c)) with
  | Err e => Err (ClusterIDErr e)
  | Ok _ =>
      if bool_decide (sg_BucketName st = "") then Err BucketRequired
      else if negb (bool_decide (sg_Provider st ∈ ["s3"; "gcs"])) then Err (ProviderInvalid (sg_Provider st))
      else if negb (bool_decide (sg_Encryption st ∈ ["provider-managed"; "customer-managed"]))
      then Err (EncryptionInvalid (sg_Encryption st))
      else if bool_decide (sg_Encryption st = "customer-managed") && bool_decide (sg_KMSKeyID st = "")
      then Err KMSKeyRequired
      else if bool_decide (sg_Provider st = "s3")
              && negb (bool_decide (sg_Class st ∈ ["STANDARD"; "STANDARD_IA"; "INTELLIGENT_TIERING"]))
      then Err (ClassInvalid (sg_Class st))
      else if bool_decide (sg_Provider st = "gcs") && negb (bool_decide (sg_Class st = "STANDARD"))
      then Err (ClassInvalid (sg_Class st))
      else if es_DegradationCount el <? 1 then Err ElectorDegradationCountErr
      else if rs_DegradationCount rp <? 1 then Err ReplicationDegradationCountErr
      else if interval <=? 0 then Err HeartbeatIntervalErr
      else
        let minPriorTimeout := wrap64 (es_DegradationCount el * interval) in
        if es_PrimaryPriorTimeout el <? minPriorTimeout then Err (PriorTimeoutErr minPriorTimeout)
        else
          match rs_Quorum rp with
          | None => Err NilQuorum
          | Some q =>
              if negb (q =? 0) && (rs_ThresholdAgeMinutes rp <=? 0) then Err ChunkAgeErr else Ok tt
          end
  end
  end.

(** ** Loading *)

Definition minute_ns : Z := 60 * 1000000000.

Definition or_string (s d : string) : string := if bool_decide (s = "") then d else s.
Definition or_int (z d : Z) : Z := if z =? 0 then d else z.

Definition apply_defaults (cc : ClusterConfig) : ClusterConfig :=
  let st := cc_Storage cc in
  let el := cc_Elector cc in
  let rp := cc_Replication cc in
  let sn := cc_Snapshot cc in
  mkClusterConfig (cc_ClusterID cc)
    (mkStorageConfig (or_string (sg_Provider st) "s3") (sg_BucketName st) (sg_KeyPrefix st)
       (or_string (sg_Class st) "STANDARD") (or_string (sg_Encryption st) "provider-managed") (sg_KMSKeyID st))
    (cc_HeartbeatInterval cc)
    (mkElectorSettings (or_int (es_DegradationCount el) 2) (or_int (es_DeregistrationTimeout el) (3 * minute_ns))
       (es_PrimaryPriorTimeout el))
    (mkReplicationConfig (Some (default (-1) (rs_Quorum rp))) (or_int (rs_DegradationCount rp) 2)
       (rs_ThresholdSizeMB rp) (rs_ThresholdAgeMinutes rp))
    (mkSnapshotSettings (or_int (ss_ThresholdRecords sn) 10000) (or_int (ss_ThresholdSizeMB sn) 10000)
       (ss_ThresholdAgeMinutes sn))
    (cc_CompactionInterval cc).

Inductive load_err := PathRequired | FileErr (path : string) | InvalidConfig (e : config_err).

(** [None] is a file that cannot be read or parsed. *)
Definition LoadClusterConfig (file : string → option ClusterConfig) (path : string)
    : res load_err ClusterConfig :=
  match file path with
  | None => Err (FileErr path)
  | Some cc => Ok (apply_defaults cc)
  end.

Definition envOrDefault (env : string → option string) (key defaultValue : string) : string :=
  default defaultValue (env key).

Fixpoint split_slash (s : list ascii) : list (list ascii) :=
  match s with
  | [] => [[]]
  | c :: t =>
      if bool_decide (c = "/"%char) then [] :: split_slash t
      else match split_slash t with w :: ws => (c :: w) :: ws | [] => [[c]] end
  end.

(** [filepath.Clean] of a rooted path: the elements left, last first. *)
Definition clean_step (stack : list (list ascii)) (w : list ascii) : list (list ascii) :=
  if bool_decide (w = []) || bool_decide (w = ["."%char]) then stack
  else if bool_decide (w = ["."%char; "."%char]) then tail stack
  else w :: stack.

Definition clean_rooted (path : list ascii) : list ascii :=
  match rev (foldl clean_step [] (split_slash path)) with
  | [] => ["/"%char]
  | ws => concat ((λ w, "/"%char :: w) <$> ws)
  end.

(** [filepath.Join] of the current directory, which is absolute, and a path. *)
Definition join_cwd (cwd path : string) : string :=
  String.string_of_list_ascii
    (clean_rooted (String.list_ascii_of_string (cwd ++ "/" ++ path))).

Definition resolvePath (cwd path : string) : string :=
  match path with
  | String "." (String "/" rest) => join_cwd cwd rest
  | _ => path
  end.

Definition LoadNodeConfig (env : string → option string) (cwd : string) : NodeConfig :=
  let get := envOrDefault env in
  let resolved key d := resolvePath cwd (get key d) in
  mkNodeConfig (get "NETSY_CONFIG" "") (get "NETSY_NODE_ID" "")
    (get "NETSY_BIND_CLIENT" ":2378") (get "NETSY_ADVERTISE_CLIENT" "")
    (get "NETSY_BIND_PEER" ":2381") (get "NETSY_ADVERTISE_PEER" "")
    (get "NETSY_BIND_ELECTION" ":8443") (get "NETSY_ADVERTISE_ELECTION" "")
    (get "NETSY_BIND_HEALTH" ":8080")
    (resolved "NETSY_TLS_CA_CERT" "") (resolved "NETSY_TLS_SERVER_CERT" "")
    (resolved "NETSY_TLS_SERVER_KEY" "") (resolved "NETSY_TLS_CLIENT_CERT" "")
    (resolved "NETSY_TLS_CLIENT_KEY" "") (resolved "NETSY_DATA_DIR" "/var/lib/netsy")
    (bool_decide (get "NETSY_DEBUG" "false" = "true")).

(** FNV-1a, 64 bits. *)
Definition fnv_offset : Z := 14695981039346656037.
Definition fnv_prime : Z := 1099511628211.

Definition hashClusterID (clusterID : string) : Z :=
  foldl (λ h c, wrapu64 (Z.lxor h (Z.of_N (N_of_ascii c)) * fnv_prime)) fnv_offset
    (String.list_ascii_of_string clusterID).

Definition with_flags (path : string) (verbose : bool) (n : NodeConfig) : NodeConfig :=
  mkNodeConfig path (nc_NodeID n) (nc_BindClient n) (nc_AdvertiseClient n) (nc_BindPeer n)
    (nc_AdvertisePeer n) (nc_BindElection n) (nc_AdvertiseElection n) (nc_BindHealth n)
    (nc_TLSCACert n) (nc_TLSServerCert n) (nc_TLSServerKey n) (nc_TLSClientCert n)
    (nc_TLSClientKey n) (nc_DataDir n) verbose.

Definition Load (env : string → option string) (cwd : string) (file : string → option ClusterConfig)
    (flags : FlagOverrides) : res load_err Config :=
  let node := LoadNodeConfig env cwd in
  let path := if bool_decide (fo_ConfigPath flags ≠ "") then fo_ConfigPath flags else nc_ConfigPath node in
  let node := with_flags path (fo_Verbose flags || nc_Verbose node) node in
  if bool_decide (path = "") then Err PathRequired
  else
    match LoadClusterConfig file path with
    | Err e => Err e
    | Ok cc =>
        match Validate (mkConfiguration node cc 0) with
        | Err e => Err (InvalidConfig e)
        | Ok _ => Ok (mkConfiguration node cc (hashClusterID (cc_ClusterID cc)))
        end
    end.

Definition ValidateFile (env : string → option string) (cwd : string) (file : string → option ClusterConfig)
    (path : string) (flags : FlagOverrides) : res load_err unit :=
  let node := LoadNodeConfig env cwd in
  match LoadClusterConfig file path with
  | Err e => Err e
  | Ok cc =>
      match Validate (mkConfiguration (with_flags (nc_ConfigPath node)
                        (fo_Verbose flags || nc_Verbose node) node) cc 0) with
      | Err e => Err (InvalidConfig e)
      | Ok _ => Ok tt
      end
  end.
