(* ===== verification/ConfigTheorems.v ===== *)
(** * Theorems on the configuration: identifiers, and what validation accepts *)

From Stdlib Require Import Strings.Ascii.
From S2P Require Import Prelude Config.

#[local] Open Scope Z_scope.

(** ** Identifiers *)

(** Words of letters and digits joined by single hyphens. *)
Fixpoint join_hyphens (ws : list (list ascii)) : list ascii :=
  match ws with
  | [] => []
  | [w] => w
  | w :: ws' => w ++ hyphen :: join_hyphens ws'
  end.

Definition word (w : list ascii) : Prop := w ≠ [] ∧ Forall (λ c, alnum c = true) w.

Definition identifier (s : list ascii) : Prop :=
  ∃ ws, ws ≠ [] ∧ Forall word ws ∧ s = join_hyphens ws.

Lemma hyphen_not_alnum : alnum hyphen = false.
Proof. by vm_compute. Qed.

(** Letters, digits and hyphens, the first and the last not a hyphen. *)
Lemma identifierRegexp_spec c t :
  identifierRegexp (c :: t) = true ↔
  alnum c = true ∧ Forall (λ c, alnum_hyphen c = true) (c :: t) ∧ (∀ d, last (c :: t) = Some d → alnum d = true).
Proof.
  assert (∀ x, alnum x = true → alnum_hyphen x = true) as Hah by (intros x Hx; by rewrite /alnum_hyphen Hx).
  cbn [identifierRegexp]. destruct t as [|e t _] using rev_ind.
  - cbn. rewrite andb_true_r. split; [|by intros []]. intros Hc. split; [done|]. split; [by constructor; [apply Hah|]|].
    by intros d [= <-].
  - rewrite last_snoc removelast_last app_comm_cons last_snoc.
    rewrite !andb_true_iff forallb_forall. split.
    + intros (Hc & Hall & He). split; [done|]. split; [|by intros d [= <-]].
      apply Forall_app. split; [|by constructor; [apply Hah|]]. constructor; [by apply Hah|].
      apply Forall_forall. intros x Hx. apply Hall. by apply list_elem_of_In.
    + intros (Hc & [[_ Hall]%Forall_cons _]%Forall_app & Hl). split; [done|]. split; [|by apply Hl].
      intros x Hx. rewrite Forall_forall in Hall. apply Hall. by apply list_elem_of_In.
Qed.

Lemma double_hyphen_cons c d t :
  double_hyphen (c :: d :: t) = false ↔ double_hyphen (d :: t) = false ∧ ¬ (c = hyphen ∧ d = hyphen).
Proof.
  change (double_hyphen (c :: d :: t)) with
    (bool_decide (c = hyphen) && bool_decide (d = hyphen) || double_hyphen (d :: t)).
  rewrite orb_false_iff andb_false_iff !bool_decide_eq_false.
  destruct (decide (c = hyphen)), (decide (d = hyphen)); naive_solver.
Qed.

Lemma words_of_checks n : ∀ c t, (length t ≤ n)%nat → alnum c = true →
  Forall (λ c, alnum_hyphen c = true) (c :: t) → (∀ d, last (c :: t) = Some d → alnum d = true) →
  double_hyphen (c :: t) = false →
  ∃ w ws, Forall word ((c :: w) :: ws) ∧ c :: t = join_hyphens ((c :: w) :: ws).
Proof.
  induction n as [|n IH]; intros c t Hlen Hc Hall Hlast Hd.
  all: destruct t as [|d t];
    [exists [], []; split; [|done]; constructor; [|done]; split; [done|]; by constructor|].
  { cbn in Hlen. lia. }
  apply Forall_cons in Hall as [_ Hall]. apply double_hyphen_cons in Hd as [Hd Hnn].
  assert (∀ x, last (d :: t) = Some x → alnum x = true) as Hlast1 by (intros x Hx; by apply Hlast).
  cbn in Hlen. pose proof Hall as [Hdh Hall']%Forall_cons.
  rewrite /alnum_hyphen orb_true_iff bool_decide_eq_true in Hdh. destruct Hdh as [Hda| ->].
  - destruct (IH d t) as (w & ws & Hw & E); [lia|done..|].
    apply Forall_cons in Hw as [[_ Hw] Hws]. exists (d :: w), ws. split.
    + constructor; [|done]. split; [done|]. by constructor.
    + rewrite E. by destruct ws.
  - destruct t as [|e t]; [by specialize (Hlast1 hyphen eq_refl)|].
    apply double_hyphen_cons in Hd as [Hd Hne]. pose proof Hall' as [He _]%Forall_cons.
    rewrite /alnum_hyphen orb_true_iff bool_decide_eq_true in He.
    destruct He as [He| ->]; [|by destruct Hne].
    destruct (IH e t) as (w & ws & Hw & E); [cbn in Hlen; lia|done..|].
    exists [], ((e :: w) :: ws). split.
    + constructor; [|done]. split; [done|]. by constructor.
    + by rewrite E.
Qed.

Lemma double_hyphen_word w s :
  Forall (λ c, alnum c = true) w → double_hyphen s = false → head s ≠ Some hyphen ∨ w = [] →
  double_hyphen (w ++ s) = false.
Proof.
  intros Hw Hs Hh. induction Hw as [|c w Hc Hw IH]; [done|]. cbn [app].
  assert (c ≠ hyphen) as Hne by (intros ->; by rewrite hyphen_not_alnum in Hc).
  destruct (w ++ s) as [|d t] eqn:E; [done|]. apply double_hyphen_cons. split; [|by intros [? _]].
  apply IH. destruct Hh as [Hh|?]; [by left|done].
Qed.

Lemma double_hyphen_join ws : Forall word ws → double_hyphen (join_hyphens ws) = false.
Proof.
  induction 1 as [|w ws [Hne Hall] Hws IH]; [done|]. destruct ws as [|v ws].
  - rewrite /= -(app_nil_r w). by apply double_hyphen_word; [..|left].
  - change (join_hyphens (w :: v :: ws)) with (w ++ hyphen :: join_hyphens (v :: ws)).
    assert (head (join_hyphens (v :: ws)) ≠ Some hyphen ∧ join_hyphens (v :: ws) ≠ []) as [Hh Hn].
    { apply Forall_cons in Hws as [[Hv Hvall] _]. destruct v as [|c v]; [done|].
      apply Forall_cons in Hvall as [Hc _]. split.
      - destruct ws; cbn; intros [= ->]; by rewrite hyphen_not_alnum in Hc.
      - by destruct ws. }
    destruct (join_hyphens (v :: ws)) as [|d t]; [done|].
    assert (double_hyphen (hyphen :: d :: t) = false) as Hs.
    { apply double_hyphen_cons. split; [done|]. intros [_ ->]. done. }
    clear -Hall Hs. induction Hall as [|c w Hc Hw IH]; [done|]. cbn [app].
    destruct (w ++ hyphen :: d :: t) as [|x y] eqn:E; [done|]. apply double_hyphen_cons.
    split; [done|]. intros [-> _]. by rewrite hyphen_not_alnum in Hc.
Qed.

Lemma join_chars ws : Forall word ws → Forall (λ c, alnum_hyphen c = true) (join_hyphens ws).
Proof.
  assert (∀ w, word w → Forall (λ c, alnum_hyphen c = true) w) as Hw.
  { intros w [_ Hw]. eapply Forall_impl; [exact Hw|]. intros c Hc. by rewrite /alnum_hyphen Hc. }
  induction 1 as [|w ws Hword Hws IH]; [constructor|]. destruct ws as [|v ws]; [by apply Hw|].
  change (join_hyphens (w :: v :: ws)) with (w ++ hyphen :: join_hyphens (v :: ws)).
  apply Forall_app. split; [by apply Hw|]. by constructor.
Qed.

Lemma join_last ws d : Forall word ws → last (join_hyphens ws) = Some d → alnum d = true.
Proof.
  induction 1 as [|w ws [Hne Hall] Hws IH]; [done|]. destruct ws as [|v ws]; cbn [join_hyphens].
  - intros Hl. rewrite Forall_forall in Hall. apply Hall. by apply last_Some_elem_of.
  - change (match ws with [] => v | _ => v ++ hyphen :: join_hyphens ws end) with (join_hyphens (v :: ws)).
    assert (join_hyphens (v :: ws) ≠ []) as Hn.
    { apply Forall_cons in Hws as [[Hv _] _]. destruct v; [done|]. by destruct ws. }
    rewrite last_app. destruct (join_hyphens (v :: ws)) as [|x y]; [done|].
    change (last (hyphen :: x :: y)) with (last (x :: y)).
    destruct (last (x :: y)) eqn:E; [|by apply last_None in E]. exact IH.
Qed.

(** Node and cluster ids are accepted exactly when they are words of
    lowercase letters and digits joined by single hyphens, at most 32
    characters in all; the four checks, the regular expression among them,
    together say this and nothing else. *)
Theorem ValidateIdentifier_spec value :
  ValidateIdentifier value = Ok tt ↔
  (String.length value ≤ 32)%nat ∧ identifier (String.list_ascii_of_string value).
Proof.
  rewrite /ValidateIdentifier. destruct value as [|c v].
  { rewrite bool_decide_eq_true_2 //. split; [done|]. intros [_ (ws & Hne & Hw & E)].
    destruct ws as [|w ws]; [done|]. apply Forall_cons in Hw as [[Hw _] _]. destruct w; [done|].
    by destruct ws. }
  rewrite bool_decide_eq_false_2 //. set (value := String c v).
  destruct (Nat.ltb_spec 32 (String.length value)) as [Hlt|Hle]; [split; [done|intros []; lia]|].
  change (String.list_ascii_of_string value) with (c :: String.list_ascii_of_string v).
  set (t := String.list_ascii_of_string v). split.
  - destruct (double_hyphen (c :: t)) eqn:Ed; [done|]. destruct (identifierRegexp (c :: t)) eqn:Er; [|done].
    intros _. split; [done|]. apply identifierRegexp_spec in Er as (Hc & Hall & Hl).
    destruct (words_of_checks (length t) c t (le_n _) Hc Hall Hl Ed) as (w & ws & Hw & E).
    by exists ((c :: w) :: ws).
  - intros (_ & ws & Hne & Hw & E). rewrite E double_hyphen_join // -E.
    assert (identifierRegexp (c :: t) = true) as ->; [|done].
    apply identifierRegexp_spec. split; [|split].
    + destruct ws as [|w ws]; [done|]. apply Forall_cons in Hw as [[Hwne Hwall] _]. destruct w as [|x w]; [done|].
      apply Forall_cons in Hwall as [Hx _]. by destruct ws; injection E as -> _.
    + rewrite E. by apply join_chars.
    + intros d. rewrite E. by apply join_last.
Qed.

(** ** Validation *)

(** What each error says about the configuration. *)
Definition violation (c : Config) (e : config_err) : Prop :=
  let st := cc_Storage (c_Cluster c) in
  let el := cc_Elector (c_Cluster c) in
  let rp := cc_Replication (c_Cluster c) in
  match e with
  | NodeIDErr e => ValidateIdentifier (nc_NodeID (c_Node c)) = Err e
  | ClusterIDErr e => ValidateIdentifier (cc_ClusterID (c_Cluster c)) = Err e
  | BucketRequired => sg_BucketName st = ""%string
  | ProviderInvalid p => p = sg_Provider st ∧ p ≠ "s3"%string ∧ p ≠ "gcs"%string
  | EncryptionInvalid x => x = sg_Encryption st ∧ x ≠ "provider-managed"%string ∧ x ≠ "customer-managed"%string
  | KMSKeyRequired => sg_Encryption st = "customer-managed"%string ∧ sg_KMSKeyID st = ""%string
  | ClassInvalid x =>
      x = sg_Class st ∧ x ≠ "STANDARD"%string ∧
      (sg_Provider st = "gcs"%string ∨
       sg_Provider st = "s3"%string ∧ x ≠ "STANDARD_IA"%string ∧ x ≠ "INTELLIGENT_TIERING"%string)
  | ElectorDegradationCountErr => es_DegradationCount el < 1
  | ReplicationDegradationCountErr => rs_DegradationCount rp < 1
  | HeartbeatIntervalErr => cc_HeartbeatInterval (c_Cluster c) ≤ 0
  | PriorTimeoutErr m =>
      m = wrap64 (es_DegradationCount el * cc_HeartbeatInterval (c_Cluster c)) ∧ es_PrimaryPriorTimeout el < m
  | ChunkAgeErr => ∃ q, rs_Quorum rp = Some q ∧ q ≠ 0 ∧ rs_ThresholdAgeMinutes rp ≤ 0
  | NilQuorum => rs_Quorum rp = None
  end.

Lemma Validate_violation c e : Validate c = Err e → violation c e.
Proof.
  rewrite /Validate. destruct (ValidateIdentifier (nc_NodeID (c_Node c))) eqn:E1; [|by intros [= <-]].
  destruct (ValidateIdentifier (cc_ClusterID (c_Cluster c))) eqn:E2; [|by intros [= <-]].
  case_bool_decide as Eb; [by intros [= <-]|].
  case_bool_decide as Ep; cbn [negb]; [|intros [= <-]; split; [done|set_solver]].
  case_bool_decide as Ee; cbn [negb]; [|intros [= <-]; split; [done|set_solver]].
  destruct (_ && bool_decide (sg_KMSKeyID _ = _)) eqn:Ek.
  { apply andb_true_iff in Ek as [?%bool_decide_eq_true ?%bool_decide_eq_true]. by intros [= <-]. }
  destruct (bool_decide (sg_Provider _ = "s3"%string) && _) eqn:Es.
  { apply andb_true_iff in Es as [H1%bool_decide_eq_true H2%negb_true_iff%bool_decide_eq_false].
    intros [= <-]. split; [done|]. set_solver. }
  destruct (bool_decide (sg_Provider _ = "gcs"%string) && _) eqn:Eg.
  { apply andb_true_iff in Eg as [H1%bool_decide_eq_true H2%negb_true_iff%bool_decide_eq_false].
    intros [= <-]. split; [done|]. set_solver. }
  destruct (Z.ltb_spec (es_DegradationCount (cc_Elector (c_Cluster c))) 1); [by intros [= <-]|].
  destruct (Z.ltb_spec (rs_DegradationCount (cc_Replication (c_Cluster c))) 1); [by intros [= <-]|].
  destruct (Z.leb_spec (cc_HeartbeatInterval (c_Cluster c)) 0); [by intros [= <-]|].
  destruct (Z.ltb_spec (es_PrimaryPriorTimeout (cc_Elector (c_Cluster c)))
    (wrap64 (es_DegradationCount (cc_Elector (c_Cluster c)) * cc_HeartbeatInterval (c_Cluster c)))); [by intros [= <-]|].
  destruct (rs_Quorum _) as [q|] eqn:Eq; [|by intros [= <-]].
  destruct (Z.eqb_spec q 0); cbn [negb andb]; [done|].
  destruct (Z.leb_spec (rs_ThresholdAgeMinutes (cc_Replication (c_Cluster c))) 0); [|done].
  intros [= <-]. by exists q.
Qed.

Lemma Validate_complete c e : violation c e → Validate c ≠ Ok tt.
Proof.
  rewrite /Validate. intros Hv.
  destruct (ValidateIdentifier (nc_NodeID (c_Node c))) as [[]|] eqn:E1; [|done].
  destruct (ValidateIdentifier (cc_ClusterID (c_Cluster c))) as [[]|] eqn:E2; [|done].
  case_bool_decide as Eb; [done|].
  case_bool_decide as Ep; cbn [negb]; [|done]. case_bool_decide as Ee; cbn [negb]; [|done].
  destruct (_ && bool_decide (sg_KMSKeyID _ = _)) eqn:Ek; [done|].
  destruct (bool_decide (sg_Provider _ = "s3"%string) && _) eqn:Es; [done|].
  destruct (bool_decide (sg_Provider _ = "gcs"%string) && _) eqn:Eg; [done|].
  destruct (Z.ltb_spec (es_DegradationCount (cc_Elector (c_Cluster c))) 1); [done|].
  destruct (Z.ltb_spec (rs_DegradationCount (cc_Replication (c_Cluster c))) 1); [done|].
  destruct (Z.leb_spec (cc_HeartbeatInterval (c_Cluster c)) 0); [done|].
  destruct (Z.ltb_spec (es_PrimaryPriorTimeout (cc_Elector (c_Cluster c)))
    (wrap64 (es_DegradationCount (cc_Elector (c_Cluster c)) * cc_HeartbeatInterval (c_Cluster c)))); [done|].
  destruct (rs_Quorum _) as [q|] eqn:Eq; [|done].
  destruct e; cbn [violation] in Hv; try congruence; try lia.
  - set_solver.
  - set_solver.
  - destruct Hv as [V1 V2]. by rewrite V1 V2 in Ek.
  - destruct Hv as (-> & V1 & [V2|(V2 & V3 & V4)]).
    + rewrite V2 (bool_decide_eq_false_2 (_ = "STANDARD"%string)) // in Eg.
    + rewrite V2 (bool_decide_eq_false_2 (_ ∈ _)) // in Es. set_solver.
  - destruct Hv as (q' & E & Hq & Hage). assert (q' = q) as -> by congruence.
    destruct (Z.eqb_spec q 0); [done|]. cbn [negb andb].
    by destruct (Z.leb_spec (rs_ThresholdAgeMinutes (cc_Replication (c_Cluster c))) 0); [|lia].
Qed.

Lemma Validate_ok c : Validate c = Ok tt → ∀ e, ¬ violation c e.
Proof. intros Hok e Hv. by apply (Validate_complete c e Hv). Qed.


(** ** Loading *)

(** Defaults fill in what is missing and nothing else. *)
Lemma apply_defaults_idempotent cc : apply_defaults (apply_defaults cc) = apply_defaults cc.
Proof.
  assert (∀ s d, d ≠ ""%string → or_string (or_string s d) d = or_string s d) as Hs.
  { intros s d Hd. rewrite /or_string. repeat case_bool_decide; congruence. }
  assert (∀ z d, d ≠ 0 → or_int (or_int z d) d = or_int z d) as Hi.
  { intros z d Hd. rewrite /or_int. destruct (Z.eqb_spec z 0); [by destruct (Z.eqb_spec d 0)|].
    by destruct (Z.eqb_spec z 0). }
  rewrite /apply_defaults /=. by rewrite !Hs // !Hi //; vm_compute.
Qed.

(** A file that passes [ValidateFile] is one [Load] accepts when it is given
    the same path, and the other way round. *)
Lemma ValidateFile_Load env cwd file path flags :
  path ≠ ""%string → fo_ConfigPath flags = path →
  (ValidateFile env cwd file path flags = Ok tt ↔ is_ok (Load env cwd file flags) = true).
Proof.
  intros Hp Hf. rewrite /ValidateFile /Load Hf. set (n := LoadNodeConfig env cwd).
  rewrite (bool_decide_eq_true_2 (path ≠ ""%string)) //. cbv iota zeta.
  rewrite (bool_decide_eq_false_2 (path = ""%string)) //.
  destruct (LoadClusterConfig file path) as [cc|e]; [|by split].
  set (v := fo_Verbose flags || nc_Verbose n).
  assert (Validate (mkConfiguration (with_flags (nc_ConfigPath n) v n) cc 0)
    = Validate (mkConfiguration (with_flags path v n) cc 0)) as -> by done.
  by destruct (Validate _) as [[]|].
Qed.

(** A loaded configuration always has a quorum: the dereference in [Validate]
    cannot fail. *)
Lemma Load_no_panic env cwd file flags : Load env cwd file flags ≠ Err (InvalidConfig NilQuorum).
Proof.
  rewrite /Load. case_match; [done|]. rewrite /LoadClusterConfig. destruct (file _) as [cc|]; [|done].
  destruct (Validate _) eqn:E; [done|]. intros [= ->]. by apply Validate_violation in E.
Qed.

(** The etcd cluster id of two published test vectors of the hash. *)
Lemma hashClusterID_vectors :
  hashClusterID "a" = 0xaf63dc4c8601ec8c ∧ hashClusterID "foobar" = 0x85944171f73967e8.
Proof. by vm_compute. Qed.

(** ** Accepted but harmful *)

Definition example_cluster (quorum count interval prior : Z) : ClusterConfig :=
  mkClusterConfig "prod" (mkStorageConfig "s3" "bucket" "" "STANDARD" "provider-managed" "") interval
    (mkElectorSettings count (3 * minute_ns) prior) (mkReplicationConfig (Some quorum) 2 1 1)
    (mkSnapshotSettings 10000 10000 0) 0.

Definition example_node : NodeConfig :=
  with_flags "/etc/netsy" false (LoadNodeConfig (λ k, if bool_decide (k = "NETSY_NODE_ID"%string) then Some "n1"%string else None) "/").

(** The product of count and interval wraps to 0, so that no prior timeout is
    required of a window of hundreds of years. *)
Lemma prior_timeout_wraps :
  Validate (mkConfiguration example_node (example_cluster (-1) (2 ^ 33) (2 ^ 31) 0) 0) = Ok tt.
Proof. vm_compute. reflexivity. Qed.

(** Quorum -2 is neither disabled, majority nor static, and is accepted. *)
Lemma quorum_minus_two_accepted :
  Validate (mkConfiguration example_node (example_cluster (-2) 2 (5 * 1000000000) (10 * 1000000000)) 0) = Ok tt.
Proof. vm_compute. reflexivity. Qed.
