(* ===== verification/Mtls.v ===== *)
(** * internal/mtls: certificate identities

    A certificate is what the code reads of it: its URI SANs as parsed URLs and
    the host names it covers.  The TLS handshake (crypto/tls) is not modelled:
    [ConnectionState] is its result. *)

From Stdlib Require Import Strings.Ascii.
From S2P Require Import Prelude Config ConfigTheorems.

#[local] Open Scope string_scope.
#[local] Open Scope Z_scope.

Inductive Role := RolePeer | RoleClient.
#[export] Instance Role_eq_dec : EqDecision Role.
Proof. solve_decision. Defined.

Definition role_name (r : Role) : string := match r with RolePeer => "peer" | RoleClient => "client" end.

Record URL := mkURL { u_Scheme : string; u_Host : string; u_Path : string }.

Record Certificate := mkCertificate {
  crt_URIs : list URL;
  crt_VerifyHostname : string → bool;
}.

Record Identity := mkIdentity { id_ClusterID : string; id_Role : Role; id_Name : string }.

Inductive mtls_err :=
| EmptyClusterID
| BadPath
| BadRole (role : string)
| EmptyIdentity
| NoNetsyURI
| NotVerified
| CertificateMissing
| RoleNotAllowed (r : Role)
| WrongCluster (got : string)
| WrongNode (got : string)
| BadIdentifier (e : identifier_err)
| BadAddress (addr : string)
| NotCovered (addr : string)
| NoPeerInfo
| NoAuthInfo
| NotTLS.

(** ** Identities *)

Definition uriScheme : string := "netsy".

(** [strings.TrimPrefix(path, "/")] *)
Definition trim_slash (p : string) : string :=
  match p with String "/" t => t | _ => p end.

Definition parse_role (s : string) : option Role :=
  if bool_decide (s = "peer") then Some RolePeer
  else if bool_decide (s = "client") then Some RoleClient
  else None.

Fixpoint parse_uris (uris : list URL) : res mtls_err Identity :=
  match uris with
  | [] => Err NoNetsyURI
  | u :: uris' =>
      if negb (bool_decide (u_Scheme u = uriScheme)) then parse_uris uris'
      else if bool_decide (u_Host u = "") then Err EmptyClusterID
      else
        match String.string_of_list_ascii <$> split_slash (String.list_ascii_of_string (trim_slash (u_Path u))) with
        | [r; name] =>
            match parse_role r with
            | None => Err (BadRole r)
            | Some role =>
                if bool_decide (name = "") then Err EmptyIdentity
                else Ok (mkIdentity (u_Host u) role name)
            end
        | _ => Err BadPath
        end
  end.

Definition ParseURISAN (cert : Certificate) : res mtls_err Identity := parse_uris (crt_URIs cert).

Definition BuildURISAN (clusterID : string) (role : Role) (identity : string) : URL :=
  mkURL uriScheme clusterID ("/" ++ role_name role ++ "/" ++ identity).

(** ** Connections *)

Record ConnectionState := mkConnectionState {
  cn_VerifiedChains : nat;
  cn_PeerCertificates : list Certificate;
}.

Definition verifyConnection (st : ConnectionState) (clusterID : string) (allowedRole : Role)
    : res mtls_err unit :=
  if bool_decide (cn_VerifiedChains st = O) then Err NotVerified
  else
    match cn_PeerCertificates st with
    | [] => Err CertificateMissing
    | cert :: _ =>
        match ParseURISAN cert with
        | Err e => Err e
        | Ok id =>
            if negb (bool_decide (id_Role id = allowedRole)) then Err (RoleNotAllowed (id_Role id))
            else if negb (bool_decide (id_ClusterID id = clusterID)) then Err (WrongCluster (id_ClusterID id))
            else
              match id_Role id with
              | RolePeer =>
                  match ValidateIdentifier (id_Name id) with
                  | Err e => Err (BadIdentifier e)
                  | Ok _ => Ok tt
                  end
              | RoleClient => if bool_decide (id_Name id = "") then Err EmptyIdentity else Ok tt
              end
        end
    end.

(** What gRPC knows of the caller: nothing, a peer without credentials, one
    with other credentials, or the state of its TLS connection. *)
Inductive auth_info := AuthNone | AuthOther | AuthTLS (st : ConnectionState).

Definition PeerNodeID (peer : option auth_info) : res mtls_err string :=
  match peer with
  | None => Err NoPeerInfo
  | Some AuthNone => Err NoAuthInfo
  | Some AuthOther => Err NotTLS
  | Some (AuthTLS st) =>
      match cn_PeerCertificates st with
      | [] => Err CertificateMissing
      | cert :: _ =>
          match ParseURISAN cert with
          | Err e => Err e
          | Ok id => Ok (id_Name id)
          end
      end
  end.

(** ** The node's own certificates *)

Definition validatePeerIdentity (cert : option Certificate) (nodeID clusterID : string)
    : res mtls_err unit :=
  match cert with
  | None => Err CertificateMissing
  | Some c =>
      match ParseURISAN c with
      | Err e => Err e
      | Ok id =>
          if negb (bool_decide (id_ClusterID id = clusterID)) then Err (WrongCluster (id_ClusterID id))
          else if negb (bool_decide (id_Role id = RolePeer)) then Err (RoleNotAllowed (id_Role id))
          else if negb (bool_decide (id_Name id = nodeID)) then Err (WrongNode (id_Name id))
          else Ok tt
      end
  end.

(** [net.SplitHostPort]: the text before and after the last colon. *)
Fixpoint split_last_colon (s : list ascii) : option (list ascii * list ascii) :=
  match s with
  | [] => None
  | c :: t =>
      match split_last_colon t with
      | Some (a, b) => Some (c :: a, b)
      | None => if bool_decide (c = ":"%char) then Some ([], t) else None
      end
  end.

Definition has (c : ascii) (s : list ascii) : bool := bool_decide (c ∈ s).

(** Host and port; [None] is an error.  A bracketed host ends at the first
    closing bracket, which must stand just before the last colon. *)
Definition SplitHostPort (hostport : string) : option (string * string) :=
  match split_last_colon (String.list_ascii_of_string hostport) with
  | None => None
  | Some (h, port) =>
      let host :=
        match h with
        | "["%char :: h' =>
            match last h' with
            | Some "]"%char => if has "]" (removelast h') || has "[" h' then None else Some (removelast h')
            | _ => None
            end
        | _ => if has ":" h || has "[" h || has "]" h then None else Some h
        end in
      match host with
      | None => None
      | Some host =>
          if has "[" port || has "]" port then None
          else Some (String.string_of_list_ascii host, String.string_of_list_ascii port)
      end
  end.

Fixpoint check_sans (cert : Certificate) (seen : list string) (addrs : list string) : res mtls_err unit :=
  match addrs with
  | [] => Ok tt
  | addr :: addrs' =>
      if bool_decide (addr = "") then check_sans cert seen addrs'
      else
        match SplitHostPort addr with
        | None => Err (BadAddress addr)
        | Some (host, _) =>
            if bool_decide (host = "") then Err (BadAddress addr)
            else if bool_decide (host ∈ seen) then check_sans cert seen addrs'
            else if negb (crt_VerifyHostname cert host) then Err (NotCovered addr)
            else check_sans cert (host :: seen) addrs'
        end
  end.

Definition validateSANs (cert : option Certificate) (addrs : list string) : res mtls_err unit :=
  match cert with
  | None => Err CertificateMissing
  | Some c => check_sans c [] addrs
  end.

Definition ValidateLocalNodeCertificates (c : Config) (server client : option Certificate)
    : res mtls_err unit :=
  match validatePeerIdentity server (nc_NodeID (c_Node c)) (cc_ClusterID (c_Cluster c)) with
  | Err e => Err e
  | Ok _ =>
      match validatePeerIdentity client (nc_NodeID (c_Node c)) (cc_ClusterID (c_Cluster c)) with
      | Err e => Err e
      | Ok _ =>
          validateSANs server [nc_AdvertiseClient (c_Node c); nc_AdvertisePeer (c_Node c);
                               nc_AdvertiseElection (c_Node c)]
      end
  end.

(** ** Theorems *)

Lemma split_slash_word w t :
  "/"%char ∉ w → split_slash (w ++ "/"%char :: t)%list = w :: split_slash t.
Proof.
  induction w as [|c w IH]; intros Hw; cbn [app split_slash].
  - by rewrite bool_decide_eq_true_2.
  - apply not_elem_of_cons in Hw as [Hc Hw]. rewrite bool_decide_eq_false_2; [congruence|]. by rewrite IH.
Qed.

Lemma split_slash_end w : "/"%char ∉ w → split_slash w = [w].
Proof.
  induction w as [|c w IH]; intros Hw; [done|]. cbn [split_slash].
  apply not_elem_of_cons in Hw as [Hc Hw]. rewrite bool_decide_eq_false_2; [congruence|]. by rewrite IH.
Qed.

Lemma list_ascii_app s t :
  String.list_ascii_of_string (s ++ t) = (String.list_ascii_of_string s ++ String.list_ascii_of_string t)%list.
Proof. induction s as [|c s IH]; [done|]. exact (f_equal (cons c) IH). Qed.

(** The identity that was built is the one that is parsed. *)
Lemma parse_uris_build pre post clusterID role name :
  Forall (λ u, u_Scheme u ≠ uriScheme) pre → clusterID ≠ "" → name ≠ "" →
  "/"%char ∉ String.list_ascii_of_string name →
  parse_uris (pre ++ BuildURISAN clusterID role name :: post)%list = Ok (mkIdentity clusterID role name).
Proof.
  intros Hpre Hc Hn Hs. induction Hpre as [|u pre Hu Hpre IH]; cbn [app parse_uris].
  - cbn [u_Scheme u_Host u_Path BuildURISAN]. rewrite bool_decide_eq_true_2 //= bool_decide_eq_false_2 //.
    assert ((String.string_of_list_ascii <$>
       split_slash (String.list_ascii_of_string (trim_slash ("/" ++ role_name role ++ "/" ++ name))))
      = [role_name role; name]) as Hsplit.
    { change (trim_slash ("/" ++ role_name role ++ "/" ++ name)) with (role_name role ++ "/" ++ name)%string.
      rewrite !list_ascii_app. change (String.list_ascii_of_string "/") with ["/"%char]. cbn [app].
      rewrite split_slash_word; [destruct role; by apply (bool_decide_unpack _); vm_compute|].
      rewrite split_slash_end //= !String.string_of_list_ascii_of_string //. }
    rewrite Hsplit. assert (parse_role (role_name role) = Some role) as -> by (by destruct role).
    rewrite bool_decide_eq_false_2 //.
  - rewrite bool_decide_eq_false_2 //=.
Qed.

Lemma identifier_no_slash name :
  ValidateIdentifier name = Ok tt → name ≠ "" ∧ "/"%char ∉ String.list_ascii_of_string name.
Proof.
  rewrite /ValidateIdentifier. case_bool_decide as Hn; [done|]. destruct (_ <? _)%nat; [done|].
  destruct (double_hyphen _); [done|]. destruct (identifierRegexp _) eqn:Er; [|done]. intros _. split; [done|].
  destruct name as [|c name]; [done|]. cbn [String.list_ascii_of_string] in *.
  apply identifierRegexp_spec in Er as (_ & Hall & _). intros Hin. rewrite Forall_forall in Hall.
  specialize (Hall _ Hin). by vm_compute in Hall.
Qed.

(** A node certificate built for valid ids is worth exactly its identity:
    whatever other URIs of other schemes precede it, it opens the peer API of its
    own cluster and nothing else, it passes the check of the node's own
    certificates, and the node id read from the connection is the one it was
    built with. *)
Theorem peer_certificate_roundtrip clusterID nodeID pre post hosts rest chains c r :
  ValidateIdentifier clusterID = Ok tt → ValidateIdentifier nodeID = Ok tt →
  Forall (λ u, u_Scheme u ≠ uriScheme) pre → chains ≠ O →
  let cert := mkCertificate (pre ++ BuildURISAN clusterID RolePeer nodeID :: post)%list hosts in
  let st := mkConnectionState chains (cert :: rest) in
  (verifyConnection st c r = Ok tt ↔ c = clusterID ∧ r = RolePeer) ∧
  PeerNodeID (Some (AuthTLS st)) = Ok nodeID ∧
  validatePeerIdentity (Some cert) nodeID clusterID = Ok tt.
Proof.
  intros Hc Hn Hpre Hch cert st. destruct (identifier_no_slash _ Hc) as [Hc1 _].
  destruct (identifier_no_slash _ Hn) as [Hn1 Hn2].
  pose proof (parse_uris_build pre post clusterID RolePeer nodeID Hpre Hc1 Hn1 Hn2) as Hp.
  change (ParseURISAN cert = Ok (mkIdentity clusterID RolePeer nodeID)) in Hp.
  rewrite /verifyConnection /PeerNodeID /validatePeerIdentity. cbn [cn_PeerCertificates cn_VerifiedChains st].
  rewrite Hp (bool_decide_eq_false_2 (chains = O)) //. cbn [id_Role id_ClusterID id_Name].
  split; [|split; [done|by rewrite !bool_decide_eq_true_2]].
  destruct (decide (RolePeer = r)) as [<-|Hr];
    [rewrite (bool_decide_eq_true_2 (RolePeer = RolePeer)) //|rewrite bool_decide_eq_false_2 //; naive_solver].
  destruct (decide (clusterID = c)) as [<-|Hcc];
    [rewrite bool_decide_eq_true_2 //= Hn //|rewrite bool_decide_eq_false_2 //; naive_solver].
Qed.

Lemma peer_certificate_roundtrip_witness :
  let cert := mkCertificate [mkURL "spiffe" "prod" "/x"; BuildURISAN "prod-1" RolePeer "node-a"] (λ _, false) in
  PeerNodeID (Some (AuthTLS (mkConnectionState 1 [cert]))) = Ok "node-a" ∧
  verifyConnection (mkConnectionState 1 [cert]) "prod-2" RolePeer ≠ Ok tt.
Proof.
  assert (Forall (λ u, u_Scheme u ≠ uriScheme) [mkURL "spiffe" "prod" "/x"]) as Hpre
    by (repeat constructor; discriminate).
  destruct (peer_certificate_roundtrip "prod-1" "node-a" [mkURL "spiffe" "prod" "/x"] [] (λ _, false) [] 1 "prod-2" RolePeer
    eq_refl eq_refl Hpre ltac:(discriminate)) as (H1 & H2 & _).
  split; [exact H2|]. intros H. apply H1 in H as [H _]. discriminate H.
Defined.

(** Whoever passes the check of the peer API has a verified certificate of the
    cluster, and the node id read from it later is a valid one. *)
Lemma verifyConnection_peer st clusterID :
  verifyConnection st clusterID RolePeer = Ok tt →
  cn_VerifiedChains st ≠ O ∧
  ∃ name, PeerNodeID (Some (AuthTLS st)) = Ok name ∧ ValidateIdentifier name = Ok tt.
Proof.
  rewrite /verifyConnection /PeerNodeID. case_bool_decide as Hv; [done|].
  destruct (cn_PeerCertificates st) as [|cert rest]; [done|].
  destruct (ParseURISAN cert) as [id|]; [|done]. case_bool_decide as Hr; [|done]. cbn [negb].
  case_bool_decide; [|done]. cbn [negb]. rewrite Hr. destruct (ValidateIdentifier (id_Name id)) as [[]|] eqn:E; [|done].
  intros _. split; [done|]. by exists (id_Name id).
Qed.

(** [validateSANs] accepts exactly when the certificate covers the host of
    every configured address. *)
Lemma validateSANs_spec cert addrs :
  validateSANs (Some cert) addrs = Ok tt ↔
  ∀ addr, addr ∈ addrs → addr ≠ "" →
    ∃ host port, SplitHostPort addr = Some (host, port) ∧ host ≠ "" ∧ crt_VerifyHostname cert host = true.
Proof.
  rewrite /validateSANs. assert (Forall (λ h, crt_VerifyHostname cert h = true) []) as Hs by constructor.
  revert Hs. generalize (@nil string) as seen.
  induction addrs as [|a addrs IH]; intros seen Hs; cbn [check_sans]; [split; [by intros _ x ?%elem_of_nil|done]|].
  assert (∀ P : string → Prop, (∀ x, x ∈ a :: addrs → x ≠ "" → P x) ↔ (a ≠ "" → P a) ∧ (∀ x, x ∈ addrs → x ≠ "" → P x)) as Hcons.
  { intros P. split; [intros H; split; [by apply H; left|intros x Hx; apply H; by right]|].
    intros [H1 H2] x Hx Hne. apply elem_of_cons in Hx as [->|Hx]; [by apply H1|by apply H2]. }
  rewrite Hcons. case_bool_decide as Ha; [rewrite IH //; naive_solver|].
  destruct (SplitHostPort a) as [[host port]|] eqn:Esp; [|split; [done|]; intros [H _]; by destruct (H Ha) as (? & ? & ? & _)].
  case_bool_decide as Hh; [split; [done|]; intros [H _]; destruct (H Ha) as (? & ? & [= <- <-] & ? & _); done|].
  case_bool_decide as Hin.
  - rewrite IH //. split; [|by intros [_ H]]. intros H. split; [|done]. intros _. exists host, port.
    split_and!; [done|done|]. rewrite Forall_forall in Hs. by apply Hs.
  - destruct (crt_VerifyHostname cert host) eqn:Ev; cbn [negb].
    + rewrite IH; [by constructor|]. split; [|by intros [_ H]]. intros H. split; [|done]. intros _. by exists host, port.
    + split; [done|]. intros [H _]. destruct (H Ha) as (? & ? & [= <- <-] & _ & ?). congruence.
Qed.
