(* ===== verification/TlsSetup.v ===== *)
(** * internal/config and internal/mtls: the TLS material of a node

    [LoadTLSFiles] and the server and client configurations built from it.
    Reading key pairs, parsing certificates and pools of authorities
    (crypto/tls, crypto/x509) are the fields of [x509_env]; [handshake] is what
    crypto/tls documents of two such configurations. *)

From Stdlib Require Import Strings.Ascii.
From S2P Require Import Prelude Config ConfigTheorems Mtls.

#[local] Open Scope string_scope.
#[local] Open Scope Z_scope.

(** ** Loading *)

Section tls.
  Context {CertPool : Type}.

Record tls_Certificate := mkTlsCertificate {
  tc_Certificate : list bytes;
  tc_Leaf : option Certificate;
}.

Record TLSFiles := mkTLSFiles {
  tf_ServerCert : tls_Certificate;
  tf_ServerCA : CertPool;
  tf_ClientCert : tls_Certificate;
  tf_ClientCA : CertPool;
}.

Record x509_env := mkX509Env {
  xe_LoadX509KeyPair : string → string → option (list bytes);
  xe_ParseCertificate : bytes → option Certificate;
  xe_ReadFile : string → option bytes;
  xe_AppendCertsFromPEM : bytes → option CertPool;
}.

Inductive tls_err :=
| LoadPair (cert key : string)
| EmptyChain (cert : string)
| ParseLeaf (cert : string)
| ReadCA
| AppendCA
| TLSFilesMissing.

(** One certificate with its parsed leaf. *)
Definition load_pair (env : x509_env) (cert key : string) : res tls_err tls_Certificate :=
  match xe_LoadX509KeyPair env cert key with
  | None => Err (LoadPair cert key)
  | Some [] => Err (EmptyChain cert)
  | Some (raw :: chain) =>
      match xe_ParseCertificate env raw with
      | None => Err (ParseLeaf cert)
      | Some leaf => Ok (mkTlsCertificate (raw :: chain) (Some leaf))
      end
  end.

Definition LoadTLSFiles (env : x509_env) (c : Config) : res tls_err TLSFiles :=
  let n := c_Node c in
  match load_pair env (nc_TLSServerCert n) (nc_TLSServerKey n) with
  | Err e => Err e
  | Ok server =>
      match load_pair env (nc_TLSClientCert n) (nc_TLSClientKey n) with
      | Err e => Err e
      | Ok client =>
          match xe_ReadFile env (nc_TLSCACert n) with
          | None => Err ReadCA
          | Some pem =>
              match xe_AppendCertsFromPEM env pem with
              | None => Err AppendCA
              | Some pool => Ok (mkTLSFiles server pool client pool)
              end
          end
      end
  end.

(** ** Configurations *)

Definition VersionTLS13 : Z := 772.
Definition TLS_AES_256_GCM_SHA384 : Z := 4866.

Inductive ClientAuthType := NoClientCert | RequireAndVerifyClientCert.

(** [None] for the authorities is a nil pool, for the hook a nil function. *)
Record TLSConfig := mkTLSConfig {
  tl_MinVersion : Z;
  tl_MaxVersion : Z;
  tl_CipherSuites : list Z;
  tl_Certificates : list tls_Certificate;
  tl_ClientAuth : ClientAuthType;
  tl_ClientCAs : option CertPool;
  tl_RootCAs : option CertPool;
  tl_VerifyConnection : option (ConnectionState → res mtls_err unit);
}.

Definition NewServerTLSConfig (c : Config) (files : option TLSFiles) (allowedRole : Role) : res tls_err TLSConfig :=
  match files with
  | None => Err TLSFilesMissing
  | Some f =>
      Ok (mkTLSConfig VersionTLS13 VersionTLS13 [TLS_AES_256_GCM_SHA384] [tf_ServerCert f]
            RequireAndVerifyClientCert (Some (tf_ClientCA f)) None
            (Some (λ st, verifyConnection st (cc_ClusterID (c_Cluster c)) allowedRole)))
  end.

Definition NewClientTLSConfig (files : option TLSFiles) : res tls_err TLSConfig :=
  match files with
  | None => Err TLSFilesMissing
  | Some f =>
      Ok (mkTLSConfig VersionTLS13 VersionTLS13 [TLS_AES_256_GCM_SHA384] [tf_ClientCert f]
            NoClientCert None (Some (tf_ServerCA f)) None)
  end.

(** ** The handshake

    [issued pool cert]: the authorities vouch for the certificate.  A client
    checks the server's certificate and host name, a server that requires it
    the client's certificate, and then its hook. *)

Section handshake.
  Context (issued : CertPool → Certificate → bool).

Definition vouched (pool : option CertPool) (leaf : option Certificate) : bool :=
  match pool, leaf with Some p, Some l => issued p l | _, _ => false end.

(** The state the server sees; [None] without a connection. *)
Definition handshake (client server : TLSConfig) (host : string) : option ConnectionState :=
  match tl_Certificates server, tl_Certificates client with
  | s :: _, c :: _ =>
      let server_ok := vouched (tl_RootCAs client) (tc_Leaf s)
                       && match tc_Leaf s with Some l => crt_VerifyHostname l host | None => false end in
      let st := mkConnectionState (if vouched (tl_ClientCAs server) (tc_Leaf c) then 1%nat else 0%nat)
                  (option_list (tc_Leaf c)) in
      let client_ok :=
        match tl_ClientAuth server with
        | NoClientCert => true
        | RequireAndVerifyClientCert => vouched (tl_ClientCAs server) (tc_Leaf c)
        end
        && match tl_VerifyConnection server with Some f => is_ok (f st) | None => true end in
      if (Z.max (tl_MinVersion client) (tl_MinVersion server) <=? Z.min (tl_MaxVersion client) (tl_MaxVersion server))
         && server_ok && client_ok then Some st else None
  | _, _ => None
  end.

(** What a node that got past its own checks has. *)
Record tls_node (env : x509_env) (c : Config) (f : TLSFiles) (srv cli : TLSConfig) : Prop := {
  tn_load : LoadTLSFiles env c = Ok f;
  tn_valid : ValidateLocalNodeCertificates c (tc_Leaf (tf_ServerCert f)) (tc_Leaf (tf_ClientCert f)) = Ok tt;
  tn_peer : NewServerTLSConfig c (Some f) RolePeer = Ok srv;
  tn_client : NewClientTLSConfig (Some f) = Ok cli;
}.

Lemma LoadTLSFiles_pools env c f : LoadTLSFiles env c = Ok f → tf_ServerCA f = tf_ClientCA f.
Proof. 
  rewrite /LoadTLSFiles. destruct (load_pair _ _ _); [|done]. destruct (load_pair _ _ _); [|done].
  destruct (xe_ReadFile _ _); [|done]. destruct (xe_AppendCertsFromPEM _ _); [|done]. by intros [= <-].
Qed.

(** The identity of a validated certificate. *)
Lemma validatePeerIdentity_parse cert nodeID clusterID :
  validatePeerIdentity cert nodeID clusterID = Ok tt →
  ∃ l, cert = Some l ∧ ParseURISAN l = Ok (mkIdentity clusterID RolePeer nodeID).
Proof.
  rewrite /validatePeerIdentity. destruct cert as [l|]; [|done]. destruct (ParseURISAN l) as [id|] eqn:E; [|done].
  repeat case_bool_decide; try done. intros _. exists l. split; [done|]. rewrite E. destruct id. cbn in *. by subst.
Qed.

(** C33: the nodes of a cluster can talk and nobody else can.  A node that
    started dials another node of its cluster, whose certificates are issued
    by the same authorities, at the host of one of the addresses it advertises:
    the connection is accepted and carries the caller's node id.  A server of
    another cluster refuses it, and so does the client API. *)
Theorem nodes_connect env1 c1 f1 srv1 cli1 env2 c2 f2 srv2 cli2 addr host port :
  tls_node env1 c1 f1 srv1 cli1 → tls_node env2 c2 f2 srv2 cli2 →
  ValidateIdentifier (nc_NodeID (c_Node c1)) = Ok tt →
  vouched (Some (tf_ClientCA f2)) (tc_Leaf (tf_ClientCert f1)) = true →
  vouched (Some (tf_ServerCA f1)) (tc_Leaf (tf_ServerCert f2)) = true →
  addr ∈ [nc_AdvertiseClient (c_Node c2); nc_AdvertisePeer (c_Node c2); nc_AdvertiseElection (c_Node c2)] →
  addr ≠ "" → SplitHostPort addr = Some (host, port) →
  (cc_ClusterID (c_Cluster c1) = cc_ClusterID (c_Cluster c2) →
     ∃ st, handshake cli1 srv2 host = Some st ∧ PeerNodeID (Some (AuthTLS st)) = Ok (nc_NodeID (c_Node c1))) ∧
  (cc_ClusterID (c_Cluster c1) ≠ cc_ClusterID (c_Cluster c2) → handshake cli1 srv2 host = None) ∧
  ∀ api, NewServerTLSConfig c2 (Some f2) RoleClient = Ok api → handshake cli1 api host = None.
Proof.
  intros [L1 V1 P1 C1] [L2 V2 P2 C2] Hid Hcv Hsv Hin Hne Hsplit.
  rewrite /ValidateLocalNodeCertificates in V1, V2.
  destruct (validatePeerIdentity (tc_Leaf (tf_ServerCert f1)) _ _) as [[]|]; [|done].
  destruct (validatePeerIdentity (tc_Leaf (tf_ClientCert f1)) _ _) as [[]|] eqn:Hp1; [|done].
  apply validatePeerIdentity_parse in Hp1 as (l1 & E1 & Hl1).
  destruct (validatePeerIdentity (tc_Leaf (tf_ServerCert f2)) _ _) as [[]|] eqn:Hp2; [|done].
  apply validatePeerIdentity_parse in Hp2 as (l2 & E2 & Hl2).
  destruct (validatePeerIdentity (tc_Leaf (tf_ClientCert f2)) _ _) as [[]|]; [|done].
  rewrite E2 validateSANs_spec in V2. destruct (V2 addr Hin Hne) as (h & p & Hs & _ & Hh).
  rewrite Hsplit in Hs. injection Hs as <- <-. injection C1 as <-. injection P2 as <-.
  rewrite E1 in Hcv. rewrite E2 in Hsv. cbn [vouched] in Hcv, Hsv.
  assert (∀ role, ∃ v, NewServerTLSConfig c2 (Some f2) role = Ok v ∧
    handshake (mkTLSConfig VersionTLS13 VersionTLS13 [TLS_AES_256_GCM_SHA384] [tf_ClientCert f1]
      NoClientCert None (Some (tf_ServerCA f1)) None) v host =
    if is_ok (verifyConnection (mkConnectionState 1%nat [l1]) (cc_ClusterID (c_Cluster c2)) role)
    then Some (mkConnectionState 1%nat [l1]) else None) as Hh'.
  { intros role. eexists. split; [done|]. rewrite /handshake. cbn. rewrite E1 E2 /= Hsv Hcv Hh /=.
    by destruct (is_ok _). }
  assert (∀ role, verifyConnection (mkConnectionState 1%nat [l1]) (cc_ClusterID (c_Cluster c2)) role =
    if negb (bool_decide (RolePeer = role)) then Err (RoleNotAllowed RolePeer)
    else if negb (bool_decide (cc_ClusterID (c_Cluster c1) = cc_ClusterID (c_Cluster c2)))
    then Err (WrongCluster (cc_ClusterID (c_Cluster c1))) else Ok tt) as Hv.
  { intros role. rewrite /verifyConnection /= Hl1 /=. destruct role; [|done]. cbn [bool_decide]. by rewrite Hid. }
  split; [|split].
  - intros Ec. destruct (Hh' RolePeer) as (v & [= <-] & ->). rewrite Hv bool_decide_true // bool_decide_true //=.
    eexists. split; [done|]. by rewrite /PeerNodeID /= Hl1.
  - intros Ec. destruct (Hh' RolePeer) as (v & [= <-] & ->). by rewrite Hv bool_decide_true // bool_decide_false.
  - intros api Ha. destruct (Hh' RoleClient) as (v & Ev & Hv'). rewrite Ha in Ev. injection Ev as <-. by rewrite Hv' Hv.
Qed.
End handshake.
End tls.

(** ** Two nodes *)

(** The environment of a node: every file of a node holds its certificate. *)
Definition node_certificate (id : string) : Certificate :=
  mkCertificate [BuildURISAN "prod" RolePeer id] (λ host, bool_decide (host = id)).
Definition node_x509 (id : string) : x509_env :=
  mkX509Env (λ _ _, Some [[Byte.x01]]) (λ _, Some (node_certificate id)) (λ _, Some [Byte.x02]) (λ _, Some tt).
Definition node_settings (id : string) : Config :=
  mkConfiguration
    (mkNodeConfig "" id "" (id ++ ":2378") "" (id ++ ":2381") "" (id ++ ":8443") "" "ca" "sc" "sk" "cc" "ck" "/data" false)
    (example_cluster (-1) 2 1000000000 0) 0.
Definition node_files (id : string) : TLSFiles :=
  let cert := mkTlsCertificate [[Byte.x01]] (Some (node_certificate id)) in mkTLSFiles cert tt cert tt.

Definition config_of (r : res tls_err (TLSConfig (CertPool := unit))) : TLSConfig :=
  match r with Ok c => c | Err _ => mkTLSConfig 0 0 [] [] NoClientCert None None None end.

Lemma node_tls id :
  id = "node-a" ∨ id = "node-b" →
  tls_node (node_x509 id) (node_settings id) (node_files id)
    (config_of (NewServerTLSConfig (node_settings id) (Some (node_files id)) RolePeer))
    (config_of (NewClientTLSConfig (Some (node_files id)))).
Proof. intros [->| ->]; split; vm_compute; reflexivity. Qed.

Lemma nodes_connect_witness :
  ∃ st, handshake (λ _ _, true) (config_of (NewClientTLSConfig (Some (node_files "node-a"))))
          (config_of (NewServerTLSConfig (node_settings "node-b") (Some (node_files "node-b")) RolePeer)) "node-b" = Some st ∧
    PeerNodeID (Some (AuthTLS st)) = Ok "node-a".
Proof.
  destruct (nodes_connect (λ _ _, true) (node_x509 "node-a") (node_settings "node-a") (node_files "node-a") _ _
    (node_x509 "node-b") (node_settings "node-b") (node_files "node-b") _ _ "node-b:2381" "node-b" "2381"
    (node_tls "node-a" (or_introl eq_refl)) (node_tls "node-b" (or_intror eq_refl))) as (H & _ & _).
  - vm_compute. reflexivity.
  - reflexivity.
  - reflexivity.
  - right. left.
  - discriminate.
  - vm_compute. reflexivity.
  - exact (H eq_refl).
Defined.
