(* ===== verification/CloudStorage.v ===== *)
(** * internal/storage: the S3 and GCS providers

    The SDK clients are classes: [S3Client] and [GCSClient] hold the calls the
    providers make, and their laws the documented behaviour of the services,
    transient failures apart (the callers meet those as [put_fault]).  A stream
    is the bytes it carries. *)

From Stdlib Require Import Strings.Ascii.
From S2P Require Import Prelude Decimal Storage DataFile Config DataStore.

#[local] Open Scope string_scope.
#[local] Open Scope Z_scope.

(** ** Text *)

Definition quote : ascii := "034".

Fixpoint trim_left (c : ascii) (s : string) : string :=
  match s with String d t => if bool_decide (d = c) then trim_left c t else s | "" => "" end.

(** Drop the trailing occurrences of a character. *)
Fixpoint trim_right (c : ascii) (s : string) : string :=
  match s with
  | "" => ""
  | String d t =>
      match trim_right c t with
      | "" => if bool_decide (d = c) then "" else String d ""
      | t' => String d t'
      end
  end.

(** [strings.Contains] *)
Fixpoint contains (sub s : string) : bool :=
  String.prefix sub s || match s with "" => false | String _ t => contains sub t end.

(** ** S3 *)

Inductive sse := SSE_AES256 | SSE_KMS (key : option string).

Record PutObjectInput := mkPutObjectInput {
  in_Bucket : string;
  in_Key : string;
  in_Body : bytes;
  in_ContentLength : Z;
  in_StorageClass : string;
  in_SSE : sse;
  in_IfNoneMatch : option string;
  in_IfMatch : option string;
}.

(** The text is the error's message. *)
Inductive s3_err := S3NoSuchKey | S3Error (text : string).

Class S3Client (B : Type) := {
  s3_GetObject : B → string → string → res s3_err (bytes * option string);
  s3_PutObject : B → PutObjectInput → res s3_err B;
  s3_DeleteObject : B → string → string → res s3_err B;
  s3_ListPages : B → string → string → list (res s3_err (list (string * Z)));
}.

Record s3Provider (B : Type) := mkS3Provider { s3_client : B; s3_config : StorageConfig }.
Arguments mkS3Provider {B} _ _.
Arguments s3_client {B} _.
Arguments s3_config {B} _.

Definition applyEncryption (cfg : StorageConfig) : sse :=
  if bool_decide (sg_Encryption cfg = "customer-managed")
  then SSE_KMS (if bool_decide (sg_KMSKeyID cfg ≠ "") then Some (sg_KMSKeyID cfg) else None)
  else SSE_AES256.

Definition normalizeS3ETag (etag : string) : string := trim_right quote (trim_left quote etag).

Definition quoteS3ETag (etag : string) : string :=
  match etag with
  | String c _ => if bool_decide (c = quote) then etag else String quote (etag ++ String quote "")
  | "" => String quote (etag ++ String quote "")
  end.

(** The test on the message of a failed conditional write. *)
Definition precondition_text (e : s3_err) : bool :=
  match e with
  | S3NoSuchKey => false
  | S3Error text => contains "PreconditionFailed" text || contains "412" text
  end.

Section s3.
  Context {B : Type} `{S3Client B}.
  Implicit Types p : s3Provider B.

Definition S3_Get p (key : string) : res storage_err (bytes * string) :=
  match s3_GetObject (s3_client p) (sg_BucketName (s3_config p)) key with
  | Err S3NoSuchKey => Err ErrNotFound
  | Err (S3Error _) => Err ErrIO
  | Ok (data, etag) => Ok (data, match etag with Some e => normalizeS3ETag e | None => "" end)
  end.

Definition S3_GetStream p (key : string) : res storage_err bytes :=
  match s3_GetObject (s3_client p) (sg_BucketName (s3_config p)) key with
  | Err S3NoSuchKey => Err ErrNotFound
  | Err (S3Error _) => Err ErrIO
  | Ok (data, _) => Ok data
  end.

Definition s3_input p (key : string) (data : bytes) (size : Z) (ifNoneMatch ifMatch : option string)
    : PutObjectInput :=
  mkPutObjectInput (sg_BucketName (s3_config p)) key data size (sg_Class (s3_config p))
    (applyEncryption (s3_config p)) ifNoneMatch ifMatch.

Definition S3_PutStream p (key : string) (data : bytes) (size : Z) : res storage_err (s3Provider B) :=
  match s3_PutObject (s3_client p) (s3_input p key data size None None) with
  | Err _ => Err ErrIO
  | Ok b => Ok (mkS3Provider b (s3_config p))
  end.

Definition S3_Put p (key : string) (data : bytes) : res storage_err (s3Provider B) :=
  S3_PutStream p key data (Z.of_nat (length data)).

Definition S3_PutStreamIfMatch p (key : string) (data : bytes) (size : Z) (etag : string)
    : res storage_err (s3Provider B) :=
  let input := if bool_decide (etag = "") then s3_input p key data size (Some "*") None
               else s3_input p key data size None (Some (quoteS3ETag etag)) in
  match s3_PutObject (s3_client p) input with
  | Err e => if precondition_text e then Err ErrPrecondition else Err ErrIO
  | Ok b => Ok (mkS3Provider b (s3_config p))
  end.

Definition S3_PutIfMatch p (key : string) (data : bytes) (etag : string)
    : res storage_err (s3Provider B) :=
  S3_PutStreamIfMatch p key data (Z.of_nat (length data)) etag.

Definition S3_Delete p (key : string) : res storage_err (s3Provider B) :=
  match s3_DeleteObject (s3_client p) (sg_BucketName (s3_config p)) key with
  | Err _ => Err ErrIO
  | Ok b => Ok (mkS3Provider b (s3_config p))
  end.

Fixpoint s3_pages (pages : list (res s3_err (list (string * Z)))) : res storage_err (list ObjectInfo) :=
  match pages with
  | [] => Ok []
  | Err _ :: _ => Err ErrIO
  | Ok page :: pages' =>
      match s3_pages pages' with
      | Err e => Err e
      | Ok rest => Ok (((λ kz : string * Z, mkObjectInfo kz.1 kz.2) <$> page) ++ rest)%list
      end
  end.

Definition S3_List p (prefix : string) : res storage_err (list ObjectInfo) :=
  s3_pages (s3_ListPages (s3_client p) (sg_BucketName (s3_config p)) prefix).
End s3.

(** ** GCS *)

Inductive gcs_err := GCSObjectNotExist | GCSAPIError (code : Z) | GCSOther.

(** A failed write fails while the data is copied or when the writer is
    closed. *)
Inductive gcs_write_err := GCSCopy (e : gcs_err) | GCSClose (e : gcs_err).

Inductive gcs_condition := GCSAlways | GCSDoesNotExist | GCSGenerationMatch (generation : Z).

Record gcs_write := mkGCSWrite {
  gw_Bucket : string;
  gw_Key : string;
  gw_Condition : gcs_condition;
  gw_StorageClass : string;
  gw_KMSKeyName : string;
  gw_Data : bytes;
}.

Class GCSClient (B : Type) := {
  gcs_NewReader : B → string → string → res gcs_err (bytes * Z);
  gcs_Write : B → gcs_write → res gcs_write_err B;
  gcs_Delete : B → string → string → res gcs_err B;
  gcs_Objects : B → string → string → list (res gcs_err (string * Z));
}.

Record gcsProvider (B : Type) := mkGCSProvider { gcs_client : B; gcs_config : StorageConfig }.
Arguments mkGCSProvider {B} _ _.
Arguments gcs_client {B} _.
Arguments gcs_config {B} _.

Definition isGCSPreconditionError (e : gcs_err) : bool :=
  match e with GCSAPIError code => code =? 412 | _ => false end.

(** [fmt.Sscanf(etag, "%d", ...)]: the longest run of digits after a sign. *)
Fixpoint digit_prefix (s : string) : string :=
  match s with
  | "" => ""
  | String c t => match char_digit c with Some _ => String c (digit_prefix t) | None => "" end
  end.

Definition sscanf_d (s : string) : option Z :=
  match s with
  | String "-" t => ParseInt64 (String "-" (digit_prefix t))
  | String "+" t => ParseInt64 (String "+" (digit_prefix t))
  | _ => ParseInt64 (digit_prefix s)
  end.

(** [fmt.Sprintf("%d", generation)] *)
Definition sprint_d (z : Z) : string := fmt_padded 0 z.

Section gcs.
  Context {B : Type} `{GCSClient B}.
  Implicit Types p : gcsProvider B.

Definition GCS_Get p (key : string) : res storage_err (bytes * string) :=
  match gcs_NewReader (gcs_client p) (sg_BucketName (gcs_config p)) key with
  | Err GCSObjectNotExist => Err ErrNotFound
  | Err _ => Err ErrIO
  | Ok (data, generation) => Ok (data, sprint_d generation)
  end.

Definition GCS_GetStream p (key : string) : res storage_err bytes :=
  match gcs_NewReader (gcs_client p) (sg_BucketName (gcs_config p)) key with
  | Err GCSObjectNotExist => Err ErrNotFound
  | Err _ => Err ErrIO
  | Ok (data, _) => Ok data
  end.

Definition gcs_writer p (key : string) (c : gcs_condition) (data : bytes) : gcs_write :=
  let cfg := gcs_config p in
  mkGCSWrite (sg_BucketName cfg) key c (sg_Class cfg)
    (if bool_decide (sg_Encryption cfg = "customer-managed") && bool_decide (sg_KMSKeyID cfg ≠ "")
     then sg_KMSKeyID cfg else "") data.

Definition GCS_Put p (key : string) (data : bytes) : res storage_err (gcsProvider B) :=
  match gcs_Write (gcs_client p) (gcs_writer p key GCSAlways data) with
  | Err _ => Err ErrIO
  | Ok b => Ok (mkGCSProvider b (gcs_config p))
  end.

Definition GCS_PutStream p (key : string) (data : bytes) : res storage_err (gcsProvider B) :=
  match gcs_Write (gcs_client p) (gcs_writer p key GCSAlways data) with
  | Err _ => Err ErrIO
  | Ok b => Ok (mkGCSProvider b (gcs_config p))
  end.

(** The condition of a conditional write; [None] when the ETag does not
    parse. *)
Definition gcs_condition_of (etag : string) : option gcs_condition :=
  if bool_decide (etag = "") then Some GCSDoesNotExist else GCSGenerationMatch <$> sscanf_d etag.

Definition GCS_PutIfMatch p (key : string) (data : bytes) (etag : string)
    : res storage_err (gcsProvider B) :=
  match gcs_condition_of etag with
  | None => Err ErrIO
  | Some c =>
      match gcs_Write (gcs_client p) (gcs_writer p key c data) with
      | Err (GCSCopy GCSObjectNotExist) => Err ErrPrecondition
      | Err (GCSCopy _) => Err ErrIO
      | Err (GCSClose e) => if isGCSPreconditionError e then Err ErrPrecondition else Err ErrIO
      | Ok b => Ok (mkGCSProvider b (gcs_config p))
      end
  end.

Definition GCS_PutStreamIfMatch p (key : string) (data : bytes) (etag : string)
    : res storage_err (gcsProvider B) :=
  match gcs_condition_of etag with
  | None => Err ErrIO
  | Some c =>
      match gcs_Write (gcs_client p) (gcs_writer p key c data) with
      | Err (GCSCopy e) => if isGCSPreconditionError e then Err ErrPrecondition else Err ErrIO
      | Err (GCSClose e) => if isGCSPreconditionError e then Err ErrPrecondition else Err ErrIO
      | Ok b => Ok (mkGCSProvider b (gcs_config p))
      end
  end.

Definition GCS_Delete p (key : string) : res storage_err (gcsProvider B) :=
  match gcs_Delete (gcs_client p) (sg_BucketName (gcs_config p)) key with
  | Err _ => Err ErrIO
  | Ok b => Ok (mkGCSProvider b (gcs_config p))
  end.

Fixpoint gcs_iterate (objects : list (res gcs_err (string * Z))) : res storage_err (list ObjectInfo) :=
  match objects with
  | [] => Ok []
  | Err _ :: _ => Err ErrIO
  | Ok (name, size) :: objects' =>
      match gcs_iterate objects' with
      | Err e => Err e
      | Ok rest => Ok (mkObjectInfo name size :: rest)
      end
  end.

Definition GCS_List p (prefix : string) : res storage_err (list ObjectInfo) :=
  gcs_iterate (gcs_Objects (gcs_client p) (sg_BucketName (gcs_config p)) prefix).
End gcs.

(** ** FailingStore *)

Record FailingStore (S : Type) := mkFailingStore { fs_inner : S; fs_failPut : bool; fs_failGet : bool }.
Arguments mkFailingStore {S} _ _ _.
Arguments fs_inner {S} _.
Arguments fs_failPut {S} _.
Arguments fs_failGet {S} _.

Definition NewFailingStore {S} (inner : S) : FailingStore S := mkFailingStore inner false false.
Definition SetFailPut {S} (fail : bool) (f : FailingStore S) : FailingStore S :=
  mkFailingStore (fs_inner f) fail (fs_failGet f).
Definition SetFailGet {S} (fail : bool) (f : FailingStore S) : FailingStore S :=
  mkFailingStore (fs_inner f) (fs_failPut f) fail.

Section failing.
  Context {S : Type} `{ObjectStorage S}.
  Implicit Types f : FailingStore S.

Definition Failing_Get f (key : string) : res storage_err (bytes * string) :=
  if fs_failGet f then Err ErrIO else os_Get (fs_inner f) key.

Definition Failing_Put f (key : string) (data : bytes) : res storage_err unit * FailingStore S :=
  if fs_failPut f then (Err ErrIO, f)
  else (Ok tt, mkFailingStore (os_Put (fs_inner f) key data) (fs_failPut f) (fs_failGet f)).

Definition Failing_PutIfMatch f (key : string) (data : bytes) (etag : string)
    : res storage_err unit * FailingStore S :=
  if fs_failPut f then (Err ErrIO, f)
  else
    match os_PutIfMatch (fs_inner f) key data etag with
    | Err e => (Err e, f)
    | Ok s => (Ok tt, mkFailingStore s (fs_failPut f) (fs_failGet f))
    end.

Definition Failing_Delete f (key : string) : FailingStore S :=
  mkFailingStore (os_Delete (fs_inner f) key) (fs_failPut f) (fs_failGet f).

Definition Failing_List f (prefix : string) : list ObjectInfo := os_List (fs_inner f) prefix.
End failing.

(** ** New *)

Inductive provider (B3 BG : Type) := ProviderS3 (p : s3Provider B3) | ProviderGCS (p : gcsProvider BG).
Arguments ProviderS3 {B3 BG} _.
Arguments ProviderGCS {B3 BG} _.

Inductive new_err := NewClientErr | UnsupportedProvider (p : string).

(** What the S3 client is made from: the role and session to assume, if any,
    and path-style addressing, which also switches off a warning. *)
Record S3Settings := mkS3Settings {
  so_assumeRole : option (string * string);
  so_UsePathStyle : bool;
  so_DisableLogOutputChecksumValidationSkipped : bool;
}.

(** [loadDefault] is the SDK's default configuration as a client for settings,
    [None] when it cannot be loaded. *)
Definition newS3Provider {B : Type} (getenv : string → string) (loadDefault : option (S3Settings → B))
    (cfg : StorageConfig) : res new_err (s3Provider B) :=
  match loadDefault with
  | None => Err NewClientErr
  | Some newFromConfig =>
      let roleArn := getenv "AWS_ROLE_ARN" in
      let roleSessionName :=
        if bool_decide (getenv "AWS_ROLE_SESSION_NAME" = "") then "netsy-session"
        else getenv "AWS_ROLE_SESSION_NAME" in
      let usePathStyle := bool_decide (getenv "AWS_S3_USE_PATH_STYLE" = "true") in
      Ok (mkS3Provider
            (newFromConfig
               (mkS3Settings (if bool_decide (roleArn ≠ "") then Some (roleArn, roleSessionName) else None)
                  usePathStyle usePathStyle)) cfg)
  end.

Definition newGCSProvider {B : Type} (client : option B) (cfg : StorageConfig) : res new_err (gcsProvider B) :=
  match client with None => Err NewClientErr | Some c => Ok (mkGCSProvider c cfg) end.

Definition Storage_New {B3 BG : Type} (getenv : string → string) (s3 : option (S3Settings → B3)) (gcs : option BG)
    (cfg : StorageConfig) : res new_err (provider B3 BG + scopedStorage (provider B3 BG)) :=
  let store :=
    if bool_decide (sg_Provider cfg = "s3") then
      match newS3Provider getenv s3 cfg with Err e => Err e | Ok p => Ok (ProviderS3 p) end
    else if bool_decide (sg_Provider cfg = "gcs") then
      match newGCSProvider gcs cfg with Err e => Err e | Ok p => Ok (ProviderGCS p) end
    else Err (UnsupportedProvider (sg_Provider cfg)) in
  match store with
  | Err e => Err e
  | Ok p =>
      if bool_decide (sg_KeyPrefix cfg ≠ "") then Ok (inr (newScopedStorage p (sg_KeyPrefix cfg)))
      else Ok (inl p)
  end.
