(* ===== verification/CloudStorageTheorems.v ===== *)
(** * Theorems on the S3 and GCS providers: conditional writes compare and swap *)

From Stdlib Require Import Strings.Ascii.
From S2P Require Import Prelude Decimal Storage DataFile Config DataStore CloudStorage.

#[local] Open Scope string_scope.
#[local] Open Scope Z_scope.

(** ** ETags *)

Fixpoint no_quote (s : string) : bool :=
  match s with "" => true | String c t => negb (bool_decide (c = quote)) && no_quote t end.

Definition quoted (e : string) : string := String quote (e ++ String quote "").

Lemma trim_right_quoted e : no_quote e = true → trim_right quote (e ++ String quote "") = e.
Proof.
  induction e as [|c e IH]; cbn [no_quote]; [done|].
  intros [Hc He]%andb_true_iff. change (String c e ++ String quote "") with (String c (e ++ String quote "")).
  cbn [trim_right]. rewrite (IH He). apply negb_true_iff in Hc. destruct e; [by rewrite Hc|done].
Qed.

Lemma normalize_quoted e : no_quote e = true → normalizeS3ETag (quoted e) = e.
Proof.
  intros He. rewrite /normalizeS3ETag /quoted. cbn [trim_left]. rewrite bool_decide_eq_true_2 //.
  assert (trim_left quote (e ++ String quote "") = if bool_decide (e = "") then "" else e ++ String quote "") as ->.
  { destruct e as [|c e]; [done|]. cbn [no_quote] in He. apply andb_true_iff in He as [Hc _].
    change (String c e ++ String quote "") with (String c (e ++ String quote "")). cbn [trim_left].
    apply negb_true_iff in Hc. by rewrite Hc. }
  case_bool_decide as E; [by rewrite E|]. by apply trim_right_quoted.
Qed.

(** What is read from a header and sent back in one is the same text. *)
Lemma quote_normalize e : no_quote e = true → quoteS3ETag (normalizeS3ETag (quoted e)) = quoted e.
Proof.
  intros He. rewrite normalize_quoted //. rewrite /quoteS3ETag /quoted. destruct e as [|c e]; [done|].
  cbn [no_quote] in He. apply andb_true_iff in He as [Hc%negb_true_iff _]. by rewrite Hc.
Qed.

(** ** The service *)

(** Objects with their ETags; a write with a failed condition changes nothing
    and says so, except that a condition on a missing object is answered with
    NoSuchKey. *)
Class S3Laws (B : Type) `{S3Client B} := {
  s3_objects : B → string → option (bytes * string);
  s3_etag_form b k d e : s3_objects b k = Some (d, e) → e ≠ "" ∧ no_quote e = true;
  s3_get_spec b bucket k :
    s3_GetObject b bucket k =
      match s3_objects b k with Some (d, e) => Ok (d, Some (quoted e)) | None => Err S3NoSuchKey end;
  s3_put_spec b i :
    let allowed :=
      match in_IfNoneMatch i, in_IfMatch i with
      | Some _, _ => s3_objects b (in_Key i) = None
      | None, Some q => ∃ d e, s3_objects b (in_Key i) = Some (d, e) ∧ q = quoted e
      | None, None => True
      end in
    match s3_PutObject b i with
    | Ok b' => allowed ∧ (fst <$> s3_objects b' (in_Key i)) = Some (in_Body i) ∧
               ∀ k, k ≠ in_Key i → s3_objects b' k = s3_objects b k
    | Err e => ¬ allowed ∧
               (is_Some (s3_objects b (in_Key i)) →
                ∃ text, e = S3Error text ∧ contains "PreconditionFailed" text = true) ∧
               (s3_objects b (in_Key i) = None → e = S3NoSuchKey)
    end;
  s3_delete_spec b bucket k :
    ∃ b', s3_DeleteObject b bucket k = Ok b' ∧ s3_objects b' k = None ∧
          ∀ k', k' ≠ k → s3_objects b' k' = s3_objects b k';
  s3_list_spec b bucket p :
    ∃ pages, s3_ListPages b bucket p = Ok <$> pages ∧ NoDup (concat pages) ∧
      ∀ k z, (k, z) ∈ concat pages ↔
        ∃ d e, s3_objects b k = Some (d, e) ∧ string_has_prefix k p = true ∧ z = Z.of_nat (length d);
}.

Section s3_theorems.
  Context {B : Type} `{HC : S3Client B} (L : S3Laws B).
  Implicit Types p : s3Provider B.

Definition s3_content p (k : string) : option bytes := fst <$> s3_objects (s3_client p) k.


(** The provider implements the interface; unconditional writes and deletes do
    not fail. *)
Definition S3_ObjectStorage : ObjectStorage (s3Provider B) := {|
  os_Get := S3_Get;
  os_Put p key data := match S3_Put p key data with Ok p' => p' | Err _ => p end;
  os_PutIfMatch := S3_PutIfMatch;
  os_Delete p key := match S3_Delete p key with Ok p' => p' | Err _ => p end;
  os_List p prefix := match S3_List p prefix with Ok l => l | Err _ => [] end;
|}.

Lemma s3_pages_ok pages :
  s3_pages (Ok <$> pages) = Ok ((λ kz : string * Z, mkObjectInfo kz.1 kz.2) <$> concat pages).
Proof.
  induction pages as [|page pages IH]; [done|]. cbn [fmap list_fmap s3_pages concat].
  change (list_fmap _ _ Ok pages) with (Ok (E := s3_err) <$> pages). by rewrite IH fmap_app.
Qed.

Definition S3_laws : @ObjectStorageLaws (s3Provider B) S3_ObjectStorage.
Proof using L.
  refine {| os_objects := λ p k, s3_content p k |}.
  - intros p k. simpl. rewrite /S3_Get /s3_content s3_get_spec.
    destruct (s3_objects (s3_client p) k) as [[d e]|] eqn:E; [|done]. cbn [fmap option_fmap option_map fst].
    destruct (s3_etag_form _ _ _ _ E) as [Hne Hq]. exists e. by rewrite normalize_quoted.
  - intros p k d k'. simpl. rewrite /S3_Put /S3_PutStream. pose proof (s3_put_spec (s3_client p)
      (s3_input p k d (Z.of_nat (length d)) None None)) as Hp. cbn in Hp.
    destruct (s3_PutObject _ _) as [b'|e]; [|by destruct Hp as [[] _]]. destruct Hp as (_ & Hk & Hr).
    rewrite /s3_content /=. case_decide as Hkk; [by subst|]. by rewrite Hr.
  - intros p k d. pose proof (s3_put_spec (s3_client p) (s3_input p k d (Z.of_nat (length d)) (Some "*") None)) as Hp.
    cbn [os_PutIfMatch S3_ObjectStorage]. rewrite /S3_PutIfMatch /S3_PutStreamIfMatch. cbn in Hp |- *.
    destruct (s3_PutObject _ _) as [b'|e].
    + destruct Hp as (Hn & Hk & Hr). rewrite /s3_content Hn. split; [done|]. intros k'. cbn.
      case_decide as Hkk; [by subst|]. by rewrite Hr.
    + destruct Hp as (Hn & Hpre & _). rewrite /s3_content.
      destruct (s3_objects (s3_client p) k) as [x|] eqn:E; [|done].
      destruct (Hpre (ex_intro _ x eq_refl)) as (text & -> & Hc). rewrite /precondition_text Hc. cbn. eauto.
  - intros p k k'. simpl. rewrite /S3_Delete.
    destruct (s3_delete_spec (s3_client p) (sg_BucketName (s3_config p)) k) as (b' & -> & Hn & Hr).
    rewrite /s3_content /=. case_decide as Hkk; [subst; by rewrite Hn|]. by rewrite Hr.
  - intros p pre oi. simpl. rewrite /S3_List.
    destruct (s3_list_spec (s3_client p) (sg_BucketName (s3_config p)) pre) as (pages & -> & _ & Hl).
    rewrite s3_pages_ok list_elem_of_fmap /s3_content. split.
    + intros ([k z] & -> & (d & e & E & Hpre & Hz)%Hl). exists d. cbn. by rewrite E.
    + intros (d & Hd & Hpre & Hz). destruct (s3_objects (s3_client p) (oi_Key oi)) as [[d' e]|] eqn:E; [|done].
      injection Hd as ->. exists (oi_Key oi, oi_Size oi). split; [by destruct oi|]. apply Hl. eauto.
  - intros p pre. simpl. rewrite /S3_List.
    destruct (s3_list_spec (s3_client p) (sg_BucketName (s3_config p)) pre) as (pages & -> & Hn & _).
    rewrite s3_pages_ok. apply NoDup_fmap; [|done]. by intros [k z] [k' z'] [= -> ->].
Defined.
End s3_theorems.

(** ** A bucket in memory *)

Definition Bucket : Type := gmap string bytes.
Definition bucket_etag (d : bytes) : string := "e" ++ zeros (length d).

Lemma bucket_etag_form d : bucket_etag d ≠ "" ∧ no_quote (bucket_etag d) = true.
Proof.
  split; [done|]. change (no_quote (zeros (length d)) = true). generalize (length d) as n.
  induction n as [|n IH]; [done|]. exact IH.
Qed.

Definition bucket_allowed (b : Bucket) (i : PutObjectInput) : bool :=
  match in_IfNoneMatch i, in_IfMatch i with
  | Some _, _ => bool_decide (b !! in_Key i = None)
  | None, Some q => bool_decide ((λ d, quoted (bucket_etag d)) <$> b !! in_Key i = Some q)
  | None, None => true
  end.

Definition Bucket_S3Client : S3Client Bucket := {|
  s3_GetObject b _ k :=
    match b !! k with Some d => Ok (d, Some (quoted (bucket_etag d))) | None => Err S3NoSuchKey end;
  s3_PutObject b i :=
    if bucket_allowed b i then Ok (<[in_Key i := in_Body i]> b)
    else match b !! in_Key i with
         | Some _ => Err (S3Error "api error PreconditionFailed: At least one of the pre-conditions did not hold")
         | None => Err S3NoSuchKey
         end;
  s3_DeleteObject b _ k := Ok (delete k b);
  s3_ListPages b _ p :=
    [Ok ((λ kd : string * bytes, (kd.1, Z.of_nat (length kd.2)))
           <$> filter (λ kd : string * bytes, string_has_prefix kd.1 p = true) (map_to_list b))];
|}.

Definition Bucket_laws : @S3Laws Bucket Bucket_S3Client.
Proof.
  refine (@Build_S3Laws Bucket Bucket_S3Client (λ b k, (λ d, (d, bucket_etag d)) <$> (b : Bucket) !! k) _ _ _ _ _).
  - intros b k d e. rewrite fmap_Some. intros (x & _ & [= -> ->]). apply bucket_etag_form.
  - intros b bucket k. simpl. by destruct ((b : Bucket) !! k).
  - intros b i. simpl.
    assert (bucket_allowed b i = true ↔
      match in_IfNoneMatch i, in_IfMatch i with
      | Some _, _ => (λ d, (d, bucket_etag d)) <$> (b : Bucket) !! in_Key i = None
      | None, Some q => ∃ d e, (λ d, (d, bucket_etag d)) <$> (b : Bucket) !! in_Key i = Some (d, e) ∧ q = quoted e
      | None, None => True
      end) as Ha.
    { rewrite /bucket_allowed. destruct (in_IfNoneMatch i); [|destruct (in_IfMatch i) as [q|]; [|done]].
      - rewrite bool_decide_eq_true fmap_None. done.
      - rewrite bool_decide_eq_true. destruct ((b : Bucket) !! in_Key i) as [d|]; cbn; naive_solver. }
    destruct (bucket_allowed b i).
    + split; [by apply Ha|]. rewrite lookup_insert_eq. split; [done|]. intros k Hk. by rewrite lookup_insert_ne.
    + destruct ((b : Bucket) !! in_Key i) as [d|] eqn:E.
      * split; [by intros ?%Ha|]. split; [|done]. intros _. eexists. split; [reflexivity|vm_compute; reflexivity].
      * split; [by intros ?%Ha|]. split; [by intros [? ?]|done].
  - intros b bucket k. exists (delete k (b : Bucket)). split; [done|]. rewrite lookup_delete_eq. split; [done|].
    intros k' Hk. by rewrite lookup_delete_ne.
  - intros b bucket p. eexists [_]. split; [reflexivity|]. cbn [concat]. rewrite app_nil_r. split.
    { eapply (NoDup_fmap_1 fst). rewrite -list_fmap_compose.
      eapply sublist_NoDup; [apply (NoDup_fst_map_to_list (b : Bucket))|]. apply fmap_sublist, sublist_filter. }
    intros k z. rewrite list_elem_of_fmap. split.
    + intros ([k' d] & [= -> ->] & [Hp Hin]%list_elem_of_filter). apply elem_of_map_to_list in Hin.
      exists d, (bucket_etag d). cbn in Hin |- *. by rewrite Hin.
    + intros (d & e & E & Hp & ->). apply fmap_Some in E as (x & Hx & [= -> ->]). exists (k, x). split; [done|].
      apply list_elem_of_filter. split; [done|]. by apply elem_of_map_to_list.
Defined.

#[local] Existing Instance Bucket_S3Client.

Definition example_s3 : s3Provider Bucket :=
  mkS3Provider {["members.json" := [Byte.x01]]} (mkStorageConfig "s3" "bucket" "" "STANDARD" "provider-managed" "").


(** A failed request whose message happens to contain the digits 412, in a
    request id say, is taken for a failed condition. *)
Lemma request_id_looks_like_precondition :
  precondition_text (S3Error "https response error StatusCode: 503, RequestID: 9F412C, SlowDown") = true.
Proof. by vm_compute. Qed.

(** ** GCS *)

Lemma digit_prefix_digits s : all_digits s = true → digit_prefix s = s.
Proof.
  induction s as [|c s IH]; [done|]. cbn [all_digits digit_prefix].
  intros [Hc Hs]%andb_true_iff. apply bool_decide_eq_true in Hc as [d Hd]. rewrite Hd. by rewrite IH.
Qed.

(** A generation survives its way through the ETag: the condition of the write
    is on the generation that was read. *)
Lemma generation_roundtrip g :
  0 ≤ g ≤ int64_max → gcs_condition_of (sprint_d g) = Some (GCSGenerationMatch g).
Proof.
  intros Hg. destruct (fmt_padded_pos 0 g Hg) as (Hd & Hp & Hne). rewrite /gcs_condition_of /sprint_d.
  rewrite bool_decide_eq_false_2 //. set (t := fmt_padded 0 g) in *.
  assert (sscanf_d t = ParseInt64 (digit_prefix t)) as ->.
  { destruct t as [|c t']; [done|]. cbn [all_digits] in Hd. apply andb_true_iff in Hd as [Hc _].
    apply bool_decide_eq_true in Hc. rewrite /sscanf_d.
    destruct c as [[] [] [] [] [] [] [] []]; try done; by vm_compute in Hc; destruct Hc. }
  rewrite digit_prefix_digits // (ParseInt64_digits _ g) //. lia.
Qed.

(** A condition that fails while a large object is still being copied is not
    recognized by [PutIfMatch], although [PutStreamIfMatch] does. *)
Lemma gcs_copy_precondition {B} `{GCSClient B} (p : gcsProvider B) key data :
  gcs_Write (gcs_client p) (gcs_writer p key GCSDoesNotExist data) = Err (GCSCopy (GCSAPIError 412)) →
  GCS_PutIfMatch p key data "" = Err ErrIO ∧ GCS_PutStreamIfMatch p key data "" = Err ErrPrecondition.
Proof. intros E. by rewrite /GCS_PutIfMatch /GCS_PutStreamIfMatch /gcs_condition_of /= E. Qed.
