(* ===== verification/PublicDataFile.v ===== *)
(** * pkg/datafile and cmd/read-netsy-file: data files for other programs

    [FileRecord] is the package's exported [Record]: a record without its
    checksum.  Times are the same option of nanoseconds as in the protobuf
    message. *)

From S2P Require Import Prelude Records Storage DataFile ExampleCodec DataStore DataStoreTheorems Examples LocalDB.

#[local] Open Scope Z_scope.

Record FileRecord := mkFileRecord {
  fr_Revision : Z;
  fr_Key : bytes;
  fr_Created : bool;
  fr_Deleted : bool;
  fr_CreateRevision : Z;
  fr_PrevRevision : Z;
  fr_Version : Z;
  fr_Lease : Z;
  fr_Dek : Z;
  fr_Value : option bytes;
  fr_CreatedAt : option Z;
  fr_CompactedAt : option Z;
  fr_LeaderID : string;
  fr_ReplicatedAt : option Z;
}.

Definition recordFromProto (r : record) : FileRecord :=
  mkFileRecord (Revision r) (Key r) (Created r) (Deleted r) (CreateRevision r) (PrevRevision r)
    (Version r) (Lease r) (Dek r) (Value r) (CreatedAt r) (CompactedAt r) (LeaderId r) (ReplicatedAt r).

Definition recordToProto (r : FileRecord) : record :=
  mkRecord (fr_Revision r) (fr_Key r) (fr_Created r) (fr_Deleted r) (fr_CreateRevision r)
    (fr_PrevRevision r) (fr_Version r) (fr_Lease r) (fr_Dek r) (fr_Value r) (fr_CreatedAt r)
    (fr_CompactedAt r) (fr_LeaderID r) (fr_ReplicatedAt r) 0.

Section public.
  Context `{Codec}.

Definition ReadChunk (data : bytes) : res df_err (list FileRecord) :=
  match read_file KIND_CHUNK data with
  | Err e => Err e
  | Ok (records, _) => Ok (recordFromProto <$> records)
  end.

Definition WriteChunk (now : Z) (records : list FileRecord) (leaderID : string) : res df_err bytes :=
  let protoRecords := recordToProto <$> records in
  Writer_Close (write_all protoRecords (NewWriterWithSmartCompression now KIND_CHUNK protoRecords leaderID)).

Definition ReadSnapshot (data : bytes) : res df_err (list FileRecord) :=
  match read_file KIND_SNAPSHOT data with
  | Err e => Err e
  | Ok (records, _) => Ok (recordFromProto <$> records)
  end.

Definition WriteSnapshot (now : Z) (records : list FileRecord) (leaderID : string) : res df_err bytes :=
  Writer_Close (write_all (recordToProto <$> records)
    (NewWriterWithCompression now KIND_SNAPSHOT (Z.of_nat (length records)) leaderID (Some COMPRESSION_NONE))).

(** The records the command prints and whether it exits with an error; the
    result of closing the reader is not looked at. *)
Fixpoint print_records (n : nat) (r : Reader) : list record * bool :=
  match n with
  | O => ([], true)
  | S n' =>
      match Read r with
      | Err _ => ([], false)
      | Ok (rec, r') => let '(out, ok) := print_records n' r' in (rec :: out, ok)
      end
  end.

Definition read_netsy_file (data : bytes) : list record * bool :=
  match NewReader data None with
  | Err _ => ([], false)
  | Ok r => print_records (Z.to_nat (rd_expectedRecordsCount r)) r
  end.
End public.

(** ** Theorems *)

Section public_theorems.
  Context `{CL : CodecLaws}.

(** An empty value comes back as an absent one. *)
Definition wire_value (r : FileRecord) : FileRecord :=
  mkFileRecord (fr_Revision r) (fr_Key r) (fr_Created r) (fr_Deleted r) (fr_CreateRevision r)
    (fr_PrevRevision r) (fr_Version r) (fr_Lease r) (fr_Dek r)
    (match fr_Value r with Some [] => None | v => v end) (fr_CreatedAt r)
    (fr_CompactedAt r) (fr_LeaderID r) (fr_ReplicatedAt r).

Lemma public_records (records : list FileRecord) :
  recordFromProto <$> (file_record <$> (recordToProto <$> records)) = wire_value <$> records.
Proof. rewrite -!list_fmap_compose. by apply list_fmap_ext. Qed.

(** Chunks and snapshots written by this package read back record by record,
    and neither is taken for the other. *)
Lemma WriteChunk_ReadChunk now records leaderID :
  Z.of_nat (length records) ≤ int64_max →
  ∃ data, WriteChunk now records leaderID = Ok data ∧ ReadChunk data = Ok (wire_value <$> records).
Proof using CL.
  intros Hlen. rewrite /WriteChunk /NewWriterWithSmartCompression.
  set (c := if decide (KIND_CHUNK = KIND_SNAPSHOT) then _ else _).
  assert (c ≠ COMPRESSION_UNKNOWN) as Hc by (rewrite /c; by repeat case_match).
  destruct (datafile_reads_back now KIND_CHUNK leaderID c (recordToProto <$> records)) as (data & Hw & Hr);
    [done|by rewrite length_fmap|]. exists data. split; [exact Hw|]. rewrite /ReadChunk Hr. by rewrite public_records.
Qed.

Lemma WriteSnapshot_ReadSnapshot now records leaderID :
  Z.of_nat (length records) ≤ int64_max →
  ∃ data, WriteSnapshot now records leaderID = Ok data ∧ ReadSnapshot data = Ok (wire_value <$> records).
Proof using CL.
  intros Hlen. destruct (datafile_reads_back now KIND_SNAPSHOT leaderID COMPRESSION_NONE (recordToProto <$> records))
    as (data & Hw & Hr); [done|by rewrite length_fmap|]. rewrite length_fmap in Hw.
  exists data. split; [exact Hw|]. rewrite /ReadSnapshot Hr. by rewrite public_records.
Qed.
End public_theorems.

(** ** On a concrete file *)

#[local] Existing Instance example_codec.

(** A file that lost its footer prints all its records and reports success. *)
Definition footless_chunk : bytes :=
  match WriteChunk 50 (recordFromProto <$> take 2 (rows example_db)) "n1" with
  | Ok d => take (length d - 1) d
  | Err _ => []
  end.

Lemma read_netsy_file_ignores_footer :
  length (read_netsy_file footless_chunk).1 = 2%nat ∧ (read_netsy_file footless_chunk).2 = true ∧
  is_ok (ReadChunk footless_chunk) = false.
Proof. vm_compute. done. Qed.
