(* ===== verification/ClientStatus.v ===== *)
(** * internal/clientapi and internal/healthserver: members, leases, alarms,
    status and the health endpoint

    What a client sees of a node's membership and health.  [db.Size] and
    [db.SizeInUse] are arguments. *)

From S2P Require Import Prelude NodeState Storage DataFile Discovery DataStore PeerClient NodeMap Elector.
From S2P Require Import Config.

#[local] Open Scope string_scope.
#[local] Open Scope Z_scope.

Record ResponseHeader := mkResponseHeader { rh_ClusterId : Z; rh_MemberId : Z }.

Definition responseHeader (etcdClusterID : Z) (st : State) : ResponseHeader :=
  mkResponseHeader etcdClusterID (memberID st).

(** ** Members *)

Record Member := mkMember {
  mb_ID : Z;
  mb_Name : string;
  mb_ClientURLs : list string;
  mb_PeerURLs : list string;
}.

Inductive client_err := NoElectorConnection | ElectorErr (e : elector_err) | PeerErr (e : peer_err) | Unimplemented (m : string).

Definition etcd_member (m : MemberEntry) : Member :=
  mkMember (me_MemberId m) (me_NodeId m) ["https://" ++ me_ClientAdvertiseAddress m]
    ["https://" ++ me_PeerAdvertiseAddress m].

Section members.
  Context {OS : Type}.

(** The Elector answers itself; another node asks it through its Elector
    client. *)
Definition MemberList (etcdClusterID : Z) (order : list NodeEntry → list NodeEntry) (local : Elector OS)
    (reply : string → option (list MemberEntry)) (m : PeerManager) (st : State)
    : res client_err (ResponseHeader * list Member) :=
  let members :=
    if bool_decide (elector st = ElectorLeader) then
      match GetMemberList order local with Ok l => Ok l | Err e => Err (ElectorErr e) end
    else
      match ElectorClient m with
      | None => Err NoElectorConnection
      | Some client =>
          match Client_GetMemberList reply client with Ok l => Ok l | Err e => Err (PeerErr e) end
      end in
  match members with
  | Err e => Err e
  | Ok l => Ok (responseHeader etcdClusterID st, etcd_member <$> l)
  end.
End members.

(** ** Leases *)

(** Header, id and time to live of the reply. *)
Definition LeaseGrant (ttl : Z) : res client_err (ResponseHeader * Z * Z) :=
  Ok (mkResponseHeader 0 0, ttl, ttl).
Definition LeaseRevoke : res client_err unit := Err (Unimplemented "LeaseRevoke").
Definition LeaseKeepAlive : res client_err unit := Err (Unimplemented "LeaseKeepAlive").
Definition LeaseTimeToLive : res client_err unit := Err (Unimplemented "LeaseTimeToLive").
Definition LeaseLeases : res client_err unit := Err (Unimplemented "LeaseLeases").

(** ** Alarms and status *)

(** The members with a CORRUPT alarm. *)
Definition Alarm (etcdClusterID : Z) (st : State) : ResponseHeader * list Z :=
  (responseHeader etcdClusterID st,
   if bool_decide (health st = HealthHealthy) then [] else [memberID st]).

Definition health_name (h : HealthState) : string :=
  match h with HealthLoading => "loading" | HealthHealthy => "healthy" | HealthDegraded => "degraded" end.

Record StatusResponse := mkStatusResponse {
  stt_Header : ResponseHeader;
  stt_DbSize : Z;
  stt_DbSizeInUse : Z;
  stt_Leader : Z;
  stt_Errors : list string;
  stt_RaftIndex : Z;
  stt_RaftTerm : Z;
  stt_RaftAppliedIndex : Z;
  stt_IsLearner : bool;
}.

(** [None] is a size that cannot be read. *)
Definition Status (etcdClusterID : Z) (size inUse : option Z) (st : State) : option StatusResponse :=
  match size, inUse with
  | Some s, Some u =>
      let leader := if bool_decide (NodeID (cs_Primary (cluster st)) ≠ "")
                    then MemberID (cs_Primary (cluster st)) else 0 in
      let errors := if bool_decide (health st = HealthHealthy) then []
                    else ["health state: " ++ health_name (health st)] in
      Some (mkStatusResponse (responseHeader etcdClusterID st) s u leader errors 0 0 0 false)
  | _, _ => None
  end.

(** ** The health endpoint: HTTP status and body *)

Definition handleHealth (st : State) : Z * string :=
  (if bool_decide (health st = HealthHealthy) then 200 else 503, health_name (health st)).

(** ** Theorems *)

(** Whoever asks gets the same answer: no alarm, no status error and HTTP 200
    each mean that the node is Healthy. *)
Lemma health_views_agree id size inUse st r :
  Status id size inUse st = Some r →
  (health st = HealthHealthy ↔ (Alarm id st).2 = []) ∧
  (health st = HealthHealthy ↔ stt_Errors r = []) ∧
  (health st = HealthHealthy ↔ (handleHealth st).1 = 200).
Proof.
  rewrite /Status /Alarm /handleHealth. destruct size, inUse; [|done..]. intros [= <-].
  case_bool_decide; cbn; naive_solver.
Qed.

(** The Elector lists each registered node once, under its member id. *)
Lemma MemberList_elector {OS} id order (local : Elector OS) reply m st :
  elector st = ElectorLeader → elector (el_state local) = ElectorLeader → nm_ready (el_nodeMap local) = true →
  MemberList id order local reply m st
  = Ok (responseHeader id st,
        (λ e, etcd_member (mkMemberEntry (ne_NodeID e) (ne_MemberID e) (ne_ClientAdvertiseAddress e)
                             (ne_PeerAdvertiseAddress e))) <$> NodeMap_All order (el_nodeMap local)).
Proof.
  intros H1 H2 H3. rewrite /MemberList bool_decide_eq_true_2 // /GetMemberList /requireLeader.
  rewrite bool_decide_eq_true_2 // H3 /=. by rewrite -list_fmap_compose.
Qed.
