(* ===== verification/Metrics.v ===== *)
(** * The metrics: what a node exposes to Prometheus

    The metric families of every package, the registry and the role groups
    ([internal/metrics], [internal/cmd]), the node state gauges
    ([internal/nodestate/metrics.go]) and the places that update the others.
    A sample is a family name with its label values; a histogram keeps its
    number of observations.  Prometheus panics, here [None], on a wrong number
    of label values and on a second registration of a name. *)

From stdpp Require Import strings gmap.
From S2P Require Import Prelude NodeState Records LocalDB Storage DataFile DataStore Quorum ChunkBuffer.
From S2P Require Import Watch NodeMap Decimal Duration ClientStatus.

#[local] Open Scope string_scope.
#[local] Open Scope Z_scope.

(** ** Families and samples *)

Inductive metric_kind := Gauge | Counter | Histogram.

Record family := mkFamily {
  f_name : string;
  f_kind : metric_kind;
  f_labels : list string;
}.

Definition samples : Type := gmap (string * list string) Z.

(** [WithLabelValues] followed by an update of the sample it returns. *)
Definition at_labels (f : family) (vals : list string) (update : Z → Z) (m : samples) : option samples :=
  if (length vals =? length (f_labels f))%nat
  then Some (<[(f_name f, vals) := update (default 0 (m !! (f_name f, vals)))]> m)
  else None.

Definition Set_ (f : family) (vals : list string) (v : Z) : samples → option samples := at_labels f vals (λ _, v).
Definition Inc (f : family) (vals : list string) : samples → option samples := at_labels f vals (λ n, n + 1).
Definition Observe (f : family) (vals : list string) : samples → option samples := at_labels f vals (λ n, n + 1).

Definition value (f : family) (vals : list string) (m : samples) : Z := default 0 (m !! (f_name f, vals)).

(** [float64(n)] of an integer; above [2^53] it is rounded. *)
Definition to_float (n : Z) : Z := Z.sgn n * float_trunc (round53 (Z.abs n) 1).

(** The metric structs of the packages, each with its one value. *)

(** [nodestate/metrics.go] *)
Class StateMetrics := {
  state_Info : family;
  state_HealthState : family;
  state_ElectorState : family;
  state_PrimaryState : family;
  state_ProcessStartTime : family;
  state_LatestRevision : family;
  state_CommittedRevision : family;
  state_CompactionRevision : family;
}.
#[global] Instance state_metrics : StateMetrics := {|
  state_Info := mkFamily "netsy_info" Gauge ["version"; "cluster_id"; "node_id"; "quorum_config"];
  state_HealthState := mkFamily "netsy_state_health" Gauge ["state"];
  state_ElectorState := mkFamily "netsy_state_elector" Gauge ["state"];
  state_PrimaryState := mkFamily "netsy_state_primary" Gauge ["state"];
  state_ProcessStartTime := mkFamily "netsy_process_start_time_seconds" Gauge [];
  state_LatestRevision := mkFamily "netsy_latest_revision" Gauge [];
  state_CommittedRevision := mkFamily "netsy_committed_revision" Gauge [];
  state_CompactionRevision := mkFamily "netsy_compaction_revision" Gauge [];
|}.
Definition state_Collectors : list family :=
  [state_Info; state_HealthState; state_ElectorState; state_PrimaryState; state_ProcessStartTime;
   state_LatestRevision; state_CommittedRevision; state_CompactionRevision].

(** [metrics/retries.go] *)
Definition retry_Total : family := mkFamily "netsy_retries_total" Counter ["operation"].
Definition retry_Collectors : list family :=
  [retry_Total].

(** [metrics/compaction.go] *)
Definition compaction_Duration : family := mkFamily "netsy_compaction_duration_seconds" Histogram ["result"].
Definition compaction_Collectors : list family :=
  [compaction_Duration].

(** [metrics/object_storage.go] *)
Class ObjectStorageMetrics := {
  storage_WritesTotal : family;
  storage_WriteDuration : family;
  storage_WriteBytes : family;
  storage_ReadsTotal : family;
  storage_ReadDuration : family;
}.
#[global] Instance storage_metrics : ObjectStorageMetrics := {|
  storage_WritesTotal := mkFamily "netsy_object_storage_writes_total" Counter ["kind"; "mode"; "result"];
  storage_WriteDuration :=
    mkFamily "netsy_object_storage_write_duration_seconds" Histogram ["kind"; "mode"; "result"];
  storage_WriteBytes := mkFamily "netsy_object_storage_write_bytes" Histogram ["kind"; "mode"];
  storage_ReadsTotal := mkFamily "netsy_object_storage_reads_total" Counter ["result"];
  storage_ReadDuration := mkFamily "netsy_object_storage_read_duration_seconds" Histogram ["result"];
|}.
Definition storage_Collectors : list family :=
  [storage_WritesTotal; storage_WriteDuration; storage_WriteBytes; storage_ReadsTotal; storage_ReadDuration].

(** [primary/metrics.go] *)
Class PrimaryMetrics := {
  primary_WritePath : family;
  primary_WriteTransactions : family;
  primary_WriteDuration : family;
  primary_QuorumRollbacks : family;
  primary_RequiredReceipts : family;
  primary_HealthyReplicas : family;
  primary_ReceiptedReplicas : family;
  primary_ChunkBufferRecords : family;
  primary_ChunkBufferBytes : family;
  primary_ChunkBufferFlushes : family;
  primary_ChunkBufferFlushDur : family;
  primary_ReplicationStreams : family;
  primary_DrainDuration : family;
  primary_PreflightStageDur : family;
  primary_ObjectStorageRevision : family;
  primary_CompactionsTotal : family;
  primary_CompactionCoordDuration : family;
  primary_CompactionConfirmFailures : family;
  primary_ChunkBufferAge : family;
}.
#[global] Instance primary_metrics : PrimaryMetrics := {|
  primary_WritePath := mkFamily "netsy_primary_write_path" Gauge ["path"];
  primary_WriteTransactions := mkFamily "netsy_primary_write_transactions_total" Counter ["path"; "result"];
  primary_WriteDuration := mkFamily "netsy_primary_write_duration_seconds" Histogram ["path"; "result"];
  primary_QuorumRollbacks := mkFamily "netsy_primary_quorum_rollbacks_total" Counter ["reason"];
  primary_RequiredReceipts := mkFamily "netsy_primary_required_receipts" Gauge [];
  primary_HealthyReplicas := mkFamily "netsy_primary_healthy_replicas" Gauge [];
  primary_ReceiptedReplicas := mkFamily "netsy_primary_receipted_replicas" Gauge [];
  primary_ChunkBufferRecords := mkFamily "netsy_primary_chunk_buffer_records" Gauge [];
  primary_ChunkBufferBytes := mkFamily "netsy_primary_chunk_buffer_bytes" Gauge [];
  primary_ChunkBufferFlushes := mkFamily "netsy_primary_chunk_buffer_flushes_total" Counter ["trigger"; "result"];
  primary_ChunkBufferFlushDur :=
    mkFamily "netsy_primary_chunk_buffer_flush_duration_seconds" Histogram ["trigger"; "result"];
  primary_ReplicationStreams := mkFamily "netsy_primary_replication_streams" Gauge [];
  primary_DrainDuration := mkFamily "netsy_primary_drain_duration_seconds" Histogram ["result"];
  primary_PreflightStageDur :=
    mkFamily "netsy_primary_preflight_stage_duration_seconds" Histogram ["stage"; "result"];
  primary_ObjectStorageRevision := mkFamily "netsy_primary_object_storage_revision" Gauge [];
  primary_CompactionsTotal := mkFamily "netsy_primary_compactions_total" Counter ["result"];
  primary_CompactionCoordDuration :=
    mkFamily "netsy_primary_compaction_coordination_duration_seconds" Histogram ["result"];
  primary_CompactionConfirmFailures :=
    mkFamily "netsy_primary_compaction_confirmation_failures_total" Counter ["reason"];
  primary_ChunkBufferAge := mkFamily "netsy_primary_chunk_buffer_age_seconds" Gauge [];
|}.
Definition primary_Collectors : list family :=
  [primary_WritePath; primary_WriteTransactions; primary_WriteDuration; primary_QuorumRollbacks;
   primary_RequiredReceipts; primary_HealthyReplicas; primary_ReceiptedReplicas; primary_ChunkBufferRecords;
   primary_ChunkBufferBytes; primary_ChunkBufferAge; primary_ChunkBufferFlushes; primary_ChunkBufferFlushDur;
   primary_ReplicationStreams; primary_DrainDuration; primary_PreflightStageDur; primary_ObjectStorageRevision;
   primary_CompactionsTotal; primary_CompactionCoordDuration; primary_CompactionConfirmFailures].

(** [snapshot/metrics.go] *)
Class SnapshotMetrics := {
  snapshot_Creations : family;
  snapshot_CreateDur : family;
  snapshot_Age : family;
}.
#[global] Instance snapshot_metrics : SnapshotMetrics := {|
  snapshot_Creations := mkFamily "netsy_primary_snapshot_creations_total" Counter ["result"];
  snapshot_CreateDur := mkFamily "netsy_primary_snapshot_creation_duration_seconds" Histogram ["result"];
  snapshot_Age := mkFamily "netsy_primary_snapshot_age_seconds" Gauge [];
|}.
Definition snapshot_Collectors : list family :=
  [snapshot_Creations; snapshot_CreateDur; snapshot_Age].

(** [elector/metrics.go] *)
Class ElectorMetrics := {
  elector_RegisteredNodes : family;
  elector_HealthyNodes : family;
  elector_DegradedNodes : family;
  elector_PrimaryElections : family;
  elector_PrimaryElectionFailures : family;
  elector_PrimaryElectionDuration : family;
  elector_PrimaryElectionContacts : family;
  elector_AutoDeregistrations : family;
}.
#[global] Instance elector_metrics : ElectorMetrics := {|
  elector_RegisteredNodes := mkFamily "netsy_elector_registered_nodes" Gauge [];
  elector_HealthyNodes := mkFamily "netsy_elector_healthy_nodes" Gauge [];
  elector_DegradedNodes := mkFamily "netsy_elector_degraded_nodes" Gauge [];
  elector_PrimaryElections := mkFamily "netsy_elector_primary_elections_total" Counter ["result"];
  elector_PrimaryElectionFailures := mkFamily "netsy_elector_primary_election_failures_total" Counter ["reason"];
  elector_PrimaryElectionDuration :=
    mkFamily "netsy_elector_primary_election_duration_seconds" Histogram ["result"];
  elector_PrimaryElectionContacts := mkFamily "netsy_elector_primary_election_contacts_total" Counter ["result"];
  elector_AutoDeregistrations := mkFamily "netsy_elector_auto_deregistrations_total" Counter [];
|}.
Definition elector_Collectors : list family :=
  [elector_RegisteredNodes; elector_HealthyNodes; elector_DegradedNodes; elector_PrimaryElections;
   elector_PrimaryElectionFailures; elector_PrimaryElectionDuration; elector_PrimaryElectionContacts;
   elector_AutoDeregistrations].

(** [clientapi/metrics.go] *)
Class ClientMetrics := {
  client_RequestsTotal : family;
  client_RequestDuration : family;
  client_Watchers : family;
  client_Watches : family;
  client_WatchMinRevision : family;
  client_ProxyRequestsTotal : family;
  client_ProxyRequestDuration : family;
}.
#[global] Instance client_metrics : ClientMetrics := {|
  client_RequestsTotal := mkFamily "netsy_client_requests_total" Counter ["kind"; "result"];
  client_RequestDuration := mkFamily "netsy_client_request_duration_seconds" Histogram ["kind"];
  client_Watchers := mkFamily "netsy_watchers" Gauge [];
  client_Watches := mkFamily "netsy_watches" Gauge [];
  client_WatchMinRevision := mkFamily "netsy_watch_min_revision" Gauge [];
  client_ProxyRequestsTotal := mkFamily "netsy_replica_proxy_requests_total" Counter ["kind"; "result"];
  client_ProxyRequestDuration := mkFamily "netsy_replica_proxy_request_duration_seconds" Histogram ["kind"];
|}.
Definition client_AlwaysOnCollectors : list family :=
  [client_RequestsTotal; client_RequestDuration; client_Watchers; client_Watches; client_WatchMinRevision].
Definition client_ReplicaCollectors : list family :=
  [client_ProxyRequestsTotal; client_ProxyRequestDuration].

(** [replication/metrics.go] *)
Definition replica_ReceiptAge : family := mkFamily "netsy_replica_receipt_age_seconds" Gauge [].
Definition replica_Collectors : list family :=
  [replica_ReceiptAge].

(** [bootstrap/metrics.go] *)
Class BootstrapMetrics := {
  bootstrap_LoadingStageDuration : family;
  bootstrap_LoadingRestarts : family;
  bootstrap_LocalDBRebuilds : family;
  bootstrap_RegistrationDuration : family;
}.
#[global] Instance bootstrap_metrics : BootstrapMetrics := {|
  bootstrap_LoadingStageDuration := mkFamily "netsy_loading_stage_duration_seconds" Histogram ["stage"; "result"];
  bootstrap_LoadingRestarts := mkFamily "netsy_loading_restarts_total" Counter ["reason"];
  bootstrap_LocalDBRebuilds := mkFamily "netsy_local_db_rebuilds_total" Counter ["reason"];
  bootstrap_RegistrationDuration := mkFamily "netsy_node_registration_duration_seconds" Histogram ["result"];
|}.
Definition bootstrap_Collectors : list family :=
  [bootstrap_LoadingStageDuration; bootstrap_LoadingRestarts; bootstrap_LocalDBRebuilds;
   bootstrap_RegistrationDuration].

(** ** The registry and the role groups *)

(** A collector is registered under the names it describes; one that
    describes nothing is accepted unchecked. *)
Definition MustRegister (described registered : list string) : option (list string) :=
  if existsb (λ n, bool_decide (n ∈ registered)) described then None else Some (registered ++ described)%list.

Fixpoint register_each (fs : list family) (registered : list string) : option (list string) :=
  match fs with
  | [] => Some registered
  | f :: fs => MustRegister [f_name f] registered ≫= register_each fs
  end.

Record RoleGroup := mkRoleGroup {
  rg_active : State → bool;
  rg_collectors : list family;
}.

Definition NewRoleGroup (active : State → bool) : RoleGroup := mkRoleGroup active [].
Definition RoleGroup_Add (cs : list family) (g : RoleGroup) : RoleGroup :=
  mkRoleGroup (rg_active g) (rg_collectors g ++ cs)%list.
Definition RoleGroup_Describe (g : RoleGroup) : list string := map f_name (rg_collectors g).
Definition RoleGroup_Collect (st : State) (g : RoleGroup) : list string :=
  if negb (rg_active g st) then [] else map f_name (rg_collectors g).

Definition primary_active (st : State) : bool :=
  bool_decide (primary st = PrimaryStarting) || bool_decide (primary st = PrimaryActive)
  || bool_decide (primary st = PrimaryDraining).
Definition elector_active (st : State) : bool := bool_decide (elector st = ElectorLeader).
Definition replica_active (st : State) : bool := bool_decide (primary st = PrimaryReplica).

Record exposition := mkExposition {
  ex_registered : list string;
  ex_primary : RoleGroup;
  ex_elector : RoleGroup;
  ex_replica : RoleGroup;
}.

(** [NewRegistry] with the names of the Go and process collectors. *)
Definition NewRegistry (go process : list string) : option (list string) :=
  MustRegister go [] ≫= MustRegister process.

(** The registrations of start-up in their order; the groups are registered
    before anything is added to them. *)
Definition setup_metrics (go process grpc : list string) : option exposition :=
  reg ← NewRegistry go process;
  reg ← register_each state_Collectors reg;
  reg ← register_each retry_Collectors reg;
  reg ← register_each compaction_Collectors reg;
  let primaryGroup := NewRoleGroup primary_active in
  let electorGroup := NewRoleGroup elector_active in
  let replicaGroup := NewRoleGroup replica_active in
  reg ← MustRegister (RoleGroup_Describe primaryGroup) reg;
  reg ← MustRegister (RoleGroup_Describe electorGroup) reg;
  reg ← MustRegister (RoleGroup_Describe replicaGroup) reg;
  let primaryGroup := RoleGroup_Add primary_Collectors primaryGroup in
  let electorGroup := RoleGroup_Add elector_Collectors electorGroup in
  reg ← register_each client_AlwaysOnCollectors reg;
  let replicaGroup := RoleGroup_Add replica_Collectors replicaGroup in
  let replicaGroup := RoleGroup_Add client_ReplicaCollectors replicaGroup in
  reg ← register_each storage_Collectors reg;
  reg ← register_each bootstrap_Collectors reg;
  reg ← MustRegister grpc reg;
  let primaryGroup := RoleGroup_Add snapshot_Collectors primaryGroup in
  Some (mkExposition reg primaryGroup electorGroup replicaGroup).

(** The families a scrape can contain. *)
Definition scrape (st : State) (ex : exposition) : list string :=
  (ex_registered ex ++ RoleGroup_Collect st (ex_primary ex) ++ RoleGroup_Collect st (ex_elector ex)
   ++ RoleGroup_Collect st (ex_replica ex))%list.

(** ** The node state gauges *)

Definition elector_name (e : ElectorState) : string :=
  match e with ElectorFollower => "follower" | ElectorLeader => "leader" end.
Definition primary_name (p : PrimaryState) : string :=
  match p with
  | PrimaryReplica => "replica" | PrimaryStarting => "starting"
  | PrimaryActive => "active" | PrimaryDraining => "draining"
  end.

(** The loop of every [Set...] method that puts one label to 1. *)
Fixpoint one_hot (f : family) (labels : list string) (state : string) (m : samples) : option samples :=
  match labels with
  | [] => Some m
  | l :: labels =>
      m ← Set_ f [l] (if bool_decide (l = state) then 1 else 0) m;
      one_hot f labels state m
  end.

Definition sm_SetHealth : string → samples → option samples :=
  one_hot state_HealthState ["loading"; "healthy"; "degraded"].
Definition sm_SetElector : string → samples → option samples :=
  one_hot state_ElectorState ["follower"; "leader"].
Definition sm_SetPrimary : string → samples → option samples :=
  one_hot state_PrimaryState ["replica"; "starting"; "active"; "draining"].

Definition NewStateMetrics (version clusterID nodeID quorumConfig : string) : option samples :=
  m ← Set_ state_Info [version; clusterID; nodeID; quorumConfig] 1 ∅;
  m ← sm_SetHealth "loading" m;
  m ← sm_SetElector "follower" m;
  sm_SetPrimary "replica" m.

(** The label of the configured quorum. *)
Definition quorumLabel (quorum : option Z) : string :=
  match quorum with
  | Some q => if q =? -1 then "majority" else if 0 <? q then "static:" ++ dec q else "disabled"
  | None => "disabled"
  end.

(** The setters of [State] once [SetMetrics] has run. *)
Inductive state_op :=
| op_health (to : HealthState)
| op_elector (to : ElectorState)
| op_primary (to : PrimaryState)
| op_committed (rev : Z)
| op_compaction (rev : Z)
| op_latest (rev : Z).

Record observed := mkObserved { ob_state : State; ob_samples : samples }.

Definition transition (r : res state_err unit * State) (show : samples → option samples) (m : samples)
    : option (res state_err unit * observed) :=
  match r with
  | (Err e, s) => Some (Err e, mkObserved s m)
  | (Ok _, s) => m ← show m; Some (Ok tt, mkObserved s m)
  end.

Definition observed_SetHealth (to : HealthState) (o : observed) : option (res state_err unit * observed) :=
  transition (SetHealth to (ob_state o)) (sm_SetHealth (health_name to)) (ob_samples o).
Definition observed_SetElector (to : ElectorState) (o : observed) : option (res state_err unit * observed) :=
  transition (SetElector to (ob_state o)) (sm_SetElector (elector_name to)) (ob_samples o).
Definition observed_SetPrimary (to : PrimaryState) (o : observed) : option (res state_err unit * observed) :=
  transition (SetPrimary to (ob_state o)) (sm_SetPrimary (primary_name to)) (ob_samples o).
Definition observed_SetCommitted (rev : Z) (o : observed) : option observed :=
  m ← Set_ state_CommittedRevision [] (to_float rev) (ob_samples o);
  Some (mkObserved (SetCommitted rev (ob_state o)) m).
Definition observed_SetCompaction (rev : Z) (o : observed) : option observed :=
  m ← Set_ state_CompactionRevision [] (to_float rev) (ob_samples o);
  Some (mkObserved (SetCompaction rev (ob_state o)) m).
Definition SetLatest (rev : Z) (o : observed) : option observed :=
  m ← Set_ state_LatestRevision [] (to_float rev) (ob_samples o); Some (mkObserved (ob_state o) m).

Definition observed_op (op : state_op) (o : observed) : option observed :=
  match op with
  | op_health to => snd <$> observed_SetHealth to o
  | op_elector to => snd <$> observed_SetElector to o
  | op_primary to => snd <$> observed_SetPrimary to o
  | op_committed rev => observed_SetCommitted rev o
  | op_compaction rev => observed_SetCompaction rev o
  | op_latest rev => SetLatest rev o
  end.

(** The same setters without metrics. *)
Definition plain_op (op : state_op) (s : State) : State :=
  match op with
  | op_health to => (SetHealth to s).2
  | op_elector to => (SetElector to s).2
  | op_primary to => (SetPrimary to s).2
  | op_committed rev => SetCommitted rev s
  | op_compaction rev => SetCompaction rev s
  | op_latest _ => s
  end.

Fixpoint observed_run (ops : list state_op) (o : observed) : option observed :=
  match ops with [] => Some o | op :: ops => observed_op op o ≫= observed_run ops end.

(** ** The other updates *)

Definition resultLabel (err : bool) : string := if err then "error" else "success".

Definition ObserveWrite (kind mode : string) (err : bool) (m : samples) : option samples :=
  let result := resultLabel err in
  m ← Inc storage_WritesTotal [kind; mode; result] m;
  m ← Observe storage_WriteDuration [kind; mode; result] m;
  Observe storage_WriteBytes [kind; mode] m.

Definition ObserveRead (err : bool) (m : samples) : option samples :=
  let result := resultLabel err in
  m ← Inc storage_ReadsTotal [result] m;
  Observe storage_ReadDuration [result] m.

Definition retry_Inc (operation : string) : samples → option samples := Inc retry_Total [operation].

Definition SetWritePath : string → samples → option samples := one_hot primary_WritePath ["sync"; "quorum"].

(** What [LeaderTxn] shows of the strategy it selected, and of the outcome. *)
Definition path_label (useQuorum : bool) : string := if useQuorum then "quorum" else "sync".

Definition observe_strategy (strategy : txnStrategy) (healthy receipted : Z) (m : samples) : option samples :=
  m ← SetWritePath (path_label (useQuorum strategy)) m;
  m ← Set_ primary_RequiredReceipts [] (to_float (required strategy)) m;
  m ← Set_ primary_HealthyReplicas [] (to_float healthy) m;
  Set_ primary_ReceiptedReplicas [] (to_float receipted) m.

Definition observe_txn (useQuorum err : bool) (m : samples) : option samples :=
  m ← Inc primary_WriteTransactions [path_label useQuorum; resultLabel err] m;
  Observe primary_WriteDuration [path_label useQuorum; resultLabel err] m.

(** The chunk buffer: its size after an append or a flush, a finished flush,
    and its age when it is collected. *)
Definition show_buffer (b : chunkBuffer) (m : samples) : option samples :=
  m ← Set_ primary_ChunkBufferRecords [] (to_float (Z.of_nat (length (cb_records b)))) m;
  Set_ primary_ChunkBufferBytes [] (to_float (cb_bytes b)) m.

Definition observe_flush (trigger : string) (failed : bool) (lastRevision : Z) (m : samples) : option samples :=
  m ← Inc primary_ChunkBufferFlushes [trigger; resultLabel failed] m;
  m ← Observe primary_ChunkBufferFlushDur [trigger; resultLabel failed] m;
  if failed then Some m else Set_ primary_ObjectStorageRevision [] (to_float lastRevision) m.

Definition buffer_age (now : Z) (b : chunkBuffer) : Z :=
  match cb_records b, cb_oldestAt b with _ :: _, Some t => now - t | _, _ => 0 end.

(** [snapshotAgeGauge.Collect] and [receiptAgeGauge.Collect]. *)
Definition age_since (now : Z) (last : option Z) : Z := match last with Some t => now - t | None => 0 end.

Definition observeSnapshot (success : bool) (now : Z) (last : option Z) (m : samples)
    : option (samples * option Z) :=
  let result := resultLabel (negb success) in
  m ← Inc snapshot_Creations [result] m;
  m ← Observe snapshot_CreateDur [result] m;
  Some (m, if success then Some now else last).

(** The Elector's gauges after a health check. *)
Definition observe_nodes (entries : list NodeEntry) (m : samples) : option samples :=
  let count h := Z.of_nat (length (filter (λ e, ne_HealthState e = h) entries)) in
  m ← Set_ elector_RegisteredNodes [] (to_float (Z.of_nat (length entries))) m;
  m ← Set_ elector_HealthyNodes [] (to_float (count HealthHealthy)) m;
  Set_ elector_DegradedNodes [] (to_float (count HealthDegraded)) m.

(** Requests served here and writes forwarded to the Primary. *)
Definition observe_request (kind : string) (err : bool) (m : samples) : option samples :=
  m ← Inc client_RequestsTotal [kind; resultLabel err] m;
  Observe client_RequestDuration [kind] m.
Definition observe_proxy (err : bool) (m : samples) : option samples :=
  m ← Inc client_ProxyRequestsTotal ["txn"; resultLabel err] m;
  Observe client_ProxyRequestDuration ["txn"] m.

Definition updateWatchMetrics (wm : Manager) (m : samples) : option samples :=
  m ← Set_ client_Watches [] (to_float (WatchCount wm)) m;
  let minRev := MinWatchRevision wm in
  if 0 <=? minRev then Set_ client_WatchMinRevision [] (to_float minRev) m else Some m.

(** ** Theorems *)

(** Integers below [2^53] are exact in a gauge. *)
Lemma to_float_exact n : Z.abs n < 2 ^ 53 → to_float n = n.
Proof.
  intros Hn. rewrite /to_float. destruct (decide (n = 0)) as [->|Hne]; [done|].
  destruct (round53_exact (Z.abs n) 1 (Z.abs n)) as (e & -> & He); [lia|lia|lia|].
  rewrite /float_trunc. cbn [fst snd]. destruct (Z.leb_spec 0 e).
  - assert (e = 0) as -> by lia. cbn. lia.
  - rewrite Z.div_mul; [|lia]. apply Z.pow_nonzero; lia.
Qed.

(** The revision after [2^53] is not. *)
Lemma to_float_rounds : to_float (2 ^ 53 + 1) = 2 ^ 53.
Proof. vm_compute. reflexivity. Qed.

Lemma value_set f vals v m m' : Set_ f vals v m = Some m' → value f vals m' = v.
Proof. rewrite /Set_ /at_labels /value. case_match; [|done]. intros [= <-]. by rewrite lookup_insert_eq. Qed.

Lemma value_other f vals g m m' f' vals' :
  at_labels f vals g m = Some m' → (f_name f', vals') ≠ (f_name f, vals) → value f' vals' m' = value f' vals' m.
Proof.
  rewrite /at_labels /value. case_match; [|done]. intros [= <-] Hne. by rewrite lookup_insert_ne.
Qed.

(** A loop over labels leaves 1 at the chosen label, 0 at the others of the
    loop, and no other family changed. *)
Lemma one_hot_spec f labels state m :
  length (f_labels f) = 1%nat → NoDup labels →
  ∃ m', one_hot f labels state m = Some m' ∧
    (∀ l, l ∈ labels → value f [l] m' = if bool_decide (l = state) then 1 else 0) ∧
    (∀ f' vals, f_name f' ≠ f_name f ∨ (∀ l, l ∈ labels → vals ≠ [l]) → value f' vals m' = value f' vals m).
Proof.
  intros Hf. revert m. induction labels as [|l labels IH]; intros m Hnd.
  { exists m. split; [done|]. split; [|done]. intros l Hl. by apply elem_of_nil in Hl. }
  apply NoDup_cons in Hnd as [Hl Hnd]. cbn [one_hot].
  destruct (Set_ f [l] (if bool_decide (l = state) then 1 else 0) m) as [m1|] eqn:E1;
    [|rewrite /Set_ /at_labels Hf in E1; done]. cbn [mbind option_bind].
  destruct (IH m1 Hnd) as (m' & -> & Hin & Hout). exists m'. split; [done|]. split.
  - intros l' [->|Hl']%elem_of_cons; [|by apply Hin].
    rewrite Hout. { right. intros l' Hl' [= ->]. done. } by apply (value_set _ _ _ _ _ E1).
  - intros f' vals Ho. rewrite Hout.
    { destruct Ho as [?|Ho]; [by left|right]. intros l' Hl'. apply Ho. set_solver. }
    apply (value_other _ _ _ _ _ _ _ E1). intros [= ? ->]. destruct Ho as [?|Ho]; [done|]. apply (Ho l); set_solver.
Qed.

(** The gauges show the state. *)
Definition gauges_show (o : observed) : Prop :=
  (∀ h, value state_HealthState [health_name h] (ob_samples o) = if bool_decide (h = health (ob_state o)) then 1 else 0) ∧
  (∀ e, value state_ElectorState [elector_name e] (ob_samples o) = if bool_decide (e = elector (ob_state o)) then 1 else 0) ∧
  (∀ p, value state_PrimaryState [primary_name p] (ob_samples o) = if bool_decide (p = primary (ob_state o)) then 1 else 0) ∧
  value state_CommittedRevision [] (ob_samples o) = to_float (committed (ob_state o)) ∧
  value state_CompactionRevision [] (ob_samples o) = to_float (compaction (ob_state o)).

#[export] Instance health_name_inj : Inj (=) (=) health_name.
Proof. by intros [] []. Qed.
#[export] Instance elector_name_inj : Inj (=) (=) elector_name.
Proof. by intros [] []. Qed.
#[export] Instance primary_name_inj : Inj (=) (=) primary_name.
Proof. by intros [] []. Qed.

Lemma one_hot_names {A} `{!EqDecision A} (name : A → string) `{!Inj (=) (=) name} f labels to m :
  length (f_labels f) = 1%nat → NoDup labels → (∀ a, name a ∈ labels) →
  ∃ m', one_hot f labels (name to) m = Some m' ∧
    (∀ a, value f [name a] m' = if bool_decide (a = to) then 1 else 0) ∧
    (∀ f' vals, f_name f' ≠ f_name f → value f' vals m' = value f' vals m).
Proof.
  intros Hf Hnd Hall. destruct (one_hot_spec f labels (name to) m Hf Hnd) as (m' & E & Hin & Hout).
  exists m'. split; [done|]. split; [|intros; apply Hout; by left].
  intros a. rewrite (Hin _ (Hall a)). do 2 case_bool_decide; try done; [by simplify_eq|by subst].
Qed.

Lemma sm_SetHealth_spec to m :
  ∃ m', sm_SetHealth (health_name to) m = Some m' ∧
    (∀ h, value state_HealthState [health_name h] m' = if bool_decide (h = to) then 1 else 0) ∧
    (∀ f vals, f_name f ≠ f_name state_HealthState → value f vals m' = value f vals m).
Proof. apply (one_hot_names health_name); [done| |by intros []; set_solver]. by apply (bool_decide_unpack _). Qed.

Lemma sm_SetElector_spec to m :
  ∃ m', sm_SetElector (elector_name to) m = Some m' ∧
    (∀ e, value state_ElectorState [elector_name e] m' = if bool_decide (e = to) then 1 else 0) ∧
    (∀ f vals, f_name f ≠ f_name state_ElectorState → value f vals m' = value f vals m).
Proof. apply (one_hot_names elector_name); [done| |by intros []; set_solver]. by apply (bool_decide_unpack _). Qed.

Lemma sm_SetPrimary_spec to m :
  ∃ m', sm_SetPrimary (primary_name to) m = Some m' ∧
    (∀ p, value state_PrimaryState [primary_name p] m' = if bool_decide (p = to) then 1 else 0) ∧
    (∀ f vals, f_name f ≠ f_name state_PrimaryState → value f vals m' = value f vals m).
Proof. apply (one_hot_names primary_name); [done| |by intros []; set_solver]. by apply (bool_decide_unpack _). Qed.

Lemma NewStateMetrics_shows version clusterID nodeID quorumConfig :
  ∃ m, NewStateMetrics version clusterID nodeID quorumConfig = Some m ∧ gauges_show (mkObserved State_New m).
Proof.
  rewrite /NewStateMetrics. destruct (Set_ state_Info _ 1 ∅) as [m0|] eqn:E0; [|done]. cbn [mbind option_bind].
  assert (∀ f vals, f_name f ≠ f_name state_Info → value f vals m0 = 0) as H0.
  { intros f vals Hne. rewrite (value_other _ _ _ _ _ _ _ E0); [by intros [= ?]|]. by rewrite /value lookup_empty. }
  destruct (sm_SetHealth_spec HealthLoading m0) as (m1 & E1 & V1 & O1). cbn [health_name] in E1. rewrite E1. cbn [mbind option_bind].
  destruct (sm_SetElector_spec ElectorFollower m1) as (m2 & E2 & V2 & O2). cbn [elector_name] in E2. rewrite E2. cbn [mbind option_bind].
  destruct (sm_SetPrimary_spec PrimaryReplica m2) as (m3 & E3 & V3 & O3). cbn [primary_name] in E3. rewrite E3.
  exists m3. split; [done|]. split_and!; cbn [ob_samples ob_state].
  - intros h. by rewrite O3 // O2 // V1.
  - intros e. by rewrite O3 // V2.
  - intros p. by rewrite V3.
  - by rewrite O3 // O2 // O1 // H0.
  - by rewrite O3 // O2 // O1 // H0.
Qed.

Lemma observed_op_shows op o :
  gauges_show o → ∃ o', observed_op op o = Some o' ∧ ob_state o' = plain_op op (ob_state o) ∧ gauges_show o'.
Proof.
  destruct o as [s m]. intros (H1 & H2 & H3 & H4 & H5). cbn [ob_state ob_samples] in *.
  destruct op as [to|to|to|rev|rev|rev]; cbn [observed_op plain_op].
  - rewrite /observed_SetHealth /transition /SetHealth. cbn [ob_state ob_samples].
    destruct (negb (validHealthTransition _ _)); [by eexists|].
    destruct (sm_SetHealth_spec to m) as (m' & E & V & O). rewrite E. eexists. split; [done|]. split; [done|].
    split_and!; cbn [ob_samples ob_state health elector primary committed compaction]; intros; first [apply V|by rewrite O].
  - rewrite /observed_SetElector /transition /SetElector. cbn [ob_state ob_samples].
    destruct (negb (validElectorTransition _ _)); [by eexists|].
    destruct (sm_SetElector_spec to m) as (m' & E & V & O). rewrite E. eexists. split; [done|]. split; [done|].
    split_and!; cbn [ob_samples ob_state health elector primary committed compaction]; intros; first [apply V|by rewrite O].
  - rewrite /observed_SetPrimary /transition /SetPrimary. cbn [ob_state ob_samples].
    destruct (negb (validPrimaryTransition _ _)); [by eexists|].
    destruct (sm_SetPrimary_spec to m) as (m' & E & V & O). rewrite E. eexists. split; [done|]. split; [done|].
    split_and!; cbn [ob_samples ob_state health elector primary committed compaction]; intros; first [apply V|by rewrite O].
  - rewrite /observed_SetCommitted. destruct (Set_ state_CommittedRevision [] _ _) as [m'|] eqn:E; [|done].
    eexists. split; [done|]. split; [done|].
    split_and!; cbn -[value]; intros;
      first [by apply (value_set _ _ _ _ _ E)|by rewrite (value_other _ _ _ _ _ _ _ E)].
  - rewrite /observed_SetCompaction. destruct (Set_ state_CompactionRevision [] _ _) as [m'|] eqn:E; [|done].
    eexists. split; [done|]. split; [done|].
    split_and!; cbn -[value]; intros;
      first [by apply (value_set _ _ _ _ _ E)|by rewrite (value_other _ _ _ _ _ _ _ E)].
  - rewrite /SetLatest. destruct (Set_ state_LatestRevision [] _ _) as [m'|] eqn:E; [|done].
    eexists. split; [done|]. split; [done|].
    split_and!; cbn -[value]; intros; by rewrite (value_other _ _ _ _ _ _ _ E).
Qed.

(** C38: the state gauges mirror the node state: after any sequence of valid
    and refused transitions and revision updates nothing panicked, the state is
    the one the setters produce without metrics, exactly the label of the
    current health, elector and primary state is 1 and the others are 0, and
    the revision gauges hold the revisions, exactly so below [2^53]. *)
Theorem state_gauges_mirror version clusterID nodeID quorumConfig ops :
  ∃ m o, NewStateMetrics version clusterID nodeID quorumConfig = Some m ∧
    observed_run ops (mkObserved State_New m) = Some o ∧
    ob_state o = foldl (λ s op, plain_op op s) State_New ops ∧ gauges_show o ∧
    (Z.abs (committed (ob_state o)) < 2 ^ 53 →
     value state_CommittedRevision [] (ob_samples o) = committed (ob_state o)) ∧
    (Z.abs (compaction (ob_state o)) < 2 ^ 53 →
     value state_CompactionRevision [] (ob_samples o) = compaction (ob_state o)).
Proof.
  destruct (NewStateMetrics_shows version clusterID nodeID quorumConfig) as (m & Hm & Hshow).
  assert (∀ ops o, gauges_show o → ∃ o', observed_run ops o = Some o' ∧
            ob_state o' = foldl (λ s op, plain_op op s) (ob_state o) ops ∧ gauges_show o') as Hrun.
  { clear. induction ops as [|op ops IH]; intros o Ho; [by exists o|].
    destruct (observed_op_shows op o Ho) as (o1 & E1 & Es & Ho1).
    cbn [observed_run foldl]. rewrite E1 -Es. by apply IH. }
  destruct (Hrun ops _ Hshow) as (o & Ho & Hs & Hsh). exists m, o. split_and!; try done; apply Hsh || idtac.
  - intros. destruct Hsh as (_ & _ & _ & -> & _). by apply to_float_exact.
  - intros. destruct Hsh as (_ & _ & _ & _ & ->). by apply to_float_exact.
Qed.

(** *** Registration *)

Lemma MustRegister_fresh ns reg : (∀ n, n ∈ ns → n ∉ reg) → MustRegister ns reg = Some (reg ++ ns)%list.
Proof.
  intros Hf. rewrite /MustRegister (proj2 (existsb_false _ ns)) //. intros n Hn.
  by apply bool_decide_eq_false_2, Hf.
Qed.

Lemma register_each_fresh fs reg :
  NoDup (map f_name fs) → (∀ n, n ∈ map f_name fs → n ∉ reg) →
  register_each fs reg = Some (reg ++ map f_name fs)%list.
Proof.
  revert reg. induction fs as [|f fs IH]; intros reg Hnd Hf; [by rewrite /= app_nil_r|].
  cbn [map] in *. apply NoDup_cons in Hnd as [Hn Hnd]. cbn [register_each].
  rewrite MustRegister_fresh. { intros n ->%list_elem_of_singleton. apply Hf. set_solver. }
  cbn [mbind option_bind]. rewrite IH //; [|by rewrite -app_assoc].
  intros n Hin. rewrite elem_of_app list_elem_of_singleton. intros [?| ->]; [|done]. apply (Hf n); set_solver.
Qed.

(** Every family of this program, in the order it is registered or added. *)
Definition always_on : list family :=
  (state_Collectors ++ retry_Collectors ++ compaction_Collectors ++ client_AlwaysOnCollectors
   ++ storage_Collectors ++ bootstrap_Collectors)%list.
Definition primary_families : list family := (primary_Collectors ++ snapshot_Collectors)%list.
Definition replica_families : list family := (replica_Collectors ++ client_ReplicaCollectors)%list.

Definition own_families : list string :=
  (map f_name always_on ++ map f_name primary_families ++ map f_name elector_Collectors
   ++ map f_name replica_families)%list.

Lemma own_names : NoDup own_families ∧ Forall (λ n, String.prefix "netsy_" n = true) own_families.
Proof. split; apply (bool_decide_unpack _); vm_compute; exact I. Qed.

(** The collectors of the libraries use the prefixes of their documentation. *)
Record library_names (go process grpc : list string) : Prop := {
  ln_go : NoDup go ∧ Forall (λ n, String.prefix "go_" n = true) go;
  ln_process : NoDup process ∧ Forall (λ n, String.prefix "process_" n = true) process;
  ln_grpc : NoDup grpc ∧ Forall (λ n, String.prefix "grpc_server_" n = true) grpc;
}.

Lemma prefix_split p q n :
  String.prefix p n = true → String.prefix q n = true → String.prefix p q = true ∨ String.prefix q p = true.
Proof.
  revert q n. induction p as [|a p IH]; intros q n Hp Hq; [left; by destruct q|].
  destruct q as [|b q]; [right; by destruct p|]. destruct n as [|c n]; [by cbn in Hp|]. cbn in *.
  destruct (Ascii.ascii_dec a c) as [->|]; [|done]. destruct (Ascii.ascii_dec b c) as [->|]; [|done].
  destruct (Ascii.ascii_dec c c); [|done]. by apply (IH q n).
Qed.

Lemma prefix_disjoint p q ns ns' n :
  Forall (λ n, String.prefix p n = true) ns → Forall (λ n, String.prefix q n = true) ns' →
  String.prefix p q || String.prefix q p = false → n ∈ ns → n ∉ ns'.
Proof.
  intros Hp Hq [H1 H2]%orb_false_iff Hn Hn'. rewrite Forall_forall in Hp. rewrite Forall_forall in Hq.
  destruct (prefix_split p q n (Hp n Hn) (Hq n Hn')); congruence.
Qed.

Lemma register_each_app fs fs' reg :
  register_each (fs ++ fs')%list reg = register_each fs reg ≫= register_each fs'.
Proof.
  revert reg. induction fs as [|f fs IH]; intros reg; [done|]. cbn [app register_each].
  destruct (MustRegister [f_name f] reg); [|done]. apply IH.
Qed.

Lemma setup_metrics_spec go process grpc :
  library_names go process grpc →
  setup_metrics go process grpc
  = Some (mkExposition ((go ++ process) ++ map f_name always_on ++ grpc)
            (mkRoleGroup primary_active primary_families) (mkRoleGroup elector_active elector_Collectors)
            (mkRoleGroup replica_active replica_families))%list.
Proof.
  intros [[Ng Pg] [Np Pp] [Nr Pr]]. destruct own_names as [Hnd Hpre].
  apply NoDup_app in Hnd as (Hnd & _ & _). apply Forall_app in Hpre as [Hpre _].
  rewrite /setup_metrics /NewRegistry MustRegister_fresh; [intros n _; apply not_elem_of_nil|].
  cbn [mbind option_bind app]. rewrite MustRegister_fresh; [intros n; by eapply prefix_disjoint|]. cbn [mbind option_bind].
  assert (register_each always_on (go ++ process)%list = Some ((go ++ process) ++ map f_name always_on)%list) as Hreg.
  { apply register_each_fresh; [done|]. intros n Hn. rewrite not_elem_of_app. split; by eapply (prefix_disjoint "netsy_"). }
  assert (MustRegister grpc ((go ++ process) ++ map f_name always_on)%list
          = Some (((go ++ process) ++ map f_name always_on) ++ grpc)%list) as Hgrpc.
  { apply MustRegister_fresh. intros n Hn. rewrite !not_elem_of_app.
    split_and!; by eapply (prefix_disjoint "grpc_server_"). }
  assert (∀ reg, MustRegister [] reg = Some reg) as Hnil by (intros; rewrite /MustRegister /= app_nil_r //).
  revert Hreg Hgrpc. generalize (map f_name always_on) as names. intros names.
  rewrite /always_on register_each_app.
  destruct (register_each state_Collectors _) as [r1|]; cbn [mbind option_bind]; [|by intros].
  rewrite register_each_app. destruct (register_each retry_Collectors _) as [r2|]; cbn [mbind option_bind]; [|by intros].
  rewrite register_each_app. destruct (register_each compaction_Collectors _) as [r3|]; cbn [mbind option_bind]; [|by intros].
  rewrite /RoleGroup_Describe /NewRoleGroup. cbn [rg_collectors map].
  do 3 (rewrite Hnil; cbn [mbind option_bind]).
  rewrite register_each_app. destruct (register_each client_AlwaysOnCollectors _) as [r4|]; cbn [mbind option_bind]; [|by intros].
  rewrite register_each_app. destruct (register_each storage_Collectors _) as [r5|]; cbn [mbind option_bind]; [|by intros].
  intros -> Hgrpc. cbn [mbind option_bind]. rewrite Hgrpc. cbn [mbind option_bind]. by rewrite -app_assoc.
Qed.

Lemma primary_active_spec st : primary_active st = bool_decide (primary st ≠ PrimaryReplica).
Proof. rewrite /primary_active. by destruct (primary st). Qed.

Lemma collect_sub st g : RoleGroup_Collect st g `sublist_of` map f_name (rg_collectors g).
Proof. rewrite /RoleGroup_Collect. destruct (rg_active g st); [done|apply sublist_nil_l]. Qed.

Lemma elem_group n (b : bool) (l : list string) : n ∈ (if negb b then [] else l) ↔ b = true ∧ n ∈ l.
Proof. destruct b; cbn; [tauto|]. rewrite elem_of_nil. naive_solver. Qed.

(** A family of one group is exposed when the group is active: no other
    group and no library has its name. *)
Lemma scrape_elem go process grpc ex st f :
  library_names go process grpc → setup_metrics go process grpc = Some ex →
  (f ∈ primary_families → f_name f ∈ scrape st ex ↔ primary st ≠ PrimaryReplica) ∧
  (f ∈ elector_Collectors → f_name f ∈ scrape st ex ↔ elector st = ElectorLeader) ∧
  (f ∈ replica_families → f_name f ∈ scrape st ex ↔ primary st = PrimaryReplica) ∧
  (f ∈ always_on → f_name f ∈ scrape st ex).
Proof.
  intros Hlib Hset. rewrite (setup_metrics_spec _ _ _ Hlib) in Hset. apply (inj Some) in Hset as <-.
  destruct Hlib as [[_ Pg] [_ Pp] [_ Pr]]. destruct own_names as [Hnd Hpre].
  assert (f_name f ∈ own_families → (f_name f ∉ go) ∧ (f_name f ∉ process) ∧ (f_name f ∉ grpc)) as Hout.
  { intros Hn. split_and!; by eapply (prefix_disjoint "netsy_"). }
  assert (∀ l, f ∈ l → f_name f ∈ map f_name l) as Hin by (intros; apply list_elem_of_fmap; eauto).
  generalize (Hin primary_families) (Hin elector_Collectors) (Hin replica_families) (Hin always_on).
  generalize (f ∈ primary_families) (f ∈ elector_Collectors) (f ∈ replica_families) (f ∈ always_on). intros.
  rewrite /own_families !NoDup_app in Hnd. destruct Hnd as (_ & D1 & _ & D2 & _ & D3 & _).
  specialize (D1 (f_name f)). specialize (D2 (f_name f)). specialize (D3 (f_name f)).
  rewrite /own_families !elem_of_app in Hout. rewrite !elem_of_app in D1. rewrite !elem_of_app in D2.
  rewrite /scrape /RoleGroup_Collect. cbn [ex_registered ex_primary ex_elector ex_replica rg_active rg_collectors].
  rewrite primary_active_spec /elector_active /replica_active.
  rewrite !elem_of_app !elem_group !bool_decide_eq_true. tauto.
Qed.

Lemma scrape_nodup go process grpc ex st :
  library_names go process grpc → setup_metrics go process grpc = Some ex → NoDup (scrape st ex).
Proof.
  intros Hlib Hset. rewrite (setup_metrics_spec _ _ _ Hlib) in Hset. apply (inj Some) in Hset as <-.
  destruct Hlib as [[Ng Pg] [Np Pp] [Nr Pr]]. destruct own_names as [Hnd Hpre].
  apply (sublist_NoDup _ (((go ++ process) ++ map f_name always_on ++ grpc) ++ map f_name primary_families
                          ++ map f_name elector_Collectors ++ map f_name replica_families)%list).
  2: { apply sublist_app; [done|]. apply sublist_app; [apply collect_sub|]. apply sublist_app; apply collect_sub. }
  assert (NoDup ((go ++ process ++ grpc) ++ own_families)) as Hall.
  { apply NoDup_app. split_and!; [|intros n Hn Hown|done].
      - rewrite !NoDup_app. split_and!; try done; intros n Hn; rewrite ?elem_of_app => Hn'.
        + destruct Hn' as [Hn'|Hn']; revert Hn'; by eapply (prefix_disjoint "go_").
        + revert Hn'. by eapply (prefix_disjoint "process_").
      - rewrite !elem_of_app in Hn. destruct Hn as [Hn|[Hn|Hn]]; revert Hn; by eapply (prefix_disjoint "netsy_"). }
  eapply NoDup_Permutation_proper; [|exact Hall]. rewrite /own_families -!app_assoc.
  do 2 apply Permutation_app_head. apply Permutation_app_swap_app.
Qed.

(** Start-up registers every metric without a panic, and a scrape is well
    formed: whatever names under their prefixes the Go, process and gRPC
    collectors describe, every registration succeeds, no family appears twice
    in any node state, the always-on families always appear, the Primary's
    exactly when the node is not a Replica, the Elector's exactly on the leader
    and the Replica's exactly on a Replica. *)
Theorem metrics_exposed go process grpc :
  library_names go process grpc →
  ∃ ex, setup_metrics go process grpc = Some ex ∧ ∀ st,
    NoDup (scrape st ex) ∧ ∀ f,
    (f ∈ primary_families → f_name f ∈ scrape st ex ↔ primary st ≠ PrimaryReplica) ∧
    (f ∈ elector_Collectors → f_name f ∈ scrape st ex ↔ elector st = ElectorLeader) ∧
    (f ∈ replica_families → f_name f ∈ scrape st ex ↔ primary st = PrimaryReplica) ∧
    (f ∈ always_on → f_name f ∈ scrape st ex).
Proof.
  intros Hlib. eexists. split; [by apply setup_metrics_spec|]. intros st. split.
  - eapply scrape_nodup; [done|]. by apply setup_metrics_spec.
  - intros f. eapply scrape_elem; [done|]. by apply setup_metrics_spec.
Qed.

Lemma metrics_exposed_witness :
  let go := ["go_goroutines"; "go_gc_duration_seconds"] in
  let process := ["process_cpu_seconds_total"] in
  let grpc := ["grpc_server_started_total"; "grpc_server_handling_seconds"] in
  library_names go process grpc ∧
  ∃ ex, setup_metrics go process grpc = Some ex ∧
    NoDup (scrape State_New ex) ∧ length (scrape State_New ex) = 32%nat.
Proof.
  intros go process grpc.
  assert (library_names go process grpc) as Hlib
    by (split; split; apply (bool_decide_unpack _); vm_compute; exact I).
  split; [done|]. destruct (metrics_exposed go process grpc Hlib) as (ex & Hex & Hst). exists ex.
  split; [done|]. split; [apply (Hst State_New)|].
  assert (ex = default ex (setup_metrics go process grpc)) as -> by by rewrite Hex. vm_compute. reflexivity.
Defined.

(** The groups describe nothing when they are registered, so the registry
    checks none of their families. *)
Lemma groups_registered_unchecked active reg : MustRegister (RoleGroup_Describe (NewRoleGroup active)) reg = Some reg.
Proof. by rewrite /MustRegister /= app_nil_r. Qed.

(** *** The other updates *)

Lemma at_labels_fits f vals g m :
  length vals = length (f_labels f) →
  ∃ m', at_labels f vals g m = Some m' ∧ value f vals m' = g (value f vals m) ∧
    ∀ f' vals', (f_name f', vals') ≠ (f_name f, vals) → value f' vals' m' = value f' vals' m.
Proof.
  intros Hlen. destruct (at_labels f vals g m) as [m'|] eqn:E.
  - exists m'. split; [done|]. split; [|intros; by apply (value_other _ _ _ _ _ _ _ E)].
    rewrite /at_labels Hlen Nat.eqb_refl in E. injection E as <-. by rewrite /value lookup_insert_eq.
  - by rewrite /at_labels Hlen Nat.eqb_refl in E.
Qed.

Ltac next_update :=
  match goal with
  | |- context [at_labels ?f ?vals ?g ?m] =>
      let m' := fresh "m" in let E := fresh "E" in let V := fresh "V" in let O := fresh "O" in
      destruct (at_labels_fits f vals g m eq_refl) as (m' & E & V & O); rewrite E; clear E; cbn [mbind option_bind]
  end.

(** A write to object storage counts one attempt under its result and none
    under the other. *)
Lemma ObserveWrite_counts kind mode err m :
  ∃ m', ObserveWrite kind mode err m = Some m' ∧
    value storage_WritesTotal [kind; mode; resultLabel err] m'
    = value storage_WritesTotal [kind; mode; resultLabel err] m + 1 ∧
    value storage_WritesTotal [kind; mode; resultLabel (negb err)] m'
    = value storage_WritesTotal [kind; mode; resultLabel (negb err)] m.
Proof.
  rewrite /ObserveWrite /Inc /Observe. do 3 next_update. eexists. split; [done|].
  rewrite O1 // O0 // V O1 // O0 // O //. by destruct err.
Qed.

(** A transaction shows its path and counts one outcome for it. *)
Lemma observe_txn_counts strategy healthy receipted err m :
  ∃ m1 m2, observe_strategy strategy healthy receipted m = Some m1 ∧
    observe_txn (useQuorum strategy) err m1 = Some m2 ∧
    value primary_WritePath ["quorum"] m2 = (if useQuorum strategy then 1 else 0) ∧
    value primary_WritePath ["sync"] m2 = (if useQuorum strategy then 0 else 1) ∧
    value primary_RequiredReceipts [] m2 = to_float (required strategy) ∧
    value primary_WriteTransactions [path_label (useQuorum strategy); resultLabel err] m2
    = value primary_WriteTransactions [path_label (useQuorum strategy); resultLabel err] m + 1.
Proof.
  rewrite /observe_strategy /SetWritePath.
  destruct (one_hot_spec primary_WritePath ["sync"; "quorum"] (path_label (useQuorum strategy)) m) as (m0 & -> & Hin & Hout);
    [done|by apply (bool_decide_unpack _)|]. cbn [mbind option_bind].
  rewrite /Set_. do 3 next_update. eexists. rewrite /observe_txn /Inc /Observe. do 2 next_update.
  eexists. split; [done|]. split; [done|].
  split_and!.
  - rewrite O3 // O2 // O1 // O0 // O // Hin; [set_solver|]. by destruct (useQuorum strategy).
  - rewrite O3 // O2 // O1 // O0 // O // Hin; [set_solver|]. by destruct (useQuorum strategy).
  - rewrite O3 // O2 // O1 // O0 //.
  - rewrite O3 // V2 O1 // O0 // O // Hout //. by left.
Qed.

(** A flush of older revisions that ends after a synchronous write lowers the
    gauge of the highest durable revision. *)
Lemma object_storage_revision_regresses :
  (m ← Set_ primary_ObjectStorageRevision [] (to_float 10) ∅; m ← observe_flush "age" false 8 m;
   Some (value primary_ObjectStorageRevision [] m)) = Some 8.
Proof. vm_compute. reflexivity. Qed.

(** The watch gauges show the manager; the minimum keeps its old value when
    the last watch is gone. *)
Lemma updateWatchMetrics_spec wm m :
  ∃ m', updateWatchMetrics wm m = Some m' ∧
    value client_Watches [] m' = to_float (WatchCount wm) ∧
    value client_WatchMinRevision [] m'
    = if 0 <=? MinWatchRevision wm then to_float (MinWatchRevision wm) else value client_WatchMinRevision [] m.
Proof.
  rewrite /updateWatchMetrics /Set_. next_update. destruct (0 <=? MinWatchRevision wm).
  - next_update. eexists. split; [done|]. split; [by rewrite O0|done].
  - eexists. split; [done|]. split; [done|]. by rewrite O.
Qed.

(** The Elector's gauges partition its nodes. *)
Lemma observe_nodes_spec entries m :
  Z.of_nat (length entries) < 2 ^ 53 →
  ∃ m', observe_nodes entries m = Some m' ∧
    value elector_RegisteredNodes [] m' = Z.of_nat (length entries) ∧
    value elector_HealthyNodes [] m' + value elector_DegradedNodes [] m'
    = Z.of_nat (length (filter (λ e, ne_HealthState e ≠ HealthLoading) entries)).
Proof.
  intros Hlen. rewrite /observe_nodes /Set_. do 3 next_update. eexists. split; [done|].
  rewrite O1 // O0 // V. rewrite to_float_exact; [lia|]. split; [done|].
  rewrite O1 // V0 V1.
  pose proof (length_filter (λ e, ne_HealthState e = HealthHealthy) entries) as L1.
  pose proof (length_filter (λ e, ne_HealthState e = HealthDegraded) entries) as L2.
  rewrite !to_float_exact; [lia|lia|]. rewrite -Nat2Z.inj_add. f_equal. clear.
  induction entries as [|e entries IH]; [done|]. rewrite !filter_cons.
  destruct (ne_HealthState e); repeat case_decide; try done; cbn [length]; lia.
Qed.

(** The buffer's age is never negative, and 0 when nothing is buffered. *)
Lemma buffer_age_spec now b :
  (∀ t, cb_oldestAt b = Some t → t ≤ now) → 0 ≤ buffer_age now b ∧ (cb_records b = [] → buffer_age now b = 0).
Proof.
  intros Ht. rewrite /buffer_age. destruct (cb_records b), (cb_oldestAt b) as [t|]; try done.
  split; [|done]. specialize (Ht t eq_refl). lia.
Qed.
