(* ===== verification/WatchStreams.v ===== *)
(** * internal/clientapi/etcdapi_watch_watch.go: the Watch handlers together

    Each call of [Watch] registers a watcher, serves the requests of its client
    until the stream ends or the watcher was closed for being slow, and cleans
    up.  The state is the watch manager with the handlers that are running and
    the watch gauges. *)

From S2P Require Import Prelude NodeState Records LocalDB Watch WatchTheorems Metrics.

#[local] Open Scope Z_scope.

Record watch_sys := mkWatchSys {
  ws_manager : Manager;
  ws_running : gset Z;
  ws_samples : samples;
}.

(** ** The handler *)

(** [Watch] up to its loop. *)
Definition Watch_open (y : watch_sys) : option watch_sys :=
  let '(id, m) := Register (ws_manager y) in
  s ← Inc client_Watchers [] (ws_samples y);
  Some (mkWatchSys m ({[id]} ∪ ws_running y) s).

(** One request, with the gauges after those that change the watches. *)
Definition Watch_serve (AutoWatchID InvalidWatchID : Z) (ok : bool) (id : Z) (req : WatchRequest)
    (st : State) (db : database) (y : watch_sys) : option watch_sys :=
  let m := Watch_request AutoWatchID InvalidWatchID ok id req st db (ws_manager y) in
  s ← match req with ReqProgress => Some (ws_samples y) | _ => updateWatchMetrics m (ws_samples y) end;
  Some (mkWatchSys m (ws_running y) s).

(** The end of [Watch], after its loop. *)
Definition Watch_close (id : Z) (y : watch_sys) : option watch_sys :=
  s ← at_labels client_Watchers [] (λ n, n - 1) (ws_samples y);
  let m := Cleanup id (ws_manager y) in
  s ← updateWatchMetrics m s;
  Some (mkWatchSys m (ws_running y ∖ {[id]}) s).

Definition with_manager (m : Manager) (y : watch_sys) : watch_sys := mkWatchSys m (ws_running y) (ws_samples y).

(** What the handlers do, in any order, and what the rest of the node does to
    the manager: records are distributed, inboxes dispatched, progress reported
    by the timer, the floor and the pending revisions moved. *)
Inductive stream_step : watch_sys → watch_sys → Prop :=
| ss_open y y' : watcherIDCounter (ws_manager y) < int64_max → Watch_open y = Some y' → stream_step y y'
| ss_serve auto inv ok id req st db y y' :
    id ∈ ws_running y → Watch_serve auto inv ok id req st db y = Some y' → stream_step y y'
| ss_close id y y' : id ∈ ws_running y → Watch_close id y = Some y' → stream_step y y'
| ss_distribute r prev m' y : Distribute r prev (ws_manager y) = Some m' → stream_step y (with_manager m' y)
| ss_dispatch ok id y : stream_step y (with_manager (update_watcher id (dispatch ok) (ws_manager y)) y)
| ss_progress inv rev id y :
    stream_step y (with_manager (update_watcher id (ReportProgress inv rev) (ws_manager y)) y)
| ss_floor f y : stream_step y (with_manager (set_floor f (ws_manager y)) y)
| ss_pending p y : stream_step y (with_manager (set_pending p (ws_manager y)) y).

Definition watch_sys_init : watch_sys := mkWatchSys NewManager ∅ ∅.

(** ** The invariant *)

(** A registered watcher is open and of a running handler; a running handler
    whose watcher has left the map finds it closed. *)
Record stream_inv (y : watch_sys) : Prop := {
  si_registered id :
    id ∈ wm_watchers (ws_manager y) →
    id ∈ ws_running y ∧ ∃ w, wm_objects (ws_manager y) !! id = Some w ∧ wt_inboxOk w = true;
  si_running id :
    id ∈ ws_running y → id ∉ wm_watchers (ws_manager y) →
    ∃ w, wm_objects (ws_manager y) !! id = Some w ∧ wt_inboxOk w = false;
  si_ids id : id ∈ ws_running y → 0 < id ≤ watcherIDCounter (ws_manager y);
  si_counter : 0 ≤ watcherIDCounter (ws_manager y);
  si_gauge : value client_Watchers [] (ws_samples y) = Z.of_nat (size (ws_running y));
}.

(** Steps that keep which watchers are registered and open. *)
Lemma stream_inv_update id f m s y :
  (∀ w, wt_inboxOk (f w) = wt_inboxOk w) →
  wm_objects m = alter f id (wm_objects (ws_manager y)) → wm_watchers m = wm_watchers (ws_manager y) →
  watcherIDCounter m = watcherIDCounter (ws_manager y) →
  value client_Watchers [] s = value client_Watchers [] (ws_samples y) →
  stream_inv y → stream_inv (mkWatchSys m (ws_running y) s).
Proof.
  intros Hf Ho Hw Hc Hs [H1 H2 H3 H4 H5].
  assert (∀ i b, (∃ w, wm_objects (ws_manager y) !! i = Some w ∧ wt_inboxOk w = b) →
    ∃ w, wm_objects m !! i = Some w ∧ wt_inboxOk w = b) as Hobj.
  { intros i b (w & Hi & Hb). rewrite Ho. destruct (decide (i = id)) as [->|].
    - rewrite lookup_alter_eq Hi. exists (f w). by rewrite Hf.
    - rewrite lookup_alter_ne //. by exists w. }
  split; cbn [ws_manager ws_running ws_samples]; rewrite ?Hw ?Hc ?Hs; try done.
  - intros i Hi. destruct (H1 i Hi). auto.
  - intros i Hi Hn. auto.
Qed.

Lemma updateWatchMetrics_watchers wm s s' :
  updateWatchMetrics wm s = Some s' → value client_Watchers [] s' = value client_Watchers [] s.
Proof.
  rewrite /updateWatchMetrics /Set_. next_update. destruct (0 <=? MinWatchRevision wm).
  - next_update. intros [= <-]. by rewrite O0 // O.
  - intros [= <-]. by rewrite O.
Qed.

(** A request is an update of the handler's own watcher. *)
Lemma Watch_request_update auto inv ok id req st db m :
  ∃ f c, (∀ w, wt_inboxOk (f w) = wt_inboxOk w) ∧
    Watch_request auto inv ok id req st db m = update_watcher id f (set_watchIDCounter c m).
Proof.
  destruct req as [r|wid|]; cbn [Watch_request].
  - destruct (CreateWatch_benign (wrap64 (watchIDCounter m + 1) + 1) auto ok id r (committed st) (compaction st) db m)
      as (f & c & Hf & ->); [lia|]. exists f, c. split; [|done]. intros w. apply Hf.
  - eexists _, (watchIDCounter m). split; [|by destruct m]. intros w.
    apply (benign_Cancel (wid + 1) ok wid (committed st) None). lia.
  - eexists _, (watchIDCounter m). split; [|by destruct m]. intros w.
    by apply (benign_ReportProgress 0 inv (committed st)).
Qed.

Lemma Distribute_status r prev m m' id w :
  Distribute r prev m = Some m' → id ∈ wm_watchers m → wm_objects m !! id = Some w → wt_inboxOk w = true →
  ∃ w', wm_objects m' !! id = Some w' ∧
    (id ∈ wm_watchers m' ∧ wt_inboxOk w' = true ∨ (id ∉ wm_watchers m') ∧ wt_inboxOk w' = false).
Proof.
  intros Hd Hid Hw Hok. rewrite /Distribute in Hd.
  destruct (distribute_watchers _ _ _ _) as [[slow m1]|] eqn:Hdw; [|done]. injection Hd as <-.
  destruct (distribute_watchers_spec _ _ _ _ _ _ Hdw (NoDup_elements _)) as (Hws & _ & Hin).
  destruct (Hin id w) as (s & w1 & Hdist & Hw1 & _); [by apply elem_of_elements|done|].
  destruct (distribute_watches_spec _ _ _ _ _ _ Hdist (NoDup_fst_map_to_list _)) as ([Hok1 _] & _).
  pose proof (cleanup_all_objects slow m1 id) as Hobj. rewrite Hw1 in Hobj.
  pose proof (cleanup_all_watchers slow m1 id) as Hreg. rewrite Hws in Hreg.
  destruct (decide (id ∈ slow)) as [Hsl|Hsl]; cbn in Hobj; eexists; (split; [exact Hobj|]).
  - right. rewrite /close_watcher Hok1 Hok /=. split; [|done]. rewrite Hreg. naive_solver.
  - left. rewrite Hok1. split; [|done]. by rewrite Hreg.
Qed.

Lemma Distribute_counter r prev m m' : Distribute r prev m = Some m' → watcherIDCounter m' = watcherIDCounter m.
Proof.
  rewrite /Distribute. destruct (distribute_watchers _ _ _ _) as [[slow m1]|] eqn:E; [|done]. intros [= <-].
  assert (watcherIDCounter m1 = watcherIDCounter m) as <-.
  { revert E. generalize (elements (wm_watchers m)) as ids. intros ids. revert m m1 slow.
    induction ids as [|i ids IH]; intros m m1 slow; cbn [distribute_watchers]; [by intros [= _ <-]|].
    destruct (wm_objects m !! i) as [w|]; [|apply IH]. destruct (distribute_watches _ _ _ w) as [[b w']|]; [|done].
    destruct (distribute_watchers _ _ ids _) as [[sl m2]|] eqn:E2; [|done]. intros [= _ <-]. by apply IH in E2. }
  clear. revert m1. induction slow as [|i slow IH]; intros m1; [done|]. cbn [foldl]. by rewrite IH.
Qed.

Lemma stream_inv_open y y' :
  watcherIDCounter (ws_manager y) < int64_max → Watch_open y = Some y' → stream_inv y → stream_inv y'.
Proof.
  intros Hc Ho [H1 H2 H3 H4 H5]. revert Ho. rewrite /Watch_open /Register /Inc. next_update. intros [= <-].
  set (id := wrap64 (watcherIDCounter (ws_manager y) + 1)).
  assert (id = watcherIDCounter (ws_manager y) + 1) as Eid by (apply wrap64_id; solve_int64).
  assert (id ∉ ws_running y) as Hnew by (intros Hr; pose proof (H3 _ Hr); lia).
  split; cbn [ws_manager ws_running ws_samples wm_watchers wm_objects watcherIDCounter].
  - intros i [->%elem_of_singleton|Hi]%elem_of_union; [split; [set_solver|]; rewrite lookup_insert_eq; by eexists|].
    destruct (H1 i Hi) as [Hr Hw]. split; [set_solver|]. rewrite lookup_insert_ne //. intros E. by subst.
  - intros i [->%elem_of_singleton|Hi]%elem_of_union Hn; [set_solver|]. rewrite lookup_insert_ne; [set_solver|].
    apply H2; [done|set_solver].
  - intros i [->%elem_of_singleton|Hi]%elem_of_union; [lia|]. pose proof (H3 i Hi). lia.
  - lia.
  - rewrite V H5 size_union; [set_solver|]. rewrite size_singleton. lia.
Qed.

Lemma stream_inv_close id y y' :
  id ∈ ws_running y → Watch_close id y = Some y' →
  stream_inv y → stream_inv y' ∧ (id ∉ ws_running y') ∧ (id ∉ wm_watchers (ws_manager y')).
Proof.
  intros Hid Ho [H1 H2 H3 H4 H5]. revert Ho. rewrite /Watch_close. next_update.
  destruct (updateWatchMetrics _ _) as [s|] eqn:Es; [|done]. apply updateWatchMetrics_watchers in Es.
  cbn [mbind option_bind]. intros [= <-]. split; [|cbn; set_solver].
  split; cbn [ws_manager ws_running ws_samples Cleanup Unregister update_watcher set_objects set_watchers wm_watchers
    wm_objects watcherIDCounter]; [| | |done|].
  - intros i [Hi Hne]%elem_of_difference. destruct (H1 i Hi) as [Hr Hw]. split; [set_solver|].
    rewrite lookup_alter_ne; [set_solver|done].
  - intros i [Hi Hne]%elem_of_difference Hn. rewrite lookup_alter_ne; [set_solver|]. apply H2; [done|set_solver].
  - intros i [Hi _]%elem_of_difference. by apply H3.
  - rewrite Es V H5 size_difference; [set_solver|]. rewrite size_singleton.
    assert (size ({[id]} : gset Z) ≤ size (ws_running y))%nat as Hsz by (apply subseteq_size; set_solver).
    rewrite size_singleton in Hsz. lia.
Qed.

Lemma stream_inv_step y y' : stream_step y y' → stream_inv y → stream_inv y'.
Proof.
  intros Hs Hi. destruct Hs as [y y' Hc Ho|auto inv ok id req st db y y' Hid Ho|id y y' Hid Ho|r prev m' y Hd
    |ok id y|inv rev id y|f y|p y].
  - by eapply stream_inv_open.
  - revert Ho. rewrite /Watch_serve.
    destruct (Watch_request_update auto inv ok id req st db (ws_manager y)) as (f & c & Hf & E). rewrite E.
    destruct req; cbn [mbind option_bind].
    1,2: destruct (updateWatchMetrics _ _) as [s|] eqn:Es; [|done]; apply updateWatchMetrics_watchers in Es;
      cbn [mbind option_bind]; intros [= <-]; by eapply (stream_inv_update id f).
    intros [= <-]. by eapply (stream_inv_update id f).
  - by eapply stream_inv_close.
  - destruct Hi as [H1 H2 H3 H4 H5]. pose proof (Distribute_counter _ _ _ _ Hd) as Hc.
    split; cbn [with_manager ws_manager ws_running ws_samples]; rewrite ?Hc //.
    + intros i Hi. destruct (decide (i ∈ wm_watchers (ws_manager y))) as [Hin|Hout].
      * destruct (H1 i Hin) as (Hr & w & Hw & Hok). split; [done|].
        destruct (Distribute_status _ _ _ _ _ _ Hd Hin Hw Hok) as (w' & Hw' & [[_ ?]|[? _]]); [by exists w'|done].
      * by destruct (Distribute_closed _ _ _ _ _ Hd Hout) as [_ ?].
    + intros i Hi Hn. destruct (decide (i ∈ wm_watchers (ws_manager y))) as [Hin|Hout].
      * destruct (H1 i Hin) as (Hr & w & Hw & Hok).
        destruct (Distribute_status _ _ _ _ _ _ Hd Hin Hw Hok) as (w' & Hw' & [[? _]|[_ ?]]); [done|by exists w'].
      * destruct (Distribute_closed _ _ _ _ _ Hd Hout) as [-> _]. by apply H2.
  - apply (stream_inv_update id (dispatch ok)); try done. intros w. apply (benign_dispatch 0 ok w).
  - apply (stream_inv_update id (ReportProgress inv rev)); try done. intros w. apply (benign_ReportProgress 0 inv rev w).
  - destruct Hi. by split.
  - destruct Hi. by split.
Qed.

(** C21: watch streams leave nothing behind.  In any interleaving of handlers,
    distributed records, dispatches and progress reports, the watches that are
    matched against records and that hold back compaction are those of running
    handlers with an open stream; a running handler whose watcher was taken out
    finds it closed, so it ends; when a handler ends its watcher is gone; the
    watchers gauge is the number of running handlers. *)
Theorem watch_streams y :
  rtc stream_step watch_sys_init y →
  (∀ id, id ∈ wm_watchers (ws_manager y) →
     id ∈ ws_running y ∧ ∃ w, wm_objects (ws_manager y) !! id = Some w ∧ wt_inboxOk w = true) ∧
  (∀ id, id ∈ ws_running y → id ∉ wm_watchers (ws_manager y) →
     ∃ w, wm_objects (ws_manager y) !! id = Some w ∧ wt_inboxOk w = false) ∧
  (∀ id y', id ∈ ws_running y → Watch_close id y = Some y' →
     (id ∉ ws_running y') ∧ (id ∉ wm_watchers (ws_manager y'))) ∧
  (ws_running y = ∅ → WatchCount (ws_manager y) = 0 ∧ MinWatchRevision (ws_manager y) = -1) ∧
  value client_Watchers [] (ws_samples y) = Z.of_nat (size (ws_running y)).
Proof.
  intros Hr. assert (stream_inv y) as Hi.
  { apply (rtc_invariant stream_step stream_inv stream_inv_step _ _ Hr). by split. }
  pose proof Hi as [H1 H2 H3 H4 H5]. split_and!; try done.
  - intros id y' Hid Hc. by apply (stream_inv_close id y y').
  - intros He. assert (wm_watchers (ws_manager y) = ∅) as E.
    { apply set_eq. intros i. split; [|set_solver]. intros Hi'. destruct (H1 i Hi') as [Hx _]. by rewrite He in Hx. }
    by rewrite /WatchCount /MinWatchRevision /active_entries E.
Qed.

(** A stream is opened, a watch on everything is created, the stream ends. *)
Definition stream_opened : watch_sys := default watch_sys_init (Watch_open watch_sys_init).
Definition stream_watching : watch_sys :=
  default watch_sys_init (Watch_serve 0 (-1) true 1 (ReqCreate (mkWatchCreate [Byte.x00] [Byte.x00] 0 false [] false 0))
                            State_New (mkDB [] []) stream_opened).
Definition stream_ended : watch_sys := default watch_sys_init (Watch_close 1 stream_watching).

Lemma stream_run : rtc stream_step watch_sys_init stream_ended.
Proof.
  apply (rtc_l _ _ stream_opened); [by apply ss_open|].
  apply (rtc_l _ _ stream_watching); [|apply (rtc_l _ _ stream_ended); [|apply rtc_refl]].
  - by apply (ss_serve 0 (-1) true 1 (ReqCreate (mkWatchCreate [Byte.x00] [Byte.x00] 0 false [] false 0))
                State_New (mkDB [] [])); [apply (bool_decide_unpack _)|].
  - by apply (ss_close 1); [apply (bool_decide_unpack _)|].
Qed.

Lemma watch_streams_witness :
  watcherIDCounter (ws_manager stream_ended) = 1 ∧
  WatchCount (ws_manager stream_ended) = 0 ∧ value client_Watchers [] (ws_samples stream_ended) = 0.
Proof.
  split; [reflexivity|]. destruct (watch_streams _ stream_run) as (_ & _ & _ & Hz & Hg).
  split; [apply Hz|rewrite Hg]; reflexivity.
Defined.
