(* ===== verification/Wiring.v ===== *)
(** * internal/cmd: how a node is wired together

    The parameters its components get from the configuration, the connection to
    the Elector at startup, the hook that starts and stops services when the
    Primary changes, and the shutdown sequence.  [Process] holds what the hook
    acts on. *)

From S2P Require Import Prelude NodeState Records LocalDB Storage DataFile Discovery DataStore.
From S2P Require Import Quorum ChunkBuffer RangeApi Primary Preflight PeerClient NodeMap Elector.
From S2P Require Import PeerTheorems Snapshot Bootstrap Heartbeat Follower FollowerControl Config ConfigTheorems.

#[local] Open Scope string_scope.
#[local] Open Scope Z_scope.

(** ** Parameters of the components *)

Definition elector_config (c : Config) (startTime : Z) : ElectorConfig :=
  let cc := c_Cluster c in
  mkElectorConfig (cc_ClusterID cc) (cc_HeartbeatInterval cc) (es_DeregistrationTimeout (cc_Elector cc))
    (es_DegradationCount (cc_Elector cc)) (nc_NodeID (c_Node c)) startTime
    (default (-1) (rs_Quorum (cc_Replication cc))) (es_PrimaryPriorTimeout (cc_Elector cc)).

Definition primary_config (c : Config) : config :=
  let cc := c_Cluster c in
  mkConfig (nc_NodeID (c_Node c)) (default (-1) (rs_Quorum (cc_Replication cc)))
    (rs_DegradationCount (cc_Replication cc)) (cc_HeartbeatInterval cc).

Definition primary_buffer (c : Config) : chunkBuffer :=
  newChunkBuffer (rs_ThresholdSizeMB (cc_Replication (c_Cluster c)))
    (rs_ThresholdAgeMinutes (cc_Replication (c_Cluster c))).

Definition snapshot_config (c : Config) : SnapshotConfig :=
  let sn := cc_Snapshot (c_Cluster c) in
  mkSnapshotConfig (ss_ThresholdRecords sn) (ss_ThresholdAgeMinutes sn) (ss_ThresholdSizeMB sn)
    (nc_NodeID (c_Node c)).

Definition heartbeat_sender (c : Config) (startTime : Z) : Sender :=
  SetPrimarySelfDegradeFunc (NewSender (nc_NodeID (c_Node c)) startTime (cc_HeartbeatInterval (c_Cluster c))).

Definition bootstrap_config (c : Config) : boot_config :=
  mkBootConfig (nc_NodeID (c_Node c)) (nc_AdvertiseClient (c_Node c)) (nc_AdvertisePeer (c_Node c)).

(** ** The Elector's address *)

Inductive connect_err := ResolveElector (e : discovery_err) | ConnectElectorErr (e : peer_err).

Section connect.
  Context {OS : Type} `{ObjectStorage OS} `{JSON}.

(** The election reports an election address; the peer address comes from the
    leader's registration. *)
Definition connect_elector (read_ok : bool) (dial : string → bool) (c : Config) (leaderID : string)
    (store : OS) (m : PeerManager) : res connect_err unit * PeerManager :=
  let addr :=
    if bool_decide (leaderID ≠ nc_NodeID (c_Node c)) then
      match ReadNodeRegistration read_ok store leaderID with
      | Err e => Err (ResolveElector e)
      | Ok reg => Ok (nr_PeerAdvertiseAddress reg)
      end
    else Ok (nc_AdvertisePeer (c_Node c)) in
  match addr with
  | Err e => (Err e, m)
  | Ok addr =>
      match ConnectElector dial leaderID addr m with
      | (Err e, m) => (Err (ConnectElectorErr e), m)
      | (Ok _, m) => (Ok tt, m)
      end
  end.
End connect.

(** ** Services *)

(** [ps_services] is a non-nil [svcCancel], [ps_preflight] a non-nil
    [preflightCancel]. *)
Record Process := mkProcess {
  ps_state : State;
  ps_peers : PeerManager;
  ps_follower : Control;
  ps_services : bool;
  ps_preflight : bool;
  ps_forwarder : bool;
}.

Definition startPreflightLocked (p : Process) : Process :=
  if ps_preflight p then p
  else if negb (bool_decide (primary (ps_state p) = PrimaryStarting)) then p
  else mkProcess (ps_state p) (ps_peers p) (ps_follower p) (ps_services p) true (ps_forwarder p).

Definition StartServices (p : Process) : Process :=
  if ps_services p then p
  else startPreflightLocked
         (mkProcess (ps_state p) (ps_peers p) (ps_follower p) true (ps_preflight p) (ps_forwarder p)).

Definition stopPreflight (p : Process) : Process :=
  if ps_preflight p
  then mkProcess (ps_state p) (ps_peers p) (ps_follower p) (ps_services p) false (ps_forwarder p)
  else p.

(** What [StopServices] does to the Primary's follow sessions and Replicas is
    [Preflight.StopServices]. *)
Definition Process_StopServices (p : Process) : Process :=
  let p := stopPreflight p in
  if ps_services p
  then mkProcess (ps_state p) (ps_peers p) (ps_follower p) false (ps_preflight p) (ps_forwarder p)
  else p.

Definition set_forwarder (b : bool) (p : Process) : Process :=
  mkProcess (ps_state p) (ps_peers p) (ps_follower p) (ps_services p) (ps_preflight p) b.
Definition set_control (c : Control) (p : Process) : Process :=
  mkProcess (ps_state p) (ps_peers p) c (ps_services p) (ps_preflight p) (ps_forwarder p).

(** The function given to [SetPrimaryChangeFunc]. *)
Definition onPrimaryChange (isPrimary : bool) (p : Process) : Process :=
  if isPrimary then
    let p := set_control (Stop (ps_follower p)).2 p in
    set_forwarder true (StartServices p)
  else
    let p := Process_StopServices (set_forwarder false p) in
    set_control (Start (ps_follower p)).2 p.

(** A new cluster state, pushed by the Elector or applied by the one in this
    process. *)
Definition apply_cluster_state (dial : string → bool) (cs : ClusterState) (p : Process) : Process :=
  let '(m, st, callback) := ApplyClusterState dial cs (ps_peers p) (ps_state p) in
  let p := mkProcess st m (ps_follower p) (ps_services p) (ps_preflight p) (ps_forwarder p) in
  match callback with Some b => onPrimaryChange b p | None => p end.

(** After bootstrap: the hook is set, and a node that is Primary already
    starts its services. *)
Definition wire (nodeID : string) (p : Process) : Process :=
  let p := mkProcess (ps_state p) (SetPrimaryChangeFunc (ps_peers p)) (ps_follower p) (ps_services p)
             (ps_preflight p) (ps_forwarder p) in
  if bool_decide (NodeID (cs_Primary (cluster (ps_state p))) = nodeID)
  then set_forwarder true (StartServices p) else p.

(** ** Shutdown *)

Section shutdown.
  Context `{Codec} `{SqlLike} {OS : Type} `{ObjectStorage OS}.

(** The results of draining, deregistration and deletion of the registration
    file; whatever fails, the sequence goes on. *)
Definition shutdown (cfg : config) (now : Z) (flush : put_fault) (reply : string → option unit)
    (delete : put_fault) (m : PeerManager) (sv : Server OS)
    : res drain_err unit * option (res peer_err unit) * res discovery_err unit * Server OS :=
  let '(drained, sv) :=
    if bool_decide (primary (sv_state sv) ≠ PrimaryReplica) then GracefulDrain cfg now flush sv else (Ok tt, sv) in
  let sv := set_state (SetHealth HealthDegraded (sv_state sv)).2 sv in
  let dereg := match ElectorClient m with
               | Some c => Some (Client_DeregisterNode reply c)
               | None => None
               end in
  let '(deleted, store) := DeleteNodeRegistration delete (sv_store sv) (cfg_NodeID cfg) in
  (drained, dereg, deleted, set_store store sv).
End shutdown.

(** ** Theorems *)

(** What runs is what the node's role asks for. *)
Definition services_match (nodeID : string) (p : Process) : Prop :=
  let primaryID := NodeID (cs_Primary (cluster (ps_state p))) in
  pm_nodeID (ps_peers p) = nodeID ∧ pm_onPrimaryChange (ps_peers p) = true ∧
  (primaryID = nodeID → ps_services p = true ∧ ps_forwarder p = true ∧ fc_cancel (ps_follower p) = false) ∧
  (primaryID ≠ nodeID → ps_services p = false ∧ ps_forwarder p = false) ∧
  (primaryID ≠ nodeID → primaryID ≠ "" → fc_cancel (ps_follower p) = true).

Lemma Start_running c : fc_cancel (Start c).2 = true.
Proof. rewrite /Start. destruct (fc_cancel c) eqn:E; [done|]. by destruct (fc_requireInitialSync c). Qed.

Lemma Stop_stopped c : fc_cancel (Stop c).2 = false.
Proof. rewrite /Stop. by destruct (fc_cancel c) eqn:E. Qed.

Lemma StartServices_spec p :
  ps_services (StartServices p) = true ∧ ps_state (StartServices p) = ps_state p ∧
  ps_peers (StartServices p) = ps_peers p ∧ ps_follower (StartServices p) = ps_follower p.
Proof.
  rewrite /StartServices. destruct (ps_services p) eqn:E; [done|].
  rewrite /startPreflightLocked. by repeat case_match.
Qed.

Lemma StopServices_spec p :
  Process_StopServices p = mkProcess (ps_state p) (ps_peers p) (ps_follower p) false false (ps_forwarder p).
Proof. rewrite /Process_StopServices /stopPreflight. destruct p as [? ? ? [] [] ?]; done. Qed.

(** When the hook is called, and with what. *)
Definition hook_call (nodeID : string) (old new : NodeInfo) : option bool :=
  let was := bool_decide (NodeID old = nodeID) in
  let now := bool_decide (NodeID new = nodeID) in
  let appeared := bool_decide (NodeID old = "") && bool_decide (NodeID new ≠ "") && negb now in
  if negb (Bool.eqb was now) || appeared then Some now else None.

Lemma ApplyClusterState_hook dial cs m st :
  pm_onPrimaryChange m = true →
  let '(m', st', callback) := ApplyClusterState dial cs m st in
  cluster st' = cs ∧ pm_nodeID m' = pm_nodeID m ∧ pm_onPrimaryChange m' = true ∧
  callback = hook_call (pm_nodeID m) (cs_Primary (cluster st)) (cs_Primary cs).
Proof.
  intros Hhook. pose proof (ApplyClusterState_state dial cs m st) as Hst.
  pose proof (ApplyClusterState_manager dial cs m st) as (m1 & Hid & Hh & _ & _ & Hm).
  destruct (updatePrimary_id dial (cs_Primary cs) m1) as [U1 U2].
  assert ((ApplyClusterState dial cs m st).2 =
    if pm_onPrimaryChange (ApplyClusterState dial cs m st).1.1
    then hook_call (pm_nodeID m) (cs_Primary (cluster st)) (cs_Primary cs) else None) as Hcb.
  { rewrite /ApplyClusterState /hook_call. cbn [fst snd].
    by match goal with |- (if pm_onPrimaryChange ?x && _ then _ else _) = _ => destruct (pm_onPrimaryChange x) end. }
  destruct (ApplyClusterState dial cs m st) as [[m' st'] cb]. cbn [fst snd] in *. subst st'.
  split; [done|]. assert (pm_nodeID m' = pm_nodeID m ∧ pm_onPrimaryChange m' = true) as [? Ho].
  { rewrite Hm. case_decide; split; congruence. }
  split; [done|]. split; [done|]. by rewrite Hcb Ho.
Qed.

Lemma services_match_step nodeID dial cs p :
  nodeID ≠ "" → services_match nodeID p → services_match nodeID (apply_cluster_state dial cs p).
Proof.
  intros Hne (Hid & Hhook & Hself & Hother & Hremote). rewrite /apply_cluster_state.
  pose proof (ApplyClusterState_hook dial cs (ps_peers p) (ps_state p) Hhook) as Happ.
  destruct (ApplyClusterState dial cs (ps_peers p) (ps_state p)) as [[m st] cb].
  destruct Happ as (Hcs & Hm & Hk & ->). rewrite Hid. rewrite Hid in Hm. rewrite /hook_call.
  set (p1 := mkProcess st m _ _ _ _).
  destruct (decide (NodeID (cs_Primary cs) = nodeID)) as [Hn|Hn];
    destruct (decide (NodeID (cs_Primary (cluster (ps_state p))) = nodeID)) as [Ho|Ho].
  - rewrite !(bool_decide_eq_true_2 (_ = nodeID)) //= andb_false_r /=.
    rewrite /services_match /= Hcs. destruct (Hself Ho) as (? & ? & ?). by split_and!.
  - rewrite (bool_decide_eq_true_2 (NodeID (cs_Primary cs) = nodeID)) //.
    rewrite (bool_decide_eq_false_2 (_ = nodeID)) //=.
    destruct (StartServices_spec (set_control (Stop (ps_follower p1)).2 p1)) as (S1 & S2 & S3 & S4).
    rewrite /services_match /onPrimaryChange /=. rewrite S1 S2 S3 S4 /= Hcs.
    split_and!; try done. intros _. split; [done|]. split; [done|]. apply Stop_stopped.
  - rewrite (bool_decide_eq_true_2 (NodeID (cs_Primary (cluster (ps_state p))) = nodeID)) //.
    rewrite (bool_decide_eq_false_2 (NodeID (cs_Primary cs) = nodeID)) //=.
    rewrite /services_match /onPrimaryChange /= StopServices_spec /= Hcs.
    split_and!; try done. intros _ _. apply Start_running.
  - rewrite !(bool_decide_eq_false_2 (_ = nodeID)) //= andb_true_r.
    destruct (Hother Ho) as [Hs Hf].
    destruct (decide (NodeID (cs_Primary (cluster (ps_state p))) = "")) as [He|He].
    + rewrite (bool_decide_eq_true_2 (_ = "")) //=. case_bool_decide as Hnew.
      * rewrite /services_match /onPrimaryChange /= StopServices_spec /= Hcs.
        split_and!; try done. intros _ _. apply Start_running.
      * rewrite /services_match /= Hcs. by split_and!.
    + rewrite (bool_decide_eq_false_2 (_ = "")) //= /services_match /= Hcs. split_and!; try done.
      intros _ _. by apply Hremote.
Qed.


(** [wire] establishes it when bootstrap left the follower in the state the
    role asks for and nothing else runs yet. *)
Lemma wire_services_match nodeID p :
  pm_nodeID (ps_peers p) = nodeID → ps_services p = false → ps_forwarder p = false →
  fc_cancel (ps_follower p)
  = bool_decide (NodeID (cs_Primary (cluster (ps_state p))) ≠ "")
    && bool_decide (NodeID (cs_Primary (cluster (ps_state p))) ≠ nodeID) →
  services_match nodeID (wire nodeID p).
Proof.
  intros Hid Hs Hf Hfc. rewrite /wire. cbn [ps_state].
  destruct (decide (NodeID (cs_Primary (cluster (ps_state p))) = nodeID)) as [Hn|Hn].
  - rewrite (bool_decide_eq_true_2 (_ = nodeID)) //.
    set (q := mkProcess _ _ _ _ _ _). destruct (StartServices_spec q) as (S1 & S2 & S3 & S4).
    rewrite /services_match /=. rewrite S1 S2 S3 S4 /= Hfc Hid.
    rewrite (bool_decide_eq_false_2 (_ ≠ nodeID)) ?andb_false_r; [by intros ?|]. by split_and!.
  - rewrite (bool_decide_eq_false_2 (_ = nodeID)) // /services_match /= Hid. split_and!; try done.
    intros _ He. by rewrite Hfc !bool_decide_eq_true_2.
Qed.

(** Validated timeouts fit the Elector: unless the product overflows, a node
    is degraded after a positive time that is at most the prior timeout. *)
Lemma validated_timeouts {OS} c (e : Elector OS) startTime :
  Validate c = Ok tt → el_cfg e = elector_config c startTime →
  es_DegradationCount (cc_Elector (c_Cluster c)) * cc_HeartbeatInterval (c_Cluster c) ≤ int64_max →
  0 < degradationDeadline e ≤ ec_primaryPriorTimeout (el_cfg e).
Proof.
  intros Hv He Hmax. rewrite /degradationDeadline He. cbn [ec_degradationCount ec_heartbeatInterval elector_config ec_primaryPriorTimeout].
  pose proof (Validate_ok c Hv) as Hno.
  assert (0 < es_DegradationCount (cc_Elector (c_Cluster c))) as H1
    by (pose proof (Hno ElectorDegradationCountErr); cbn in *; lia).
  assert (0 < cc_HeartbeatInterval (c_Cluster c)) as H2 by (pose proof (Hno HeartbeatIntervalErr); cbn in *; lia).
  assert (0 < es_DegradationCount (cc_Elector (c_Cluster c)) * cc_HeartbeatInterval (c_Cluster c)) as H3 by nia.
  set (w := wrap64 _). assert (w = es_DegradationCount (cc_Elector (c_Cluster c)) * cc_HeartbeatInterval (c_Cluster c)) as Ew.
  { apply wrap64_id. solve_int64. }
  split; [lia|]. apply Z.nlt_ge. intros Hlt. apply (Hno (PriorTimeoutErr w)). by split.
Qed.

(** ** On concrete runs *)

(** A node that finished its bootstrap while no Primary was known. *)
Definition loaded_process : Process :=
  mkProcess (mkState HealthHealthy ElectorFollower PrimaryReplica
               (mkClusterState (mkNodeInfo "n3" 3 "peer3") NodeInfo_zero 3) 5 0 1)
    (NewPeerManager "n1" true) NewControl false false false.

Definition primary_is (id : string) : ClusterState :=
  mkClusterState (mkNodeInfo "n3" 3 "peer3") (mkNodeInfo id 0 ("peer-" ++ id)) 3.


(** A Primary that becomes known between the end of the bootstrap and the
    moment the hook is set is never followed: no later push of the same state
    starts the follower. *)
Lemma primary_before_hook_not_followed :
  let p := wire "n1" (apply_cluster_state (λ _, true) (primary_is "n2") loaded_process) in
  let q := apply_cluster_state (λ _, true) (primary_is "n2") p in
  fc_cancel (ps_follower p) = false ∧ fc_cancel (ps_follower q) = false ∧
  NodeID (cs_Primary (cluster (ps_state q))) = "n2".
Proof. vm_compute. done. Qed.
