(* ===== verification/ElectorRunner.v ===== *)
(** * internal/elector: the runner and its leadership terms

    How the election runner is built from the configuration, how local callers
    wait for the Elector in this process, and the goroutines that gaining and
    losing leadership starts and cancels.  The s3lect library decides who leads;
    it calls [onAcquireLeadership] and [onLoseLeadership] of [Election.v]. *)

From stdpp Require Import strings relations.
From S2P Require Import Prelude NodeState Records LocalDB Storage DataFile ExampleCodec DataStore.
From S2P Require Import Discovery PeerClient NodeMap Elector Election ElectionTheorems ElectorTheorems.
From S2P Require Import MembersTheorems ElectionSafety ElectorExamples Duration Config Wiring.

#[local] Open Scope Z_scope.

(** ** Construction *)

Definition lockfilePath : string := "leader/elector.json".

Record S3lectConfig := mkS3lectConfig {
  sc_LockfilePath : string;
  sc_ServerID : string;
  sc_ServerAddr : string;
  sc_FrequentInterval : Z;
  sc_InfrequentInterval : Z;
  sc_LeaderTimeout : Z;
  sc_PeerMode : bool;
  sc_PeerHealthPath : string;
  sc_PeerCACert : bytes;
}.

Definition s3lect_config (c : Config) (caCertPEM : bytes) : S3lectConfig :=
  mkS3lectConfig lockfilePath (nc_NodeID (c_Node c)) (nc_AdvertiseElection (c_Node c))
    (5 * second) (30 * second) (15 * second) true "/health/leadership" caCertPEM.

Inductive runner_err := ReadCACert | NewS3Elector | NewHealthServer | StartHealthServer | StartElector.

Section runner.
  Context {OS : Type} `{HS : ObjectStorage OS} `{HJ : JSON} `{HC : Codec}.
  Implicit Types s : Elector OS.

(** [caCertPEM] is the content of the CA file, [None] when it cannot be read;
    the two flags are whether s3lect accepts its configurations. *)
Definition Runner_New (caCertPEM : option bytes) (s3elector healthServer : S3lectConfig → bool)
    (c : Config) (st : State) (store : OS) (localStartTime : Z) (peers : PeerManager)
    : res runner_err (Runner OS) :=
  match caCertPEM with
  | None => Err ReadCACert
  | Some ca =>
      let cfg := s3lect_config c ca in
      if negb (s3elector cfg) then Err NewS3Elector
      else if negb (healthServer cfg) then Err NewHealthServer
      else Ok (mkRunner (nc_NodeID (c_Node c)) (nc_AdvertisePeer (c_Node c))
                 (NewElector (elector_config c localStartTime) store st peers) false)
  end.

Definition Runner_Start (healthSrv s3 : bool) : res runner_err unit :=
  if negb healthSrv then Err StartHealthServer else if negb s3 then Err StartElector else Ok tt.

(** ** Local calls *)

Inductive wait_err := WaitCancelled.
Inductive local_err := LocalWait (e : wait_err) | LocalElectorErr (e : elector_err).

(** What each look at the Elector finds, and whether the context is done by
    then; [None] when it is still waiting at the end of the list. *)
Fixpoint WaitUntilReady (ticks : list (Elector OS * bool)) : option (res wait_err (Elector OS)) :=
  match ticks with
  | [] => None
  | (s, cancelled) :: ticks =>
      if nm_ready (el_nodeMap s) then Some (Ok s)
      else if (cancelled : bool) then Some (Err WaitCancelled) else WaitUntilReady ticks
  end.

Definition RegisterLocalNode (ticks : list (Elector OS * bool)) (now : Z) (env : nat → alloc_env)
    (meanwhile : Elector OS → Elector OS) (req : RegisterNodeRequest)
    : option (res local_err (RegisterNodeResponse * Elector OS)) :=
  match WaitUntilReady ticks with
  | None => None
  | Some (Err e) => Some (Err (LocalWait e))
  | Some (Ok s) =>
      match RegisterNode now env meanwhile req s with
      | (Err e, _) => Some (Err (LocalElectorErr e))
      | (Ok resp, s) => Some (Ok (resp, s))
      end
  end.

Definition GetLocalClusterState (ticks : list (Elector OS * bool)) : option (res local_err pb_ClusterState) :=
  match WaitUntilReady ticks with
  | None => None
  | Some (Err e) => Some (Err (LocalWait e))
  | Some (Ok s) =>
      match GetClusterState s with
      | Err e => Some (Err (LocalElectorErr e))
      | Ok cs => Some (Ok cs)
      end
  end.

(** ** Leadership terms

    Every acquisition creates a context and starts three goroutines under it:
    the bootstrap, which starts the election loop when it succeeds, and the
    health checks.  [ld_term] counts the acquisitions; the context of the last
    one is live while [rn_leading] is set.  [ld_elected] holds elections that
    have returned but not been pushed yet. *)

Record Leadership := mkLeadership {
  ld_runner : Runner OS;
  ld_term : nat;
  ld_booting : list nat;
  ld_electing : list nat;
  ld_checking : list nat;
  ld_elected : list (nat * NodeInfo);
}.

Definition live (l : Leadership) (t : nat) : Prop := rn_leading (ld_runner l) = true ∧ t = ld_term l.

Definition with_server (s : Elector OS) (r : Runner OS) : Runner OS :=
  mkRunner (rn_nodeID r) (rn_peerAddr r) s (rn_leading r).

(** A server change that starts and ends no goroutine. *)
Definition served (s : Elector OS) (l : Leadership) : Leadership :=
  mkLeadership (with_server s (ld_runner l)) (ld_term l) (ld_booting l) (ld_electing l) (ld_checking l)
    (ld_elected l).

(** The outcome of an acquisition: new goroutines when it reports so. *)
Definition acquired (r : Runner OS) (started : bool) (l : Leadership) : Leadership :=
  if started
  then mkLeadership r (S (ld_term l)) (S (ld_term l) :: ld_booting l) (ld_electing l)
         (S (ld_term l) :: ld_checking l) (ld_elected l)
  else mkLeadership r (ld_term l) (ld_booting l) (ld_electing l) (ld_checking l) (ld_elected l).

Definition lost (l : Leadership) : Leadership :=
  mkLeadership (onLoseLeadership (ld_runner l)) (ld_term l) (ld_booting l) (ld_electing l) (ld_checking l)
    (ld_elected l).

(** The end of a bootstrap; the election loop runs after a successful one. *)
Definition booted (t : nat) (env : elector_boot_env) (l : Leadership) : Leadership :=
  let '(r, s) := Elector_Bootstrap env (rn_server (ld_runner l)) in
  mkLeadership (with_server s (ld_runner l)) (ld_term l) (filter (λ t', t' ≠ t) (ld_booting l))
    (match r with Ok _ => t :: ld_electing l | Err _ => ld_electing l end) (ld_checking l) (ld_elected l).

Inductive leadership_step : Leadership → Leadership → Prop :=
| ls_acquire l e r started :
    onAcquireLeadership (ld_runner l) = (e, r, started) → leadership_step l (acquired r started l)
| ls_first status l e r started :
    WaitForFirstElection status (ld_runner l) = (e, r, started) → leadership_step l (acquired r started l)
| ls_lose l : leadership_step l (lost l)
| ls_booted t env l : t ∈ ld_booting l → leadership_step l (booted t env l)
| ls_elect t env l r s :
    t ∈ ld_electing l → live l t → needsPrimaryElection (rn_server (ld_runner l)) = true →
    electPrimaryOnce env (rn_server (ld_runner l)) = Some (r, s) →
    leadership_step l
      (mkLeadership (with_server s (ld_runner l)) (ld_term l) (ld_booting l) (ld_electing l) (ld_checking l)
         (match r with Ok w => (t, w) :: ld_elected l | Err _ => ld_elected l end))
| ls_push t w dial order l :
    (t, w) ∈ ld_elected l →
    leadership_step l
      (mkLeadership (with_server (pushClusterState dial order w
                        (storePreviousPrimary NodeInfo_zero (rn_server (ld_runner l)))).1.1 (ld_runner l))
         (ld_term l) (ld_booting l) (ld_electing l) (ld_checking l)
         (filter (λ p, p ≠ (t, w)) (ld_elected l)))
| ls_check t env l :
    t ∈ ld_checking l → live l t → ec_heartbeatInterval (el_cfg (rn_server (ld_runner l))) ≠ 0 →
    leadership_step l (served (checkNodeHealth env (rn_server (ld_runner l))).1.1 l)
| ls_exit t l :
    ¬ live l t →
    leadership_step l
      (mkLeadership (ld_runner l) (ld_term l) (ld_booting l) (filter (λ t', t' ≠ t) (ld_electing l))
         (filter (λ t', t' ≠ t) (ld_checking l)) (ld_elected l))
| ls_register now env req l : leadership_step l (served (RegisterNode now env id req (rn_server (ld_runner l))).2 l)
| ls_heartbeat now req l : leadership_step l (served (Elector_SendHeartbeat now req (rn_server (ld_runner l))).1.2 l)
| ls_deregister dial order nodeID l :
    leadership_step l (served (DeregisterNode dial order nodeID (rn_server (ld_runner l))).1.1.2 l).

(** ** Theorems *)

Lemma WaitUntilReady_ready ticks s : WaitUntilReady ticks = Some (Ok s) → nm_ready (el_nodeMap s) = true.
Proof.
  induction ticks as [|[s0 []] ticks IH]; [done| |]; cbn; destruct (nm_ready (el_nodeMap s0)) eqn:E; try done.
  - by intros [= <-].
  - by intros [= <-].
Qed.

(** A map that gets ready before the context ends is found. *)
Lemma WaitUntilReady_returns pre s c post :
  Forall (λ t, t.2 = false) pre → nm_ready (el_nodeMap s) = true →
  ∃ s', WaitUntilReady (pre ++ (s, c) :: post) = Some (Ok s').
Proof.
  intros Hpre Hs. induction Hpre as [|[s0 c0] pre Hc _ IH]; cbn; [rewrite Hs; eauto|].
  destruct (nm_ready (el_nodeMap s0)); [eauto|]. cbn in Hc. by rewrite Hc.
Qed.

(** A local registration is never told to wait for the bootstrap. *)
Lemma RegisterLocalNode_bootstrapped ticks now env meanwhile req :
  RegisterLocalNode ticks now env meanwhile req ≠ Some (Err (LocalElectorErr StillBootstrapping)).
Proof.
  rewrite /RegisterLocalNode. destruct (WaitUntilReady ticks) as [[s|]|] eqn:E; [|by intros [=]|done].
  apply WaitUntilReady_ready in E. rewrite /RegisterNode E.
  repeat (case_match; try (intros; simplify_eq; done)).
Qed.

(** *** Terms *)

(** Only acquiring and losing leadership changes the elector state. *)
Lemma Elector_Bootstrap_state env s : el_state (Elector_Bootstrap env s).2 = el_state s.
Proof.
  rewrite /Elector_Bootstrap. destruct (ReadMembersFile _ _) as [mf|[[]| | | | | | | |]]; try done;
    (destruct (ListNodeRegistrations _ _ _) as [regs|]; [|done]).
  - rewrite /bootstrapExisting. destruct (foldl _ _ _) as [[[m []] nm]|]; try done.
    by destruct (WriteMembersFile _ _ _) as [[|] ?].
  - rewrite /bootstrapFirstElector. destruct (PromoteBootstrapSnapshot _ _) as [[o store]|]; [|done].
    destruct (foldl _ _ _) as [m nm]. by destruct (WriteMembersFile _ _ _) as [[|] ?].
Qed.

Lemma electPrimaryOnce_state env s r s' : electPrimaryOnce env s = Some (r, s') → el_state s' = el_state s.
Proof.
  rewrite /electPrimaryOnce. destruct (checkPreviousPrimary env s) as [[r1 s1]|] eqn:E; [|done].
  apply checkPreviousPrimary_same in E as (_ & Es & _). repeat case_match; intros; by simplify_eq.
Qed.

Lemma clearPrimary_elector dial order s :
  elector (el_state (clearPrimary dial order s).1.1) = elector (el_state s).
Proof. rewrite /clearPrimary. by destruct (pushClusterState_effect dial order NodeInfo_zero
  (storePreviousPrimary (cs_Primary (cluster (el_state s))) s)) as (_ & _ & _ & _ & _ & _ & ->). Qed.

Lemma checkNodeHealth_elector env s :
  elector (el_state (checkNodeHealth env s).1.1) = elector (el_state s).
Proof.
  rewrite /checkNodeHealth. case_match; [done|]. set (l1 := ne_NodeID <$> _). set (l2 := ne_NodeID <$> _).
  set (s0 := with_nodeMap _ s).
  assert (el_state (foldl (auto_deregister env) (foldl (mark_degraded env) s0 l1) l2) = el_state s) as Es.
  { rewrite (proj1 (auto_deregister_fold env l2 _)). by rewrite (proj1 (proj2 (mark_degraded_fold env l1 s0))). }
  case_match; [by rewrite Es|]. case_match; [|by rewrite Es]. by rewrite clearPrimary_elector Es.
Qed.

Lemma onAcquireLeadership_spec (r r' : Runner OS) e started :
  onAcquireLeadership r = (e, r', started) →
  if started
  then rn_leading r' = true ∧ elector (el_state (rn_server r')) = ElectorLeader ∧
       elector (el_state (rn_server r)) = ElectorFollower
  else r' = r.
Proof.
  rewrite /onAcquireLeadership. destruct r as [id addr s lead]. cbn [rn_server rn_nodeID rn_peerAddr].
  rewrite /SetElector. destruct (elector (el_state s)) eqn:E; cbn; by intros [= <- <- <-].
Qed.

Lemma WaitForFirstElection_spec status (r r' : Runner OS) e started :
  WaitForFirstElection status r = (e, r', started) →
  if started
  then rn_leading r' = true ∧ elector (el_state (rn_server r')) = ElectorLeader ∧
       elector (el_state (rn_server r)) = ElectorFollower
  else rn_leading r' = rn_leading r ∧ elector (el_state (rn_server r')) = elector (el_state (rn_server r)).
Proof.
  rewrite /WaitForFirstElection. set (r1 := updateClusterElector (Some status) r).
  destruct (ls_IsLeader status && _); [|by intros [= <- <- <-]].
  destruct (onAcquireLeadership r1) as [[a r2] b] eqn:E. apply onAcquireLeadership_spec in E.
  destruct a; intros [= <- <- <-]; destruct b; try done; by subst r2.
Qed.

Definition terms_ok (l : Leadership) : Prop :=
  (rn_leading (ld_runner l) = true ↔ elector (el_state (rn_server (ld_runner l))) = ElectorLeader) ∧
  NoDup (ld_booting l ++ ld_electing l) ∧ NoDup (ld_checking l) ∧
  (∀ t, t ∈ ld_booting l ++ ld_electing l ++ ld_checking l → (t ≤ ld_term l)%nat).

Lemma terms_ok_served s l :
  elector (el_state s) = elector (el_state (rn_server (ld_runner l))) → terms_ok l → terms_ok (served s l).
Proof. intros Es (H1 & H2 & H3 & H4). split_and!; try done. cbn. by rewrite Es. Qed.

Lemma terms_ok_acquired (r : Runner OS) (started : bool) l :
  (if started
   then rn_leading r = true ∧ elector (el_state (rn_server r)) = ElectorLeader
   else rn_leading r = rn_leading (ld_runner l) ∧
        elector (el_state (rn_server r)) = elector (el_state (rn_server (ld_runner l)))) →
  terms_ok l → terms_ok (acquired r started l).
Proof.
  intros Hr (H1 & H2 & H3 & H4). rewrite /acquired. destruct started; destruct Hr as [R1 R2].
  - assert (S (ld_term l) ∉ ld_booting l ++ ld_electing l ++ ld_checking l) as Hf.
    { intros Hin. apply H4 in Hin. lia. }
    split_and!; cbn [ld_runner ld_booting ld_electing ld_checking ld_term].
    + by rewrite R1 R2.
    + rewrite -app_comm_cons. apply NoDup_cons. split; [set_solver|done].
    + apply NoDup_cons. split; [set_solver|done].
    + intros t Ht. rewrite !elem_of_app !elem_of_cons in Ht.
      destruct (decide (t = S (ld_term l))) as [->|]; [lia|].
      assert (t ≤ ld_term l)%nat; [|lia]. apply H4. set_solver.
  - split_and!; try done. cbn. by rewrite R1 R2.
Qed.

Lemma terms_ok_booted t env l : t ∈ ld_booting l → terms_ok l → terms_ok (booted t env l).
Proof.
  intros Ht (H1 & H2 & H3 & H4). rewrite /booted.
  pose proof (Elector_Bootstrap_state env (rn_server (ld_runner l))) as Es.
  destruct (Elector_Bootstrap env _) as [r s]. cbn [snd] in Es. apply NoDup_app in H2 as (N1 & N2 & N3).
  split_and!; cbn [ld_runner ld_booting ld_electing ld_checking ld_term with_server rn_leading rn_server].
  - by rewrite Es.
  - apply NoDup_app. split; [by apply NoDup_filter|]. destruct r.
    + split; [|apply NoDup_cons; split; [by apply N2|done]].
      intros x [Hx Hb]%list_elem_of_filter. apply not_elem_of_cons. split; [done|by apply N2].
    + split; [|done]. intros x [Hx Hb]%list_elem_of_filter. by apply N2.
  - done.
  - intros x. rewrite !elem_of_app list_elem_of_filter. intros Hx. apply H4. rewrite !elem_of_app.
    destruct r; [rewrite elem_of_cons in Hx|]; naive_solver.
Qed.

Lemma leadership_step_ok l l' : leadership_step l l' → terms_ok l → terms_ok l'.
Proof.
  intros Hs Hl.
  destruct Hs as [l e r started Ha|status l e r started Ha|l|t env l Ht|t env l r s Ht Hlive Hneed Hel|t w dial order l Hin
    |t env l Ht Hlive Hint|t l Hnl|now env req l|now req l|dial order nodeID l].
  - apply terms_ok_acquired; [|done]. apply onAcquireLeadership_spec in Ha. destruct started; [naive_solver|by subst].
  - apply terms_ok_acquired; [|done]. apply WaitForFirstElection_spec in Ha. destruct started; naive_solver.
  - destruct Hl as (H5 & H6 & H7 & H8). split_and!; try done. cbn. rewrite /SetElector. cbn.
    by destruct (elector (el_state (rn_server (ld_runner l)))) eqn:E; cbn; rewrite ?E.
  - by apply terms_ok_booted.
  - apply electPrimaryOnce_state in Hel. apply (terms_ok_served s l); [by rewrite Hel|done].
  - apply (terms_ok_served _ l); [|done].
    by destruct (pushClusterState_effect dial order w (storePreviousPrimary NodeInfo_zero (rn_server (ld_runner l))))
      as (_ & _ & _ & _ & _ & _ & ->).
  - apply terms_ok_served; [apply checkNodeHealth_elector|done].
  - destruct Hl as (H5 & H6 & H7 & H8). apply NoDup_app in H6 as (N1 & N2 & N3). split_and!; try done; cbn.
    + apply NoDup_app. split_and!; [done| |by apply NoDup_filter].
      intros x Hx [_ Hf]%list_elem_of_filter. by apply (N2 x).
    + by apply NoDup_filter.
    + intros x. rewrite !elem_of_app !list_elem_of_filter. intros. apply H8. rewrite !elem_of_app. naive_solver.
  - apply terms_ok_served; [|done]. rewrite /RegisterNode. by repeat case_match.
  - apply terms_ok_served; [|done]. rewrite /Elector_SendHeartbeat. by repeat case_match.
  - apply terms_ok_served; [|done]. rewrite /DeregisterNode. case_match; [done|]. case_match; [done|].
    case_match; [|done]. destruct (clearPrimary dial order _) as [[s1 cb] ps] eqn:Ec. cbn.
    change s1 with (s1, cb, ps).1.1. by rewrite -Ec clearPrimary_elector.
Qed.

End runner.

Arguments Leadership : clear implicits.

(** ** On concrete runs *)

#[local] Existing Instance example_json.
#[local] Existing Instance example_codec.
#[local] Hint Extern 0 (ObjectStorage MemoryStore) =>
  exact (MemoryStore_ObjectStorage content_etag) : typeclass_instances.

Definition runner_n1 : Runner MemoryStore :=
  mkRunner "n1" "pn1"
    (NewElector (el_cfg (example_elector example_boot_store)) example_boot_store State_New
       (el_peers (example_elector example_boot_store))) false.


(** An election that returns after leadership was lost is still pushed: the
    deposed Elector names itself Primary and starts to act as one. *)
Lemma late_election_applied :
  let l := mkLeadership (mkRunner "n1" "pn1" (example_elector example_boot_store) true) 1 [] [1%nat] [1%nat]
             [(1%nat, mkNodeInfo "n1" 1 "pn1")] in
  let l' := lost l in
  let s := (pushClusterState (λ _, true) id (mkNodeInfo "n1" 1 "pn1")
              (storePreviousPrimary NodeInfo_zero (rn_server (ld_runner l')))).1.1 in
  elector (el_state s) = ElectorFollower ∧ primary (el_state s) = PrimaryStarting ∧
  NodeID (cs_Primary (cluster (el_state s))) = "n1"%string.
Proof. vm_compute. done. Qed.
