(* ===== verification/Startup.v ===== *)
(** * internal/cmd: the start of a node

    The run function of the root command up to the point where it serves: the
    flags, configuration, metrics, TLS, storage, database, the Primary server,
    the election, the connection to the Elector, bootstrap and the two gRPC
    listeners, in the order of the code, with the exit each failure takes.  The
    outcomes of the environment are the fields of [startup_env]; what becomes
    visible outside the process is the list of [event]s. *)

From stdpp Require Import strings.
From S2P Require Import Prelude NodeState Records LocalDB LocalConn Storage DataFile ExampleCodec Discovery DataStore.
From S2P Require Import Quorum ChunkBuffer Primary PeerClient NodeMap Elector Election Snapshot SnapshotTheorems.
From S2P Require Import Bootstrap BootstrapTheorems.
From S2P Require Import Heartbeat Follower FollowerControl Config ConfigTheorems Mtls TlsSetup CloudStorage Metrics.
From S2P Require Import Wiring ElectorRunner.

#[local] Open Scope string_scope.
#[local] Open Scope Z_scope.

(** ** Outcomes *)

Inductive stage :=
| AtValidate | AtLoad | AtHealthServer | AtTLSFiles | AtCertificates | AtClientTLS | AtPeerTLS
| AtPeerClientTLS | AtStorage | AtConnect | AtPrimary | AtRunner | AtRunnerStart | AtFirstElection
| AtResolveElector | AtConnectElector | AtBootstrap | AtPeerListener | AtClientListener.

(** [os.Exit(1)], at once or after a random wait. *)
Inductive exit_kind := ExitNow | ExitAfterJitter.

Inductive event := HealthServing | ElectionRunning | HeartbeatsSent | PeerServing | ClientServing.

#[export] Instance stage_eq_dec : EqDecision stage.
Proof. solve_decision. Defined.
#[export] Instance event_eq_dec : EqDecision event.
Proof. solve_decision. Defined.

Record flags := mkCmdFlags {
  fl_version : bool;
  fl_verbose : bool;
  fl_config : string;
  fl_validate : string;
}.

(** The variables set by the linker. *)
Record buildvars := mkBuildvars {
  bv_buildVersion : string;
  bv_buildDate : string;
  bv_commitHash : string;
  bv_commitDate : string;
  bv_commitBranch : string;
}.

Definition version_output (bv : buildvars) (verbose : bool) : list string :=
  ("netsy " ++ bv_buildVersion bv) ::
  if verbose then
    ["build version: " ++ bv_buildVersion bv; "build date: " ++ bv_buildDate bv;
     "commit hash: " ++ bv_commitHash bv; "commit date: " ++ bv_commitDate bv;
     "commit branch: " ++ bv_commitBranch bv]
  else [].

Section startup.
  Context {CertPool OS : Type} `{HS : ObjectStorage OS} `{HJ : JSON} `{HC : Codec}.

Record startup_env := mkStartupEnv {
  su_buildvars : buildvars;
  su_environ : string → option string;
  su_cwd : string;
  su_files : string → option ClusterConfig;
  su_startTime : Z;
  su_go : list string;
  su_process : list string;
  su_grpc : list string;
  su_healthListen : bool;
  su_x509 : x509_env (CertPool := CertPool);
  su_storage : StorageConfig → res new_err OS;
  su_conn : conn_env;
  su_sqlite : sqlite;
  su_latestRevision : bool;
  su_s3elector : S3lectConfig → bool;
  su_s3health : S3lectConfig → bool;
  su_startHealth : bool;
  su_startElector : bool;
  su_callback : bool;
  su_status : option LeadershipStatus;
  su_readRegistration : bool;
  su_dial : string → bool;
  su_boot : boot_env;
  su_snapshotTime : Z;
  su_peerListen : bool;
  su_clientListen : bool;
}.

(** What runs once the node serves. *)
Record ServingNode := mkServingNode {
  no_config : Config;
  no_files : TLSFiles (CertPool := CertPool);
  no_peerTLS : TLSConfig (CertPool := CertPool);
  no_clientTLS : TLSConfig (CertPool := CertPool);
  no_sqlite : sqlite;
  no_runner : Runner OS;
  no_loaded : LoadingNode OS;
  no_worker : Worker;
  no_process : Process;
}.

Inductive outcome :=
| PrintsVersion (lines : list string)
| ConfigIsValid
| Panics
| Exits (kind : exit_kind) (at_ : stage)
| Serves (n : ServingNode).

(** *** A small monad: events written so far, and an early end *)

Definition run (A : Type) : Type := list event → (outcome + A) * list event.
Definition ret {A} (a : A) : run A := λ tr, (inr a, tr).
Definition then_ {A B} (m : run A) (k : A → run B) : run B :=
  λ tr, match m tr with (inl o, tr) => (inl o, tr) | (inr a, tr) => k a tr end.
Definition stop {A} (o : outcome) : run A := λ tr, (inl o, tr).
Definition emit (e : event) : run unit := λ tr, (inr tt, (tr ++ [e])%list).
Definition need {E A} (kind : exit_kind) (at_ : stage) (r : res E A) : run A :=
  match r with Ok a => ret a | Err _ => stop (Exits kind at_) end.
Definition needs (kind : exit_kind) (at_ : stage) (b : bool) : run unit :=
  if b then ret tt else stop (Exits kind at_).

#[local] Notation "x ⇐ m ; k" := (then_ m (λ x, k)) (at level 100, m at next level, right associativity).
#[local] Notation "m ;; k" := (then_ m (λ _, k)) (at level 100, right associativity).

(** ** The stages *)

(** [NewServer] of the Primary; [latest] is whether the database answers. *)
Definition Primary_NewServer (latest : bool) (c : Config) (st : State) (db : database) (store : OS)
    : res unit (Server OS) :=
  if negb latest then Err tt
  else Ok (initializeRevisionCounter (mkServer st db store 0 NewReplicas ∅ (primary_buffer c) None [] [])).

Definition load_tls (env : startup_env) (c : Config)
    : run (TLSFiles (CertPool := CertPool) * TLSConfig (CertPool := CertPool) * TLSConfig (CertPool := CertPool)) :=
  f ⇐ need ExitAfterJitter AtTLSFiles (LoadTLSFiles (su_x509 env) c);
  need ExitAfterJitter AtCertificates
    (ValidateLocalNodeCertificates c (tc_Leaf (tf_ServerCert f)) (tc_Leaf (tf_ClientCert f)));;
  client ⇐ need ExitAfterJitter AtClientTLS (NewServerTLSConfig c (Some f) RoleClient);
  peer ⇐ need ExitAfterJitter AtPeerTLS (NewServerTLSConfig c (Some f) RolePeer);
  need ExitAfterJitter AtPeerClientTLS (NewClientTLSConfig (Some f));;
  ret (f, peer, client).

Definition open_database (env : startup_env) (c : Config) : run sqlite :=
  let '(r, s) := Connect (su_conn env) (nc_DataDir (c_Node c) ++ "/db.sqlite3") (su_sqlite env) in
  need ExitAfterJitter AtConnect r;; ret s.

(** The runner, started, with the outcome of its first election; s3lect may
    have called back before it reports. *)
Definition first_election (env : startup_env) (c : Config) (store : OS) (peers : PeerManager)
    : run (Runner OS * LeadershipStatus) :=
  r ⇐ need ExitAfterJitter AtRunner
        (Runner_New (xe_ReadFile (su_x509 env) (nc_TLSCACert (c_Node c))) (su_s3elector env) (su_s3health env)
           c State_New store (su_startTime env) peers);
  need ExitAfterJitter AtRunnerStart (Runner_Start (su_startHealth env) (su_startElector env));;
  emit ElectionRunning;;
  let r := if su_callback env then (onAcquireLeadership r).1.2 else r in
  match su_status env with
  | None => stop (Exits ExitAfterJitter AtFirstElection)
  | Some status =>
      let '(e, r, _) := WaitForFirstElection status r in
      status ⇐ need ExitAfterJitter AtFirstElection e; ret (r, status)
  end.

Definition connect_to_elector (env : startup_env) (c : Config) (leaderID : string) (store : OS) (m : PeerManager)
    : run PeerManager :=
  match connect_elector (su_readRegistration env) (su_dial env) c leaderID store m with
  | (Err (ResolveElector _), _) => stop (Exits ExitAfterJitter AtResolveElector)
  | (Err (ConnectElectorErr _), _) => stop (Exits ExitAfterJitter AtConnectElector)
  | (Ok _, m) => ret m
  end.

(** Bootstrap, then the Peer API, then the Client API, then the role hook. *)
Definition load_and_serve (env : startup_env) (c : Config) (st : State) (db : database) (store : OS)
    (m : PeerManager) : run (LoadingNode OS * Worker * Process) :=
  emit HeartbeatsSent;;
  let '(r, n) := Run (su_boot env) (bootstrap_config c) (mkLoadingNode store st db m false) in
  info ⇐ need ExitAfterJitter AtBootstrap r;
  let worker := InitializeWithSnapshot (su_snapshotTime env) info NewWorker in
  needs ExitNow AtPeerListener (su_peerListen env);;
  emit PeerServing;;
  needs ExitNow AtClientListener (su_clientListen env);;
  emit ClientServing;;
  let control := if ln_following n then (Start NewControl).2 else NewControl in
  ret (n, worker, wire (nc_NodeID (c_Node c)) (mkProcess (ln_state n) (ln_peers n) control false false false)).

(** ** The run function *)

Definition start (env : startup_env) (fl : flags) : run ServingNode :=
  let overrides := mkFlags (fl_config fl) (fl_verbose fl) in
  if fl_version fl then stop (PrintsVersion (version_output (su_buildvars env) (fl_verbose fl)))
  else if bool_decide (fl_validate fl ≠ "") then
    need ExitNow AtValidate (ValidateFile (su_environ env) (su_cwd env) (su_files env) (fl_validate fl) overrides);;
    stop ConfigIsValid
  else
    c ⇐ need ExitNow AtLoad (Load (su_environ env) (su_cwd env) (su_files env) overrides);
    match setup_metrics (su_go env) (su_process env) (su_grpc env) with
    | None => stop Panics
    | Some _ =>
        needs ExitNow AtHealthServer (su_healthListen env);;
        emit HealthServing;;
        tls ⇐ load_tls env c;
        store ⇐ need ExitNow AtStorage (su_storage env (cc_Storage (c_Cluster c)));
        s ⇐ open_database env c;
        let peers := NewPeerManager (nc_NodeID (c_Node c)) true in
        need ExitNow AtPrimary (Primary_NewServer (su_latestRevision env) c State_New (sq_data s) store);;
        rs ⇐ first_election env c store peers;
        m ⇐ connect_to_elector env c (ls_LeaderID rs.2) store peers;
        nwp ⇐ load_and_serve env c (el_state (rn_server rs.1)) (sq_data s) store m;
        ret (mkServingNode c tls.1.1 tls.1.2 tls.2 s rs.1 nwp.1.1 nwp.1.2 nwp.2)
    end.

Definition startup (env : startup_env) (fl : flags) : outcome * list event :=
  match start env fl [] with
  | (inl o, tr) => (o, tr)
  | (inr n, tr) => (Serves n, tr)
  end.

(** ** Theorems *)

Lemma then_inr {A B} (m : run A) (k : A → run B) tr b tr' :
  then_ m k tr = (inr b, tr') → ∃ a tr1, m tr = (inr a, tr1) ∧ k a tr1 = (inr b, tr').
Proof. rewrite /then_. destruct (m tr) as [[o|a] tr1]; [done|]. eauto. Qed.

Lemma need_inr {E A} kind at_ (r : res E A) tr a tr' : need kind at_ r tr = (inr a, tr') → r = Ok a ∧ tr' = tr.
Proof. destruct r; [|done]. by intros [= -> ->]. Qed.

Lemma needs_inr kind at_ b tr a tr' : needs kind at_ b tr = (inr a, tr') → b = true ∧ tr' = tr.
Proof. destruct b; [|done]. by intros [= _ ->]. Qed.

Lemma emit_inr e tr a tr' : emit e tr = (inr a, tr') → tr' = (tr ++ [e])%list.
Proof. by intros [= _ <-]. Qed.

(** No stage before the last serves clients, and an early end is never the
    serving one. *)
Definition quiet {A} (m : run A) : Prop :=
  ∀ tr, ClientServing ∉ tr →
    (ClientServing ∉ (m tr).2) ∧ ∀ o, (m tr).1 = inl o → ∀ n, o ≠ Serves n.

Definition guarded {A} (m : run A) : Prop :=
  ∀ tr, ClientServing ∉ tr → ∀ o, (m tr).1 = inl o → (ClientServing ∉ (m tr).2) ∧ ∀ n, o ≠ Serves n.

Lemma quiet_guarded {A} (m : run A) : quiet m → guarded m.
Proof. intros Hq tr Htr o Ho. split; [by apply Hq|by eapply Hq]. Qed.

Lemma quiet_ret {A} (a : A) : quiet (ret a).
Proof. intros tr Htr. by split. Qed.

Lemma quiet_stop {A} o : (∀ n, o ≠ Serves n) → quiet (stop (A := A) o).
Proof. intros Ho tr Htr. split; [done|]. by intros o' [= <-]. Qed.

Lemma quiet_need {E A} kind at_ (r : res E A) : quiet (need kind at_ r).
Proof. destruct r; [apply quiet_ret|by apply quiet_stop]. Qed.

Lemma quiet_needs kind at_ b : quiet (needs kind at_ b).
Proof. destruct b; [apply quiet_ret|by apply quiet_stop]. Qed.

Lemma quiet_emit e : e ≠ ClientServing → quiet (emit e).
Proof. intros He tr Htr. split; [|done]. cbn. rewrite elem_of_app list_elem_of_singleton. naive_solver. Qed.

Lemma quiet_then {A B} (m : run A) (k : A → run B) : quiet m → (∀ a, quiet (k a)) → quiet (then_ m k).
Proof.
  intros Hm Hk tr Htr. destruct (Hm tr Htr) as [H1 H2]. rewrite /then_.
  destruct (m tr) as [[o|a] tr1]; cbn [fst snd] in *; [|by apply Hk].
  split; [done|]. intros o' [= <-]. by apply H2.
Qed.

Lemma guarded_then {A B} (m : run A) (k : A → run B) : quiet m → (∀ a, guarded (k a)) → guarded (then_ m k).
Proof.
  intros Hm Hk tr Htr o. destruct (Hm tr Htr) as [H1 H2]. rewrite /then_.
  destruct (m tr) as [[o'|a] tr1]; cbn [fst snd] in *; [|by apply Hk].
  intros [= <-]. split; [done|]. by apply H2.
Qed.

Ltac quietly :=
  repeat first
    [ apply quiet_ret | apply quiet_need | apply quiet_needs | apply quiet_emit; discriminate
    | apply quiet_stop; discriminate | apply quiet_then; [|intros ?] | case_match ].

Lemma load_tls_quiet env c : quiet (load_tls env c).
Proof. rewrite /load_tls. quietly. Qed.
Lemma open_database_quiet env c : quiet (open_database env c).
Proof. rewrite /open_database. quietly. Qed.
Lemma first_election_quiet env c store peers : quiet (first_election env c store peers).
Proof. rewrite /first_election. quietly. Qed.
Lemma connect_to_elector_quiet env c leaderID store m : quiet (connect_to_elector env c leaderID store m).
Proof. rewrite /connect_to_elector. quietly. Qed.

Lemma load_and_serve_guarded env c st db store m : guarded (load_and_serve env c st db store m).
Proof.
  rewrite /load_and_serve. apply guarded_then; [quietly|intros _].
  destruct (Run _ _ _) as [r n]. do 4 (apply guarded_then; [quietly|intros ?]).
  by intros tr _ o.
Qed.

Lemma start_guarded env fl : guarded (start env fl).
Proof.
  rewrite /start. case_match; [apply quiet_guarded; quietly|].
  case_match; [apply quiet_guarded; quietly|]. apply guarded_then; [quietly|intros c].
  destruct (setup_metrics _ _ _); [|apply quiet_guarded; quietly].
  do 2 (apply guarded_then; [quietly|intros _]).
  apply guarded_then; [apply load_tls_quiet|intros tls]. apply guarded_then; [quietly|intros store].
  apply guarded_then; [apply open_database_quiet|intros s]. apply guarded_then; [quietly|intros _].
  apply guarded_then; [apply first_election_quiet|intros rs].
  apply guarded_then; [apply connect_to_elector_quiet|intros m].
  intros tr Htr o. rewrite /then_. pose proof (load_and_serve_guarded env c (el_state (rn_server rs.1)) (sq_data s) store m tr Htr) as Hg.
  destruct (load_and_serve _ _ _ _ _ _ tr) as [[o'|a] tr1]; [|done]. intros [= <-]. by apply Hg.
Qed.

(** *** What a serving node went through *)

Lemma load_tls_inr env c tr f peer client tr' :
  load_tls env c tr = (inr (f, peer, client), tr') →
  tr' = tr ∧ LoadTLSFiles (su_x509 env) c = Ok f ∧
  ValidateLocalNodeCertificates c (tc_Leaf (tf_ServerCert f)) (tc_Leaf (tf_ClientCert f)) = Ok tt ∧
  NewServerTLSConfig c (Some f) RoleClient = Ok client ∧ NewServerTLSConfig c (Some f) RolePeer = Ok peer.
Proof.
  rewrite /load_tls.
  intros (f' & t1 & [E1 ->]%need_inr & (u & t2 & [E2 ->]%need_inr & (cl & t3 & [E3 ->]%need_inr &
    (pe & t4 & [E4 ->]%need_inr & (pc & t5 & [_ ->]%need_inr & [= <- <- <- <-])%then_inr)%then_inr)%then_inr)%then_inr)%then_inr.
  destruct u. by split_and!.
Qed.

Lemma open_database_inr env c tr s tr' :
  open_database env c tr = (inr s, tr') → tr' = tr ∧ schema_ready s ∧ sq_data s = sq_data (su_sqlite env).
Proof.
  rewrite /open_database. destruct (Connect_spec (su_conn env) (nc_DataDir (c_Node c) ++ "/db.sqlite3") (su_sqlite env))
    as (D & _ & R & _). destruct (Connect _ _ _) as [r s1]. cbn [fst snd] in *.
  intros (u & t1 & [-> ->]%need_inr & [= <- <-])%then_inr. destruct u. split_and!; [done|by apply R|done].
Qed.

Lemma WaitForFirstElection_health (status : LeadershipStatus) (r : Runner OS) :
  health (el_state (rn_server (WaitForFirstElection status r).1.2)) = health (el_state (rn_server r)).
Proof.
  rewrite /WaitForFirstElection. case_match; [|done]. rewrite /onAcquireLeadership /SetElector.
  by repeat case_match; simplify_eq.
Qed.

Lemma onAcquireLeadership_health (r : Runner OS) :
  health (el_state (rn_server (onAcquireLeadership r).1.2)) = health (el_state (rn_server r)).
Proof. rewrite /onAcquireLeadership /SetElector. by repeat case_match; simplify_eq. Qed.

Lemma first_election_inr env c store peers tr r status tr' :
  first_election env c store peers tr = (inr (r, status), tr') →
  tr' = (tr ++ [ElectionRunning])%list ∧ su_status env = Some status ∧
  health (el_state (rn_server r)) = HealthLoading.
Proof.
  rewrite /first_election.
  intros (r0 & t1 & [E1 ->]%need_inr & (u & t2 & [_ ->]%need_inr & (v & t3 & ->%emit_inr & E4)%then_inr)%then_inr)%then_inr.
  assert (health (el_state (rn_server r0)) = HealthLoading) as H0.
  { revert E1. rewrite /Runner_New. repeat case_match; intros; simplify_eq; done. }
  set (r1 := if su_callback env then _ else r0) in E4.
  assert (health (el_state (rn_server r1)) = HealthLoading) as H1.
  { rewrite /r1. destruct (su_callback env); [|done]. by rewrite onAcquireLeadership_health. }
  destruct (su_status env) as [st|]; [|done].
  pose proof (WaitForFirstElection_health st r1) as H2. destruct (WaitForFirstElection st r1) as [[e r2] b] eqn:Ew.
  cbn [fst snd] in H2. apply then_inr in E4 as (st' & t5 & [-> ->]%need_inr & [= <- <- <-]).
  assert (st' = st) as ->.
  { revert Ew. rewrite /WaitForFirstElection. repeat case_match; intros; by simplify_eq. }
  split_and!; [done|done|congruence].
Qed.

Lemma connect_to_elector_inr env c leaderID store m tr m' tr' :
  connect_to_elector env c leaderID store m tr = (inr m', tr') → tr' = tr ∧ is_Some (ElectorClient m').
Proof.
  rewrite /connect_to_elector /connect_elector /ConnectElector /ret /stop. intros E.
  repeat (case_match; simplify_eq/=); split; try done; by eexists.
Qed.

Lemma load_and_serve_inr env c st db store m tr n w p tr' :
  load_and_serve env c st db store m tr = (inr (n, w, p), tr') →
  let out := Run (su_boot env) (bootstrap_config c) (mkLoadingNode store st db m false) in
  tr' = (tr ++ [HeartbeatsSent; PeerServing; ClientServing])%list ∧ n = out.2 ∧
  (∃ info, out.1 = Ok info ∧ w = InitializeWithSnapshot (su_snapshotTime env) info NewWorker) ∧
  p = wire (nc_NodeID (c_Node c))
        (mkProcess (ln_state n) (ln_peers n) (if ln_following n then (Start NewControl).2 else NewControl) false false false).
Proof.
  rewrite /load_and_serve. destruct (Run (su_boot env) (bootstrap_config c) _) as [r n0]. cbn [fst snd].
  intros (u1 & t1 & ->%emit_inr & E)%then_inr. revert E.
  intros (info & t2 & [-> ->]%need_inr & (u2 & t3 & [_ ->]%needs_inr & (u3 & t4 & ->%emit_inr &
    (u4 & t5 & [_ ->]%needs_inr & (u5 & t6 & ->%emit_inr & [= <- <- <- <-])%then_inr)%then_inr)%then_inr)%then_inr)%then_inr.
  rewrite -!app_assoc. split_and!; eauto.
Qed.

End startup.

(** ** A run *)

#[local] Existing Instance example_codec.
#[local] Existing Instance example_json.
#[local] Hint Extern 0 (ObjectStorage MemoryStore) =>
  exact (MemoryStore_ObjectStorage content_etag) : typeclass_instances.

Definition example_environ (key : string) : option string :=
  if bool_decide (key = "NETSY_CONFIG") then Some "/etc/netsy.jsonc"
  else if bool_decide (key = "NETSY_NODE_ID") then Some "n1"
  else if bool_decide (key = "NETSY_ADVERTISE_CLIENT") then Some "n1:2378"
  else if bool_decide (key = "NETSY_ADVERTISE_PEER") then Some "n1:2381"
  else if bool_decide (key = "NETSY_ADVERTISE_ELECTION") then Some "n1:8443"
  else if String.prefix "NETSY_TLS" key then Some "/tls/file"
  else None.

Definition example_startup (client_listen : bool) : startup_env :=
  mkStartupEnv (mkBuildvars "1.0" "" "" "" "") example_environ "/" (λ _, Some (example_cluster (-1) 2 1000000000 5000000000))
    7 ["go_goroutines"] ["process_cpu_seconds_total"] ["grpc_server_started_total"] true (node_x509 "n1")
    (λ _, Ok durable_store) (mkConnEnv true true true true true true true (λ _, true)) fresh_file true
    (λ _, true) (λ _, true) true true true (Some (mkLeadershipStatus true "n1" "n1:8443")) true (λ _, true)
    example_boot_env 9 true client_listen.

Definition no_flags : flags := mkCmdFlags false false "" "".

